(* ===== verification/_CoqProject ===== *)
-Q . S2P
Prelude.v
RbTree.v
RbShape.v
SplayTree.v
SplayShape.v
TreeDemo.v
CTypes.v
UvUnix.v
UvWin.v
UvTypes.v
UvLayout.v
CDecl.v
UvDecls.v
UvEnums.v
UvUnixSys.v
UvWinSys.v
UvCalls.v
UvStdint.v
RbInsert.v
RbRemove.v
RbSearch.v
RbIter.v
Splay.v
Endian.v
CString.v
Strerror.v
Msg.v
MsgReader.v
Uri.v
AppData.v
World.v
Watcher.v
Demo.v
Backend.v
BackendUv.v
Conn.v
Frame.v
Recv.v
Send.v
Tools.v
Socket.v
SocketUv.v
Owner.v
Sc.v
Dial.v
Lifecycle.v
System.v
Safety.v
SafeApi.v
TestApp.v
SafeRun.v
TestServer.v
TestRecv.v
TestClient.v
TestEcho.v
EchoSafe.v
ServerSafe.v
ClientSafe.v
HelloSafe.v
TestRuns.v
