(* ===== verification/Prelude.v ===== *)
(** * A verification library for Short-circuit

    Short-circuit (src/src, src/include/sc) is a message-oriented socket library
    in C over libuv.  A program creates sockets, connects or binds them by URI
    ("tcp://127.0.0.1:8765", "pipe:///tmp/sock"), and is called back when
    connections and messages arrive; a message is a 32-bit size in network
    order followed by that many bytes.  The repository also holds the programs
    the library is tested with (src/test) and two record tools
    (src/test/tools).  This development models all of that C code and proves
    what makes it correct, and, where it is not, what it does instead, and with
    it what comes with the repository in the headers of libuv (src/libs): the
    balanced trees of uv/tree.h, and the structures, declarations and constants
    of all platforms.

    ** How the program hangs together, and where each part is modelled

    - Endian: test/tools/endian.h, and the byte-order functions the library
      takes from c-toolbelt, as the class [Endian] whose laws endian.h meets.
    - CString: strlen, strtol, strchr and the tokenizer ctb_strtok_s (class
      [CtbStr]) on C strings, which are bytes up to a null.
    - Strerror: the error codes of include/sc/errcode.h and of libuv's
      uv/errno.h, the texts of uv.h, and buv_strerror of backend_uv.c.
    - Msg: struct sc_msg, its size field and its memory (src/msg.c).
    - MsgReader: the cursor over a message being received (src/msg_reader.c).
    - Uri: the parser, its validators and accessors (src/uri.c).
    - AppData: the structures of the test programs.
    - World: the state of a running program (the heaps of messages, URIs,
      sockets and backend sockets, the global pointers, the calls made to
      libuv, the callbacks made, standard error), the surroundings (class
      [Env]: byte order, host, malloc, the results of libuv) and the program
      (class [App]: its callbacks); allocation (src/msg.c) and src/warn.c.
    - Watcher: the table of callbacks of a socket (src/watcher.c).
    - Backend, BackendUv: the table of operations a backend offers
      (src/backend.c) and its only implementation (src/backend_uv.c), one
      definition per function, the callbacks it gives to libuv included.
    - Socket, Sc: the public operations (src/socket.c), written over an
      arbitrary backend as the source does, and src/sc.c.  The class
      [BackendFrame] says what a backend may not touch; SocketUv shows that
      the libuv backend keeps to it.
    - Frame: the specification of the wire format and of receiving: [encode],
      and an automaton over the reads of a stream.
    - Recv, Send, Conn, Dial, Lifecycle, Owner, System, Safety, SafeApi: the
      theorems about the library, see below.
    - Tools: genrec.c and disrec.c, from arguments and input to output.
    - TestApp, TestServer, TestRecv, TestClient, TestEcho: the test programs
      (server.c, client.c, echo_server.c, send_hello.c, fatal.h) as instances
      of [App].
    - SafeRun, EchoSafe, ServerSafe, ClientSafe, HelloSafe: the theorems about
      whole runs of these programs, from the start of main to its end.
    - TestRuns: the integration tests (the scripts of test/), which connect
      these programs and the record tools with each other.
    - RbTree, RbInsert, RbRemove, RbSearch, RbIter: the red-black half of
      uv/tree.h, every macro and every function RB_GENERATE makes, over a heap
      of nodes with links; SplayTree, Splay: the splay half.  RbShape and
      SplayShape hold what the proofs share: abstract trees and trees with a
      hole, and what it means for the heap to hold one ([own], [holds], [rep];
      [sown], [splaying], [srep]).  Keys are the user's, through a comparison
      that the class [KeyOrder] describes.
    - CTypes: the object types of C and their layout: sizes, alignments,
      offsets of members, over an ABI (class [Abi]).  UvUnix, UvWin, UvTypes:
      the structures of uv.h with the private members that uv/unix.h and the
      header of each system, or uv/win.h, give them; a [platform] chooses.
      UvUnixSys, UvWinSys: the small types beside these (primitives of
      threads, directory entries, Winsock).  UvLayout: struct socket_uv of
      src/backend_uv.c as an object, and the casts between all of these.
    - CDecl: types as declarations name them, the expressions that occur as
      arguments of calls, and a checker of calls.  UvDecls: every typedef,
      callback type and function that uv.h declares.  UvEnums: its
      enumerations, constants, version and open flags.  UvCalls: every call
      that backend_uv.c and the test programs make of libuv.
    - UvStdint: uv/stdint-msvc2008.h, the <stdint.h> of compilers that have
      none, over what the compiler documents (class [Msvc]).
    - Demo, TreeDemo: concrete instances of the classes and small trees, for
      the witnesses.

    A function of the source is a definition of the same name (with a prefix
    where two programs share one), a computation
    on the state that may end in a [fault]: null dereference, access out of
    bounds, use after free, use of an uninitialised value, a failed assert, or
    exit with a message.  Faults are values, so that their absence is proved
    and never assumed.  A pointer is an address in the heap of its type, and a
    null pointer is [None]; structures change in place through their address,
    so that aliasing is that of the source.  [unsigned] is 32 bits wide.

    ** What is shown

    - Messages: sizes survive both byte orders; what buv_send gives to libuv
      is the encoding of the message; alloc_wrap and read_wrap refine the
      framing automaton for every cutting of the stream into reads, and give
      the application each message once, in order, with its bytes, when size
      fields come whole; the two ends compose to a round trip.  Outside of
      these bounds the code misbehaves, and the theorems say how: a cut size
      field is misread, a size above libuv's suggestion makes libuv write out
      of bounds.
    - URIs: the parser agrees with a grammar on every string, error codes and
      the one crash included; what it accepts, the accessors give back.
    - Sockets: connecting and binding, from the string to the calls of libuv;
      accepting; the ownership of URIs as an invariant of every reachable
      state (System: steps are public operations and events of libuv, in any
      order), and that closing and deleting frees each exactly once; what a
      session leaves behind, whatever fails in it; and the leaks there are.
    - Memory safety: a program that keeps to the rules of SafeApi ([legal]:
      live sockets, callbacks that are set, URIs the parser survives, messages
      that fit, memory for a message that arrives) never makes the library
      fault, in any order of its calls and of libuv's callbacks; it may end
      itself by exit.  What libuv is relied on to do is [legal_event]: its
      callbacks are about handles that are there, it reads only streams it was
      asked to, and reports bytes it has put where it was told.  The library
      promises in return ([event_ok]) that the program's callbacks are given
      live sockets and complete messages; a program with an invariant of its
      own is an instance of [AppSafe].  What breaking the rules on URIs and on
      message sizes leads to is shown above; without memory for a message that
      arrives alloc_wrap dereferences a null pointer.  Calls of libuv are
      recorded, and not checked: a handle may be closed that no call has
      initialised ([Lifecycle.close_uninitialised_handle]).
    - Whole programs: each test program is such an instance, and its main, with
      any events in any order in the place of the event loop, makes no memory
      error, fails no assertion, and gives back its sockets, URIs and
      structures (EchoSafe, ServerSafe, ClientSafe, HelloSafe).  Memory may run out where
      the program looks at what it is given.
    - Errors: codes are distinct on every host, texts are the documented ones.
    - Programs: what the server and the echo server print is determined by
      the bytes that arrive; the server's shutdown closes each handle once;
      the client sends its file line by line; the record tools print and read
      records, with the inputs they refuse.
    - The integration tests, for all records and all files of lines, and not
      only those of the scripts (TestRuns): what sendrec sends comes out of the
      servers line by line however the stream is cut, and what the client and
      the greeter write is what disrec prints.

    - Trees: inserting and removing keep a red-black tree in the heap one (its
      links, parents and colors), put the element in its place in the order,
      or take out just that element, and write no memory outside of the tree;
      searching agrees with a search of the list of elements; the neighbours
      are those of the list, and the loops visit each element once, also when
      their body removes it.  The operations of splay trees do the same to the
      list of elements, whatever shape they give the tree; splaying divides it
      at the key.  The mirrored halves of the code are shown equal, by
      computation, to one definition with a direction, and proved once.
    - Structures: on every platform and ABI a pointer to a handle, stream or
      request of libuv can be used as one to its base (members of members
      included), and what backend_uv.c stores through one member of its union
      of streams is what it reads through the other or through a base; on
      x86-64 Linux the sizes are the ones libuv has there.
    - Calls: every call of libuv in src/ has the arguments that uv.h declares,
      and whatever they are cast to, its arguments point to objects that the
      layouts bear out, on every platform and ABI (UvCalls).  The table of
      the checker, which structure may be used as which, is not trusted: each
      entry is proved from the layouts.
    - Constants: enumerators are distinct, and so are the bits of flags; an
      open flag has a value on both families of platforms; the limits of
      stdint-msvc2008.h are those of its types, for every compiler it is for.

    ** Bounds and fuel

    The source has no recursion but through callbacks.  A loop of tree.h is a
    [loop] with fuel, and a [loop] that runs out of it ends in [OutOfFuel],
    which is not a behaviour of the C code: the theorems about trees say how
    many turns are enough, and so that the loops end.  In a red-black tree of
    n elements these are 2 log2 (n+1) + 1 ([RbShape.redblack_height], the
    bound the comment in tree.h claims), in a splay tree n + 1, and for the
    loops over all elements n + 1.  Loops over strings are
    structural.  [print_dec_fuel] prints a 32-bit number: 9 digits of fuel
    after the first are enough for 10 digits (4 for a 16-bit port).  The loop
    of disrec has the length of its input plus one as fuel, each turn consuming
    at least the four bytes of a size; [Tools.disrec_terminates] shows that it
    never runs out.  [server_app n] unfolds [n] levels of callbacks made from
    inside callbacks: accepting calls on_accept from on_connection, which is
    the only nesting the code has, so that two levels are enough.

    ** What is not modelled

    libuv, malloc, the values of <errno.h> and c-toolbelt are parameters with
    the properties they document; what libuv's event loop does is a sequence of
    the events it documents.  A pointer's numeric value, the padding of
    structures and reads of freed memory that happen to work are not part of
    the model: they are faults.  In the trees the hook RB_AUGMENT is the
    default one, which does nothing, and the body of a loop is given the
    element and a value it threads, not the loop's own variables.  The
    layout of structures and the state of sockets are two models of the same
    objects: the first says where members lie, the second what they hold.  Of
    the scripts only the data that the programs pass on is modelled, and of the
    build files nothing; of the headers of libuv the prototypes are (what the
    functions do is not in the repository), and the attributes of linkage,
    include guards and the identifiers of Winsock's extensions are not.  That a
    run of the event loop ends is up to libuv and the peer, and no part of it.

    ** This file

    What every component shares: the outcome of a C computation, state-passing
    computations and what they may do to the state, 32-bit unsigned arithmetic
    and bytes. *)

From stdpp Require Export base tactics option list gmap strings sorting.
From Stdlib Require Export ZArith Lia.
From Stdlib Require Export Strings.Byte.

Declare Scope sc_scope.
Delimit Scope sc_scope with sc.
#[global] Open Scope Z_scope.

(** ** Outcomes

    A C computation completes, or does something the language gives no meaning
    to, or ends the program.  All are values, so that the absence of faults is
    something to prove. *)
Inductive fault :=
  | NullDeref       (** a null pointer is dereferenced or called *)
  | OutOfBounds     (** an access outside of an object *)
  | UseAfterFree    (** an access to, or a free of, a dead object *)
  | Indeterminate   (** an uninitialised value is used *)
  | AssertFailed    (** an [assert] that does not hold *)
  | Fatal (msg : string)   (** the program gives up with a message: [exit(1)] *)
  | OutOfFuel.      (** not of C: a [loop] of the model was given too little fuel *)

Inductive outcome (A : Type) :=
  | Ok (a : A)
  | Fault (f : fault).
Arguments Ok {A} a.
Arguments Fault {A} f.

#[export] Instance fault_eq_dec : EqDecision fault.
Proof. solve_decision. Defined.
#[export] Instance outcome_eq_dec `{EqDecision A} : EqDecision (outcome A).
Proof. solve_decision. Defined.

#[export] Instance outcome_ret : MRet outcome := λ A a, Ok a.
#[export] Instance outcome_bind : MBind outcome := λ A B k m,
  match m with Ok a => k a | Fault f => Fault f end.

(** ** Stateful computations: explicit state passing over outcomes *)
Definition st (W A : Type) : Type := W → outcome (A * W).

#[export] Instance st_ret {W} : MRet (st W) := λ A a w, Ok (a, w).
#[export] Instance st_bind {W} : MBind (st W) := λ A B k m w,
  match m w with Ok (a, w') => k a w' | Fault f => Fault f end.

Definition fail_with {W A} (f : fault) : st W A := λ _, Fault f.
Definition gets {W A} (g : W → A) : st W A := λ w, Ok (g w, w).
Definition modify {W} (g : W → W) : st W unit := λ w, Ok (tt, g w).
Definition lift {W A} (o : outcome A) : st W A := λ w,
  match o with Ok a => Ok (a, w) | Fault f => Fault f end.
(** A value that must be there; [f] is what its absence means. *)
Definition demand {W A} (f : fault) (o : option A) : st W A :=
  match o with Some a => mret a | None => fail_with f end.

(** A [for(;;)] over a state [S] of local variables: the body goes on with a
    new one or leaves the loop with a result. *)
Fixpoint loop {W S A} (fuel : nat) (body : S → st W (S + A)) (s : S) : st W A :=
  match fuel with
  | O => fail_with OutOfFuel
  | Datatypes.S n =>
      r ← body s;
      match r with inl s' => loop n body s' | inr a => mret a end
  end.

Section st_lemmas.
Context {W : Type}.

Lemma st_bind_ok {A B} (m : st W A) (k : A → st W B) w a w' :
  m w = Ok (a, w') → mbind k m w = k a w'.
Proof. intros H. unfold mbind, st_bind. by rewrite H. Qed.

Lemma st_bind_fault {A B} (m : st W A) (k : A → st W B) w f :
  m w = Fault f → mbind k m w = Fault f.
Proof. intros H. unfold mbind, st_bind. by rewrite H. Qed.

Lemma st_bind_inv {A B} (m : st W A) (k : A → st W B) w r :
  mbind k m w = Ok r → ∃ a w', m w = Ok (a, w') ∧ k a w' = Ok r.
Proof.
  unfold mbind, st_bind. destruct (m w) as [[a w']|f]; [|done]. eauto.
Qed.

Lemma demand_some {A} f (a : A) (w : W) : demand f (Some a) w = Ok (a, w).
Proof. done. Qed.
Lemma gets_ok {A} (g : W → A) w : gets g w = Ok (g w, w).
Proof. done. Qed.
Lemma modify_ok (g : W → W) w : modify g w = Ok (tt, g w).
Proof. done. Qed.
Lemma ret_ok {A} (a : A) (w : W) : (mret a : st W A) w = Ok (a, w).
Proof. done. Qed.

(** One turn of a loop. *)
Lemma loop_next {S A} n (body : S → st W (S + A)) s s' w w' :
  body s w = Ok (inl s', w') → loop (Datatypes.S n) body s w = loop n body s' w'.
Proof. intros E. cbn [loop]. by rewrite (st_bind_ok _ _ _ _ _ E). Qed.
Lemma loop_last {S A} n (body : S → st W (S + A)) s a w w' :
  body s w = Ok (inr a, w') → loop (Datatypes.S n) body s w = Ok (a, w').
Proof. intros E. cbn [loop]. by rewrite (st_bind_ok _ _ _ _ _ E). Qed.
End st_lemmas.

(** Reduce the binds and returns of [outcome]. *)
Ltac osimpl := cbn [mbind outcome_bind mret outcome_ret].

(** Run the head of a bind whose result is known, leaving the rest. *)
Ltac st_step :=
  lazymatch goal with
  | |- context [mbind ?k ?m ?w] =>
      erewrite (st_bind_ok m k w) by
        (first [eassumption | reflexivity | solve [eauto with sc]])
  end.
Ltac st_steps := repeat st_step.

(** Close a decidable goal by running its decision procedure. *)
Ltac decide_by_run := apply (bool_decide_unpack _); vm_compute; exact I.

(** Decompose an equation saying that a sequence of steps completed. *)
Ltac st_inv H :=
  let a := fresh "a" in let w := fresh "w" in
  let H1 := fresh "Hst" in let H2 := fresh "Hst" in
  apply st_bind_inv in H as (a & w & H1 & H2).

(** [lia] with the division equations of the divisions by constants. *)
Ltac dlia := Z.to_euclidean_division_equations; lia.

(** ** What a computation may do to the state

    [moves R m]: a run of [m] that completes goes from a state to one related
    to it by [R].  Invariants, frames and logs are instances. *)
Definition moves {W A} (R : relation W) (m : st W A) : Prop :=
  ∀ w a w', m w = Ok (a, w') → R w w'.

Section moves.
Context {W : Type} (R : relation W).

Lemma moves_impl (R' : relation W) {A} (m : st W A) :
  (∀ w w', R w w' → R' w w') → moves R m → moves R' m.
Proof. unfold moves. eauto. Qed.

Lemma moves_modify g : (∀ w, R w (g w)) → moves R (modify g).
Proof. intros Hg w a w' [= <- <-]. apply Hg. Qed.
Lemma moves_fail {A} f : moves R (fail_with f : st W A).
Proof. by intros ???. Qed.

Context `{!PreOrder R}.

Lemma moves_ret {A} (a : A) : moves R (mret a).
Proof. by intros w a' w' [= <- <-]. Qed.
Lemma moves_gets {A} (g : W → A) : moves R (gets g).
Proof. by intros w a' w' [= <- <-]. Qed.
Lemma moves_lift {A} (o : outcome A) : moves R (lift o).
Proof. intros w a w' E. unfold lift in E. destruct o; by simplify_eq. Qed.
Lemma moves_demand {A} f (o : option A) : moves R (demand f o).
Proof. destruct o; [apply moves_ret|apply moves_fail]. Qed.

Lemma moves_bind {A B} (m : st W A) (k : A → st W B) :
  moves R m → (∀ a, moves R (k a)) → moves R (mbind k m).
Proof.
  intros Hm Hk w b w' E. apply st_bind_inv in E as (a & w1 & E1 & E2).
  etrans; [by eapply Hm|by eapply Hk].
Qed.
End moves.

Create HintDb moves.
#[export] Hint Resolve moves_ret moves_fail moves_gets moves_lift moves_demand
  moves_modify : moves.

(** Go through a computation bind by bind. *)
Ltac go_moves :=
  repeat first
    [ solve [eauto with moves typeclass_instances]
    | apply moves_bind; [apply _| |intros ?]
    | case_decide | case_match ].

(** ** Machine integers: [unsigned] is 32 bits wide *)
Definition u32 (z : Z) : Z := z mod 2 ^ 32.

Lemma u32_range z : 0 ≤ u32 z < 2 ^ 32.
Proof. unfold u32. apply Z.mod_pos_bound. lia. Qed.
Lemma u32_small z : 0 ≤ z < 2 ^ 32 → u32 z = z.
Proof. apply Z.mod_small. Qed.
Lemma u32_idem z : u32 (u32 z) = u32 z.
Proof. apply u32_small, u32_range. Qed.

(** ** Bytes *)
Definition b2z (b : byte) : Z := Z.of_N (Byte.to_N b).
Definition z2b (z : Z) : byte :=
  default x00 (Byte.of_N (Z.to_N (z mod 256))).

#[export] Instance byte_eq_dec : EqDecision byte := Byte.byte_eq_dec.

Lemma b2z_range b : 0 ≤ b2z b < 256.
Proof. unfold b2z. pose proof (Byte.to_N_bounded b). lia. Qed.

Lemma z2b_b2z b : z2b (b2z b) = b.
Proof.
  unfold z2b. rewrite Z.mod_small by apply b2z_range.
  unfold b2z. by rewrite N2Z.id, Byte.of_to_N.
Qed.

Lemma b2z_z2b z : b2z (z2b z) = z mod 256.
Proof.
  unfold z2b, b2z.
  assert (0 ≤ z mod 256 < 256) by (apply Z.mod_pos_bound; lia).
  destruct (Byte.of_N (Z.to_N (z mod 256))) as [b|] eqn:E; simpl.
  - apply Byte.to_of_N in E. rewrite E. lia.
  - apply Byte.of_N_None_iff in E. lia.
Qed.

Lemma b2z_inj b1 b2 : b2z b1 = b2z b2 → b1 = b2.
Proof. intros H. by rewrite <-(z2b_b2z b1), H, z2b_b2z. Qed.

Lemma z2b_mod z z' : z mod 256 = z' mod 256 → z2b z = z2b z'.
Proof. intros H. apply b2z_inj. by rewrite !b2z_z2b. Qed.

Create HintDb sc.
Create Rewrite HintDb sc_rw.
#[export] Hint Rewrite u32_small using lia : sc_rw.
#[export] Hint Rewrite z2b_b2z b2z_z2b u32_idem : sc_rw.
#[export] Hint Resolve u32_range b2z_range : sc.
