(* ===== verification/RbTree.v ===== *)
(** * Red-black trees: the nodes and the macros (uv/tree.h of libuv's headers)

    tree.h is a file of macros that put tree links into structures of the
    user.  An element is its address; its links, the [field] of the macros,
    are a record in a heap, and the head holds the root.  Keys belong to the
    elements, so [cmp] is a function of two addresses. *)

From S2P Require Import Prelude.

(** [RB_BLACK] and [RB_RED] *)
Inductive color := RB_BLACK | RB_RED.

#[export] Instance color_eq_dec : EqDecision color.
Proof. solve_decision. Defined.

(** [RB_ENTRY]; a pointer is [None] or the address of an element. *)
Record rb_node := RbNode {
  rbe_left : option nat;
  rbe_right : option nat;
  rbe_parent : option nat;
  rbe_color : color
}.

Definition with_rbe_left v n := RbNode v (rbe_right n) (rbe_parent n) (rbe_color n).
Definition with_rbe_right v n := RbNode (rbe_left n) v (rbe_parent n) (rbe_color n).
Definition with_rbe_parent v n := RbNode (rbe_left n) (rbe_right n) v (rbe_color n).
Definition with_rbe_color v n := RbNode (rbe_left n) (rbe_right n) (rbe_parent n) v.

(** [RB_HEAD], with the elements there are in memory. *)
Record rb_state := RbState {
  rbh_root : option nat;
  rb_nodes : gmap nat rb_node
}.

Definition set_nodes h (w : rb_state) := RbState (rbh_root w) h.
Definition with_root r (w : rb_state) := RbState r (rb_nodes w).

Abbreviation RB := (st rb_state).

(** Through a pointer. *)
Definition rb_get (p : option nat) : RB rb_node :=
  a ← demand NullDeref p;
  h ← gets rb_nodes;
  demand UseAfterFree (h !! a).
Definition rb_put (p : option nat) (n : rb_node) : RB unit :=
  a ← demand NullDeref p;
  modify (λ w, set_nodes (<[a := n]> (rb_nodes w)) w).
Definition rd {A} (f : rb_node → A) (p : option nat) : RB A := n ← rb_get p; mret (f n).
Definition wr (f : rb_node → rb_node) (p : option nat) : RB unit :=
  n ← rb_get p; rb_put p (f n).

(** The accessors, for reading and for assignment. *)
Definition RB_LEFT := rd rbe_left.
Definition RB_RIGHT := rd rbe_right.
Definition RB_PARENT := rd rbe_parent.
Definition RB_COLOR := rd rbe_color.
Definition set_RB_LEFT p v := wr (with_rbe_left v) p.
Definition set_RB_RIGHT p v := wr (with_rbe_right v) p.
Definition set_RB_PARENT p v := wr (with_rbe_parent v) p.
Definition set_RB_COLOR p v := wr (with_rbe_color v) p.
Definition RB_ROOT : RB (option nat) := gets rbh_root.
Definition set_RB_ROOT (p : option nat) : RB unit := modify (with_root p).
Definition RB_EMPTY : RB bool := r ← RB_ROOT; mret (bool_decide (r = None)).
Definition RB_INIT : RB unit := set_RB_ROOT None.

Definition RB_SET (elm parent : option nat) : RB unit :=
  set_RB_PARENT elm parent;;
  set_RB_RIGHT elm None;;
  set_RB_LEFT elm None;;
  set_RB_COLOR elm RB_RED.

Definition RB_SET_BLACKRED (black red : option nat) : RB unit :=
  set_RB_COLOR black RB_BLACK;;
  set_RB_COLOR red RB_RED.

(** The hook for users that keep data about subtrees; by default nothing. *)
Definition RB_AUGMENT (x : option nat) : RB unit := mret tt.

Definition is_null (p : option nat) : bool := bool_decide (p = None).

(** [if (p && RB_COLOR(p) == RB_RED)] *)
Definition is_red (p : option nat) : RB bool :=
  if is_null p then mret false else c ← RB_COLOR p; mret (bool_decide (c = RB_RED)).
(** [p == NULL || RB_COLOR(p) == RB_BLACK] *)
Definition is_black (p : option nat) : RB bool :=
  if is_null p then mret true else c ← RB_COLOR p; mret (bool_decide (c = RB_BLACK)).

(** The rotations leave the node that came up in [tmp]. *)
Definition RB_ROTATE_LEFT (elm : option nat) : RB (option nat) :=
  tmp ← RB_RIGHT elm;
  l ← RB_LEFT tmp;
  set_RB_RIGHT elm l;;
  (if is_null l then mret tt else
   l' ← RB_LEFT tmp; set_RB_PARENT l' elm);;
  RB_AUGMENT elm;;
  p ← RB_PARENT elm;
  set_RB_PARENT tmp p;;
  (if is_null p then set_RB_ROOT tmp else
   p1 ← RB_PARENT elm;
   pl ← RB_LEFT p1;
   p2 ← RB_PARENT elm;
   if bool_decide (elm = pl) then set_RB_LEFT p2 tmp else set_RB_RIGHT p2 tmp);;
  set_RB_LEFT tmp elm;;
  set_RB_PARENT elm tmp;;
  RB_AUGMENT tmp;;
  q ← RB_PARENT tmp;
  (if is_null q then mret tt else q' ← RB_PARENT tmp; RB_AUGMENT q');;
  mret tmp.

Definition RB_ROTATE_RIGHT (elm : option nat) : RB (option nat) :=
  tmp ← RB_LEFT elm;
  r ← RB_RIGHT tmp;
  set_RB_LEFT elm r;;
  (if is_null r then mret tt else
   r' ← RB_RIGHT tmp; set_RB_PARENT r' elm);;
  RB_AUGMENT elm;;
  p ← RB_PARENT elm;
  set_RB_PARENT tmp p;;
  (if is_null p then set_RB_ROOT tmp else
   p1 ← RB_PARENT elm;
   pl ← RB_LEFT p1;
   p2 ← RB_PARENT elm;
   if bool_decide (elm = pl) then set_RB_LEFT p2 tmp else set_RB_RIGHT p2 tmp);;
  set_RB_RIGHT tmp elm;;
  set_RB_PARENT elm tmp;;
  RB_AUGMENT tmp;;
  q ← RB_PARENT tmp;
  (if is_null q then mret tt else q' ← RB_PARENT tmp; RB_AUGMENT q');;
  mret tmp.

(** ** Accesses *)
Lemma rb_get_ok a n w : rb_nodes w !! a = Some n → rb_get (Some a) w = Ok (n, w).
Proof. intros E. unfold rb_get, mbind, st_bind, gets. cbn. by rewrite E. Qed.

Lemma rd_ok {A} (f : rb_node → A) a n w :
  rb_nodes w !! a = Some n → rd f (Some a) w = Ok (f n, w).
Proof. intros E. unfold rd. by rewrite (st_bind_ok _ _ _ _ _ (rb_get_ok _ _ _ E)). Qed.

Lemma wr_ok f a n w :
  rb_nodes w !! a = Some n →
  wr f (Some a) w = Ok (tt, set_nodes (<[a := f n]> (rb_nodes w)) w).
Proof. intros E. unfold wr. by rewrite (st_bind_ok _ _ _ _ _ (rb_get_ok _ _ _ E)). Qed.

Lemma is_null_some a : is_null (Some a) = false.
Proof. done. Qed.
Lemma is_null_none : is_null None = true.
Proof. done. Qed.

Lemma is_red_node a n w :
  rb_nodes w !! a = Some n → is_red (Some a) w = Ok (bool_decide (rbe_color n = RB_RED), w).
Proof.
  intros E. unfold is_red, RB_COLOR. rewrite is_null_some.
  by rewrite (st_bind_ok _ _ _ _ _ (rd_ok _ a n w E)).
Qed.
