(* ===== verification/RbShape.v ===== *)
(** * Trees in memory

    The abstract trees and the trees with a hole that the loops of tree.h walk
    in; what it means for the heap to hold one; and what the accessors and the
    rotations do to it.  Left and right are a direction, so that the mirrored
    halves of the code are proved once. *)

From S2P Require Import Prelude RbTree.

Inductive dir := DL | DR.
Definition flip (d : dir) : dir := match d with DL => DR | DR => DL end.
#[export] Instance dir_eq_dec : EqDecision dir.
Proof. solve_decision. Defined.
Lemma flip_or d d' : d = d' ∨ d = flip d'.
Proof. destruct d, d'; auto. Qed.

(** ** Trees *)
Inductive tree := Leaf | Node (c : color) (l : tree) (a : nat) (r : tree).

Definition root (t : tree) : option nat :=
  match t with Leaf => None | Node _ _ a _ => Some a end.
Fixpoint inorder (t : tree) : list nat :=
  match t with Leaf => [] | Node _ l a r => inorder l ++ a :: inorder r end.

(** The node [a] with the child [t] in direction [d] and [s] in the other. *)
Definition mk (d : dir) (c : color) (t : tree) (a : nat) (s : tree) : tree :=
  match d with DL => Node c t a s | DR => Node c s a t end.

(** The way from a hole to the root: the direction the hole is in, and the
    node with its other subtree. *)
Record frame := Frame { f_dir : dir; f_color : color; f_addr : nat; f_tree : tree }.
Abbreviation zipper := (list frame).

Fixpoint plug (k : zipper) (t : tree) : tree :=
  match k with
  | [] => t
  | Frame d c a s :: k => plug k (mk d c t a s)
  end.

(** The node above the hole. *)
Definition above (k : zipper) : option nat :=
  match k with [] => None | f :: _ => Some (f_addr f) end.

(** The elements before and after the hole, and all of them. *)
Fixpoint before (k : zipper) : list nat :=
  match k with
  | [] => []
  | Frame DL _ _ _ :: k => before k
  | Frame DR _ a s :: k => before k ++ inorder s ++ [a]
  end.
Fixpoint after (k : zipper) : list nat :=
  match k with
  | [] => []
  | Frame DL _ a s :: k => a :: inorder s ++ after k
  | Frame DR _ _ _ :: k => after k
  end.
Fixpoint around (k : zipper) : list nat :=
  match k with [] => [] | Frame _ _ a s :: k => a :: inorder s ++ around k end.

Lemma inorder_plug k t : inorder (plug k t) = before k ++ inorder t ++ after k.
Proof.
  revert t. induction k as [|[[] c a s] k IH]; intros t; cbn [plug before after].
  - by rewrite app_nil_r.
  - rewrite IH. cbn. by rewrite <-!app_assoc.
  - rewrite IH. cbn. by rewrite <-!app_assoc.
Qed.


Lemma plug_inorder k t t' : inorder t = inorder t' → inorder (plug k t) = inorder (plug k t').
Proof. intros E. by rewrite !inorder_plug, E. Qed.

Lemma plug_perm k t : inorder (plug k t) ≡ₚ inorder t ++ around k.
Proof.
  revert t. induction k as [|[[] c a s] k IH]; intros t; cbn [plug around].
  - by rewrite app_nil_r.
  - rewrite IH. cbn. by rewrite <-!app_assoc.
  - rewrite IH. cbn. rewrite (Permutation_app_comm (inorder s)). cbn.
    by rewrite <-Permutation_middle, <-app_assoc.
Qed.

Lemma root_plug k t : k ≠ [] → ∃ z, root (plug k t) = Some z ∧ z ∈ around k.
Proof.
  revert t. induction k as [|[d c a s] k IH]; intros t Hk; [done|]. cbn [plug around].
  destruct k as [|f k].
  - exists a. split; [by destruct d|]. set_solver.
  - destruct (IH (mk d c t a s)) as (z & Ez & Hz); [done|]. exists z. set_solver.
Qed.

Lemma inorder_mk d c t a s : inorder (mk d c t a s) ≡ₚ a :: inorder t ++ inorder s.
Proof.
  destruct d; cbn; rewrite <-Permutation_middle; [done|]. f_equiv. apply Permutation_app_comm.
Qed.

(** Where an element is in a list without repetitions. *)
Lemma nodup_pivot (a : nat) l1 l2 k1 k2 :
  NoDup (l1 ++ a :: l2) → k1 ++ a :: k2 = l1 ++ a :: l2 → k1 = l1 ∧ k2 = l2.
Proof.
  intros Hnd E. apply NoDup_app in Hnd as (_ & H1 & H2%NoDup_cons). destruct H2 as [H2 _].
  apply List.app_inj_pivot in E as [[[_ H]|[_ H]]|E]; [| |done]; rewrite <-list_elem_of_In in H.
  - done.
  - destruct (H1 a H). left.
Qed.

(** ** A tree in the heap *)
Abbreviation nodes := (gmap nat rb_node).

(** The links of a node, by direction. *)
Definition links (d : dir) (x y p : option nat) (c : color) : rb_node :=
  match d with DL => RbNode x y p c | DR => RbNode y x p c end.

Fixpoint own (h : nodes) (p : option nat) (t : tree) : Prop :=
  match t with
  | Leaf => True
  | Node c l a r =>
      h !! a = Some (RbNode (root l) (root r) p c) ∧ own h (Some a) l ∧ own h (Some a) r
  end.

(** The surroundings of a hole that holds the pointer [x]; [rt] is the head. *)
Fixpoint ownk (h : nodes) (rt : option nat) (k : zipper) (x : option nat) : Prop :=
  match k with
  | [] => rt = x
  | Frame d c a s :: k =>
      h !! a = Some (links d x (root s) (above k) c) ∧ own h (Some a) s ∧ ownk h rt k (Some a)
  end.

Lemma own_mk h p d c t a s :
  own h p (mk d c t a s) ↔
    h !! a = Some (links d (root t) (root s) p c) ∧ own h (Some a) t ∧ own h (Some a) s.
Proof. destruct d; cbn; tauto. Qed.

Lemma root_mk d c t a s : root (mk d c t a s) = Some a.
Proof. by destruct d. Qed.

(** The heaps agree on the elements [l]. *)
Definition agree {V} (l : list nat) (h h' : gmap nat V) : Prop := ∀ x, x ∈ l → h' !! x = h !! x.

Lemma own_agree h h' p t : agree (inorder t) h h' → own h p t → own h' p t.
Proof.
  revert p. induction t as [|c l IHl a r IHr]; intros p Ha; [done|]. cbn in *.
  intros (Hn & Hl & Hr). split_and!.
  - rewrite Ha; [done|set_solver].
  - apply IHl; [|done]. intros x Hx. apply Ha. set_solver.
  - apply IHr; [|done]. intros x Hx. apply Ha. set_solver.
Qed.

Lemma ownk_agree h h' rt k x : agree (around k) h h' → ownk h rt k x → ownk h' rt k x.
Proof.
  revert x. induction k as [|[d c a s] k IH]; intros x Ha; [done|]. cbn in *.
  intros (Hn & Hs & Hk). split_and!.
  - rewrite Ha; [done|set_solver].
  - apply (own_agree h); [|done]. intros y Hy. apply Ha. set_solver.
  - apply IH; [|done]. intros y Hy. apply Ha. set_solver.
Qed.

Lemma agree_insert {V} l (h : gmap nat V) a n : a ∉ l → agree l h (<[a := n]> h).
Proof. intros Ha x Hx. rewrite lookup_insert_ne; [done|]. by intros ->. Qed.

Lemma own_insert h a n p t : a ∉ inorder t → own h p t → own (<[a := n]> h) p t.
Proof. intros Ha. apply own_agree. by apply agree_insert. Qed.
Lemma ownk_insert h a n rt k x : a ∉ around k → ownk h rt k x → ownk (<[a := n]> h) rt k x.
Proof. intros Ha. apply ownk_agree. by apply agree_insert. Qed.

(** Nothing but the elements [l] has changed. *)
Definition off {V} (l : list nat) (h h' : gmap nat V) : Prop := ∀ x, x ∉ l → h' !! x = h !! x.

Lemma off_agree {V} l l' (h h' : gmap nat V) : off l h h' → l' ## l → agree l' h h'.
Proof. intros Ho Hd x Hx. apply Ho. intros Hx'. by apply (Hd x). Qed.
Lemma off_trans {V} l (h h' h'' : gmap nat V) : off l h h' → off l h' h'' → off l h h''.
Proof. intros H1 H2 x Hx. by rewrite H2, H1. Qed.
Lemma off_sub {V} l l' (h h' : gmap nat V) : off l h h' → l ⊆ l' → off l' h h'.
Proof. intros H Hs x Hx. apply H. set_solver. Qed.
Lemma off_insert {V} l (h : gmap nat V) a n : a ∈ l → off l h (<[a := n]> h).
Proof. intros Ha x Hx. rewrite lookup_insert_ne; [done|]. by intros ->. Qed.
Lemma off_refl {V} l (h : gmap nat V) : off l h h.
Proof. done. Qed.

Lemma root_in t a : root t = Some a → a ∈ inorder t.
Proof. destruct t; [done|]. cbn. intros [= ->]. set_solver. Qed.

(** Concatenations to the right. *)
Ltac app_norm := cbn; repeat (rewrite <-app_assoc; cbn [app]).

(** Open up [NoDup] facts, and close what follows from them. *)
Ltac nodup_in H :=
  repeat first [rewrite NoDup_app in H | rewrite NoDup_cons in H
    | rewrite not_elem_of_app in H | rewrite not_elem_of_cons in H].
Ltac nd := set_solver.

(** ** Pieces of the operations *)

(** [if (t) RB_PARENT(t) = e] *)
Definition reparent (t e : option nat) : RB unit :=
  if is_null t then mret tt else set_RB_PARENT t e.

Lemma reparent_ok w p e t :
  own (rb_nodes w) p t → NoDup (inorder t) →
  ∃ h', reparent (root t) e w = Ok (tt, set_nodes h' w) ∧ own h' e t ∧
    off (inorder t) (rb_nodes w) h'.
Proof.
  destruct t as [|c l a r]; intros Ho Hnd.
  { exists (rb_nodes w). split_and!; [|done|done]. by destruct w. }
  destruct Ho as (Hn & Hl & Hr). cbn in Hnd. nodup_in Hnd.
  exists (<[a := RbNode (root l) (root r) e c]> (rb_nodes w)). split_and!.
  - unfold reparent, set_RB_PARENT. cbn [root]. rewrite is_null_some. by rewrite (wr_ok _ a _ w Hn).
  - split_and!; [apply lookup_insert_eq| |]; apply own_insert; [nd|done|nd|done].
  - apply off_insert. set_solver.
Qed.

(** The link above [elm], whose parent is [p], is made to point to [tmp]. *)
Definition relink (elm p tmp : option nat) : RB unit :=
  if is_null p then set_RB_ROOT tmp else
  p1 ← RB_PARENT elm;
  pl ← RB_LEFT p1;
  p2 ← RB_PARENT elm;
  if bool_decide (elm = pl) then set_RB_LEFT p2 tmp else set_RB_RIGHT p2 tmp.

Lemma relink_ok w k a n y :
  rb_nodes w !! a = Some n → rbe_parent n = above k →
  ownk (rb_nodes w) (rbh_root w) k (Some a) → a ∉ around k → NoDup (around k) →
  ∃ w', relink (Some a) (above k) y w = Ok (tt, w') ∧
    ownk (rb_nodes w') (rbh_root w') k y ∧ off (around k) (rb_nodes w) (rb_nodes w').
Proof.
  intros Hn Hp Hk Ha Hnd. destruct k as [|[d c p s] k].
  { exists (with_root y w). by split_and!. }
  destruct Hk as (Hf & Hs & Hk). cbn in Ha, Hnd. nodup_in Hnd. cbn [above f_addr] in *.
  set (n' := links d y (root s) (above k) c).
  exists (set_nodes (<[p := n']> (rb_nodes w)) w). split_and!.
  - unfold relink, RB_PARENT, RB_LEFT. rewrite is_null_some.
    rewrite (st_bind_ok _ _ _ _ _ (rd_ok _ a n w Hn)), Hp.
    rewrite (st_bind_ok _ _ _ _ _ (rd_ok _ p _ w Hf)).
    rewrite (st_bind_ok _ _ _ _ _ (rd_ok _ a n w Hn)), Hp.
    destruct d; cbn [links rbe_left].
    + rewrite bool_decide_eq_true_2 by done. unfold set_RB_LEFT. by rewrite (wr_ok _ p _ w Hf).
    + rewrite bool_decide_eq_false_2.
      * unfold set_RB_RIGHT. by rewrite (wr_ok _ p _ w Hf).
      * intros Hr%eq_sym%root_in. set_solver.
  - cbn [ownk rb_nodes set_nodes rbh_root]. split_and!; [apply lookup_insert_eq| |].
    + apply own_insert; [nd|done].
    + apply ownk_insert; [nd|done].
  - cbn. apply off_insert. set_solver.
Qed.

(** ** Rotations, in either direction *)
Definition rbe_child (d : dir) : rb_node → option nat :=
  match d with DL => rbe_left | DR => rbe_right end.
Definition with_rbe_child (d : dir) : option nat → rb_node → rb_node :=
  match d with DL => with_rbe_left | DR => with_rbe_right end.

(** [rotate DL] brings up the right child, [rotate DR] the left one. *)
Definition rotate (d : dir) (elm : option nat) : RB (option nat) :=
  tmp ← rd (rbe_child (flip d)) elm;
  x ← rd (rbe_child d) tmp;
  wr (with_rbe_child (flip d) x) elm;;
  (if is_null x then mret tt else
   x' ← rd (rbe_child d) tmp; set_RB_PARENT x' elm);;
  RB_AUGMENT elm;;
  p ← RB_PARENT elm;
  set_RB_PARENT tmp p;;
  relink elm p tmp;;
  wr (with_rbe_child d elm) tmp;;
  set_RB_PARENT elm tmp;;
  RB_AUGMENT tmp;;
  q ← RB_PARENT tmp;
  (if is_null q then mret tt else q' ← RB_PARENT tmp; RB_AUGMENT q');;
  mret tmp.

Lemma rotate_left : RB_ROTATE_LEFT = rotate DL.
Proof. reflexivity. Qed.
Lemma rotate_right : RB_ROTATE_RIGHT = rotate DR.
Proof. reflexivity. Qed.

(** The state holds the tree [t] in the hole of [k]; of the elements outside
    of [S] nothing has changed since [h0]. *)
Record holds (S : list nat) (h0 : nodes) (k : zipper) (t : tree) (w : rb_state) : Prop := {
  ho_tree : own (rb_nodes w) (above k) t;
  ho_zipper : ownk (rb_nodes w) (rbh_root w) k (root t);
  ho_nodup : NoDup (inorder (plug k t));
  ho_sub : inorder (plug k t) ⊆ S;
  ho_off : off S h0 (rb_nodes w)
}.

Section holds.
Context (S : list nat) (h0 : nodes).

(** The focus moves up and down. *)
Lemma holds_move d c a s k t w :
  holds S h0 k (mk d c t a s) w ↔ holds S h0 (Frame d c a s :: k) t w.
Proof.
  split; intros [Ht Hk Hnd Hsub Hoff]; (split; [..|done|done|done]).
  - by apply own_mk in Ht as (? & ? & ?).
  - apply own_mk in Ht as (? & ? & ?). rewrite root_mk in Hk. by split_and!.
  - destruct Hk as (? & ? & ?). by apply own_mk.
  - destruct Hk as (? & ? & ?). by rewrite root_mk.
Qed.

Lemma holds_down k d c a s t w :
  holds S h0 k (mk d c t a s) w → holds S h0 (Frame d c a s :: k) t w.
Proof. apply holds_move. Qed.
Lemma holds_up k d c a s t w :
  holds S h0 (Frame d c a s :: k) t w → holds S h0 k (mk d c t a s) w.
Proof. apply holds_move. Qed.

Lemma holds_plug k t w : holds S h0 k t w ↔ holds S h0 [] (plug k t) w.
Proof.
  revert t. induction k as [|[d c a s] k IH]; intros t; [done|].
  by rewrite <-holds_move, IH.
Qed.

(** What is distinct in the focus on a node. *)
Lemma holds_distinct k d c t a s w :
  holds S h0 k (mk d c t a s) w →
  NoDup (a :: inorder t ++ inorder s ++ around k).
Proof.
  intros [_ _ Hnd _ _]. rewrite plug_perm, inorder_mk in Hnd. cbn in Hnd.
  by rewrite <-app_assoc in Hnd.
Qed.

(** The elements of the focus are among [S]. *)
Lemma holds_in k d c t a s w : holds S h0 k (mk d c t a s) w → a ∈ S.
Proof.
  intros [_ _ _ Hsub _]. apply Hsub. rewrite plug_perm, inorder_mk. set_solver.
Qed.

Lemma inorder_rotated d c l a c2 m b r :
  inorder (mk d c2 (mk d c l a m) b r) = inorder (mk d c l a (mk d c2 m b r)).
Proof. destruct d; cbn; rewrite <-?app_assoc; done. Qed.

Lemma links_child d x y p c : rbe_child d (links d x y p c) = x.
Proof. by destruct d. Qed.
Lemma links_other d x y p c : rbe_child (flip d) (links d x y p c) = y.
Proof. by destruct d. Qed.
Lemma links_parent d x y p c : rbe_parent (links d x y p c) = p.
Proof. by destruct d. Qed.
Lemma links_color d x y p c : rbe_color (links d x y p c) = c.
Proof. by destruct d. Qed.
Lemma links_with_child d x y p c z : with_rbe_child d z (links d x y p c) = links d z y p c.
Proof. by destruct d. Qed.
Lemma links_with_other d x y p c z :
  with_rbe_child (flip d) z (links d x y p c) = links d x z p c.
Proof. by destruct d. Qed.
Lemma links_with_parent d x y p c z : with_rbe_parent z (links d x y p c) = links d x y z c.
Proof. by destruct d. Qed.
Lemma links_with_color d x y p c z : with_rbe_color z (links d x y p c) = links d x y p z.
Proof. by destruct d. Qed.

(** The heaps a rotation goes through: [a] gets the child of [b] ([moved] and
    [h2]), [b] the place of [a] ([lifted] and [w4]), and the two the link between
    them ([turned]). *)
Definition moved d k c l a m (w : rb_state) : nodes :=
  <[a := links d (root l) (root m) (above k) c]> (rb_nodes w).
Definition lifted d k c2 m b r (h2 : nodes) : nodes :=
  <[b := links d (root m) (root r) (above k) c2]> h2.
Definition turned d k c l a c2 m b r (w4 : rb_state) : nodes :=
  <[a := links d (root l) (root m) (Some b) c]>
    (<[b := links d (Some a) (root r) (above k) c2]> (rb_nodes w4)).

Record rotating d k c l a c2 m b r w (h2 : nodes) (w4 : rb_state) : Prop := {
  rt_b1 : moved d k c l a m w !! b = Some (links d (root m) (root r) (Some a) c2);
  rt_move : reparent (root m) (Some a) (set_nodes (moved d k c l a m w) w) = Ok (tt, set_nodes h2 w);
  rt_a2 : h2 !! a = Some (links d (root l) (root m) (above k) c);
  rt_b2 : h2 !! b = Some (links d (root m) (root r) (Some a) c2);
  rt_m2 : own h2 (Some a) m;
  rt_off2 : off (inorder m) (moved d k c l a m w) h2;
  rt_lift : relink (Some a) (above k) (Some b) (set_nodes (lifted d k c2 m b r h2) w) = Ok (tt, w4);
  rt_a4 : rb_nodes w4 !! a = Some (links d (root l) (root m) (above k) c);
  rt_b4 : rb_nodes w4 !! b = Some (links d (root m) (root r) (above k) c2);
  rt_k4 : ownk (rb_nodes w4) (rbh_root w4) k (Some b);
  rt_off4 : off (around k) (lifted d k c2 m b r h2) (rb_nodes w4)
}.

(** What is apart in the focus of a rotation. *)
Lemma rotating_distinct k d c l a c2 m b r w :
  holds S h0 k (mk d c l a (mk d c2 m b r)) w →
  NoDup (inorder m ++ inorder l ++ inorder r ++ around k) ∧ a ≠ b ∧
  a ∉ inorder m ++ inorder l ++ inorder r ++ around k ∧
  b ∉ inorder m ++ inorder l ++ inorder r ++ around k.
Proof.
  intros Hw%holds_distinct. rewrite inorder_mk in Hw.
  assert (Hp : inorder l ++ (b :: inorder m ++ inorder r) ++ around k ≡ₚ
    b :: inorder m ++ inorder l ++ inorder r ++ around k).
  { cbn. rewrite <-Permutation_middle, <-app_assoc. f_equiv. apply Permutation_app_swap_app. }
  rewrite Hp in Hw. apply NoDup_cons in Hw as [Ha Hw]. apply NoDup_cons in Hw as [Hb Hw].
  apply not_elem_of_cons in Ha as [Hab Ha]. done.
Qed.

Lemma rotate_heaps k d c l a c2 m b r w :
  holds S h0 k (mk d c l a (mk d c2 m b r)) w → ∃ h2 w4, rotating d k c l a c2 m b r w h2 w4.
Proof.
  intros Hw. destruct (rotating_distinct _ _ _ _ _ _ _ _ _ _ Hw) as (Hnd & Hab & Ha & Hb).
  destruct Hw as [Ht Hk _ _ _]. rewrite own_mk, own_mk, root_mk in Ht. rewrite root_mk in Hk.
  destruct Ht as (Ea & Hl & Eb & Hm & Hr).
  apply NoDup_app in Hnd as (Hnm & Hdm & (_ & _ & (_ & _ & Hnk)%NoDup_app)%NoDup_app).
  assert (Hmk : around k ## inorder m) by (intros x Hx Hx'; apply (Hdm x Hx'); set_solver).
  rewrite !not_elem_of_app in Ha, Hb. destruct_and! Ha. destruct_and! Hb.
  assert (Hb1 : moved d k c l a m w !! b = Some (links d (root m) (root r) (Some a) c2)).
  { unfold moved. by rewrite lookup_insert_ne. }
  destruct (reparent_ok (set_nodes (moved d k c l a m w) w) (Some b) (Some a) m)
    as (h2 & E2 & Hm2 & Ho2); [by apply own_insert|done|]. cbn [rb_nodes set_nodes] in Ho2.
  assert (Ha2 : h2 !! a = Some (links d (root l) (root m) (above k) c)).
  { rewrite Ho2 by done. apply lookup_insert_eq. }
  destruct (relink_ok (set_nodes (lifted d k c2 m b r h2) w) k a
      (links d (root l) (root m) (above k) c) (Some b)) as (w4 & E4 & Hk4 & Ho4).
  - cbn. unfold lifted. by rewrite lookup_insert_ne.
  - by destruct d.
  - apply ownk_insert; [done|]. apply (ownk_agree (moved d k c l a m w)); [by eapply off_agree|].
    by apply ownk_insert.
  - done.
  - done.
  - cbn [rb_nodes set_nodes] in Ho4. exists h2, w4. split; try done.
    + by rewrite Ho2.
    + rewrite Ho4 by done. unfold lifted. by rewrite lookup_insert_ne.
    + rewrite Ho4 by done. apply lookup_insert_eq.
Qed.

Lemma rotate_runs k d c l a c2 m b r w h2 w4 :
  holds S h0 k (mk d c l a (mk d c2 m b r)) w → rotating d k c l a c2 m b r w h2 w4 →
  rotate d (Some a) w = Ok (Some b, set_nodes (turned d k c l a c2 m b r w4) w4).
Proof.
  intros Hw Hrot. destruct (rotating_distinct _ _ _ _ _ _ _ _ _ _ Hw) as (_ & Hab & _).
  destruct Hw as [Ht _ _ _ _]. rewrite own_mk, own_mk, root_mk in Ht.
  destruct Ht as (Ea & _ & Eb & _). destruct Hrot as [Eb1 Em Ea2 Eb2 _ _ El Ea4 Eb4 _ _].
  set (h5 := <[b := links d (Some a) (root r) (above k) c2]> (rb_nodes w4)).
  assert (Ea5 : h5 !! a = Some (links d (root l) (root m) (above k) c)).
  { unfold h5. by rewrite lookup_insert_ne. }
  assert (Eb6 : turned d k c l a c2 m b r w4 !! b = Some (links d (Some a) (root r) (above k) c2)).
  { unfold turned. rewrite lookup_insert_ne by done. apply lookup_insert_eq. }
  unfold rotate, set_RB_PARENT, RB_PARENT, RB_AUGMENT.
  rewrite (st_bind_ok _ _ _ _ _ (rd_ok _ a _ w Ea)), links_other.
  rewrite (st_bind_ok _ _ _ _ _ (rd_ok _ b _ w Eb)), links_child.
  rewrite (st_bind_ok _ _ _ _ _ (wr_ok _ a _ w Ea)), links_with_other. fold (moved d k c l a m w).
  set (w1 := set_nodes (moved d k c l a m w) w) in *.
  rewrite (st_bind_ok _ _ w1 tt (set_nodes h2 w)).
  2: { etrans; [|exact Em]. unfold reparent. destruct m; [done|]. cbn [root].
       rewrite is_null_some, (st_bind_ok _ _ _ _ _ (rd_ok _ b _ w1 Eb1)). by rewrite links_child. }
  rewrite (st_bind_ok _ _ _ _ _ (ret_ok _ _)).
  rewrite (st_bind_ok _ _ _ _ _ (rd_ok _ a _ (set_nodes h2 w) Ea2)), links_parent.
  rewrite (st_bind_ok _ _ _ _ _ (wr_ok _ b _ (set_nodes h2 w) Eb2)), links_with_parent.
  rewrite (st_bind_ok _ _ _ _ _ El).
  rewrite (st_bind_ok _ _ _ _ _ (wr_ok _ b _ w4 Eb4)), links_with_child. fold h5.
  rewrite (st_bind_ok _ _ _ _ _ (wr_ok _ a _ (set_nodes h5 w4) Ea5)), links_with_parent.
  unfold h5. cbn [rb_nodes set_nodes]. fold (turned d k c l a c2 m b r w4). fold h5.
  change (set_nodes _ (set_nodes h5 w4)) with (set_nodes (turned d k c l a c2 m b r w4) w4).
  set (w6 := set_nodes (turned d k c l a c2 m b r w4) w4).
  rewrite (st_bind_ok _ _ _ _ _ (ret_ok _ _)).
  rewrite (st_bind_ok _ _ _ _ _ (rd_ok _ b _ w6 Eb6)), links_parent.
  destruct k as [|f k]; [done|]. cbn [above]. rewrite is_null_some.
  by rewrite (st_bind_ok _ _ _ _ _ (st_bind_ok _ _ _ _ _ (rd_ok _ b _ w6 Eb6))).
Qed.

Lemma rotate_holds k d c l a c2 m b r w h2 w4 :
  holds S h0 k (mk d c l a (mk d c2 m b r)) w → rotating d k c l a c2 m b r w h2 w4 →
  holds S h0 k (mk d c2 (mk d c l a m) b r) (set_nodes (turned d k c l a c2 m b r w4) w4).
Proof.
  intros Hw Hrot. destruct (rotating_distinct _ _ _ _ _ _ _ _ _ _ Hw) as (Hnd & Hab & Ha & Hb).
  destruct Hw as [Ht Hk HND Hsub Hoff]. rewrite own_mk, own_mk, root_mk in Ht.
  destruct Ht as (Ea & Hl & Eb & Hm & Hr). destruct Hrot as [_ _ _ _ Hm2 Ho2 _ _ _ Hk4 Ho4].
  assert (Hoff6 : ∀ x, x ∉ a :: b :: inorder m ++ around k →
    turned d k c l a c2 m b r w4 !! x = rb_nodes w !! x).
  { intros x Hx. unfold turned. rewrite !lookup_insert_ne, Ho4 by set_solver.
    unfold lifted. rewrite lookup_insert_ne, Ho2 by set_solver.
    unfold moved. by rewrite lookup_insert_ne by set_solver. }
  apply NoDup_app in Hnd as (_ & Hdm & (_ & Hdl & (_ & Hdr & _)%NoDup_app)%NoDup_app).
  split; cbn [rb_nodes set_nodes rbh_root].
  - rewrite own_mk, own_mk, root_mk. split_and!; [|by apply lookup_insert_eq|..].
    + unfold turned. rewrite lookup_insert_ne by done. apply lookup_insert_eq.
    + apply (own_agree (rb_nodes w)); [|done]. intros x Hx. apply Hoff6. set_solver.
    + apply own_insert; [set_solver|]. apply own_insert; [set_solver|]. apply (own_agree h2); [|done].
      intros x Hx. rewrite Ho4 by set_solver. unfold lifted. rewrite lookup_insert_ne; set_solver.
    + apply (own_agree (rb_nodes w)); [|done]. intros x Hx. apply Hoff6. set_solver.
  - rewrite root_mk. apply ownk_insert; [set_solver|]. apply ownk_insert; [set_solver|done].
  - by rewrite inorder_plug, inorder_rotated, <-inorder_plug.
  - by rewrite inorder_plug, inorder_rotated, <-inorder_plug.
  - intros x Hx. rewrite Hoff6; [by apply Hoff|]. intros Hx'. apply Hx, Hsub.
    rewrite plug_perm, !inorder_mk. set_solver.
Qed.

Lemma rotate_ok k d c l a c2 m b r w :
  holds S h0 k (mk d c l a (mk d c2 m b r)) w →
  ∃ w', rotate d (Some a) w = Ok (Some b, w') ∧
    holds S h0 k (mk d c2 (mk d c l a m) b r) w'.
Proof.
  intros Hw. destruct (rotate_heaps _ _ _ _ _ _ _ _ _ _ Hw) as (h2 & w4 & Hrot).
  eexists. split; [by eapply rotate_runs|by eapply rotate_holds].
Qed.

(** ** Reading and painting *)
Lemma mk_flip d c t a s : mk d c t a s = mk (flip d) c s a t.
Proof. by destruct d. Qed.

Lemma focus_get k d c t a s w :
  holds S h0 k (mk d c t a s) w →
  rb_nodes w !! a = Some (links d (root t) (root s) (above k) c).
Proof. intros [Ht _ _ _ _]. by apply own_mk in Ht as (? & _). Qed.

Lemma above_get k d c a s t w :
  holds S h0 (Frame d c a s :: k) t w →
  rb_nodes w !! a = Some (links d (root t) (root s) (above k) c).
Proof. intros Hw%holds_move. by apply focus_get in Hw. Qed.

Lemma paint_ok k d c c' t a s w :
  holds S h0 k (mk d c t a s) w →
  ∃ w', set_RB_COLOR (Some a) c' w = Ok (tt, w') ∧ holds S h0 k (mk d c' t a s) w'.
Proof.
  intros Hw. pose proof (focus_get _ _ _ _ _ _ _ Hw) as Ha.
  pose proof (holds_distinct _ _ _ _ _ _ _ Hw) as Hd.
  apply NoDup_cons in Hd as [Hd _]. rewrite !not_elem_of_app in Hd. destruct Hd as (Ht' & Hs' & Hk').
  pose proof (holds_in _ _ _ _ _ _ _ Hw) as HaS.
  destruct Hw as [Ht Hk Hnd Hsub Hoff]. apply own_mk in Ht as (_ & Ht & Hs).
  eexists. split.
  { unfold set_RB_COLOR. by rewrite (wr_ok _ a _ w Ha), links_with_color. }
  assert (E : inorder (plug k (mk d c' t a s)) = inorder (plug k (mk d c t a s))).
  { rewrite !inorder_plug. by destruct d. }
  split; cbn [rb_nodes set_nodes rbh_root]; [..|by rewrite E|by rewrite E|].
  - rewrite own_mk. split_and!; [apply lookup_insert_eq|by apply own_insert..].
  - rewrite root_mk in *. by apply ownk_insert.
  - intros x Hx. rewrite lookup_insert_ne; [by apply Hoff|]. by intros ->.
Qed.

(** The color a test of the code sees; a null pointer counts as black. *)
Definition shade (t : tree) : color := match t with Leaf => RB_BLACK | Node c _ _ _ => c end.

Lemma is_red_ok p t w :
  own (rb_nodes w) p t → is_red (root t) w = Ok (bool_decide (shade t = RB_RED), w).
Proof.
  destruct t as [|c l a r]; [done|]. intros (Ha & _). unfold is_red, RB_COLOR. cbn [root].
  rewrite is_null_some. by rewrite (st_bind_ok _ _ _ _ _ (rd_ok _ a _ w Ha)).
Qed.
Lemma is_black_ok p t w :
  own (rb_nodes w) p t → is_black (root t) w = Ok (bool_decide (shade t = RB_BLACK), w).
Proof.
  destruct t as [|c l a r]; [done|]. intros (Ha & _). unfold is_black, RB_COLOR. cbn [root].
  rewrite is_null_some. by rewrite (st_bind_ok _ _ _ _ _ (rd_ok _ a _ w Ha)).
Qed.

(** Painting the node above, and [RB_SET_BLACKRED] of the two nodes above. *)
Lemma paint_above k d c c' a s t w :
  holds S h0 (Frame d c a s :: k) t w →
  ∃ w', set_RB_COLOR (Some a) c' w = Ok (tt, w') ∧ holds S h0 (Frame d c' a s :: k) t w'.
Proof.
  intros Hw%holds_move. destruct (paint_ok k d c c' t a s w Hw) as (w' & E & Hw').
  exists w'. split; [done|]. by apply holds_move.
Qed.

Lemma blackred_above k d c a s d' c' b u t w :
  holds S h0 (Frame d c a s :: Frame d' c' b u :: k) t w →
  ∃ w', RB_SET_BLACKRED (Some a) (Some b) w = Ok (tt, w') ∧
    holds S h0 (Frame d RB_BLACK a s :: Frame d' RB_RED b u :: k) t w'.
Proof.
  intros Hw. destruct (paint_above _ _ _ RB_BLACK _ _ _ _ Hw) as (w1 & E1 & Hw1).
  apply holds_move in Hw1. destruct (paint_above _ _ _ RB_RED _ _ _ _ Hw1) as (w2 & E2 & Hw2).
  exists w2. split; [|by apply holds_move].
  unfold RB_SET_BLACKRED. by rewrite (st_bind_ok _ _ _ _ _ E1).
Qed.

(** A node seen in a direction. *)
Definition side (d : dir) (l r : tree) : tree := match d with DL => l | DR => r end.
Lemma mk_side d c l a r : Node c l a r = mk d c (side d l r) a (side (flip d) l r).
Proof. by destruct d. Qed.
Lemma mk_node d c t a s : mk d c t a s = Node c (side d t s) a (side (flip d) t s).
Proof. by destruct d. Qed.

(** The two subtrees of the node in focus, and the one beside the hole. *)
Lemma focus_own k d c t a s w :
  holds S h0 k (mk d c t a s) w → own (rb_nodes w) (Some a) t ∧ own (rb_nodes w) (Some a) s.
Proof. intros [Ht _ _ _ _]. by apply own_mk in Ht as (_ & ?). Qed.

(** Which child of its parent a node is. *)
Lemma is_left_child k d c t a s e w :
  holds S h0 k (mk d c t a s) w → root t = Some e →
  root t = rbe_left (links d (root t) (root s) (above k) c) ↔ d = DL.
Proof.
  intros Hw Ee. apply holds_distinct in Hw. nodup_in Hw.
  destruct d; cbn; [done|]. split; [|done]. rewrite Ee. intros Es%eq_sym%root_in.
  apply root_in in Ee. destruct Hw as (_ & _ & Hts & _). exfalso. apply (Hts e Ee). set_solver.
Qed.

Lemma other_child k d c t a s e w :
  holds S h0 k (mk d c t a s) w → root t = Some e → root s ≠ Some e.
Proof.
  intros Hw Et%root_in Es%root_in. apply holds_distinct in Hw. nodup_in Hw.
  destruct Hw as (_ & _ & Hts & _). apply (Hts e Et). set_solver.
Qed.
End holds.

(** ** Red and black

    [rbt c n t]: below a node of color [c], [t] has [n] black nodes on every
    path, and no red node below a red one. *)
Fixpoint rbt (c : color) (n : nat) (t : tree) : Prop :=
  match t, n with
  | Leaf, O => True
  | Node RB_RED l _ r, n => c = RB_BLACK ∧ rbt RB_RED n l ∧ rbt RB_RED n r
  | Node RB_BLACK l _ r, S n => rbt RB_BLACK n l ∧ rbt RB_BLACK n r
  | _, _ => False
  end.

(** A red-black tree: as if below a red node, so that its root is black. *)
Definition redblack (t : tree) : Prop := ∃ n, rbt RB_RED n t.

(** A hole below a node of color [c] that a tree of black height [n] fits. *)
Fixpoint rbk (c : color) (n : nat) (k : zipper) : Prop :=
  match k with
  | [] => c = RB_RED
  | Frame _ RB_RED _ s :: k => c = RB_RED ∧ rbt RB_RED n s ∧ rbk RB_BLACK n k
  | Frame _ RB_BLACK _ s :: k =>
      c = RB_BLACK ∧ rbt RB_BLACK n s ∧ (rbk RB_BLACK (S n) k ∨ rbk RB_RED (S n) k)
  end.

Lemma rbt_black c n t : rbt RB_RED n t → rbt c n t.
Proof. destruct t as [|[] l a r]; [done|by destruct n|]. by intros [??]. Qed.

Lemma rbt_shade n t : rbt RB_BLACK n t → shade t = RB_BLACK → rbt RB_RED n t.
Proof. destruct t as [|[] l a r]; [done|by destruct n|done]. Qed.

Lemma rbt_mk c n d c' t a s :
  rbt c n (mk d c' t a s) ↔
    match c' with
    | RB_RED => c = RB_BLACK ∧ rbt RB_RED n t ∧ rbt RB_RED n s
    | RB_BLACK => ∃ m, n = S m ∧ rbt RB_BLACK m t ∧ rbt RB_BLACK m s
    end.
Proof.
  destruct d, c'; cbn; try tauto; (split; [destruct n; [done|]; intros; exists n; tauto|]);
    intros (m & -> & ?); tauto.
Qed.

Lemma rbt_plug c n k t : rbt c n t → rbk c n k → redblack (plug k t).
Proof.
  revert c n t. induction k as [|[d c' a s] k IH]; intros c n t Ht Hk.
  { cbn in Hk. subst. by exists n. }
  cbn [plug]. destruct c'; cbn in Hk; destruct Hk as (-> & Hs & Hk).
  - destruct Hk as [Hk|Hk]; eapply IH; try exact Hk; rewrite rbt_mk; by exists n.
  - eapply IH; [|exact Hk]. by rewrite rbt_mk.
Qed.

Lemma plug_rbt k t : redblack (plug k t) → ∃ c n, rbt c n t ∧ rbk c n k.
Proof.
  revert t. induction k as [|[d c' a s] k IH]; intros t; [intros [n Ht]; by exists RB_RED, n|].
  intros (c & n & Ht & Hk)%IH. apply rbt_mk in Ht. destruct c'; cbn.
  - destruct Ht as (m & -> & Ht & Hs). exists RB_BLACK, m. destruct c; auto.
  - destruct Ht as (-> & Ht & Hs). by exists RB_RED, n.
Qed.

(** The maximal number of nodes on a path, which is at most twice the binary
    logarithm of the number of elements and one. *)
Fixpoint height (t : tree) : nat :=
  match t with Leaf => 0 | Node _ l _ r => 1 + (height l `max` height r) end.

Lemma rbt_size c n t : rbt c n t → (2 ^ n ≤ S (length (inorder t)))%nat.
Proof.
  revert c n. induction t as [|[] l IHl a r IHr]; intros c n Ht; cbn in *.
  - by destruct n.
  - destruct n as [|n]; [done|]. destruct Ht as [Hl%IHl Hr%IHr].
    rewrite length_app. cbn. lia.
  - assert (c = RB_BLACK ∧ rbt RB_RED n l ∧ rbt RB_RED n r) as (_ & Hl%IHl & _) by (by destruct n).
    rewrite length_app. lia.
Qed.

Lemma rbt_height c n t :
  rbt c n t → (height t ≤ 2 * n + match c with RB_RED => 0 | RB_BLACK => 1 end)%nat.
Proof.
  revert c n. induction t as [|[] l IHl a r IHr]; intros c n Ht; cbn in *.
  - lia.
  - destruct n as [|n]; [done|]. destruct Ht as [Hl%IHl Hr%IHr]. destruct c; lia.
  - assert (c = RB_BLACK ∧ rbt RB_RED n l ∧ rbt RB_RED n r) as (-> & Hl%IHl & Hr%IHr)
      by (by destruct n). cbn in *. lia.
Qed.

Lemma redblack_height t :
  redblack t → (height t ≤ 2 * Nat.log2 (S (length (inorder t))))%nat.
Proof.
  intros [n Ht]. pose proof (rbt_height _ _ _ Ht) as Hh. rewrite Nat.add_0_r in Hh.
  pose proof (rbt_size _ _ _ Ht) as Hs.
  apply Nat.log2_le_mono in Hs. rewrite Nat.log2_pow2 in Hs by lia. lia.
Qed.

Lemma height_plug k t : (length k + height t ≤ height (plug k t))%nat.
Proof.
  revert t. induction k as [|[d c a s] k IH]; intros t; [done|]. cbn [plug length].
  etrans; [|apply IH]. destruct d; cbn; lia.
Qed.

(** ** The order of the keys *)

(** What the library asks of the user's [cmp]: its sign is that of a total
    order of keys, in which different elements may have equal ones. *)
Class KeyOrder (cmp : nat → nat → Z) : Prop := {
  cmp_anti a b : cmp a b < 0 ↔ 0 < cmp b a;
  cmp_trans a b c : cmp a b < 0 → cmp b c < 0 → cmp a c < 0;
  cmp_total a b c : cmp a b < 0 → cmp a c < 0 ∨ cmp c b < 0
}.

Section order.
Context (cmp : nat → nat → Z) `{!KeyOrder cmp}.

(** In increasing order, so without equal keys. *)
Definition sorted (l : list nat) : Prop := StronglySorted (λ a b, cmp a b < 0) l.

Lemma sorted_app l1 a l2 :
  sorted (l1 ++ a :: l2) ↔
    sorted l1 ∧ sorted l2 ∧ Forall (λ x, cmp x a < 0) l1 ∧ Forall (λ x, cmp a x < 0) l2 ∧
    (∀ x y, x ∈ l1 → y ∈ l2 → cmp x y < 0).
Proof.
  clear KeyOrder0. unfold sorted. rewrite StronglySorted_app, StronglySorted_cons, !Forall_forall. set_solver.
Qed.

Lemma cmp_irrefl a : ¬ cmp a a < 0.
Proof. intros H. pose proof (proj1 (cmp_anti a a) H). lia. Qed.
Lemma cmp_gt a b : 0 < cmp a b ↔ cmp b a < 0.
Proof. by rewrite cmp_anti. Qed.
End order.

(** The state is the tree [t]. *)
Definition rep (t : tree) (w : rb_state) : Prop :=
  own (rb_nodes w) None t ∧ rbh_root w = root t ∧ NoDup (inorder t).

Lemma rep_holds t w S :
  rep t w → inorder t ⊆ S → holds S (rb_nodes w) [] t w.
Proof. by intros (Ho & Hr & Hn) Hs. Qed.
Lemma holds_rep S h0 t w : holds S h0 [] t w → rep t w.
Proof. by intros [Ho Hr Hn _ _]. Qed.

Section holds_more.
Context (S : list nat) (h0 : nodes).

Lemma plug_app k1 k t : plug (k1 ++ k) t = plug k (plug k1 t).
Proof. revert t. induction k1 as [|[d c a s] k1 IH]; intros t; [done|]. cbn. apply IH. Qed.
Lemma around_app k1 k : around (k1 ++ k) = around k1 ++ around k.
Proof.
  induction k1 as [|[d c a s] k1 IH]; [done|]. cbn. by rewrite IH, <-app_assoc.
Qed.
Lemma before_app k1 k : before (k1 ++ k) = before k ++ before k1.
Proof.
  induction k1 as [|[[] c a s] k1 IH]; cbn; [by rewrite app_nil_r|done|]. by rewrite IH, <-app_assoc.
Qed.
Lemma after_app k1 k : after (k1 ++ k) = after k1 ++ after k.
Proof.
  induction k1 as [|[[] c a s] k1 IH]; cbn; [done| |done]. by rewrite IH, <-app_assoc.
Qed.

Lemma holds_app k1 k t w : holds S h0 (k1 ++ k) t w ↔ holds S h0 k (plug k1 t) w.
Proof.
  revert t. induction k1 as [|[d c a s] k1 IH]; intros t; [done|].
  cbn [app plug]. by rewrite <-IH, holds_move.
Qed.

(** Every element is somewhere. *)
Lemma in_plug a t : a ∈ inorder t → ∃ k c l r, t = plug k (Node c l a r).
Proof.
  induction t as [|c l IHl b r IHr]; cbn; [by intros ?%elem_of_nil|].
  rewrite elem_of_app, elem_of_cons. intros [Hl|[->|Hr]].
  - destruct (IHl Hl) as (k & c' & l' & r' & ->). exists (k ++ [Frame DL c b r]), c', l', r'.
    by rewrite plug_app.
  - by exists [], c, l, r.
  - destruct (IHr Hr) as (k & c' & l' & r' & ->). exists (k ++ [Frame DR c b l]), c', l', r'.
    by rewrite plug_app.
Qed.

(** [if (parent) { if (LEFT(parent) == elm) ... }], the link above the hole. *)
Definition replace_child (parent elm child : option nat) : RB unit :=
  l ← RB_LEFT parent;
  if bool_decide (l = elm) then set_RB_LEFT parent child else set_RB_RIGHT parent child.

Lemma replace_ok w k a y :
  ownk (rb_nodes w) (rbh_root w) k (Some a) → a ∉ around k → NoDup (around k) →
  ∃ w', (if is_null (above k) then set_RB_ROOT y else
         replace_child (above k) (Some a) y;; RB_AUGMENT (above k)) w = Ok (tt, w') ∧
    ownk (rb_nodes w') (rbh_root w') k y ∧ off (around k) (rb_nodes w) (rb_nodes w').
Proof.
  intros Hk Ha Hnd. destruct k as [|[d c p s] k].
  { exists (with_root y w). by split_and!. }
  destruct Hk as (Hf & Hs & Hk). cbn in Ha, Hnd. nodup_in Hnd. cbn [above f_addr] in *.
  set (n' := links d y (root s) (above k) c).
  exists (set_nodes (<[p := n']> (rb_nodes w)) w). split_and!.
  - rewrite is_null_some. unfold replace_child, RB_LEFT, set_RB_LEFT, set_RB_RIGHT.
    rewrite (st_bind_ok _ _ _ tt (set_nodes (<[p := n']> (rb_nodes w)) w)); [done|].
    rewrite (st_bind_ok _ _ _ _ _ (rd_ok _ p _ w Hf)). destruct d; cbn [links rbe_left].
    + rewrite bool_decide_eq_true_2 by done. by rewrite (wr_ok _ p _ w Hf).
    + rewrite bool_decide_eq_false_2; [by rewrite (wr_ok _ p _ w Hf)|].
      intros Hr%root_in. set_solver.
  - cbn [ownk rb_nodes set_nodes rbh_root]. split_and!; [apply lookup_insert_eq| |].
    + apply own_insert; [nd|done].
    + apply ownk_insert; [nd|done].
  - cbn. apply off_insert. set_solver.
Qed.

(** [child] takes the place of [elm] below [parent]. *)
Definition unlink (elm child parent : option nat) : RB unit :=
  reparent child parent;;
  (if is_null parent then set_RB_ROOT child else
   replace_child parent elm child;; RB_AUGMENT parent).

(** A node with one subtree at most is taken out. *)
Lemma splice_ok k d c a u w :
  holds S h0 k (mk d c Leaf a u) w →
  ∃ w', unlink (Some a) (root u) (above k) w = Ok (tt, w') ∧
    holds S h0 k u w' ∧ rb_nodes w' !! a = rb_nodes w !! a.
Proof.
  intros Hw. pose proof (holds_distinct _ _ _ _ _ _ _ _ _ Hw) as Hnd. cbn in Hnd. nodup_in Hnd.
  destruct Hnd as ((Hau & Hak) & Hnu & Huk & Hnk).
  destruct Hw as [Ht Hk HND Hsub Hoff]. apply own_mk in Ht as (Ha & _ & Hu).
  rewrite root_mk in Hk. rewrite plug_perm, inorder_mk in HND. cbn in HND.
  assert (Hsub' : inorder u ++ around k ⊆ S).
  { intros x Hx. apply Hsub. rewrite plug_perm, inorder_mk. set_solver. }
  destruct (reparent_ok w (Some a) (above k) u Hu Hnu) as (h1 & E1 & Hu1 & Ho1).
  destruct (replace_ok (set_nodes h1 w) k a (root u)) as (w2 & E2 & Hk2 & Ho2).
  { apply (ownk_agree (rb_nodes w)); [|done]. apply (off_agree (inorder u)); [done|].
    intros x Hx Hx'. by apply (Huk x). }
  { done. }
  { done. }
  exists w2. unfold unlink. rewrite (st_bind_ok _ _ _ _ _ E1). split_and!; [done| |].
  - split; [|done|..].
    + apply (own_agree h1); [|done]. apply (off_agree (around k)); [done|].
      intros x Hx Hx'. by apply (Huk x).
    + rewrite plug_perm. by apply NoDup_cons in HND as [_ ?].
    + intros x. rewrite plug_perm. apply Hsub'.
    + intros x Hx. rewrite Ho2, Ho1; [by apply Hoff|..]; set_solver.
  - by rewrite Ho2, Ho1.
Qed.
End holds_more.
