(* ===== verification/SplayTree.v ===== *)
(** * Splay trees: the nodes, the macros and splaying (uv/tree.h of libuv's
    headers)

    As for red-black trees, an element is its address, its links are a record
    in a heap, and [cmp] is a function of two addresses.  The structure
    [__node] that splaying keeps on the stack is a node with an address of its
    own, which exists for the time of the call. *)

From S2P Require Import Prelude RbTree.

(** [SPLAY_ENTRY] *)
Record sp_node := SpNode { spe_left : option nat; spe_right : option nat }.
Definition with_spe_left v n := SpNode v (spe_right n).
Definition with_spe_right v n := SpNode (spe_left n) v.

(** [SPLAY_HEAD], with the elements there are in memory. *)
Record sp_state := SpState {
  sph_root : option nat;
  sp_nodes : gmap nat sp_node
}.
Definition set_sp_nodes h (w : sp_state) := SpState (sph_root w) h.
Definition with_sph_root r (w : sp_state) := SpState r (sp_nodes w).

Abbreviation SP := (st sp_state).

(** Through a pointer. *)
Definition sp_get (p : option nat) : SP sp_node :=
  a ← demand NullDeref p;
  h ← gets sp_nodes;
  demand UseAfterFree (h !! a).
Definition sp_put (p : option nat) (n : sp_node) : SP unit :=
  a ← demand NullDeref p;
  modify (λ w, set_sp_nodes (<[a := n]> (sp_nodes w)) w).
Definition sp_rd (f : sp_node → option nat) (p : option nat) : SP (option nat) :=
  n ← sp_get p; mret (f n).
Definition sp_wr (f : sp_node → sp_node) (p : option nat) : SP unit :=
  n ← sp_get p; sp_put p (f n).

Definition SPLAY_LEFT := sp_rd spe_left.
Definition SPLAY_RIGHT := sp_rd spe_right.
Definition set_SPLAY_LEFT p v := sp_wr (with_spe_left v) p.
Definition set_SPLAY_RIGHT p v := sp_wr (with_spe_right v) p.
Definition SPLAY_ROOT : SP (option nat) := gets sph_root.
Definition set_SPLAY_ROOT (p : option nat) : SP unit := modify (with_sph_root p).
Definition SPLAY_EMPTY : SP bool := r ← SPLAY_ROOT; mret (bool_decide (r = None)).
Definition SPLAY_INIT : SP unit := set_SPLAY_ROOT None.

Definition SPLAY_ROTATE_RIGHT (tmp : option nat) : SP unit :=
  r ← SPLAY_ROOT; x ← SPLAY_RIGHT tmp; set_SPLAY_LEFT r x;;
  r ← SPLAY_ROOT; set_SPLAY_RIGHT tmp r;;
  set_SPLAY_ROOT tmp.

Definition SPLAY_ROTATE_LEFT (tmp : option nat) : SP unit :=
  r ← SPLAY_ROOT; x ← SPLAY_LEFT tmp; set_SPLAY_RIGHT r x;;
  r ← SPLAY_ROOT; set_SPLAY_LEFT tmp r;;
  set_SPLAY_ROOT tmp.

(** The links give the new value of [tmp]. *)
Definition SPLAY_LINKLEFT (tmp : option nat) : SP (option nat) :=
  r ← SPLAY_ROOT; set_SPLAY_LEFT tmp r;;
  tmp ← SPLAY_ROOT;
  r ← SPLAY_ROOT; x ← SPLAY_LEFT r; set_SPLAY_ROOT x;;
  mret tmp.

Definition SPLAY_LINKRIGHT (tmp : option nat) : SP (option nat) :=
  r ← SPLAY_ROOT; set_SPLAY_RIGHT tmp r;;
  tmp ← SPLAY_ROOT;
  r ← SPLAY_ROOT; x ← SPLAY_RIGHT r; set_SPLAY_ROOT x;;
  mret tmp.

Definition SPLAY_ASSEMBLE (node left right : option nat) : SP unit :=
  r ← SPLAY_ROOT; x ← SPLAY_LEFT r; set_SPLAY_RIGHT left x;;
  r ← SPLAY_ROOT; x ← SPLAY_RIGHT r; set_SPLAY_LEFT right x;;
  r ← SPLAY_ROOT; x ← SPLAY_RIGHT node; set_SPLAY_LEFT r x;;
  r ← SPLAY_ROOT; x ← SPLAY_LEFT node; set_SPLAY_RIGHT r x.

(** A local structure [__node] with both links NULL. *)
Definition with_node {A} (m : option nat → SP A) : SP A :=
  h ← gets sp_nodes;
  let node := fresh (dom h) in
  modify (λ w, set_sp_nodes (<[node := SpNode None None]> (sp_nodes w)) w);;
  r ← m (Some node);
  modify (λ w, set_sp_nodes (delete node (sp_nodes w)) w);;
  mret r.

(** [cmp(elm, p)], which looks into the element [p]. *)
Definition compare_at (cmp : nat → nat → Z) (elm : nat) (p : option nat) : SP Z :=
  a ← demand NullDeref p; mret (cmp elm a).

Section splay.
Context (cmp : nat → nat → Z).

(** A turn of the loop, over [__left] and [__right]. *)
Definition splay_body (elm : nat) (s : option nat * option nat) :
    SP (option nat * option nat + option nat * option nat) :=
  let '(__left, __right) := s in
  r ← SPLAY_ROOT;
  comp ← compare_at cmp elm r;
  if decide (comp < 0) then
    r ← SPLAY_ROOT;
    tmp ← SPLAY_LEFT r;
    if is_null tmp then mret (inr (__left, __right)) else
    c ← compare_at cmp elm tmp;
    stop ← (if decide (c < 0) then
              SPLAY_ROTATE_RIGHT tmp;;
              r ← SPLAY_ROOT; l ← SPLAY_LEFT r; mret (is_null l)
            else mret false);
    if stop : bool then mret (inr (__left, __right)) else
    __right ← SPLAY_LINKLEFT __right;
    mret (inl (__left, __right))
  else if decide (comp > 0) then
    r ← SPLAY_ROOT;
    tmp ← SPLAY_RIGHT r;
    if is_null tmp then mret (inr (__left, __right)) else
    c ← compare_at cmp elm tmp;
    stop ← (if decide (c > 0) then
              SPLAY_ROTATE_LEFT tmp;;
              r ← SPLAY_ROOT; x ← SPLAY_RIGHT r; mret (is_null x)
            else mret false);
    if stop : bool then mret (inr (__left, __right)) else
    __left ← SPLAY_LINKRIGHT __left;
    mret (inl (__left, __right))
  else mret (inr (__left, __right)).

Definition SPLAY (fuel : nat) (elm : nat) : SP unit :=
  with_node (λ node,
    lr ← loop fuel (splay_body elm) (node, node);
    SPLAY_ASSEMBLE node (fst lr) (snd lr)).
End splay.

Definition splay_minmax_body (comp : Z) (s : option nat * option nat) :
    SP (option nat * option nat + option nat * option nat) :=
  let '(__left, __right) := s in
  if decide (comp < 0) then
    r ← SPLAY_ROOT;
    tmp ← SPLAY_LEFT r;
    if is_null tmp then mret (inr (__left, __right)) else
    stop ← (if decide (comp < 0) then
              SPLAY_ROTATE_RIGHT tmp;;
              r ← SPLAY_ROOT; l ← SPLAY_LEFT r; mret (is_null l)
            else mret false);
    if stop : bool then mret (inr (__left, __right)) else
    __right ← SPLAY_LINKLEFT __right;
    mret (inl (__left, __right))
  else if decide (comp > 0) then
    r ← SPLAY_ROOT;
    tmp ← SPLAY_RIGHT r;
    if is_null tmp then mret (inr (__left, __right)) else
    stop ← (if decide (comp > 0) then
              SPLAY_ROTATE_LEFT tmp;;
              r ← SPLAY_ROOT; x ← SPLAY_RIGHT r; mret (is_null x)
            else mret false);
    if stop : bool then mret (inr (__left, __right)) else
    __left ← SPLAY_LINKRIGHT __left;
    mret (inl (__left, __right))
  else mret (inl (__left, __right)).

Definition SPLAY_MINMAX (fuel : nat) (comp : Z) : SP unit :=
  with_node (λ node,
    lr ← loop fuel (splay_minmax_body comp) (node, node);
    SPLAY_ASSEMBLE node (fst lr) (snd lr)).

(** ** Accesses *)
Lemma sp_get_ok a n w : sp_nodes w !! a = Some n → sp_get (Some a) w = Ok (n, w).
Proof. intros E. unfold sp_get, mbind, st_bind, gets. cbn. by rewrite E. Qed.

Lemma sp_rd_ok f a n w : sp_nodes w !! a = Some n → sp_rd f (Some a) w = Ok (f n, w).
Proof. intros E. unfold sp_rd. by rewrite (st_bind_ok _ _ _ _ _ (sp_get_ok _ _ _ E)). Qed.

Lemma sp_wr_ok f a n w :
  sp_nodes w !! a = Some n →
  sp_wr f (Some a) w = Ok (tt, set_sp_nodes (<[a := f n]> (sp_nodes w)) w).
Proof. intros E. unfold sp_wr. by rewrite (st_bind_ok _ _ _ _ _ (sp_get_ok _ _ _ E)). Qed.

Lemma root_ok w : SPLAY_ROOT w = Ok (sph_root w, w).
Proof. done. Qed.
