(* ===== verification/SplayShape.v ===== *)
(** * Splaying in memory

    What it means for the heap to hold a splay tree (the abstract trees are
    those of the red-black trees, their colors mean nothing here), the state
    of the loop in between, and that splaying keeps the order and divides the
    tree at the key. *)

From S2P Require Import Prelude RbTree RbShape SplayTree.

Abbreviation sp_heap := (gmap nat sp_node).

Definition sp_child (d : dir) : sp_node → option nat :=
  match d with DL => spe_left | DR => spe_right end.
Definition with_sp_child (d : dir) : option nat → sp_node → sp_node :=
  match d with DL => with_spe_left | DR => with_spe_right end.

(** The links of a node: [x] in direction [d], [y] in the other. *)
Definition slinks (d : dir) (x y : option nat) : sp_node :=
  match d with DL => SpNode x y | DR => SpNode y x end.

Fixpoint sown (h : sp_heap) (t : tree) : Prop :=
  match t with
  | Leaf => True
  | Node _ l a r => h !! a = Some (SpNode (root l) (root r)) ∧ sown h l ∧ sown h r
  end.

(** A tree with a hole: its hole holds the pointer [x], and [y] points to it. *)
Fixpoint chain (h : sp_heap) (k : zipper) (x y : option nat) : Prop :=
  match k with
  | [] => x = y
  | Frame d _ a s :: k =>
      h !! a = Some (slinks d x (root s)) ∧ sown h s ∧ chain h k (Some a) y
  end.

(** The state is the splay tree [t]. *)
Definition srep (t : tree) (w : sp_state) : Prop :=
  sown (sp_nodes w) t ∧ sph_root w = root t ∧ NoDup (inorder t).

Lemma sown_mk h d c t a s :
  sown h (mk d c t a s) ↔ h !! a = Some (slinks d (root t) (root s)) ∧ sown h t ∧ sown h s.
Proof. destruct d; cbn; tauto. Qed.

Lemma sown_agree h h' t : agree (inorder t) h h' → sown h t → sown h' t.
Proof.
  induction t as [|c l IHl a r IHr]; intros Ha; [done|]. cbn in *.
  intros (Hn & Hl & Hr). split_and!.
  - rewrite Ha; [done|set_solver].
  - apply IHl; [|done]. intros x Hx. apply Ha. set_solver.
  - apply IHr; [|done]. intros x Hx. apply Ha. set_solver.
Qed.

Lemma chain_agree h h' k x y : agree (around k) h h' → chain h k x y → chain h' k x y.
Proof.
  revert x. induction k as [|[d c a s] k IH]; intros x Ha; [done|]. cbn in *.
  intros (Hn & Hs & Hk). split_and!.
  - rewrite Ha; [done|set_solver].
  - apply (sown_agree h); [|done]. intros z Hz. apply Ha. set_solver.
  - apply IH; [|done]. intros z Hz. apply Ha. set_solver.
Qed.

Lemma sown_insert h a n t : a ∉ inorder t → sown h t → sown (<[a := n]> h) t.
Proof. intros Ha. apply sown_agree. by apply agree_insert. Qed.
Lemma chain_insert h a n k x y : a ∉ around k → chain h k x y → chain (<[a := n]> h) k x y.
Proof. intros Ha. apply chain_agree. by apply agree_insert. Qed.

(** A tree with a hole, filled. *)
Lemma chain_plug h k t y : chain h k (root t) y → sown h t → sown h (plug k t) ∧ y = root (plug k t).
Proof.
  revert t. induction k as [|[d c a s] k IH]; intros t; cbn [chain plug]; [done|].
  intros (Ea & Hs & Hk) Ht. apply IH; [by rewrite root_mk|by apply sown_mk].
Qed.

(** ** The state of the loop *)

Definition set_side {A} (d : dir) (v : A) (f : dir → A) : dir → A :=
  λ d', if decide (d' = d) then v else f d'.

(** What [__left] and [__right] point to. *)
Definition bottom (node : nat) (k : zipper) : nat :=
  match k with [] => node | f :: _ => f_addr f end.

Definition elements (K : dir → zipper) : list nat := around (K DL) ++ around (K DR).

Lemma elements_side d K : elements K ≡ₚ around (K d) ++ around (K (flip d)).
Proof. destruct d; [done|]. apply Permutation_app_comm. Qed.

Definition onesided (K : dir → zipper) : Prop := ∀ d, Forall (λ f, f_dir f = flip d) (K d).

Lemma bottom_in node K d : bottom node (K d) ∈ node :: elements K.
Proof.
  rewrite (elements_side d). destruct (K d) as [|[d' c a s] k]; cbn; set_solver.
Qed.

(** [h'] is [h] with a new link in the hole of [K d]. *)
Definition hole_set (h : sp_heap) (node : nat) (K : dir → zipper) (d : dir)
    (v : option nat) (h' : sp_heap) : Prop :=
  ∃ n, h !! bottom node (K d) = Some n ∧
    h' = <[bottom node (K d) := with_sp_child (flip d) v n]> h.

(** The hanging trees [K DL], of smaller keys, and [K DR], of greater ones;
    their holes point to [x], and [__node] to them, crosswise. *)
Definition sides_at (h : sp_heap) (node : nat) (K : dir → zipper) (x : dir → option nat) : Prop :=
  ∃ y : dir → option nat,
    h !! node = Some (SpNode (y DR) (y DL)) ∧ ∀ d, chain h (K d) (x d) (y d).

Lemma set_side_eq {A} d (v : A) f : set_side d v f d = v.
Proof. unfold set_side. by rewrite decide_True. Qed.
Lemma set_side_flip {A} d (v : A) f : set_side d v f (flip d) = f (flip d).
Proof. unfold set_side. rewrite decide_False; [done|by destruct d]. Qed.

Lemma node_with_child d (v : option nat) (y : dir → option nat) :
  with_sp_child (flip d) v (SpNode (y DR) (y DL)) =
  SpNode (set_side d v y DR) (set_side d v y DL).
Proof. by destruct d. Qed.

Lemma slinks_with_child d x y v : with_sp_child d v (slinks d x y) = slinks d v y.
Proof. by destruct d. Qed.
Lemma slinks_with_other d x y v : with_sp_child (flip d) v (slinks d x y) = slinks d x v.
Proof. by destruct d. Qed.
Lemma slinks_child d x y : sp_child d (slinks d x y) = x.
Proof. by destruct d. Qed.
Lemma slinks_other d x y : sp_child (flip d) (slinks d x y) = y.
Proof. by destruct d. Qed.

Lemma sides_set h node K x d v :
  sides_at h node K x → NoDup (node :: elements K) → onesided K →
  ∃ h', hole_set h node K d v h' ∧ sides_at h' node K (set_side d v x).
Proof.
  intros (y & En & Hc) Hnd H1. rewrite (elements_side d) in Hnd.
  assert (Hd : ∀ (P : dir → Prop), P d → P (flip d) → ∀ d', P d') by (intros P; by destruct d, d').
  unfold hole_set. pose proof (Hc d) as Hcd. destruct (K d) as [|[d' c a s] k] eqn:EK; cbn [bottom f_addr].
  - eexists. split; [by eexists|]. rewrite node_with_child. exists (set_side d v y). split.
    { by rewrite lookup_insert_eq. }
    apply Hd; [by rewrite EK, !set_side_eq|]. rewrite !set_side_flip.
    apply chain_insert; [|apply Hc]. cbn in Hnd. by apply NoDup_cons in Hnd as [? _].
  - specialize (H1 d). rewrite EK in H1. apply Forall_cons in H1 as [Ed _]. cbn in Ed. subst d'.
    destruct Hcd as (Ea & Hs & Hk). cbn in Hnd. nodup_in Hnd.
    eexists. split; [by eexists|]. exists y. rewrite slinks_with_child. split.
    { rewrite lookup_insert_ne; [done|]. set_solver. }
    apply Hd.
    + rewrite EK, set_side_eq. cbn. split_and!; [by rewrite lookup_insert_eq|..].
      * apply sown_insert; [|done]. set_solver.
      * apply chain_insert; [|done]. set_solver.
    + rewrite set_side_flip. apply chain_insert; [|apply Hc]. set_solver.
Qed.

(** The focus [t] is the tree at the head, between the hanging trees. *)
Record splaying (h0 : sp_heap) (node : nat) (K : dir → zipper) (t : tree) (w : sp_state) : Prop := {
  sg_sides : ∃ x, sides_at (sp_nodes w) node K x;
  sg_tree : sown (sp_nodes w) t;
  sg_root : sph_root w = root t;
  sg_nodup : NoDup (node :: inorder t ++ elements K);
  sg_onesided : onesided K;
  sg_off : off (node :: inorder t ++ elements K) h0 (sp_nodes w)
}.

(** The order of all elements. *)
Definition order (K : dir → zipper) (t : tree) : list nat :=
  before (K DL) ++ inorder t ++ after (K DR).

(** ** The turn of the loop, by direction *)
Definition sp_rotate (d : dir) (tmp : option nat) : SP unit :=
  r ← SPLAY_ROOT; x ← sp_rd (sp_child (flip d)) tmp; sp_wr (with_sp_child d x) r;;
  r ← SPLAY_ROOT; sp_wr (with_sp_child (flip d) r) tmp;;
  set_SPLAY_ROOT tmp.

Definition sp_link (d : dir) (tmp : option nat) : SP (option nat) :=
  r ← SPLAY_ROOT; sp_wr (with_sp_child d r) tmp;;
  tmp ← SPLAY_ROOT;
  r ← SPLAY_ROOT; x ← sp_rd (sp_child d) r; set_SPLAY_ROOT x;;
  mret tmp.

(** The sign of a comparison that goes in the direction. *)
Definition to (d : dir) (z : Z) : Prop := match d with DL => z < 0 | DR => z > 0 end.
#[export] Instance to_dec d z : Decision (to d z).
Proof. destruct d; unfold to; apply _. Defined.

Definition half_end (d : dir) (s : option nat * option nat) (stop : bool) :
    SP (option nat * option nat + option nat * option nat) :=
  if stop then mret (inr s) else
  match d with
  | DL => p ← sp_link DL (snd s); mret (inl (fst s, p))
  | DR => p ← sp_link DR (fst s); mret (inl (p, snd s))
  end.

Definition half (d : dir) (cmp : nat → nat → Z) (elm : nat) (s : option nat * option nat) :
    SP (option nat * option nat + option nat * option nat) :=
  r ← SPLAY_ROOT;
  tmp ← sp_rd (sp_child d) r;
  if is_null tmp then mret (inr s) else
  c ← compare_at cmp elm tmp;
  stop ← (if decide (to d c) then
            sp_rotate d tmp;;
            r ← SPLAY_ROOT; x ← sp_rd (sp_child d) r; mret (is_null x)
          else mret false);
  half_end d s stop.

Lemma splay_body_half cmp elm s :
  splay_body cmp elm s =
  (r ← SPLAY_ROOT;
   comp ← compare_at cmp elm r;
   if decide (comp < 0) then half DL cmp elm s
   else if decide (comp > 0) then half DR cmp elm s else mret (inr s)).
Proof. by destruct s. Qed.

(** Going for an end of the tree is splaying with a comparison that always
    gives the same. *)
Lemma minmax_half comp (d : dir) elm s a w :
  sph_root w = Some a → to d comp →
  splay_minmax_body comp s w = splay_body (λ _ _, comp) elm s w.
Proof.
  intros Ea Hd. rewrite splay_body_half. destruct s as [l r].
  unfold SPLAY_ROOT at 1. rewrite (st_bind_ok _ _ _ _ _ (gets_ok _ w)), Ea.
  change (compare_at (λ _ _, comp) elm (Some a)) with (mret comp : SP Z).
  rewrite (st_bind_ok _ _ _ _ _ (ret_ok _ w)).
  unfold splay_minmax_body, half, SPLAY_ROOT, SPLAY_LEFT, SPLAY_RIGHT.
  destruct d; cbn in Hd; [rewrite !(decide_True _ _ Hd)|
    rewrite !(decide_False (P := comp < 0)), !(decide_True (P := comp > 0)) by lia].
  all: rewrite !(st_bind_ok _ _ _ _ _ (gets_ok _ w)), Ea; unfold mbind, st_bind.
  all: destruct (sp_rd _ (Some a) w) as [[[t|] w1]|]; [|done..].
  all: rewrite is_null_some; unfold compare_at, demand; cbn -[decide sp_rotate half_end is_null].
  all: unfold mbind, st_bind, mret at 3, st_ret at 1; cbn -[decide sp_rotate half_end is_null].
  all: rewrite !decide_True by done; cbn -[sp_rotate half_end is_null].
  1: change (sp_rotate DL) with SPLAY_ROTATE_RIGHT; destruct (SPLAY_ROTATE_RIGHT _ w1) as [[[] w2]|]; [|done].
  2: change (sp_rotate DR) with SPLAY_ROTATE_LEFT; destruct (SPLAY_ROTATE_LEFT _ w1) as [[[] w2]|]; [|done].
  all: destruct (sp_rd _ _ w2) as [[x w3]|]; [|done]; cbn -[half_end is_null]; by destruct (is_null x).
Qed.

(** ** The steps in memory *)
Section steps.
Context (h0 : sp_heap) (node : nat).
#[local] Abbreviation splaying := (splaying h0 node).

Lemma splaying_get d K c t a s w :
  splaying K (mk d c t a s) w → sp_nodes w !! a = Some (slinks d (root t) (root s)).
Proof. intros [_ Ht _ _ _ _]. by apply sown_mk in Ht as (? & _). Qed.

(** The heap may change, and the tree, if its elements stay. *)
Lemma splaying_change K t t' w w' :
  splaying K t w → inorder t ≡ₚ inorder t' → sown (sp_nodes w') t' → sph_root w' = root t' →
  off (inorder t) (sp_nodes w) (sp_nodes w') → splaying K t' w'.
Proof.
  intros [(x & y & En & Hc) Ht Hr Hnd H1 Hoff] Hp Ht' Hr' Ho. split; try done.
  - exists x, y. nodup_in Hnd. split; [rewrite Ho; [done|nd]|]. intros d.
    apply (chain_agree (sp_nodes w)); [|done]. apply (off_agree _ _ _ _ Ho).
    intros z Hz Hz'. apply (proj1 (proj2 (proj2 Hnd)) z); [done|].
    unfold elements. destruct d; set_solver.
  - by rewrite <-Hp.
  - apply (off_sub (node :: inorder t ++ elements K)); [|by rewrite <-Hp].
    eapply off_trans; [exact Hoff|]. apply (off_sub _ _ _ _ Ho). set_solver.
Qed.

Lemma sp_rotate_ok d K c t c2 b m a s w :
  splaying K (mk d c (mk d c2 t b m) a s) w →
  ∃ w', sp_rotate d (Some b) w = Ok (tt, w') ∧ splaying K (mk d c2 t b (mk d c m a s)) w'.
Proof.
  intros Hw. pose proof Hw as [_ Ht Hr Hnd _ _].
  apply sown_mk in Ht as (Ea & Hb & Hs). apply sown_mk in Hb as (Eb & Ht & Hm).
  rewrite root_mk in *.
  set (h1 := <[a := slinks d (root m) (root s)]> (sp_nodes w)).
  set (h2 := <[b := slinks d (root t) (Some a)]> h1).
  assert (Hin : NoDup (a :: b :: inorder t ++ inorder m ++ inorder s)).
  { apply NoDup_cons in Hnd as [_ Hnd]. apply NoDup_app in Hnd as [Hnd _].
    rewrite !inorder_mk in Hnd. cbn in Hnd. by rewrite <-app_assoc in Hnd. }
  assert (Eb1 : h1 !! b = Some (slinks d (root t) (root m))).
  { unfold h1. rewrite lookup_insert_ne; [done|]. intros ->. nodup_in Hin. nd. }
  exists (SpState (Some b) h2). split.
  - unfold sp_rotate, SPLAY_ROOT. rewrite (st_bind_ok _ _ _ _ _ (gets_ok _ w)), Hr.
    rewrite (st_bind_ok _ _ _ _ _ (sp_rd_ok _ b _ w Eb)), slinks_other.
    rewrite (st_bind_ok _ _ _ _ _ (sp_wr_ok _ a _ w Ea)), slinks_with_child.
    rewrite (st_bind_ok _ _ _ _ _ (gets_ok _ _)). cbn [sph_root set_sp_nodes]. rewrite Hr.
    rewrite (st_bind_ok _ _ _ _ _ (sp_wr_ok _ b _ (set_sp_nodes h1 w) Eb1)). by rewrite slinks_with_other.
  - apply (splaying_change _ _ _ _ _ Hw).
    + rewrite !inorder_mk. cbn. rewrite <-!app_assoc. cbn. rewrite perm_swap. f_equiv.
      apply Permutation_middle.
    + cbn. nodup_in Hin. apply sown_mk. rewrite root_mk. split_and!; [by apply lookup_insert_eq| |].
      * apply sown_insert; [nd|]. apply sown_insert; [nd|done].
      * apply sown_mk. split_and!.
        { unfold h2. rewrite lookup_insert_ne by set_solver. by apply lookup_insert_eq. }
        all: apply sown_insert; [nd|]; apply sown_insert; [nd|done].
    + by rewrite root_mk.
    + unfold h2, h1. intros x Hx. rewrite !inorder_mk in Hx. cbn.
      rewrite !lookup_insert_ne; [done|set_solver..].
Qed.

Lemma sp_link_ok d K c t a s w :
  splaying K (mk d c t a s) w →
  ∃ w', sp_link d (Some (bottom node (K (flip d)))) w = Ok (Some a, w') ∧
    splaying (set_side (flip d) (Frame d c a s :: K (flip d)) K) t w'.
Proof.
  intros Hw. pose proof (splaying_get _ _ _ _ _ _ _ Hw) as Ea.
  destruct Hw as [(x & Hx) Ht Hr Hnd H1 Hoff]. rewrite root_mk in Hr.
  apply sown_mk in Ht as (_ & Ht & Hs). rewrite inorder_mk in Hnd. cbn in Hnd.
  assert (Hnd' : NoDup (node :: elements K)).
  { nodup_in Hnd. apply NoDup_cons. split; [nd|tauto]. }
  destruct (sides_set _ _ _ _ (flip d) (Some a) Hx Hnd' H1) as (h' & (n & En & Eh) & Hx').
  pose proof (bottom_in node K (flip d)) as Hbot.
  set (p := bottom node (K (flip d))) in *.
  assert (Hp : p ∉ a :: inorder t ++ inorder s).
  { assert (NoDup ((node :: elements K) ++ a :: inorder t ++ inorder s)) as Hn.
    { by rewrite (Permutation_app_comm (node :: elements K)), <-!Permutation_middle. }
    apply NoDup_app in Hn as (_ & Hn & _). by apply Hn. }
  assert (Ea' : h' !! a = Some (slinks d (root t) (root s))).
  { rewrite Eh, lookup_insert_ne; [done|set_solver]. }
  exists (SpState (root t) h'). split.
  - unfold sp_link, SPLAY_ROOT. rewrite (st_bind_ok _ _ _ _ _ (gets_ok _ w)), Hr.
    rewrite (st_bind_ok _ _ _ _ _ (sp_wr_ok _ p _ w En)).
    replace (with_sp_child d) with (with_sp_child (flip (flip d))) by (by destruct d).
    rewrite <-Eh, !(st_bind_ok _ _ _ _ _ (gets_ok _ _)). cbn [sph_root set_sp_nodes]. rewrite Hr.
    rewrite (st_bind_ok _ _ _ _ _ (sp_rd_ok _ a _ (set_sp_nodes h' w) Ea')), slinks_child. done.
  - assert (Hel : inorder t ++ elements (set_side (flip d) (Frame d c a s :: K (flip d)) K) ≡ₚ
      a :: (inorder t ++ inorder s) ++ elements K).
    { rewrite !(elements_side (flip d)), set_side_eq, set_side_flip. cbn.
      rewrite <-!app_assoc. by rewrite <-Permutation_middle. }
    split; cbn [sp_nodes sph_root]; try done.
    + destruct Hx' as (y & Ey & Hc). exists (set_side (flip d) (root t) x), y. split; [done|].
      intros d'. specialize (Hc d'). unfold set_side in *.
      destruct (decide (d' = flip d)) as [->|]; [|done]. cbn. split_and!; [done| |done].
      rewrite Eh. apply sown_insert; [set_solver|done].
    + rewrite Eh. apply sown_insert; [set_solver|done].
    + by rewrite Hel.
    + intros d'. unfold set_side. destruct (decide (d' = flip d)) as [->|]; [|apply H1].
      apply Forall_cons. split; [by destruct d|apply H1].
    + eapply off_trans; [eapply off_sub; [exact Hoff|]|].
      { rewrite Hel, inorder_mk. done. }
      rewrite Eh. apply off_insert. rewrite Hel. clear -Hbot. fold p in Hbot. set_solver.
Qed.
End steps.

(** ** The key in the order

    Along the list the comparisons with the key go from positive to negative,
    with at most one zero. *)
Definition cut (c : nat → Z) (l : list nat) : Prop := StronglySorted (λ x y, c x ≤ 0 → c y < 0) l.

Lemma cut_at c l1 a l2 : cut c (l1 ++ a :: l2) →
  (0 ≤ c a → Forall (λ x, c x > 0) l1) ∧ (c a ≤ 0 → Forall (λ x, c x < 0) l2).
Proof.
  intros (H1 & _ & H2)%StronglySorted_app. apply StronglySorted_cons in H2 as [H2 _].
  split; intros Ha; [apply Forall_forall; intros x Hx|].
  - pose proof (H1 x a Hx (list_elem_of_here _ _)). lia.
  - eapply Forall_impl; [exact H2|]. cbn. auto.
Qed.

(** The root divides the other elements at the key. *)
Definition divided (c : nat → Z) (t : tree) : Prop :=
  match t with
  | Leaf => False
  | Node _ l _ r => Forall (λ x, to DR (c x)) (inorder l) ∧ Forall (λ x, to DL (c x)) (inorder r)
  end.

Definition bounded (c : nat → Z) (K : dir → zipper) : Prop :=
  ∀ d, Forall (λ x, to (flip d) (c x)) (around (K d)).

Lemma cut_beyond c K d cl t a s :
  cut c (order K (mk d cl t a s)) → to d (c a) → Forall (λ x, to d (c x)) (inorder s).
Proof.
  unfold order. destruct d; cbn; rewrite <-app_assoc; cbn; rewrite (assoc_L (++)); intros H%cut_at Ha.
  - destruct H as [_ H]. by apply Forall_app in H as [? _]; [|lia].
  - destruct H as [H _]. by apply Forall_app in H as [_ ?]; [|lia].
Qed.

Lemma cut_found c K cl l a r : cut c (order K (Node cl l a r)) → c a = 0 → divided c (Node cl l a r).
Proof.
  unfold order. cbn. rewrite <-app_assoc. cbn. rewrite (assoc_L (++)). intros [H1 H2]%cut_at Ha.
  rewrite Forall_app in H1. rewrite Forall_app in H2. split; [by apply H1; lia|by apply H2; lia].
Qed.

Lemma order_link d K c t a s :
  order (set_side (flip d) (Frame d c a s :: K (flip d)) K) t = order K (mk d c t a s).
Proof. unfold order, set_side. destruct d; repeat (case_decide; try done); by app_norm. Qed.

Lemma order_rotate d K c t c2 b m a s :
  order K (mk d c2 t b (mk d c m a s)) = order K (mk d c (mk d c2 t b m) a s).
Proof. unfold order. destruct d; cbn; by app_norm. Qed.

(** ** The loop *)
Section loop.
Context (cmp : nat → nat → Z) (elm : nat) (h0 : sp_heap) (node : nat).
#[local] Abbreviation splaying := (splaying h0 node).
#[local] Abbreviation key := (cmp elm).

Definition bottoms (K : dir → zipper) : option nat * option nat :=
  (Some (bottom node (K DL)), Some (bottom node (K DR))).

(** Before a turn, and when the loop is left. *)
Definition going (K : dir → zipper) (t : tree) (w : sp_state) : Prop :=
  splaying K t w ∧ bounded key K ∧ t ≠ Leaf.
Definition arrived (K : dir → zipper) (t : tree) (w : sp_state) : Prop :=
  splaying K t w ∧ bounded key K ∧ divided key t.

Lemma half_end_ok d K c t a s w :
  going K (mk d c t a s) w → to d (key a) → Forall (λ x, to d (key x)) (inorder s) → t ≠ Leaf →
  ∃ K' w', half_end d (bottoms K) false w = Ok (inl (bottoms K'), w') ∧ going K' t w' ∧
    order K' t = order K (mk d c t a s).
Proof.
  intros (Hw & Hb & _) Ha Hs Ht. destruct (sp_link_ok _ _ _ _ _ _ _ _ _ Hw) as (w' & E & Hw').
  eexists _, w'. split_and!; [|split_and!; [exact Hw'| |done]|apply order_link].
  - destruct d; cbn [half_end bottoms fst snd flip] in *; by rewrite (st_bind_ok _ _ _ _ _ E).
  - intros d'. unfold set_side. destruct (decide (d' = flip d)) as [->|]; [|apply Hb].
    replace (flip (flip d)) with d by (by destruct d). cbn.
    constructor; [done|]. apply Forall_app. split; [done|].
    specialize (Hb (flip d)). by replace (flip (flip d)) with d in Hb by (by destruct d).
Qed.

Lemma divided_leaf d c a s : Forall (λ x, to d (key x)) (inorder s) → divided key (mk d c Leaf a s).
Proof. intros H. by destruct d. Qed.

(** A turn ends in one of the two ways. *)
Definition turned (L : list nat) (K : dir → zipper) (n : nat)
    (r : outcome ((option nat * option nat + option nat * option nat) * sp_state)) : Prop :=
  (∃ t w, r = Ok (inr (bottoms K), w) ∧ arrived K t w ∧ order K t = L) ∨
  (∃ K' t w, r = Ok (inl (bottoms K'), w) ∧ going K' t w ∧ order K' t = L ∧ (height t < n)%nat).

(** The part of the turn after the comparison with [tmp]. *)
Lemma half_rest d K c t a s w :
  going K (mk d c t a s) w → cut key (order K (mk d c t a s)) → to d (key a) → t ≠ Leaf →
  turned (order K (mk d c t a s)) K (height (mk d c t a s))
    ((c ← compare_at cmp elm (root t);
      stop ← (if decide (to d c) then
                sp_rotate d (root t);;
                r ← SPLAY_ROOT; x ← sp_rd (sp_child d) r; mret (is_null x)
              else mret false);
      half_end d (bottoms K) stop) w).
Proof.
  intros Hgo Hcut Ha Hne. pose proof Hgo as (Hw & Hb & _).
  pose proof (cut_beyond _ _ _ _ _ _ _ Hcut Ha) as Hs.
  destruct t as [|c2 tl b tr]; [done|]. cbn [root].
  change (compare_at cmp elm (Some b)) with (mret (key b) : SP Z).
  rewrite (st_bind_ok _ _ _ _ _ (ret_ok _ w)).
  rewrite (mk_side d c2 tl b tr) in *. set (t := side d tl tr) in *. set (m := side (flip d) tl tr) in *.
  destruct (decide (to d (key b))) as [Hkb|Hkb].
  - destruct (sp_rotate_ok _ _ _ _ _ _ _ _ _ _ _ _ Hw) as (w1 & E1 & Hw1).
    pose proof (splaying_get _ _ _ _ _ _ _ _ _ Hw1) as Eb.
    pose proof (sg_root _ _ _ _ _ Hw1) as Hr. rewrite root_mk in Hr.
    rewrite (st_bind_ok _ _ _ (is_null (root t)) w1).
    2: { unfold SPLAY_ROOT. rewrite (st_bind_ok _ _ _ _ _ E1), (st_bind_ok _ _ _ _ _ (gets_ok _ w1)), Hr.
         by rewrite (st_bind_ok _ _ _ _ _ (sp_rd_ok _ b _ w1 Eb)), slinks_child. }
    rewrite <-order_rotate in *. pose proof (cut_beyond _ _ _ _ _ _ _ Hcut Hkb) as Hs1.
    destruct t as [|c3 t3 e t4] eqn:Et.
    + left. eexists _, w1. split_and!; [done|split_and!; [exact Hw1|done|by apply divided_leaf]|done].
    + right. destruct (half_end_ok d K c2 (Node c3 t3 e t4) b (mk d c m a s) w1) as (K' & w' & E' & Hgo' & Ho');
        [by split_and!; [exact Hw1|done|destruct d]|done|done|done|].
      eexists K', _, w'. split_and!; [exact E'|exact Hgo'|done|]. destruct d; cbn; lia.
  - rewrite (st_bind_ok _ _ _ _ _ (ret_ok _ w)). right.
    destruct (half_end_ok _ _ _ _ _ _ _ Hgo Ha Hs) as (K' & w' & E' & Hgo' & Ho'); [by destruct d|].
    eexists K', _, w'. split_and!; [exact E'|exact Hgo'|done|]. destruct d; cbn; lia.
Qed.

Lemma half_ok d K c t a s w :
  going K (mk d c t a s) w → cut key (order K (mk d c t a s)) → to d (key a) →
  turned (order K (mk d c t a s)) K (height (mk d c t a s)) (half d cmp elm (bottoms K) w).
Proof.
  intros Hgo Hcut Ha. pose proof Hgo as (Hw & Hb & _).
  pose proof (splaying_get _ _ _ _ _ _ _ _ _ Hw) as Ea.
  pose proof (sg_root _ _ _ _ _ Hw) as Hr. rewrite root_mk in Hr.
  unfold half. rewrite (st_bind_ok _ _ _ _ _ (root_ok w)), Hr.
  rewrite (st_bind_ok _ _ _ _ _ (sp_rd_ok _ a _ w Ea)), slinks_child.
  destruct (is_null (root t)) eqn:Et.
  - destruct t; [|done]. left. exists (mk d c Leaf a s), w. split_and!; [done| |done]. split_and!; [done..|].
    apply divided_leaf. by apply (cut_beyond key K d c Leaf a).
  - apply half_rest; [done..|]. by intros ->.
Qed.

Lemma body_ok K t w :
  going K t w → cut key (order K t) →
  turned (order K t) K (height t) (splay_body cmp elm (bottoms K) w).
Proof.
  intros Hgo Hcut. pose proof Hgo as (Hw & Hb & Hne). destruct t as [|c l a r]; [done|].
  rewrite splay_body_half. unfold SPLAY_ROOT.
  rewrite (st_bind_ok _ _ _ _ _ (gets_ok _ w)), (sg_root _ _ _ _ _ Hw). cbn [root].
  change (compare_at cmp elm (Some a)) with (mret (key a) : SP Z).
  rewrite (st_bind_ok _ _ _ _ _ (ret_ok _ w)).
  destruct (decide (key a < 0)) as [H|H]; [by apply (half_ok DL K c l a r)|].
  destruct (decide (key a > 0)) as [H'|H']; [by apply (half_ok DR K c r a l)|].
  left. eexists _, w. split_and!; [done| |done]. split_and!; [exact Hw|done|].
  apply (cut_found _ _ _ _ _ _ Hcut). lia.
Qed.

(** The loop, also when it is written in another way. *)
Lemma loop_ok body fuel :
  (∀ K t w, going K t w → body (bottoms K) w = splay_body cmp elm (bottoms K) w) →
  ∀ K t w, going K t w → cut key (order K t) → (height t < fuel)%nat →
  ∃ K' t' w', loop fuel body (bottoms K) w = Ok (bottoms K', w') ∧
    arrived K' t' w' ∧ order K' t' = order K t.
Proof.
  intros Hbody. induction fuel as [|fuel IH]; intros K t w Hgo Hcut Hf; [lia|].
  destruct (body_ok _ _ _ Hgo Hcut) as [(t' & w' & E & Harr & Ho)|(K' & t' & w' & E & Hgo' & Ho & Hh)];
    rewrite <-(Hbody _ _ _ Hgo) in E.
  - exists K, t', w'. split_and!; [by apply loop_last|done|done].
  - destruct (IH K' t' w' Hgo') as (K2 & t2 & w2 & E2 & Ha2 & Ho2); [by rewrite Ho|lia|].
    exists K2, t2, w2. rewrite (loop_next _ _ _ _ _ _ E). split_and!; [done..|by rewrite Ho2].
Qed.

(** ** The end of the call: the hanging trees go back below the root *)
Lemma onesided_nil K : onesided K → after (K DL) = [] ∧ before (K DR) = [].
Proof.
  intros H1. pose proof (H1 DL) as HL. pose proof (H1 DR) as HR. split.
  - induction HL as [|[[] c a s] k Hd _ IH]; done.
  - induction HR as [|[[] c a s] k Hd _ IH]; done.
Qed.

Definition assembled (K : dir → zipper) (c : color) (l : tree) (a : nat) (r : tree) : tree :=
  Node c (plug (K DL) l) a (plug (K DR) r).

Lemma assembled_order K c l a r :
  onesided K → inorder (assembled K c l a r) = order K (Node c l a r).
Proof.
  intros [E1 E2]%onesided_nil. unfold order. cbn. rewrite !inorder_plug, E1, E2, app_nil_r.
  cbn. by app_norm.
Qed.

Lemma assembled_perm K c l a r :
  inorder (assembled K c l a r) ≡ₚ inorder (Node c l a r) ++ elements K.
Proof.
  unfold assembled, elements. cbn. rewrite !plug_perm, <-!app_assoc. f_equiv.
  rewrite <-!Permutation_middle. cbn. f_equiv. rewrite (Permutation_app_comm (around (K DL))).
  rewrite <-!app_assoc. f_equiv. apply Permutation_app_comm.
Qed.

Lemma assembled_divided K c l a r :
  bounded key K → divided key (Node c l a r) → divided key (assembled K c l a r).
Proof.
  intros Hb [Hl Hr]. pose proof (Hb DL) as HL. pose proof (Hb DR) as HR.
  split; rewrite plug_perm; by apply Forall_app.
Qed.

(** The two holes are filled with the subtrees of the root. *)
Lemma holes_filled h K x c l a r :
  sides_at h node K x → NoDup ((node :: elements K) ++ a :: inorder l ++ inorder r) →
  onesided K → sown h (Node c l a r) →
  ∃ h1 h2, hole_set h node K DL (root l) h1 ∧ hole_set h1 node K DR (root r) h2 ∧
    h1 !! a = Some (SpNode (root l) (root r)) ∧ h2 !! a = Some (SpNode (root l) (root r)) ∧
    h2 !! node = Some (SpNode (root (plug (K DR) r)) (root (plug (K DL) l))) ∧
    sown h2 (plug (K DL) l) ∧ sown h2 (plug (K DR) r) ∧ off (node :: elements K) h h2.
Proof.
  intros Hx (Hnk & Hsep & Hna)%NoDup_app H1 (Ea & Hl & Hr).
  destruct (sides_set _ _ _ _ DL (root l) Hx Hnk H1) as (h1 & Hs1 & Hx1).
  destruct (sides_set _ _ _ _ DR (root r) Hx1 Hnk H1) as (h2 & Hs2 & y & Ey & Hc).
  assert (Ho : ∀ d v h h', hole_set h node K d v h' → off (node :: elements K) h h').
  { intros d v h' ? (n & _ & ->). apply off_insert, bottom_in. }
  pose proof (Ho _ _ _ _ Hs1) as Ho1. pose proof (off_trans _ _ _ _ Ho1 (Ho _ _ _ _ Hs2)) as Ho2.
  assert (Hsep' : ∀ l', l' ⊆ a :: inorder l ++ inorder r → l' ## node :: elements K).
  { intros l' Hl' z Hz Hz'. apply (Hsep z); [done|]. by apply Hl'. }
  destruct (chain_plug h2 (K DL) l (y DL)) as [HL EL].
  { specialize (Hc DL). by rewrite (set_side_flip DR), set_side_eq in Hc. }
  { apply (sown_agree h); [|done]. apply (off_agree _ _ _ _ Ho2), Hsep'. set_solver. }
  destruct (chain_plug h2 (K DR) r (y DR)) as [HR ER].
  { specialize (Hc DR). by rewrite set_side_eq in Hc. }
  { apply (sown_agree h); [|done]. apply (off_agree _ _ _ _ Ho2), Hsep'. set_solver. }
  exists h1, h2. rewrite <-EL, <-ER. split_and!; try done.
  - rewrite <-Ea. apply Ho1. intros Hz. apply (Hsep a); [done|left].
  - rewrite <-Ea. apply Ho2. intros Hz. apply (Hsep a); [done|left].
Qed.

Lemma assemble_ok K c l a r w :
  splaying K (Node c l a r) w →
  ∃ w', SPLAY_ASSEMBLE (Some node) (fst (bottoms K)) (snd (bottoms K)) w = Ok (tt, w') ∧
    sown (sp_nodes w') (assembled K c l a r) ∧ sph_root w' = Some a ∧
    off (node :: inorder (Node c l a r) ++ elements K) h0 (sp_nodes w').
Proof.
  intros [(x & Hx) Ht Hrt Hnd H1 Hoff]. cbn [root] in Hrt.
  assert (Hn : NoDup ((node :: elements K) ++ a :: inorder l ++ inorder r)).
  { rewrite (Permutation_app_comm (node :: elements K)), <-Permutation_middle.
    change (Node c l a r) with (mk DL c l a r) in Hnd. by rewrite inorder_mk in Hnd. }
  destruct (holes_filled _ _ _ _ _ _ _ Hx Hn H1 Ht)
    as (h1 & h2 & (n1 & En1 & E1) & (n2 & En2 & E2) & Ea1 & Ea2 & Enode & HL & HR & Ho).
  set (X := root (plug (K DL) l)) in *. set (Y := root (plug (K DR) r)) in *.
  assert (Ha : a ∉ node :: elements K).
  { apply NoDup_app in Hn as (_ & Hs & _). intros Hz. apply (Hs a); [done|left]. }
  set (h3 := <[a := SpNode X (root r)]> h2).
  assert (Enode3 : h3 !! node = Some (SpNode Y X)).
  { unfold h3. rewrite lookup_insert_ne; [done|set_solver]. }
  assert (Ea3 : h3 !! a = Some (SpNode X (root r))) by apply lookup_insert_eq.
  set (h4 := <[a := SpNode X Y]> h3). exists (SpState (Some a) h4). split_and!.
  - unfold SPLAY_ASSEMBLE, SPLAY_LEFT, SPLAY_RIGHT, set_SPLAY_LEFT, set_SPLAY_RIGHT, bottoms.
    cbn [fst snd]. rewrite !(st_bind_ok _ _ _ _ _ (root_ok w)), Hrt.
    rewrite (st_bind_ok _ _ _ _ _ (sp_rd_ok _ a _ w (proj1 Ht))).
    rewrite (st_bind_ok _ _ _ _ _ (sp_wr_ok _ _ _ w En1)).
    change (with_spe_right) with (with_sp_child (flip DL)). cbn [spe_left]. rewrite <-E1.
    rewrite (st_bind_ok _ _ _ _ _ (root_ok _)). cbn [sph_root set_sp_nodes]. rewrite Hrt.
    rewrite (st_bind_ok _ _ _ _ _ (sp_rd_ok _ a _ (set_sp_nodes h1 w) Ea1)).
    rewrite (st_bind_ok _ _ _ _ _ (sp_wr_ok _ _ _ (set_sp_nodes h1 w) En2)).
    change (with_spe_left) with (with_sp_child (flip DR)). cbn [spe_right sp_nodes set_sp_nodes].
    rewrite <-E2, (st_bind_ok _ _ _ _ _ (root_ok _)). cbn [sph_root set_sp_nodes]. rewrite Hrt.
    rewrite (st_bind_ok _ _ _ _ _ (sp_rd_ok _ node _ (set_sp_nodes h2 (set_sp_nodes h1 w)) Enode)).
    rewrite (st_bind_ok _ _ _ _ _ (sp_wr_ok _ a _ (set_sp_nodes h2 (set_sp_nodes h1 w)) Ea2)).
    rewrite (st_bind_ok _ _ _ _ _ (root_ok _)). cbn -[sp_rd sp_wr h3 h4]. rewrite Hrt.
    change (<[a:=with_spe_left X _]> h2) with h3.
    set (w3 := set_sp_nodes h3 (set_sp_nodes h2 (set_sp_nodes h1 w))).
    rewrite (st_bind_ok _ _ _ _ _ (sp_rd_ok _ node _ w3 Enode3)), (sp_wr_ok _ a _ w3 Ea3).
    unfold w3, set_sp_nodes. cbn [sph_root]. by rewrite Hrt.
  - apply (NoDup_app _ (a :: _)) in Hn as (_ & Hs & Hna).
    assert (Hins : ∀ k t, a ∉ around k → a ∉ inorder t → sown h2 (plug k t) → sown h4 (plug k t)).
    { intros k t Hk Ht' Hp. apply sown_insert; [|apply sown_insert; [|done]];
        rewrite plug_perm; set_solver. }
    unfold elements in Ha. nodup_in Hna. split_and!; [by apply lookup_insert_eq|..];
      apply Hins; [set_solver..|done|set_solver|set_solver|done].
  - done.
  - eapply off_trans; [exact Hoff|]. eapply (off_sub (a :: node :: elements K)).
    + intros z Hz. unfold h4, h3. cbn. rewrite !lookup_insert_ne by set_solver. apply Ho. set_solver.
    + cbn. set_solver.
Qed.
End loop.

(** ** The call *)

Lemma height_le t : (height t ≤ length (inorder t))%nat.
Proof. induction t as [|c l IHl a r IHr]; cbn; [done|]. rewrite length_app. cbn. lia. Qed.

Lemma sown_in h t a : sown h t → a ∈ inorder t → is_Some (h !! a).
Proof.
  induction t as [|c l IHl x r IHr]; cbn; [set_solver|].
  intros (E & Hl & Hr) [H|[->|H]%elem_of_cons]%elem_of_app; eauto.
Qed.

(** What splaying with the comparisons [c] does. *)
Definition splayed (c : nat → Z) (t : tree) (w : sp_state) (m : SP unit) : Prop :=
  ∃ t' w', m w = Ok (tt, w') ∧ srep t' w' ∧ inorder t' = inorder t ∧ divided c t' ∧
    off (inorder t) (sp_nodes w) (sp_nodes w').

Lemma with_loop_ok cmp elm body fuel t w :
  srep t w → t ≠ Leaf → cut (cmp elm) (inorder t) → (height t < fuel)%nat →
  (∀ h0 node K t w, going cmp elm h0 node K t w →
     body (bottoms node K) w = splay_body cmp elm (bottoms node K) w) →
  splayed (cmp elm) t w (with_node (λ node,
    lr ← loop fuel body (node, node); SPLAY_ASSEMBLE node (fst lr) (snd lr))).
Proof.
  intros (Ht & Hr & Hnd) Hne Hcut Hf Hbody.
  set (node := fresh (dom (sp_nodes w))).
  assert (En : sp_nodes w !! node = None) by (apply not_elem_of_dom, is_fresh).
  assert (Hnode : node ∉ inorder t).
  { intros [n E]%(sown_in _ _ _ Ht). congruence. }
  set (w1 := set_sp_nodes (<[node := SpNode None None]> (sp_nodes w)) w).
  set (K := λ _ : dir, [] : zipper).
  assert (HK : inorder t ++ elements K = inorder t) by apply app_nil_r.
  assert (Hgo : going cmp elm (sp_nodes w) node K t w1).
  { split_and!; [split| |done]; cbn [w1 sp_nodes sph_root set_sp_nodes]; rewrite ?HK.
    - exists (λ _, None), (λ _, None). split; [apply lookup_insert_eq|done].
    - by apply sown_insert.
    - done.
    - by constructor.
    - intros d. constructor.
    - apply off_insert. left.
    - intros d. constructor. }
  assert (Ho : order K t = inorder t) by apply app_nil_r.
  destruct (loop_ok cmp elm _ node body fuel (Hbody _ _) K t w1 Hgo) as (K' & t' & w2 & E & Harr & Ho');
    [by rewrite Ho|done|].
  destruct Harr as (Hw2 & Hb & Hd). destruct t' as [|c l a r]; [done|].
  destruct (assemble_ok cmp _ _ _ _ _ _ _ _ Hw2) as (w3 & E3 & Ht3 & Hr3 & Ho3).
  pose proof (assembled_order K' c l a r (sg_onesided _ _ _ _ _ Hw2)) as Hin.
  rewrite Ho', Ho in Hin.
  exists (assembled K' c l a r), (set_sp_nodes (delete node (sp_nodes w3)) w3).
  split_and!; [|split_and!|done|by apply assembled_divided|].
  - unfold with_node, mbind, st_bind. cbn. fold node w1. change (Some node, Some node) with (bottoms node K).
    rewrite E. unfold mbind, st_bind. by rewrite E3.
  - apply (sown_agree (sp_nodes w3)); [|done]. rewrite Hin. intros x Hx. cbn.
    rewrite lookup_delete_ne; [done|]. by intros ->.
  - done.
  - by rewrite Hin.
  - intros x Hx. cbn. destruct (decide (x = node)) as [->|Hne'].
    + by rewrite lookup_delete_eq, En.
    + rewrite lookup_delete_ne by done. apply Ho3. rewrite <-(assembled_perm K'), Hin. set_solver.
Qed.

Lemma splay_ok cmp elm fuel t w :
  srep t w → t ≠ Leaf → cut (cmp elm) (inorder t) → (height t < fuel)%nat →
  splayed (cmp elm) t w (SPLAY cmp fuel elm).
Proof. intros Ht Hne Hc Hf. by apply with_loop_ok. Qed.

Lemma splay_minmax_ok d comp fuel t w :
  srep t w → t ≠ Leaf → to d comp → (height t < fuel)%nat →
  splayed (λ _, comp) t w (SPLAY_MINMAX fuel comp).
Proof.
  intros Ht Hne Hd Hf. apply (with_loop_ok (λ _ _, comp) 0); [done|done| |done|].
  - clear -Hd. induction (inorder t) as [|x l IH]; constructor; [done|].
    apply Forall_forall. intros y _ H. destruct d; cbn in Hd; lia.
  - intros h0 node K t0 w0 (Hw & _ & Hne0). destruct t0 as [|c l a r]; [done|].
    apply (minmax_half comp d 0 _ a); [|done]. apply (sg_root _ _ _ _ _ Hw).
Qed.
