(* ===== verification/TreeDemo.v ===== *)
(** * Small trees in memory, for examples: three elements whose keys are their
    addresses, and a fourth that is not in the tree. *)

From S2P Require Import Prelude RbTree RbShape SplayTree SplayShape.

Definition demo_cmp (a b : nat) : Z := Z.of_nat a - Z.of_nat b.

#[export] Instance demo_order : KeyOrder demo_cmp.
Proof. constructor; unfold demo_cmp; intros; lia. Qed.

Definition demo_tree : tree :=
  Node RB_BLACK (Node RB_RED Leaf 10 Leaf) 20 (Node RB_RED Leaf 30 Leaf).

Lemma demo_sorted : sorted demo_cmp (inorder demo_tree).
Proof. by repeat constructor. Qed.
Lemma demo_nodup : NoDup (inorder demo_tree).
Proof. apply (bool_decide_eq_true_1 _). by vm_compute. Qed.
Lemma demo_redblack : redblack demo_tree.
Proof. by exists 1%nat. Qed.

(** As a red-black tree *)
Definition rb_demo : rb_state :=
  RbState (Some 20%nat) {[
    10 := RbNode None None (Some 20) RB_RED;
    20 := RbNode (Some 10) (Some 30) None RB_BLACK;
    25 := RbNode None None None RB_BLACK;
    30 := RbNode None None (Some 20) RB_RED ]}%nat.

Lemma rb_demo_rep : rep demo_tree rb_demo.
Proof. split; [|by split; [|apply demo_nodup]]. by vm_compute. Qed.

(** As a splay tree *)
Definition sp_demo : sp_state :=
  SpState (Some 20%nat) {[
    10 := SpNode None None;
    20 := SpNode (Some 10) (Some 30);
    25 := SpNode None None;
    30 := SpNode None None ]}%nat.

Lemma sp_demo_rep : srep demo_tree sp_demo.
Proof. split; [|by split; [|apply demo_nodup]]. by vm_compute. Qed.
