(* ===== verification/CTypes.v ===== *)
(** * The layout of C structures

    Object types of C, and where their members lie: each at the first aligned
    offset after the one before it, a union's at the start, the whole padded
    to its alignment.  The sizes of the basic types and of the types of the
    system are those of an ABI, a parameter. *)

From S2P Require Import Prelude.

Inductive prim :=
  | PChar | PUChar | PShort | PUShort | PInt | PUInt | PLong | PULong
  | PInt32 | PUInt32 | PInt64 | PUInt64 | PDouble | PSizeT | PSSizeT
  | PPointer (to : string)     (** to an object, or to a function *)
  | PEnum (tag : string)
  | PNamed (name : string).    (** a type of the system's headers *)

Inductive cty :=
  | CPrim (p : prim)
  | CArray (t : cty) (n : nat)
  | CStruct (fs : list (string * cty))
  | CUnion (fs : list (string * cty)).

Abbreviation field := (string * cty)%type.

Definition int_ := CPrim PInt.
Definition unsigned_ := CPrim PUInt.
Definition long_ := CPrim PLong.
Definition unsigned_long := CPrim PULong.
Definition char_ := CPrim PChar.
Definition unsigned_char := CPrim PUChar.
Definition unsigned_short := CPrim PUShort.
Definition int32_t := CPrim PInt32.
Definition uint32_t := CPrim PUInt32.
Definition int64_t := CPrim PInt64.
Definition uint64_t := CPrim PUInt64.
Definition double_ := CPrim PDouble.
Definition size_t := CPrim PSizeT.
Definition ssize_t := CPrim PSSizeT.
Definition pointer (to : string) := CPrim (PPointer to).
Definition callback (ty : string) := CPrim (PPointer ty).
Definition function := CPrim (PPointer "function").
Definition enum (tag : string) := CPrim (PEnum tag).
Definition named (name : string) := CPrim (PNamed name).

(** An ABI: alignments are powers of two, and sizes multiples of them. *)
Class Abi := {
  prim_size : prim → Z;
  prim_align : prim → Z;
  prim_size_pos p : 0 < prim_size p;
  prim_align_pow p : ∃ k, 0 ≤ k ∧ prim_align p = 2 ^ k;
  prim_size_align p : (prim_align p | prim_size p)
}.

(** Induction through the members. *)
Section cty_rect.
Context (P : cty → Prop).
Context (HP : ∀ p, P (CPrim p)) (HA : ∀ t n, P t → P (CArray t n)).
Context (HS : ∀ fs, Forall (λ f, P (f.2)) fs → P (CStruct fs)).
Context (HU : ∀ fs, Forall (λ f, P (f.2)) fs → P (CUnion fs)).

Fixpoint cty_members_ind (t : cty) : P t :=
  let all := fix all (fs : list (string * cty)) : Forall (λ f, P (f.2)) fs :=
    match fs with
    | [] => Forall_nil_2 _
    | f :: fs => Forall_cons_2 _ _ _ (cty_members_ind f.2) (all fs)
    end in
  match t with
  | CPrim p => HP p
  | CArray t n => HA t n (cty_members_ind t)
  | CStruct fs => HS fs (all fs)
  | CUnion fs => HU fs (all fs)
  end.
End cty_rect.

(** The first multiple of [a] from [n] on. *)
Definition round_up (n a : Z) : Z := (n + a - 1) / a * a.

Section layout.
Context `{Abi}.

Fixpoint alignof (t : cty) : Z :=
  match t with
  | CPrim p => prim_align p
  | CArray t _ => alignof t
  | CStruct fs | CUnion fs => foldr (λ (f : field) a, Z.max (alignof f.2) a) 1 fs
  end.

Fixpoint sizeof (t : cty) : Z :=
  match t with
  | CPrim p => prim_size p
  | CArray t n => Z.of_nat n * sizeof t
  | CStruct fs => round_up (foldl (λ o (f : field), round_up o (alignof f.2) + sizeof f.2) 0 fs) (alignof t)
  | CUnion fs => round_up (foldr (λ (f : field) s, Z.max (sizeof f.2) s) 0 fs) (alignof t)
  end.

(** The members of a structure, the first at [o] or later. *)
Fixpoint place (o : Z) (fs : list field) : list (string * (Z * cty)) :=
  match fs with
  | [] => []
  | (x, t) :: fs =>
      let o := round_up o (alignof t) in
      (x, (o, t)) :: place (o + sizeof t) fs
  end.

Definition members (t : cty) : list (string * (Z * cty)) :=
  match t with
  | CStruct fs => place 0 fs
  | CUnion fs => (λ '(x, t), (x, (0, t))) <$> fs
  | _ => []
  end.

Fixpoint assoc {A} (x : string) (l : list (string * A)) : option A :=
  match l with
  | [] => None
  | (y, a) :: l => if decide (x = y) then Some a else assoc x l
  end.

(** [.x] and [[i]] *)
Inductive sel := Mem (x : string) | Elem (i : nat).

Definition select (t : cty) (s : sel) : option (Z * cty) :=
  match s with
  | Mem x => assoc x (members t)
  | Elem i =>
      match t with
      | CArray t n => if decide (i < n)%nat then Some (Z.of_nat i * sizeof t, t) else None
      | _ => None
      end
  end.

(** [offsetof], and the type, of what a path leads to. *)
Fixpoint object_at (t : cty) (p : list sel) : option (Z * cty) :=
  match p with
  | [] => Some (0, t)
  | s :: p => '(o, u) ← select t s; '(o', v) ← object_at u p; Some (o + o', v)
  end.
Definition offsetof (t : cty) (p : list sel) : option Z := fst <$> object_at t p.
End layout.

(** ** Arithmetic of alignment *)

Definition pow2 (a : Z) : Prop := ∃ k, 0 ≤ k ∧ a = 2 ^ k.

Lemma pow2_pos a : pow2 a → 0 < a.
Proof. intros (k & ? & ->). by apply Z.pow_pos_nonneg. Qed.

Lemma pow2_max a b : pow2 a → pow2 b → pow2 (Z.max a b).
Proof. intros ??. by destruct (Z.max_spec a b) as [[_ ->]|[_ ->]]. Qed.

Lemma pow2_divide a b : pow2 a → pow2 b → a ≤ b → (a | b).
Proof.
  intros (i & Hi & ->) (j & Hj & ->) Hle.
  assert (i ≤ j) by (by apply (Z.pow_le_mono_r_iff 2)).
  exists (2 ^ (j - i)). rewrite <-Z.pow_add_r by lia. f_equal. lia.
Qed.

Lemma round_up_spec n a : 0 < a → n ≤ round_up n a < n + a ∧ (a | round_up n a).
Proof.
  intros Ha. unfold round_up. split; [|by eexists].
  pose proof (Z.div_mod (n + a - 1) a ltac:(lia)). pose proof (Z.mod_pos_bound (n + a - 1) a Ha). lia.
Qed.

(** Rounding to a multiple rounds to the finer one too. *)
Lemma round_up_least n a m : 0 < a → n ≤ m → (a | m) → round_up n a ≤ m.
Proof. intros Ha Hn [k ->]. pose proof (round_up_spec n a Ha) as [Hb [j Ej]]. rewrite Ej in Hb |- *.
  assert (j < k + 1) by nia. nia.
Qed.

Section layout_facts.
Context `{Abi}.

Lemma foldr_align_pow (fs : list field) : Forall (λ f : field, pow2 (alignof f.2)) fs →
  pow2 (foldr (λ (f : field) a, Z.max (alignof f.2) a) 1 fs).
Proof. induction 1; cbn; [by exists 0|by apply pow2_max]. Qed.

Lemma alignof_pow t : pow2 (alignof t).
Proof.
  induction t as [p|t n IH|fs IH|fs IH] using cty_members_ind; cbn [alignof];
    [apply prim_align_pow|done|by apply foldr_align_pow..].
Qed.

Lemma alignof_pos t : 0 < alignof t.
Proof. apply pow2_pos, alignof_pow. Qed.

Lemma foldr_align_member f fs : f ∈ fs → alignof f.2 ≤ foldr (λ (f : field) a, Z.max (alignof f.2) a) 1 fs.
Proof. induction 1; cbn; lia. Qed.

Lemma foldr_size_member (f : field) fs : f ∈ fs → sizeof f.2 ≤ foldr (λ (f : field) s, Z.max (sizeof f.2) s) 0 fs.
Proof. induction 1; cbn; lia. Qed.

(** A member is aligned when its structure is. *)
Lemma alignof_member f fs : f ∈ fs → (alignof f.2 | alignof (CStruct fs)).
Proof.
  intros Hf. apply pow2_divide; [apply alignof_pow..|]. by apply foldr_align_member.
Qed.

Lemma sizeof_align t : (alignof t | sizeof t).
Proof.
  induction t as [p|t n IH|fs IH|fs IH] using cty_members_ind; cbn [sizeof].
  - apply prim_size_align.
  - by apply Z.divide_mul_r.
  - apply round_up_spec, alignof_pos.
  - apply round_up_spec, alignof_pos.
Qed.

(** Where the members of a structure end. *)
Definition end_of (o : Z) (fs : list field) : Z :=
  foldl (λ o (f : field), round_up o (alignof f.2) + sizeof f.2) o fs.

Lemma end_of_after o fs : Forall (λ f : field, 0 ≤ sizeof f.2) fs → o ≤ end_of o fs.
Proof.
  unfold end_of. intros Hfs. revert o. induction Hfs as [|f fs Hf _ IH]; intros o; cbn; [done|].
  etrans; [|apply IH]. pose proof (round_up_spec o (alignof f.2) (alignof_pos _)). lia.
Qed.

Lemma sizeof_nonneg t : 0 ≤ sizeof t.
Proof.
  induction t as [p|t n IH|fs IH|fs IH] using cty_members_ind; cbn [sizeof].
  - pose proof (prim_size_pos p). lia.
  - lia.
  - pose proof (round_up_spec (foldl (λ o (f : field), round_up o (alignof f.2) + sizeof f.2) 0 fs)
      (alignof (CStruct fs)) (alignof_pos _)) as [Hr _].
    pose proof (end_of_after 0 fs IH). unfold end_of in *. lia.
  - pose proof (round_up_spec (foldr (λ (f : field) s, Z.max (sizeof f.2) s) 0 fs)
      (alignof (CUnion fs)) (alignof_pos _)) as [Hr _].
    enough (0 ≤ foldr (λ (f : field) s, Z.max (sizeof f.2) s) 0 fs) by lia. clear IH Hr. induction fs; cbn; lia.
Qed.

Lemma end_of_ge fs o : o ≤ end_of o fs.
Proof. apply end_of_after, Forall_true. intros f. apply sizeof_nonneg. Qed.

Lemma end_of_app o fs gs : end_of o (fs ++ gs) = end_of (end_of o fs) gs.
Proof. apply foldl_app. Qed.

Lemma place_app o fs gs : place o (fs ++ gs) = place o fs ++ place (end_of o fs) gs.
Proof.
  revert o. induction fs as [|[x t] fs IH]; intros o; [done|]. cbn. by rewrite IH.
Qed.

(** Members are where they have to be: aligned, one after the other. *)
Lemma place_lookup o fs i x a t :
  place o fs !! i = Some (x, (a, t)) →
  fs !! i = Some (x, t) ∧ o ≤ a ∧ (alignof t | a) ∧ a + sizeof t ≤ end_of o fs.
Proof.
  revert o i. induction fs as [|[y u] fs IH]; intros o i E; [done|].
  pose proof (round_up_spec o (alignof u) (alignof_pos u)) as [Hr Hd].
  destruct i as [|i]; cbn in E.
  - injection E as <- <- <-. split_and!; [done|lia|done|exact (end_of_ge fs _)].
  - apply IH in E as (? & ? & ? & ?). pose proof (sizeof_nonneg u). split_and!; [done|lia|done..].
Qed.

Lemma place_order o fs i j x y a b t u :
  place o fs !! i = Some (x, (a, t)) → place o fs !! j = Some (y, (b, u)) → (i < j)%nat →
  a + sizeof t ≤ b.
Proof.
  revert o i j. induction fs as [|[z v] fs IH]; intros o i j Ei Ej Hij; [done|].
  destruct j as [|j]; [lia|]. cbn in Ej. destruct i as [|i]; cbn in Ei.
  - injection Ei as <- <- <-. by apply place_lookup in Ej as (_ & ? & _).
  - eapply IH; [done..|lia].
Qed.

Lemma assoc_Some {A} x (l : list (string * A)) a : assoc x l = Some a → ∃ i, l !! i = Some (x, a).
Proof.
  induction l as [|[y b] l IH]; cbn; [done|]. case_decide as E.
  - intros [= ->]. exists 0%nat. by rewrite E.
  - intros (i & ?)%IH. by exists (S i).
Qed.

Lemma assoc_app {A} x (l k : list (string * A)) a : assoc x l = Some a → assoc x (l ++ k) = Some a.
Proof. induction l as [|[y b] l IH]; cbn; [done|]. by case_decide; [|apply IH]. Qed.

(** A selection gives an aligned part of the object. *)
Lemma select_part t s o u :
  select t s = Some (o, u) →
  0 ≤ o ∧ o + sizeof u ≤ sizeof t ∧ (alignof u | o) ∧ (alignof u | alignof t).
Proof.
  destruct s as [x|i]; cbn [select].
  - destruct t as [p|t n|fs|fs]; cbn [members]; [done..| |].
    + intros (i & E)%assoc_Some. apply place_lookup in E as (E & ? & ? & ?).
      apply list_elem_of_lookup_2 in E. pose proof (alignof_member _ _ E).
      pose proof (round_up_spec (end_of 0 fs) (alignof (CStruct fs)) (alignof_pos _)).
      cbn [sizeof]. unfold end_of in *. split_and!; [done|lia|done..].
    + intros (i & E)%assoc_Some. rewrite list_lookup_fmap in E.
      destruct (fs !! i) as [[y v]|] eqn:Ei; [|done]. injection E as <- <- <-.
      apply list_elem_of_lookup_2 in Ei.
      assert (Hs : sizeof v ≤ foldr (λ (f : field) s, Z.max (sizeof f.2) s) 0 fs).
      { by apply (foldr_size_member (y, v)). }
      pose proof (round_up_spec (foldr (λ (f : field) s, Z.max (sizeof f.2) s) 0 fs)
        (alignof (CUnion fs)) (alignof_pos _)).
      cbn [sizeof]. split_and!; [done|lia|apply Z.divide_0_r|exact (alignof_member _ _ Ei)].
  - destruct t as [p|t n|fs|fs]; [done| |done..]. case_decide; [|done]. intros [= <- <-].
    pose proof (sizeof_nonneg t). cbn [sizeof alignof]. split_and!; [nia|nia| |done].
    apply Z.divide_mul_r, sizeof_align.
Qed.

(** So does a path: what it leads to lies within the object, aligned when the
    object is. *)
Lemma object_part t p o u :
  object_at t p = Some (o, u) →
  0 ≤ o ∧ o + sizeof u ≤ sizeof t ∧ (alignof u | o) ∧ (alignof u | alignof t).
Proof.
  revert t o. induction p as [|s p IH]; intros t o; cbn [object_at].
  - intros [= <- <-]. split_and!; [done|lia|apply Z.divide_0_r|done].
  - destruct (select t s) as [[a v]|] eqn:Es; cbn; [|done].
    destruct (object_at v p) as [[b w]|] eqn:Ep; cbn; [|done]. intros [= <- <-].
    apply select_part in Es as (? & ? & ? & ?). apply IH in Ep as (? & ? & ? & ?).
    split_and!; [lia|lia|apply Z.divide_add_r; [by etrans|done]|by etrans].
Qed.

(** Different members of a structure do not overlap. *)
Lemma members_disjoint fs x y a b t u :
  x ≠ y → select (CStruct fs) (Mem x) = Some (a, t) → select (CStruct fs) (Mem y) = Some (b, u) →
  a + sizeof t ≤ b ∨ b + sizeof u ≤ a.
Proof.
  intros Hne (i & Ei)%assoc_Some (j & Ej)%assoc_Some. cbn [members] in *.
  destruct (lt_eq_lt_dec i j) as [[?| ->]|?].
  - left. by eapply place_order.
  - rewrite Ei in Ej. by simplify_eq.
  - right. by eapply place_order.
Qed.

Lemma object_at_cons t s p o u :
  object_at t (s :: p) = Some (o, u) ↔
  ∃ a v b, select t s = Some (a, v) ∧ object_at v p = Some (b, u) ∧ o = a + b.
Proof.
  cbn [object_at]. split.
  - destruct (select t s) as [[a v]|]; cbn; [|done].
    destruct (object_at v p) as [[b w]|] eqn:E; cbn; [|done]. intros [= <- <-]. by exists a, v, b.
  - intros (a & v & b & -> & E & ->). cbn. by rewrite E.
Qed.

(** Nor do the objects in them. *)
Lemma objects_disjoint fs x y p q a b t u :
  x ≠ y → object_at (CStruct fs) (Mem x :: p) = Some (a, t) →
  object_at (CStruct fs) (Mem y :: q) = Some (b, u) → a + sizeof t ≤ b ∨ b + sizeof u ≤ a.
Proof.
  intros Hne (a1 & t1 & a2 & Sx & Op & ->)%object_at_cons (b1 & u1 & b2 & Sy & Oq & ->)%object_at_cons.
  apply object_part in Op as (? & ? & _), Oq as (? & ? & _).
  destruct (members_disjoint _ _ _ _ _ _ _ Hne Sx Sy); lia.
Qed.
End layout_facts.

(** ** Derivation

    A structure derives from another when it starts with its members, as
    structures that begin with the same macro do. *)
Definition derives (d b : cty) : Prop := ∃ fs gs, b = CStruct fs ∧ d = CStruct (fs ++ gs).

#[export] Instance derives_trans : Transitive derives.
Proof.
  intros t u v (f1 & g1 & -> & ->) (f2 & g2 & -> & [= ->]). exists f2, (g2 ++ g1).
  by rewrite app_assoc.
Qed.

Lemma derives_app fs gs : derives (CStruct (fs ++ gs)) (CStruct fs).
Proof. by exists fs, gs. Qed.

Section derives.
Context `{Abi}.

(** A pointer to the derived structure can be used as one to its base: what
    the base has, the derived structure has at the same place. *)
Lemma derives_object d b p r : derives d b → p ≠ [] → object_at b p = Some r → object_at d p = Some r.
Proof.
  intros (fs & gs & -> & ->) Hp. destruct p as [|s p]; [done|]. cbn [object_at].
  destruct (select (CStruct fs) s) as [[a v]|] eqn:E; cbn; [|done].
  assert (select (CStruct (fs ++ gs)) s = Some (a, v)) as ->; [|done].
  destruct s as [x|i]; [|done]. cbn [select members] in *. rewrite place_app. by apply assoc_app.
Qed.

Lemma derives_alignof d b : derives d b → (alignof b | alignof d).
Proof.
  intros (fs & gs & -> & ->). apply pow2_divide; [apply alignof_pow..|]. cbn [alignof].
  induction fs as [|f fs IH]; cbn; [|lia]. induction gs; cbn; lia.
Qed.

Lemma derives_sizeof d b : derives d b → sizeof b ≤ sizeof d.
Proof.
  intros Hd. pose proof (derives_alignof _ _ Hd) as Ha. destruct Hd as (fs & gs & -> & ->).
  cbn [sizeof]. apply round_up_least; [apply alignof_pos| |].
  - pose proof (round_up_spec (end_of 0 (fs ++ gs)) (alignof (CStruct (fs ++ gs))) (alignof_pos _)) as [Hr _].
    pose proof (end_of_ge gs (end_of 0 fs)) as He. rewrite <-end_of_app in He. unfold end_of in *. lia.
  - etrans; [exact Ha|]. apply round_up_spec, alignof_pos.
Qed.
End derives.

(** What a pointer to [d] is good for when a function takes one to [b]. *)
Definition usable_as `{Abi} (d b : cty) : Prop :=
  sizeof b ≤ sizeof d ∧ (alignof b | alignof d) ∧
  ∀ p r, p ≠ [] → object_at b p = Some r → object_at d p = Some r.

Lemma derives_usable `{Abi} d b : derives d b → usable_as d b.
Proof.
  intros Hd. split_and!; [by apply derives_sizeof|by apply derives_alignof|].
  intros p r. by apply derives_object.
Qed.

Lemma derives_refl fs : derives (CStruct fs) (CStruct fs).
Proof. exists fs, []. by rewrite app_nil_r. Qed.
