(* ===== verification/UvUnix.v ===== *)
(** * libuv's types on Unix (uv/unix.h, the headers of the platforms, uv/threadpool.h)

    The members libuv adds to its structures on each Unix, macro by macro. *)

From S2P Require Import Prelude CTypes.

(** The systems unix.h tells apart.  On Solaris [PORT_SOURCE_FILE] may be
    defined or not; [Posix] stands for the systems without a header of their
    own, and IBM i. *)
Inductive unix_platform := Linux | Os390 | Posix | Aix | Sunos (port_source_file : bool) | Darwin | Bsd.

(** A system, with what its headers say of two constants. *)
Record unix_system := UnixSystem {
  us_platform : unix_platform;
  us_NI_MAXHOST : option nat;
  us_NI_MAXSERV : option nat
}.

(** ** The names unix.h gives to types of the system *)

Definition uv_mutex_t : cty := named "pthread_mutex_t".
Definition uv_rwlock_t : cty := named "pthread_rwlock_t".
Definition uv_thread_t : cty := named "pthread_t".
Definition uv_uid_t : cty := named "uid_t".
Definition uv_gid_t : cty := named "gid_t".

(** ** uv/threadpool.h *)

Definition uv__work : cty := CStruct
  [("work", function); ("done", function); ("loop", pointer "struct uv_loop_s");
   ("wq", CArray (pointer "void") 2)].

(** ** The headers of the platforms *)

Definition UV_PLATFORM_LOOP_FIELDS_linux (uv__io_s : cty) : list field :=
  [("inotify_read_watcher", uv__io_s); ("inotify_watchers", pointer "void");
   ("inotify_fd", int_)].
Definition UV_PLATFORM_FS_EVENT_FIELDS_linux : list field :=
  [("watchers", CArray (pointer "void") 2); ("wd", int_)].
Definition UV_IO_PRIVATE_PLATFORM_FIELDS_darwin : list field :=
  [("rcount", int_); ("wcount", int_)].
Definition UV_PLATFORM_LOOP_FIELDS_darwin (uv_sem_t : cty) : list field :=
  [("cf_thread", uv_thread_t); ("_cf_reserved", pointer "void"); ("cf_state", pointer "void");
   ("cf_mutex", uv_mutex_t); ("cf_sem", uv_sem_t); ("cf_signals", CArray (pointer "void") 2)].
Definition UV_PLATFORM_FS_EVENT_FIELDS_darwin (uv__io_s : cty) : list field :=
  [("event_watcher", uv__io_s); ("realpath", pointer "char"); ("realpath_len", int_);
   ("cf_flags", int_); ("cf_cb", pointer "uv_async_t");
   ("cf_events", CArray (pointer "void") 2); ("cf_member", CArray (pointer "void") 2);
   ("cf_error", int_); ("cf_mutex", uv_mutex_t)].
Definition UV_STREAM_PRIVATE_PLATFORM_FIELDS_darwin : list field :=
  [("select", pointer "void")].
Definition UV_IO_PRIVATE_PLATFORM_FIELDS_bsd : list field :=
  [("rcount", int_); ("wcount", int_)].
Definition UV_PLATFORM_FS_EVENT_FIELDS_bsd (uv__io_s : cty) : list field :=
  [("event_watcher", uv__io_s)].
Definition UV_PLATFORM_LOOP_FIELDS_sunos (uv__io_s : cty) : list field :=
  [("fs_event_watcher", uv__io_s); ("fs_fd", int_)].
Definition UV_PLATFORM_FS_EVENT_FIELDS_sunos : list field :=
  [("fo", named "file_obj_t"); ("fd", int_)].
Definition UV_PLATFORM_LOOP_FIELDS_aix : list field :=
  [("fs_fd", int_)].
Definition UV_PLATFORM_FS_EVENT_FIELDS_aix (uv__io_s : cty) : list field :=
  [("event_watcher", uv__io_s); ("dir_filename", pointer "char")].
Definition UV_PLATFORM_LOOP_FIELDS_os390 : list field :=
  [("ep", pointer "void")].
Definition UV_PLATFORM_FS_EVENT_FIELDS_os390 : list field :=
  [("rfis_rftok", CArray char_ 8)].
Definition UV_PLATFORM_LOOP_FIELDS_posix : list field :=
  [("poll_fds", pointer "struct pollfd"); ("poll_fds_used", size_t); ("poll_fds_size", size_t);
   ("poll_fds_iterating", unsigned_char)].

(** ** uv/unix.h *)

Section unix.
Context (sys : unix_system).
Abbreviation pf := (us_platform sys).

Definition NI_MAXHOST : nat := default 1025%nat (us_NI_MAXHOST sys).
Definition NI_MAXSERV : nat := default 32%nat (us_NI_MAXSERV sys).

Definition uv_sem_t : cty :=
  match pf with Darwin => named "semaphore_t" | Os390 => long_ | _ => named "sem_t" end.
Definition UV_IO_PRIVATE_PLATFORM_FIELDS : list field :=
  match pf with
  | Darwin => UV_IO_PRIVATE_PLATFORM_FIELDS_darwin
  | Bsd => UV_IO_PRIVATE_PLATFORM_FIELDS_bsd
  | _ => []
  end.
Definition uv__io_s : cty := CStruct
  ([("cb", callback "uv__io_cb"); ("pending_queue", CArray (pointer "void") 2);
   ("watcher_queue", CArray (pointer "void") 2); ("pevents", unsigned_); ("events", unsigned_);
   ("fd", int_)] ++
  UV_IO_PRIVATE_PLATFORM_FIELDS).
Definition UV_PLATFORM_LOOP_FIELDS : list field :=
  match pf with
  | Linux => UV_PLATFORM_LOOP_FIELDS_linux uv__io_s
  | Os390 => UV_PLATFORM_LOOP_FIELDS_os390
  | Posix => UV_PLATFORM_LOOP_FIELDS_posix
  | Aix => UV_PLATFORM_LOOP_FIELDS_aix
  | Sunos _ => UV_PLATFORM_LOOP_FIELDS_sunos uv__io_s
  | Darwin => UV_PLATFORM_LOOP_FIELDS_darwin uv_sem_t
  | Bsd => []
  end.
Definition UV_PLATFORM_FS_EVENT_FIELDS : list field :=
  match pf with
  | Linux => UV_PLATFORM_FS_EVENT_FIELDS_linux
  | Os390 => UV_PLATFORM_FS_EVENT_FIELDS_os390
  | Posix => []
  | Aix => UV_PLATFORM_FS_EVENT_FIELDS_aix uv__io_s
  | Sunos port => if port : bool then UV_PLATFORM_FS_EVENT_FIELDS_sunos else []
  | Darwin => UV_PLATFORM_FS_EVENT_FIELDS_darwin uv__io_s
  | Bsd => UV_PLATFORM_FS_EVENT_FIELDS_bsd uv__io_s
  end.
Definition UV_STREAM_PRIVATE_PLATFORM_FIELDS : list field :=
  match pf with
  | Darwin => UV_STREAM_PRIVATE_PLATFORM_FIELDS_darwin
  | _ => []
  end.
Definition uv_buf_t : cty := CStruct [("base", pointer "char"); ("len", size_t)].

Definition UV_DIR_PRIVATE_FIELDS : list field :=
  [("dir", pointer "DIR")].
Definition UV_LOOP_PRIVATE_FIELDS (uv_async_t uv_signal_t : cty) : list field :=
  [("flags", unsigned_long); ("backend_fd", int_);
   ("pending_queue", CArray (pointer "void") 2); ("watcher_queue", CArray (pointer "void") 2);
   ("watchers", pointer "uv__io_t *"); ("nwatchers", unsigned_); ("nfds", unsigned_);
   ("wq", CArray (pointer "void") 2); ("wq_mutex", uv_mutex_t); ("wq_async", uv_async_t);
   ("cloexec_lock", uv_rwlock_t); ("closing_handles", pointer "uv_handle_t");
   ("process_handles", CArray (pointer "void") 2);
   ("prepare_handles", CArray (pointer "void") 2);
   ("check_handles", CArray (pointer "void") 2); ("idle_handles", CArray (pointer "void") 2);
   ("async_handles", CArray (pointer "void") 2); ("async_unused", function);
   ("async_io_watcher", uv__io_s); ("async_wfd", int_);
   ("timer_heap", CStruct [("min", pointer "void"); ("nelts", unsigned_)]);
   ("timer_counter", uint64_t); ("time", uint64_t); ("signal_pipefd", CArray int_ 2);
   ("signal_io_watcher", uv__io_s); ("child_watcher", uv_signal_t); ("emfile_fd", int_)] ++
  UV_PLATFORM_LOOP_FIELDS.
Definition UV_REQ_PRIVATE_FIELDS : list field :=
  [].
Definition UV_WRITE_PRIVATE_FIELDS : list field :=
  [("queue", CArray (pointer "void") 2); ("write_index", unsigned_);
   ("bufs", pointer "uv_buf_t"); ("nbufs", unsigned_); ("error", int_);
   ("bufsml", CArray uv_buf_t 4)].
Definition UV_CONNECT_PRIVATE_FIELDS : list field :=
  [("queue", CArray (pointer "void") 2)].
Definition UV_SHUTDOWN_PRIVATE_FIELDS : list field :=
  [].
Definition UV_UDP_SEND_PRIVATE_FIELDS : list field :=
  [("queue", CArray (pointer "void") 2); ("addr", named "struct sockaddr_storage");
   ("nbufs", unsigned_); ("bufs", pointer "uv_buf_t"); ("status", ssize_t);
   ("send_cb", callback "uv_udp_send_cb"); ("bufsml", CArray uv_buf_t 4)].
Definition UV_HANDLE_PRIVATE_FIELDS : list field :=
  [("next_closing", pointer "uv_handle_t"); ("flags", unsigned_)].
Definition UV_STREAM_PRIVATE_FIELDS : list field :=
  [("connect_req", pointer "uv_connect_t"); ("shutdown_req", pointer "uv_shutdown_t");
   ("io_watcher", uv__io_s); ("write_queue", CArray (pointer "void") 2);
   ("write_completed_queue", CArray (pointer "void") 2);
   ("connection_cb", callback "uv_connection_cb"); ("delayed_error", int_);
   ("accepted_fd", int_); ("queued_fds", pointer "void")] ++
  UV_STREAM_PRIVATE_PLATFORM_FIELDS.
Definition UV_TCP_PRIVATE_FIELDS : list field :=
  [].
Definition UV_UDP_PRIVATE_FIELDS : list field :=
  [("alloc_cb", callback "uv_alloc_cb"); ("recv_cb", callback "uv_udp_recv_cb");
   ("io_watcher", uv__io_s); ("write_queue", CArray (pointer "void") 2);
   ("write_completed_queue", CArray (pointer "void") 2)].
Definition UV_PIPE_PRIVATE_FIELDS : list field :=
  [("pipe_fname", pointer "char")].
Definition UV_POLL_PRIVATE_FIELDS : list field :=
  [("io_watcher", uv__io_s)].
Definition UV_PREPARE_PRIVATE_FIELDS : list field :=
  [("prepare_cb", callback "uv_prepare_cb"); ("queue", CArray (pointer "void") 2)].
Definition UV_CHECK_PRIVATE_FIELDS : list field :=
  [("check_cb", callback "uv_check_cb"); ("queue", CArray (pointer "void") 2)].
Definition UV_IDLE_PRIVATE_FIELDS : list field :=
  [("idle_cb", callback "uv_idle_cb"); ("queue", CArray (pointer "void") 2)].
Definition UV_ASYNC_PRIVATE_FIELDS : list field :=
  [("async_cb", callback "uv_async_cb"); ("queue", CArray (pointer "void") 2);
   ("pending", int_)].
Definition UV_TIMER_PRIVATE_FIELDS : list field :=
  [("timer_cb", callback "uv_timer_cb"); ("heap_node", CArray (pointer "void") 3);
   ("timeout", uint64_t); ("repeat", uint64_t); ("start_id", uint64_t)].
Definition UV_GETADDRINFO_PRIVATE_FIELDS : list field :=
  [("work_req", uv__work); ("cb", callback "uv_getaddrinfo_cb");
   ("hints", pointer "struct addrinfo"); ("hostname", pointer "char");
   ("service", pointer "char"); ("addrinfo", pointer "struct addrinfo"); ("retcode", int_)].
Definition UV_GETNAMEINFO_PRIVATE_FIELDS : list field :=
  [("work_req", uv__work); ("getnameinfo_cb", callback "uv_getnameinfo_cb");
   ("storage", named "struct sockaddr_storage"); ("flags", int_);
   ("host", CArray char_ NI_MAXHOST); ("service", CArray char_ NI_MAXSERV); ("retcode", int_)].
Definition UV_PROCESS_PRIVATE_FIELDS : list field :=
  [("queue", CArray (pointer "void") 2); ("status", int_)].
Definition UV_FS_PRIVATE_FIELDS : list field :=
  [("new_path", pointer "char"); ("file", int_); ("flags", int_); ("mode", named "mode_t");
   ("nbufs", unsigned_); ("bufs", pointer "uv_buf_t"); ("off", named "off_t");
   ("uid", uv_uid_t); ("gid", uv_gid_t); ("atime", double_); ("mtime", double_);
   ("work_req", uv__work); ("bufsml", CArray uv_buf_t 4)].
Definition UV_WORK_PRIVATE_FIELDS : list field :=
  [("work_req", uv__work)].
Definition UV_TTY_PRIVATE_FIELDS : list field :=
  [("orig_termios", named "struct termios"); ("mode", int_)].
Definition UV_SIGNAL_PRIVATE_FIELDS : list field :=
  [("tree_entry", CStruct [("rbe_left", pointer "struct uv_signal_s"); ("rbe_right", pointer "struct uv_signal_s");
       ("rbe_parent", pointer "struct uv_signal_s"); ("rbe_color", int_)]);
   ("caught_signals", unsigned_); ("dispatched_signals", unsigned_)].
Definition UV_FS_EVENT_PRIVATE_FIELDS : list field :=
  [("cb", callback "uv_fs_event_cb")] ++ UV_PLATFORM_FS_EVENT_FIELDS.
End unix.
