(* ===== verification/UvWin.v ===== *)
(** * libuv's types on Windows (uv/win.h)

    The members libuv adds to its structures on Windows, macro by macro.  A
    macro that mentions a type of uv.h, which is only complete where the macro
    is used, is a function of it. *)

From S2P Require Import Prelude CTypes UvUnix.

Definition NTSTATUS : cty := named "LONG".
Definition AFD_POLL_HANDLE_INFO : cty := CStruct
  [("Handle", named "HANDLE"); ("Events", named "ULONG"); ("Status", NTSTATUS)].
Definition AFD_POLL_INFO : cty := CStruct
  [("Timeout", named "LARGE_INTEGER"); ("NumberOfHandles", named "ULONG");
   ("Exclusive", named "ULONG"); ("Handles", CArray AFD_POLL_HANDLE_INFO 1)].
Definition uv_buf_t : cty := CStruct [("len", named "ULONG"); ("base", pointer "char")].
Definition uv_mutex_t : cty := named "CRITICAL_SECTION".
Definition UV_MSAFD_PROVIDER_COUNT : nat := 4.
Definition uv_uid_t : cty := unsigned_char.
Definition uv_gid_t : cty := unsigned_char.

(** uv/tree.h *)
Definition RB_ENTRY (type : string) : cty :=
  let link := pointer ("struct " +:+ type) in
  CStruct [("rbe_left", link); ("rbe_right", link); ("rbe_parent", link); ("rbe_color", int_)].

Definition uv_stream_connection_fields : list field :=
  [("write_reqs_pending", unsigned_); ("shutdown_req", pointer "uv_shutdown_t")].
Definition uv_stream_server_fields : list field :=
  [("connection_cb", callback "uv_connection_cb")].
Definition uv_tcp_server_fields : list field :=
  [("accept_reqs", pointer "uv_tcp_accept_t"); ("processed_accepts", unsigned_);
   ("pending_accepts", pointer "uv_tcp_accept_t"); ("func_acceptex", callback "LPFN_ACCEPTEX")].
Definition uv_tcp_connection_fields : list field :=
  [("read_buffer", uv_buf_t); ("func_connectex", callback "LPFN_CONNECTEX")].
Definition uv_pipe_server_fields : list field :=
  [("pending_instances", int_); ("accept_reqs", pointer "uv_pipe_accept_t");
   ("pending_accepts", pointer "uv_pipe_accept_t")].
Definition uv_pipe_connection_fields (uv_write_t : cty) : list field :=
  [("eof_timer", pointer "uv_timer_t"); ("dummy", uv_write_t);
   ("ipc_remote_pid", named "DWORD");
   ("ipc_data_frame", CUnion [("payload_remaining", uint32_t); ("dummy", uint64_t)]);
   ("ipc_xfer_queue", CArray (pointer "void") 2); ("ipc_xfer_queue_length", int_);
   ("non_overlapped_writes_tail", pointer "uv_write_t");
   ("readfile_thread_lock", named "CRITICAL_SECTION");
   ("readfile_thread_handle", named "HANDLE")].

(** The private request types, which start with the fields of every request. *)
Definition uv_pipe_accept_s (UV_REQ_FIELDS : list field) : cty := CStruct
  (UV_REQ_FIELDS ++
  [("pipeHandle", named "HANDLE"); ("next_pending", pointer "struct uv_pipe_accept_s")]).
Definition uv_tcp_accept_s (UV_REQ_FIELDS : list field) (accept_buffer_size : nat) : cty := CStruct
  (UV_REQ_FIELDS ++
  [("accept_socket", named "SOCKET"); ("accept_buffer", CArray char_ accept_buffer_size);
   ("event_handle", named "HANDLE"); ("wait_handle", named "HANDLE");
   ("next_pending", pointer "struct uv_tcp_accept_s")]).
Definition uv_read_s (UV_REQ_FIELDS : list field) : cty := CStruct
  (UV_REQ_FIELDS ++
  [("event_handle", named "HANDLE"); ("wait_handle", named "HANDLE")]).

Definition UV_DIR_PRIVATE_FIELDS : list field :=
  [("dir_handle", named "HANDLE"); ("find_data", named "WIN32_FIND_DATAW");
   ("need_find_call", named "BOOL")].
Definition UV_LOOP_PRIVATE_FIELDS (uv_async_t : cty) : list field :=
  [("iocp", named "HANDLE"); ("time", uint64_t); ("pending_reqs_tail", pointer "uv_req_t");
   ("endgame_handles", pointer "uv_handle_t"); ("timer_heap", pointer "void");
   ("prepare_handles", pointer "uv_prepare_t"); ("check_handles", pointer "uv_check_t");
   ("idle_handles", pointer "uv_idle_t"); ("next_prepare_handle", pointer "uv_prepare_t");
   ("next_check_handle", pointer "uv_check_t"); ("next_idle_handle", pointer "uv_idle_t");
   ("poll_peer_sockets", CArray (named "SOCKET") UV_MSAFD_PROVIDER_COUNT);
   ("active_tcp_streams", unsigned_); ("active_udp_streams", unsigned_);
   ("timer_counter", uint64_t); ("wq", CArray (pointer "void") 2); ("wq_mutex", uv_mutex_t);
   ("wq_async", uv_async_t)].
Definition UV_REQ_PRIVATE_FIELDS : list field :=
  [("u", CUnion [("io", CStruct [("overlapped", named "OVERLAPPED"); ("queued_bytes", size_t)]);
       ("connect", CStruct [("result", named "ULONG_PTR"); ("pipeHandle", named "HANDLE");
           ("duplex_flags", named "DWORD")])]);
   ("next_req", pointer "struct uv_req_s")].
Definition UV_WRITE_PRIVATE_FIELDS : list field :=
  [("coalesced", int_); ("write_buffer", uv_buf_t); ("event_handle", named "HANDLE");
   ("wait_handle", named "HANDLE")].
Definition UV_CONNECT_PRIVATE_FIELDS : list field :=
  [].
Definition UV_SHUTDOWN_PRIVATE_FIELDS : list field :=
  [].
Definition UV_UDP_SEND_PRIVATE_FIELDS : list field :=
  [].
Definition UV_STREAM_PRIVATE_FIELDS (UV_REQ_FIELDS : list field) : list field :=
  [("reqs_pending", unsigned_); ("activecnt", int_); ("read_req", uv_read_s UV_REQ_FIELDS);
   ("stream", CUnion [("conn", CStruct (uv_stream_connection_fields));
       ("serv", CStruct (uv_stream_server_fields))])].
Definition UV_TCP_PRIVATE_FIELDS : list field :=
  [("socket", named "SOCKET"); ("delayed_error", int_);
   ("tcp", CUnion [("serv", CStruct (uv_tcp_server_fields)); ("conn", CStruct (uv_tcp_connection_fields))])].
Definition UV_UDP_PRIVATE_FIELDS (uv_req_s : cty) : list field :=
  [("socket", named "SOCKET"); ("reqs_pending", unsigned_); ("activecnt", int_);
   ("recv_req", uv_req_s); ("recv_buffer", uv_buf_t);
   ("recv_from", named "struct sockaddr_storage"); ("recv_from_len", int_);
   ("recv_cb", callback "uv_udp_recv_cb"); ("alloc_cb", callback "uv_alloc_cb");
   ("func_wsarecv", callback "LPFN_WSARECV"); ("func_wsarecvfrom", callback "LPFN_WSARECVFROM")].
Definition UV_PIPE_PRIVATE_FIELDS (uv_write_t : cty) : list field :=
  [("handle", named "HANDLE"); ("name", pointer "WCHAR");
   ("pipe", CUnion [("serv", CStruct (uv_pipe_server_fields));
       ("conn", CStruct (uv_pipe_connection_fields uv_write_t))])].
Definition UV_TTY_PRIVATE_FIELDS : list field :=
  [("handle", named "HANDLE");
   ("tty", CUnion [("rd", CStruct [("unused_", named "HANDLE"); ("read_line_buffer", uv_buf_t);
           ("read_raw_wait", named "HANDLE"); ("last_key", CArray char_ 8);
           ("last_key_offset", unsigned_char); ("last_key_len", unsigned_char);
           ("last_utf16_high_surrogate", named "WCHAR");
           ("last_input_record", named "INPUT_RECORD")]);
       ("wr", CStruct [("utf8_codepoint", unsigned_); ("utf8_bytes_left", unsigned_char);
           ("previous_eol", unsigned_char); ("ansi_parser_state", unsigned_short);
           ("ansi_csi_argc", unsigned_char); ("ansi_csi_argv", CArray unsigned_short 4);
           ("saved_position", named "COORD"); ("saved_attributes", named "WORD")])])].
Definition UV_POLL_PRIVATE_FIELDS (uv_req_s : cty) : list field :=
  [("socket", named "SOCKET"); ("peer_socket", named "SOCKET");
   ("afd_poll_info_1", AFD_POLL_INFO); ("afd_poll_info_2", AFD_POLL_INFO);
   ("poll_req_1", uv_req_s); ("poll_req_2", uv_req_s); ("submitted_events_1", unsigned_char);
   ("submitted_events_2", unsigned_char); ("mask_events_1", unsigned_char);
   ("mask_events_2", unsigned_char); ("events", unsigned_char)].
Definition UV_TIMER_PRIVATE_FIELDS : list field :=
  [("heap_node", CArray (pointer "void") 3); ("unused", int_); ("timeout", uint64_t);
   ("repeat", uint64_t); ("start_id", uint64_t); ("timer_cb", callback "uv_timer_cb")].
Definition UV_ASYNC_PRIVATE_FIELDS (uv_req_s : cty) : list field :=
  [("async_req", uv_req_s); ("async_cb", callback "uv_async_cb"); ("async_sent", char_)].
Definition UV_PREPARE_PRIVATE_FIELDS : list field :=
  [("prepare_prev", pointer "uv_prepare_t"); ("prepare_next", pointer "uv_prepare_t");
   ("prepare_cb", callback "uv_prepare_cb")].
Definition UV_CHECK_PRIVATE_FIELDS : list field :=
  [("check_prev", pointer "uv_check_t"); ("check_next", pointer "uv_check_t");
   ("check_cb", callback "uv_check_cb")].
Definition UV_IDLE_PRIVATE_FIELDS : list field :=
  [("idle_prev", pointer "uv_idle_t"); ("idle_next", pointer "uv_idle_t");
   ("idle_cb", callback "uv_idle_cb")].
Definition UV_HANDLE_PRIVATE_FIELDS : list field :=
  [("endgame_next", pointer "uv_handle_t"); ("flags", unsigned_)].
Definition UV_GETADDRINFO_PRIVATE_FIELDS : list field :=
  [("work_req", uv__work); ("getaddrinfo_cb", callback "uv_getaddrinfo_cb");
   ("alloc", pointer "void"); ("node", pointer "WCHAR"); ("service", pointer "WCHAR");
   ("addrinfow", pointer "struct addrinfoW"); ("addrinfo", pointer "struct addrinfo");
   ("retcode", int_)].
Definition UV_GETNAMEINFO_PRIVATE_FIELDS (NI_MAXHOST NI_MAXSERV : nat) : list field :=
  [("work_req", uv__work); ("getnameinfo_cb", callback "uv_getnameinfo_cb");
   ("storage", named "struct sockaddr_storage"); ("flags", int_);
   ("host", CArray char_ NI_MAXHOST); ("service", CArray char_ NI_MAXSERV); ("retcode", int_)].
Definition UV_PROCESS_PRIVATE_FIELDS (UV_REQ_FIELDS : list field) : list field :=
  [("exit_req", CStruct (UV_REQ_FIELDS)); ("child_stdio_buffer", pointer "BYTE");
   ("exit_signal", int_); ("wait_handle", named "HANDLE"); ("process_handle", named "HANDLE");
   ("exit_cb_pending", char_)].
Definition UV_FS_PRIVATE_FIELDS : list field :=
  [("work_req", uv__work); ("flags", int_); ("sys_errno_", named "DWORD");
   ("file", CUnion [("pathw", pointer "WCHAR"); ("fd", int_)]);
   ("fs", CUnion [("info", CStruct [("mode", int_); ("new_pathw", pointer "WCHAR"); ("file_flags", int_);
           ("fd_out", int_); ("nbufs", unsigned_); ("bufs", pointer "uv_buf_t");
           ("offset", int64_t); ("bufsml", CArray uv_buf_t 4)]);
       ("time", CStruct [("atime", double_); ("mtime", double_)])])].
Definition UV_WORK_PRIVATE_FIELDS : list field :=
  [("work_req", uv__work)].
Definition UV_FS_EVENT_PRIVATE_FIELDS (UV_REQ_FIELDS : list field) : list field :=
  [("req", CStruct (UV_REQ_FIELDS)); ("dir_handle", named "HANDLE"); ("req_pending", int_);
   ("cb", callback "uv_fs_event_cb"); ("filew", pointer "WCHAR");
   ("short_filew", pointer "WCHAR"); ("dirw", pointer "WCHAR"); ("buffer", pointer "char")].
Definition UV_SIGNAL_PRIVATE_FIELDS (uv_req_s : cty) : list field :=
  [("tree_entry", RB_ENTRY "uv_signal_s"); ("signal_req", uv_req_s); ("pending_signum", unsigned_long)].
