(* ===== verification/UvTypes.v ===== *)
(** * libuv's structures (uv.h)

    The handles, requests and the other structures of uv.h, on every platform.
    A macro that lists members is a list of fields; the private members come
    from the header of the platform.  A handle, a stream, a request is a
    structure that starts with the members of its base, so that a pointer to it
    can be cast to a pointer to the base. *)

From S2P Require Import Prelude CTypes UvUnix UvWin.

(** A Unix, or Windows with the values its headers give to [NI_MAXHOST] and
    [NI_MAXSERV]. *)
Inductive platform := Unix (sys : unix_system) | Windows (maxhost maxserv : nat).

Section uv.
Context (pf : platform).

Definition on_platform {A} (unix : unix_system → A) (windows : nat → nat → A) : A :=
  match pf with Unix sys => unix sys | Windows h s => windows h s end.

(** ** What the headers of the platform say *)

Definition uv_buf_t : cty :=
  on_platform (λ _, UvUnix.uv_buf_t) (λ _ _, UvWin.uv_buf_t).
Definition uv_uid_t : cty :=
  on_platform (λ _, UvUnix.uv_uid_t) (λ _ _, UvWin.uv_uid_t).
Definition uv_gid_t : cty :=
  on_platform (λ _, UvUnix.uv_gid_t) (λ _ _, UvWin.uv_gid_t).
Definition UV_REQ_PRIVATE_FIELDS : list field :=
  on_platform (λ _, UvUnix.UV_REQ_PRIVATE_FIELDS) (λ _ _, UvWin.UV_REQ_PRIVATE_FIELDS).
Definition UV_HANDLE_PRIVATE_FIELDS : list field :=
  on_platform (λ _, UvUnix.UV_HANDLE_PRIVATE_FIELDS) (λ _ _, UvWin.UV_HANDLE_PRIVATE_FIELDS).

(** ** The fields of every request, handle and stream *)

Definition UV_REQ_FIELDS : list field :=
  [("data", pointer "void"); ("type", enum "uv_req_type");
   ("reserved", CArray (pointer "void") 6)] ++
  UV_REQ_PRIVATE_FIELDS.
Definition UV_HANDLE_FIELDS : list field :=
  [("data", pointer "void"); ("loop", pointer "uv_loop_t"); ("type", enum "uv_handle_type");
   ("close_cb", callback "uv_close_cb"); ("handle_queue", CArray (pointer "void") 2);
   ("u", CUnion [("fd", int_); ("reserved", CArray (pointer "void") 4)])] ++
  UV_HANDLE_PRIVATE_FIELDS.
Definition UV_STREAM_PRIVATE_FIELDS : list field :=
  on_platform (λ sys, UvUnix.UV_STREAM_PRIVATE_FIELDS sys) (λ _ _, UvWin.UV_STREAM_PRIVATE_FIELDS UV_REQ_FIELDS).
Definition UV_STREAM_FIELDS : list field :=
  [("write_queue_size", size_t); ("alloc_cb", callback "uv_alloc_cb");
   ("read_cb", callback "uv_read_cb")] ++
  UV_STREAM_PRIVATE_FIELDS.

(** ** Requests and handles *)

Definition uv_req_s : cty := CStruct (UV_REQ_FIELDS).
Definition uv_handle_s : cty := CStruct (UV_HANDLE_FIELDS).
Definition uv_stream_s : cty := CStruct (UV_HANDLE_FIELDS ++ UV_STREAM_FIELDS).
Definition UV_SHUTDOWN_PRIVATE_FIELDS : list field :=
  on_platform (λ _, UvUnix.UV_SHUTDOWN_PRIVATE_FIELDS) (λ _ _, UvWin.UV_SHUTDOWN_PRIVATE_FIELDS).
Definition uv_shutdown_s : cty := CStruct
  (UV_REQ_FIELDS ++
  [("handle", pointer "uv_stream_t"); ("cb", callback "uv_shutdown_cb")] ++
  UV_SHUTDOWN_PRIVATE_FIELDS).
Definition UV_WRITE_PRIVATE_FIELDS : list field :=
  on_platform (λ _, UvUnix.UV_WRITE_PRIVATE_FIELDS) (λ _ _, UvWin.UV_WRITE_PRIVATE_FIELDS).
Definition uv_write_s : cty := CStruct
  (UV_REQ_FIELDS ++
  [("cb", callback "uv_write_cb"); ("send_handle", pointer "uv_stream_t");
   ("handle", pointer "uv_stream_t")] ++
  UV_WRITE_PRIVATE_FIELDS).
Definition UV_TCP_PRIVATE_FIELDS : list field :=
  on_platform (λ _, UvUnix.UV_TCP_PRIVATE_FIELDS) (λ _ _, UvWin.UV_TCP_PRIVATE_FIELDS).
Definition uv_tcp_s : cty := CStruct (UV_HANDLE_FIELDS ++ UV_STREAM_FIELDS ++ UV_TCP_PRIVATE_FIELDS).
Definition UV_CONNECT_PRIVATE_FIELDS : list field :=
  on_platform (λ _, UvUnix.UV_CONNECT_PRIVATE_FIELDS) (λ _ _, UvWin.UV_CONNECT_PRIVATE_FIELDS).
Definition uv_connect_s : cty := CStruct
  (UV_REQ_FIELDS ++
  [("cb", callback "uv_connect_cb"); ("handle", pointer "uv_stream_t")] ++
  UV_CONNECT_PRIVATE_FIELDS).
Definition UV_UDP_PRIVATE_FIELDS : list field :=
  on_platform (λ sys, UvUnix.UV_UDP_PRIVATE_FIELDS sys) (λ _ _, UvWin.UV_UDP_PRIVATE_FIELDS uv_req_s).
Definition uv_udp_s : cty := CStruct
  (UV_HANDLE_FIELDS ++
  [("send_queue_size", size_t); ("send_queue_count", size_t)] ++
  UV_UDP_PRIVATE_FIELDS).
Definition UV_UDP_SEND_PRIVATE_FIELDS : list field :=
  on_platform (λ _, UvUnix.UV_UDP_SEND_PRIVATE_FIELDS) (λ _ _, UvWin.UV_UDP_SEND_PRIVATE_FIELDS).
Definition uv_udp_send_s : cty := CStruct
  (UV_REQ_FIELDS ++
  [("handle", pointer "uv_udp_t"); ("cb", callback "uv_udp_send_cb")] ++
  UV_UDP_SEND_PRIVATE_FIELDS).
Definition UV_TTY_PRIVATE_FIELDS : list field :=
  on_platform (λ _, UvUnix.UV_TTY_PRIVATE_FIELDS) (λ _ _, UvWin.UV_TTY_PRIVATE_FIELDS).
Definition uv_tty_s : cty := CStruct (UV_HANDLE_FIELDS ++ UV_STREAM_FIELDS ++ UV_TTY_PRIVATE_FIELDS).
Definition UV_PIPE_PRIVATE_FIELDS : list field :=
  on_platform (λ _, UvUnix.UV_PIPE_PRIVATE_FIELDS) (λ _ _, UvWin.UV_PIPE_PRIVATE_FIELDS uv_write_s).
Definition uv_pipe_s : cty := CStruct
  (UV_HANDLE_FIELDS ++ UV_STREAM_FIELDS ++ [("ipc", int_)] ++
  UV_PIPE_PRIVATE_FIELDS).
Definition UV_POLL_PRIVATE_FIELDS : list field :=
  on_platform (λ sys, UvUnix.UV_POLL_PRIVATE_FIELDS sys) (λ _ _, UvWin.UV_POLL_PRIVATE_FIELDS uv_req_s).
Definition uv_poll_s : cty := CStruct
  (UV_HANDLE_FIELDS ++ [("poll_cb", callback "uv_poll_cb")] ++
  UV_POLL_PRIVATE_FIELDS).
Definition UV_PREPARE_PRIVATE_FIELDS : list field :=
  on_platform (λ _, UvUnix.UV_PREPARE_PRIVATE_FIELDS) (λ _ _, UvWin.UV_PREPARE_PRIVATE_FIELDS).
Definition uv_prepare_s : cty := CStruct (UV_HANDLE_FIELDS ++ UV_PREPARE_PRIVATE_FIELDS).
Definition UV_CHECK_PRIVATE_FIELDS : list field :=
  on_platform (λ _, UvUnix.UV_CHECK_PRIVATE_FIELDS) (λ _ _, UvWin.UV_CHECK_PRIVATE_FIELDS).
Definition uv_check_s : cty := CStruct (UV_HANDLE_FIELDS ++ UV_CHECK_PRIVATE_FIELDS).
Definition UV_IDLE_PRIVATE_FIELDS : list field :=
  on_platform (λ _, UvUnix.UV_IDLE_PRIVATE_FIELDS) (λ _ _, UvWin.UV_IDLE_PRIVATE_FIELDS).
Definition uv_idle_s : cty := CStruct (UV_HANDLE_FIELDS ++ UV_IDLE_PRIVATE_FIELDS).
Definition UV_ASYNC_PRIVATE_FIELDS : list field :=
  on_platform (λ _, UvUnix.UV_ASYNC_PRIVATE_FIELDS) (λ _ _, UvWin.UV_ASYNC_PRIVATE_FIELDS uv_req_s).
Definition uv_async_s : cty := CStruct (UV_HANDLE_FIELDS ++ UV_ASYNC_PRIVATE_FIELDS).
Definition UV_TIMER_PRIVATE_FIELDS : list field :=
  on_platform (λ _, UvUnix.UV_TIMER_PRIVATE_FIELDS) (λ _ _, UvWin.UV_TIMER_PRIVATE_FIELDS).
Definition uv_timer_s : cty := CStruct (UV_HANDLE_FIELDS ++ UV_TIMER_PRIVATE_FIELDS).
Definition UV_GETADDRINFO_PRIVATE_FIELDS : list field :=
  on_platform (λ _, UvUnix.UV_GETADDRINFO_PRIVATE_FIELDS) (λ _ _, UvWin.UV_GETADDRINFO_PRIVATE_FIELDS).
Definition uv_getaddrinfo_s : cty := CStruct
  (UV_REQ_FIELDS ++ [("loop", pointer "uv_loop_t")] ++
  UV_GETADDRINFO_PRIVATE_FIELDS).
Definition UV_GETNAMEINFO_PRIVATE_FIELDS : list field :=
  on_platform (λ sys, UvUnix.UV_GETNAMEINFO_PRIVATE_FIELDS sys) (λ h s, UvWin.UV_GETNAMEINFO_PRIVATE_FIELDS h s).
Definition uv_getnameinfo_s : cty := CStruct
  (UV_REQ_FIELDS ++ [("loop", pointer "uv_loop_t")] ++
  UV_GETNAMEINFO_PRIVATE_FIELDS).
Definition UV_PROCESS_PRIVATE_FIELDS : list field :=
  on_platform (λ _, UvUnix.UV_PROCESS_PRIVATE_FIELDS) (λ _ _, UvWin.UV_PROCESS_PRIVATE_FIELDS UV_REQ_FIELDS).
Definition uv_process_s : cty := CStruct
  (UV_HANDLE_FIELDS ++ [("exit_cb", callback "uv_exit_cb"); ("pid", int_)] ++
  UV_PROCESS_PRIVATE_FIELDS).
Definition UV_WORK_PRIVATE_FIELDS : list field :=
  on_platform (λ _, UvUnix.UV_WORK_PRIVATE_FIELDS) (λ _ _, UvWin.UV_WORK_PRIVATE_FIELDS).
Definition uv_work_s : cty := CStruct
  (UV_REQ_FIELDS ++
  [("loop", pointer "uv_loop_t"); ("work_cb", callback "uv_work_cb");
   ("after_work_cb", callback "uv_after_work_cb")] ++
  UV_WORK_PRIVATE_FIELDS).
Definition uv_timespec_t : cty := CStruct [("tv_sec", long_); ("tv_nsec", long_)].
Definition uv_stat_t : cty := CStruct
  [("st_dev", uint64_t); ("st_mode", uint64_t); ("st_nlink", uint64_t); ("st_uid", uint64_t);
   ("st_gid", uint64_t); ("st_rdev", uint64_t); ("st_ino", uint64_t); ("st_size", uint64_t);
   ("st_blksize", uint64_t); ("st_blocks", uint64_t); ("st_flags", uint64_t);
   ("st_gen", uint64_t); ("st_atim", uv_timespec_t); ("st_mtim", uv_timespec_t);
   ("st_ctim", uv_timespec_t); ("st_birthtim", uv_timespec_t)].
Definition UV_FS_PRIVATE_FIELDS : list field :=
  on_platform (λ _, UvUnix.UV_FS_PRIVATE_FIELDS) (λ _ _, UvWin.UV_FS_PRIVATE_FIELDS).
Definition uv_fs_s : cty := CStruct
  (UV_REQ_FIELDS ++
  [("fs_type", enum "uv_fs_type"); ("loop", pointer "uv_loop_t"); ("cb", callback "uv_fs_cb");
   ("result", ssize_t); ("ptr", pointer "void"); ("path", pointer "char");
   ("statbuf", uv_stat_t)] ++
  UV_FS_PRIVATE_FIELDS).
Definition UV_FS_EVENT_PRIVATE_FIELDS : list field :=
  on_platform (λ sys, UvUnix.UV_FS_EVENT_PRIVATE_FIELDS sys) (λ _ _, UvWin.UV_FS_EVENT_PRIVATE_FIELDS UV_REQ_FIELDS).
Definition uv_fs_event_s : cty := CStruct
  (UV_HANDLE_FIELDS ++ [("path", pointer "char")] ++
  UV_FS_EVENT_PRIVATE_FIELDS).
Definition uv_fs_poll_s : cty := CStruct (UV_HANDLE_FIELDS ++ [("poll_ctx", pointer "void")]).
Definition UV_SIGNAL_PRIVATE_FIELDS : list field :=
  on_platform (λ _, UvUnix.UV_SIGNAL_PRIVATE_FIELDS) (λ _ _, UvWin.UV_SIGNAL_PRIVATE_FIELDS uv_req_s).
Definition uv_signal_s : cty := CStruct
  (UV_HANDLE_FIELDS ++
  [("signal_cb", callback "uv_signal_cb"); ("signum", int_)] ++
  UV_SIGNAL_PRIVATE_FIELDS).
Definition uv_random_s : cty := CStruct
  (UV_REQ_FIELDS ++
  [("loop", pointer "uv_loop_t"); ("status", int_); ("buf", pointer "void");
   ("buflen", size_t); ("cb", callback "uv_random_cb"); ("work_req", uv__work)]).

(** ** All handles, and all requests *)

Definition UV_HANDLE_TYPE_MAP : list (string * string * cty) :=
  [("ASYNC", "async", uv_async_s);
   ("CHECK", "check", uv_check_s);
   ("FS_EVENT", "fs_event", uv_fs_event_s);
   ("FS_POLL", "fs_poll", uv_fs_poll_s);
   ("HANDLE", "handle", uv_handle_s);
   ("IDLE", "idle", uv_idle_s);
   ("NAMED_PIPE", "pipe", uv_pipe_s);
   ("POLL", "poll", uv_poll_s);
   ("PREPARE", "prepare", uv_prepare_s);
   ("PROCESS", "process", uv_process_s);
   ("STREAM", "stream", uv_stream_s);
   ("TCP", "tcp", uv_tcp_s);
   ("TIMER", "timer", uv_timer_s);
   ("TTY", "tty", uv_tty_s);
   ("UDP", "udp", uv_udp_s);
   ("SIGNAL", "signal", uv_signal_s)].
Definition UV_REQ_TYPE_MAP : list (string * string * cty) :=
  [("REQ", "req", uv_req_s);
   ("CONNECT", "connect", uv_connect_s);
   ("WRITE", "write", uv_write_s);
   ("SHUTDOWN", "shutdown", uv_shutdown_s);
   ("UDP_SEND", "udp_send", uv_udp_send_s);
   ("FS", "fs", uv_fs_s);
   ("WORK", "work", uv_work_s);
   ("GETADDRINFO", "getaddrinfo", uv_getaddrinfo_s);
   ("GETNAMEINFO", "getnameinfo", uv_getnameinfo_s);
   ("RANDOM", "random", uv_random_s)].

Definition uv_handle_type : list string :=
  ["UV_UNKNOWN_HANDLE"] ++ ((λ '(uc, _, _), "UV_" +:+ uc) <$> UV_HANDLE_TYPE_MAP) ++
  ["UV_FILE"; "UV_HANDLE_TYPE_MAX"].
Definition UV_REQ_TYPE_PRIVATE : list string :=
  on_platform (λ _, []) (λ _ _,
    ["UV_ACCEPT"; "UV_FS_EVENT_REQ"; "UV_POLL_REQ"; "UV_PROCESS_EXIT"; "UV_READ"; "UV_UDP_RECV";
     "UV_WAKEUP"; "UV_SIGNAL_REQ"]).
Definition uv_req_type : list string :=
  ["UV_UNKNOWN_REQ"] ++ ((λ '(uc, _, _), "UV_" +:+ uc) <$> UV_REQ_TYPE_MAP) ++
  UV_REQ_TYPE_PRIVATE ++ ["UV_REQ_TYPE_MAX"].

Definition uv_any_handle : cty :=
  CUnion ((λ '(_, name, t), (name, t)) <$> UV_HANDLE_TYPE_MAP).
Definition uv_any_req : cty :=
  CUnion ((λ '(_, name, t), (name, t)) <$> UV_REQ_TYPE_MAP).

(** ** The loop *)

Definition UV_LOOP_PRIVATE_FIELDS : list field :=
  on_platform (λ sys, UvUnix.UV_LOOP_PRIVATE_FIELDS sys uv_async_s uv_signal_s)
    (λ _ _, UvWin.UV_LOOP_PRIVATE_FIELDS uv_async_s).
Definition uv_loop_s : cty := CStruct
  ([("data", pointer "void"); ("active_handles", unsigned_);
   ("handle_queue", CArray (pointer "void") 2);
   ("active_reqs", CUnion [("unused", pointer "void"); ("count", unsigned_)]);
   ("internal_fields", pointer "void"); ("stop_flag", unsigned_)] ++
  UV_LOOP_PRIVATE_FIELDS).

(** ** Other structures *)

Definition uv_stdio_container_s : cty := CStruct
  [("flags", enum "uv_stdio_flags");
   ("data", CUnion [("stream", pointer "uv_stream_t"); ("fd", int_)])].
Definition uv_process_options_s : cty := CStruct
  [("exit_cb", callback "uv_exit_cb"); ("file", pointer "char"); ("args", pointer "char *");
   ("env", pointer "char *"); ("cwd", pointer "char"); ("flags", unsigned_);
   ("stdio_count", int_); ("stdio", pointer "uv_stdio_container_t"); ("uid", uv_uid_t);
   ("gid", uv_gid_t)].
Definition uv_cpu_times_s : cty := CStruct
  [("user", uint64_t); ("nice", uint64_t); ("sys", uint64_t); ("idle", uint64_t);
   ("irq", uint64_t)].
Definition uv_cpu_info_s : cty := CStruct
  [("model", pointer "char"); ("speed", int_); ("cpu_times", uv_cpu_times_s)].
Definition uv_interface_address_s : cty := CStruct
  [("name", pointer "char"); ("phys_addr", CArray char_ 6); ("is_internal", int_);
   ("address", CUnion [("address4", named "struct sockaddr_in"); ("address6", named "struct sockaddr_in6")]);
   ("netmask", CUnion [("netmask4", named "struct sockaddr_in"); ("netmask6", named "struct sockaddr_in6")])].
Definition uv_passwd_s : cty := CStruct
  [("username", pointer "char"); ("uid", unsigned_long); ("gid", unsigned_long);
   ("shell", pointer "char"); ("homedir", pointer "char")].
Definition uv_utsname_s : cty := CStruct
  [("sysname", CArray char_ 256); ("release", CArray char_ 256); ("version", CArray char_ 256);
   ("machine", CArray char_ 256)].
Definition uv_statfs_s : cty := CStruct
  [("f_type", uint64_t); ("f_bsize", uint64_t); ("f_blocks", uint64_t); ("f_bfree", uint64_t);
   ("f_bavail", uint64_t); ("f_files", uint64_t); ("f_ffree", uint64_t);
   ("f_spare", CArray uint64_t 4)].
Definition uv_dirent_s : cty := CStruct [("name", pointer "char"); ("type", enum "uv_dirent_type_t")].
Definition uv_timeval_t : cty := CStruct [("tv_sec", long_); ("tv_usec", long_)].
Definition uv_timeval64_t : cty := CStruct [("tv_sec", int64_t); ("tv_usec", int32_t)].
Definition uv_rusage_t : cty := CStruct
  [("ru_utime", uv_timeval_t); ("ru_stime", uv_timeval_t); ("ru_maxrss", uint64_t);
   ("ru_ixrss", uint64_t); ("ru_idrss", uint64_t); ("ru_isrss", uint64_t);
   ("ru_minflt", uint64_t); ("ru_majflt", uint64_t); ("ru_nswap", uint64_t);
   ("ru_inblock", uint64_t); ("ru_oublock", uint64_t); ("ru_msgsnd", uint64_t);
   ("ru_msgrcv", uint64_t); ("ru_nsignals", uint64_t); ("ru_nvcsw", uint64_t);
   ("ru_nivcsw", uint64_t)].
Definition UV_DIR_PRIVATE_FIELDS : list field :=
  on_platform (λ _, UvUnix.UV_DIR_PRIVATE_FIELDS) (λ _ _, UvWin.UV_DIR_PRIVATE_FIELDS).
Definition uv_env_item_s : cty := CStruct [("name", pointer "char"); ("value", pointer "char")].
Definition uv_dir_s : cty := CStruct
  ([("dirents", pointer "uv_dirent_t"); ("nentries", size_t);
   ("reserved", CArray (pointer "void") 4)] ++
  UV_DIR_PRIVATE_FIELDS).
Definition uv_thread_options_s : cty := CStruct [("flags", unsigned_); ("stack_size", size_t)].
End uv.

(** ** The hierarchy *)
Section hierarchy.
Context `{Abi} (pf : platform).

Lemma handle_derives fs : derives (CStruct (UV_HANDLE_FIELDS pf ++ fs)) (uv_handle_s pf).
Proof. apply derives_app. Qed.
Lemma req_derives fs : derives (CStruct (UV_REQ_FIELDS pf ++ fs)) (uv_req_s pf).
Proof. apply derives_app. Qed.
Lemma stream_derives fs :
  derives (CStruct (UV_HANDLE_FIELDS pf ++ UV_STREAM_FIELDS pf ++ fs)) (uv_stream_s pf).
Proof. rewrite app_assoc. apply derives_app. Qed.

Lemma handles_derive : Forall (λ '(_, _, t), derives t (uv_handle_s pf)) (UV_HANDLE_TYPE_MAP pf).
Proof. repeat constructor; first [apply derives_refl|apply handle_derives]. Qed.

Lemma streams_derive :
  Forall (λ t, derives t (uv_stream_s pf)) [uv_stream_s pf; uv_tcp_s pf; uv_pipe_s pf; uv_tty_s pf].
Proof. repeat constructor; first [apply derives_refl|apply stream_derives]. Qed.

Lemma reqs_derive : Forall (λ '(_, _, t), derives t (uv_req_s pf)) (UV_REQ_TYPE_MAP pf).
Proof. repeat constructor; first [apply derives_refl|apply req_derives]. Qed.

Lemma handle_in_union : Forall (λ '(_, name, t),
  object_at (uv_any_handle pf) [Mem name] = Some (0, t)) (UV_HANDLE_TYPE_MAP pf).
Proof. repeat constructor. Qed.
Lemma req_in_union : Forall (λ '(_, name, t),
  object_at (uv_any_req pf) [Mem name] = Some (0, t)) (UV_REQ_TYPE_MAP pf).
Proof. repeat constructor. Qed.

(** C22. libuv's structures are a hierarchy on every platform and ABI: a
    pointer to any handle can be used as one to [uv_handle_t], to a tcp
    socket, pipe or terminal as one to [uv_stream_t], and to any request as
    one to [uv_req_t]: every member, and member of a member, of the base lies
    at the same offset with the same type, within the object and aligned; and
    each handle and request starts the union of all of them. *)
Theorem uv_hierarchy :
  Forall (λ '(_, name, t), usable_as t (uv_handle_s pf) ∧
    object_at (uv_any_handle pf) [Mem name] = Some (0, t)) (UV_HANDLE_TYPE_MAP pf) ∧
  Forall (λ t, usable_as t (uv_stream_s pf))
    [uv_stream_s pf; uv_tcp_s pf; uv_pipe_s pf; uv_tty_s pf] ∧
  Forall (λ '(_, name, t), usable_as t (uv_req_s pf) ∧
    object_at (uv_any_req pf) [Mem name] = Some (0, t)) (UV_REQ_TYPE_MAP pf).
Proof.
  split_and!.
  - eapply Forall_impl; [apply Forall_and, conj; [apply handles_derive|apply handle_in_union]|].
    intros [[uc name] t] [Hd Ho]. split; [by apply derives_usable|exact Ho].
  - eapply Forall_impl; [apply streams_derive|]. intros t. apply derives_usable.
  - eapply Forall_impl; [apply Forall_and, conj; [apply reqs_derive|apply req_in_union]|].
    intros [[uc name] t] [Hd Ho]. split; [by apply derives_usable|exact Ho].
Qed.
End hierarchy.
