(* ===== verification/UvLayout.v ===== *)
(** * The casts of backend_uv.c

    backend_uv.c keeps a pipe and a tcp handle in one union, and reaches the
    user data of libuv's structures through whichever of them, or through
    their bases. *)

From S2P Require Import Prelude CTypes UvUnix UvWin UvTypes.

(** ** [struct socket_uv] (src/backend_uv.c), and what it embeds *)
Section structures.
Context (pf : platform).

(** [union stream] *)
Definition stream : cty := CUnion [("pipe", uv_pipe_s pf); ("tcp", uv_tcp_s pf)].

(** [struct msg_reader] (src/msg_reader.h) *)
Definition msg_reader_c : cty :=
  CStruct [("msg", pointer "struct sc_msg"); ("head_pos", pointer "unsigned char");
    ("body_pos", pointer "unsigned char")].

Definition socket_uv_c : cty := CStruct
  [("watcher", pointer "struct watcher"); ("stream", stream);
   ("connect_request", uv_connect_s pf); ("write_request", uv_write_s pf);
   ("write_buffers", CArray (uv_buf_t pf) 2); ("msg", pointer "struct sc_msg");
   ("reader", msg_reader_c); ("proto", enum "enum proto");
   ("tcp_addr", named "struct sockaddr_in")].
End structures.

(** ** Sizes on x86-64 Linux *)
Definition linux : platform := Unix (UnixSystem Linux None None).

Definition x86_64_named (name : string) : Z * Z :=
  if decide (name = "pthread_mutex_t") then (40, 8)
  else if decide (name = "pthread_rwlock_t") then (56, 8)
  else if decide (name = "struct sockaddr_storage") then (128, 8)
  else if decide (name = "struct sockaddr_in") then (16, 4)
  else if decide (name = "struct sockaddr_in6") then (28, 4)
  else if decide (name = "struct termios") then (60, 4)
  else if decide (name ∈ ["mode_t"; "uid_t"; "gid_t"]) then (4, 4)
  else (8, 8).

Definition x86_64_prim (p : prim) : Z * Z :=
  match p with
  | PChar | PUChar => (1, 1)
  | PShort | PUShort => (2, 2)
  | PInt | PUInt | PInt32 | PUInt32 | PEnum _ => (4, 4)
  | PNamed name => x86_64_named name
  | _ => (8, 8)
  end.

Lemma x86_64_ok p :
  0 < fst (x86_64_prim p) ∧ (∃ k, 0 ≤ k ∧ snd (x86_64_prim p) = 2 ^ k) ∧
  (snd (x86_64_prim p) | fst (x86_64_prim p)).
Proof.
  assert (Hok : ∀ n k : Z, 0 < n → (∃ i, 0 ≤ i ∧ k = 2 ^ i) → (k | n) →
    0 < fst (n, k) ∧ (∃ i, 0 ≤ i ∧ snd (n, k) = 2 ^ i) ∧ (snd (n, k) | fst (n, k))) by done.
  assert (H1 : ∃ i, 0 ≤ i ∧ 1 = 2 ^ i) by by exists 0.
  assert (H2 : ∃ i, 0 ≤ i ∧ 2 = 2 ^ i) by by exists 1.
  assert (H4 : ∃ i, 0 ≤ i ∧ 4 = 2 ^ i) by by exists 2.
  assert (H8 : ∃ i, 0 ≤ i ∧ 8 = 2 ^ i) by by exists 3.
  destruct p; cbn [x86_64_prim]; unfold x86_64_named; repeat case_decide; apply Hok;
    first [done|by eapply Zmod_divide_refl|apply Z.mod_divide; [done|reflexivity]].
Qed.
Definition x86_64 : Abi := {|
  prim_size p := fst (x86_64_prim p);
  prim_align p := snd (x86_64_prim p);
  prim_size_pos p := proj1 (x86_64_ok p);
  prim_align_pow p := proj1 (proj2 (x86_64_ok p));
  prim_size_align p := proj2 (proj2 (x86_64_ok p))
|}.

(** The sizes libuv has there. *)
Lemma x86_64_linux_sizes :
  ((λ '(_, name, t), (name, @sizeof x86_64 t)) <$> UV_HANDLE_TYPE_MAP linux) =
    [("async", 128); ("check", 120); ("fs_event", 136); ("fs_poll", 104); ("handle", 96);
     ("idle", 120); ("pipe", 264); ("poll", 160); ("prepare", 120); ("process", 136);
     ("stream", 248); ("tcp", 248); ("timer", 152); ("tty", 312); ("udp", 216); ("signal", 152)] ∧
  ((λ '(_, name, t), (name, @sizeof x86_64 t)) <$> UV_REQ_TYPE_MAP linux) =
    [("req", 64); ("connect", 96); ("write", 192); ("shutdown", 80); ("udp_send", 320);
     ("fs", 440); ("work", 128); ("getaddrinfo", 160); ("getnameinfo", 1320); ("random", 144)] ∧
  @sizeof x86_64 (uv_loop_s linux) = 848 ∧ @sizeof x86_64 (socket_uv_c linux) = 648.
Proof. vm_compute. by split_and!. Qed.

(** The numbers of the types: distinct, and for handles and public requests
    the same everywhere. *)
Lemma type_codes pf :
  NoDup (uv_handle_type pf) ∧ NoDup (uv_req_type pf) ∧
  uv_handle_type pf = uv_handle_type linux ∧ take 11 (uv_req_type pf) = take 11 (uv_req_type linux).
Proof.
  assert (Hnd : ∀ l : list string, bool_decide (NoDup l) = true → NoDup l)
    by (intros l; apply bool_decide_eq_true_1).
  destruct pf; (split_and!; [apply Hnd; vm_compute; reflexivity..|reflexivity|reflexivity]).
Qed.

(** What unix.h writes out for the tree of signal handles is the [RB_ENTRY] of
    tree.h, which win.h uses. *)
Lemma signal_tree_entry : assoc "tree_entry" UvUnix.UV_SIGNAL_PRIVATE_FIELDS = Some (RB_ENTRY "uv_signal_s").
Proof. reflexivity. Qed.

(** ** The casts of backend_uv.c *)
Section casts.
Context `{Abi} (pf : platform).

Lemma streams_in_union v t :
  (v, t) ∈ [("pipe", uv_pipe_s pf); ("tcp", uv_tcp_s pf)] →
  derives t (uv_stream_s pf) ∧ select (stream pf) (Mem v) = Some (0, t).
Proof.
  rewrite !elem_of_cons, elem_of_nil. intros [[= -> ->]|[[= -> ->]|[]]];
    (split; [apply stream_derives|reflexivity]).
Qed.

(** What lies at a path through the union of streams. *)
Lemma union_object v t p a u :
  (v, t) ∈ [("pipe", uv_pipe_s pf); ("tcp", uv_tcp_s pf)] → p ≠ [] →
  object_at (uv_stream_s pf) p = Some (a, u) → object_at (stream pf) (Mem v :: p) = Some (a, u).
Proof.
  intros [Hd Hs]%streams_in_union Hp Ho. cbn [object_at]. rewrite Hs. cbn.
  by rewrite (derives_object _ _ _ _ Hd Hp Ho).
Qed.

(** Where [buv_init] stores the address of the structure. *)
Definition data_paths : list (list sel) :=
  [[Mem "stream"; Mem "pipe"; Mem "data"]; [Mem "connect_request"; Mem "data"];
   [Mem "write_request"; Mem "data"]].

(** C20. The casts of backend_uv.c.  [buv_init] stores the address of the
    structure in [data] of the handle, reached through the pipe of the union
    and then a cast to [uv_handle_s], and again to [uv_stream_s]; the
    callbacks read it from a stream, which may be the tcp socket of the union.
    On every platform and ABI these are one and the same object, and
    likewise every other member of a stream or a handle is one object,
    whether it is reached through the pipe or the tcp socket.  The three
    [data] pointers of the structure do not overlap. *)
Theorem buv_init_casts :
  (∀ v p a u, v ∈ ["pipe"; "tcp"] → p ≠ [] →
    object_at (uv_stream_s pf) p = Some (a, u) ∨ object_at (uv_handle_s pf) p = Some (a, u) →
    ∃ o, offsetof (socket_uv_c pf) [Mem "stream"] = Some o ∧
      object_at (socket_uv_c pf) (Mem "stream" :: Mem v :: p) = Some (o + a, u)) ∧
  (∀ p, p ∈ data_paths → ∃ a, object_at (socket_uv_c pf) p = Some (a, pointer "void")) ∧
  (∀ p q a b t u, p ∈ data_paths → q ∈ data_paths → p ≠ q →
    object_at (socket_uv_c pf) p = Some (a, t) → object_at (socket_uv_c pf) q = Some (b, u) →
    a + sizeof t ≤ b ∨ b + sizeof u ≤ a).
Proof.
  split_and!.
  - intros v p a u Hv Hp Ho. eexists. split; [reflexivity|].
    assert (Hs : object_at (uv_stream_s pf) p = Some (a, u)).
    { destruct Ho as [?|Ho]; [done|]. eapply derives_object; [apply handle_derives|done..]. }
    apply object_at_cons. eexists _, _, a. split; [reflexivity|]. split; [|by rewrite Z.add_0_r].
    rewrite !elem_of_cons, elem_of_nil in Hv.
    destruct Hv as [->|[->|[]]]; (eapply union_object; [|done..]); rewrite !elem_of_cons; auto.
  - intros p Hp. repeat (apply elem_of_cons in Hp as [->|Hp]); [by eexists..|].
    by apply elem_of_nil in Hp.
  - intros p q a b t u Hp Hq Hne.
    repeat (apply elem_of_cons in Hp as [->|Hp]); try (by apply elem_of_nil in Hp);
      repeat (apply elem_of_cons in Hq as [->|Hq]); try (by apply elem_of_nil in Hq);
      try done; by apply objects_disjoint.
Qed.
End casts.
