(* ===== verification/CDecl.v ===== *)
(** * Declarations and calls of C

    Types as declarations name them, with typedefs; the expressions that occur
    as arguments of calls, and their types; and when an argument may be passed
    for a parameter.  What a cast is allowed to do is a matter of the structures
    the tags stand for: a table says which structures may be used as which, and
    UvCalls.v shows that the layouts (CTypes.v) bear it out. *)

From S2P Require Import Prelude CTypes.

Inductive ct :=
  | TVoid
  | TArith (name : string)                 (** an integer, floating or enumerated type *)
  | TTag (tag : string)                    (** a structure or union *)
  | TName (name : string)                  (** a typedef *)
  | TConst (t : ct)
  | TPtr (t : ct)
  | TArr (t : ct) (n : option nat)
  | TFun (variadic : bool) (result : ct) (params : list ct).

Abbreviation decl := (string * ct)%type.

Definition fn := TFun false.
Definition vfn := TFun true.

Module Ct.
Definition int_ := TArith "int".
Definition unsigned_ := TArith "unsigned int".
Definition char_ := TArith "char".
Definition size_t := TArith "size_t".
End Ct.

(** The same type. *)
Fixpoint ct_eqb (t u : ct) : bool :=
  let all := fix all (ts us : list ct) : bool :=
    match ts, us with
    | [], [] => true
    | t :: ts, u :: us => ct_eqb t u && all ts us
    | _, _ => false
    end in
  match t, u with
  | TVoid, TVoid => true
  | TArith a, TArith b | TTag a, TTag b | TName a, TName b => bool_decide (a = b)
  | TConst t, TConst u | TPtr t, TPtr u => ct_eqb t u
  | TArr t m, TArr u n => ct_eqb t u && bool_decide (m = n)
  | TFun v t ts, TFun w u us => bool_decide (v = w) && ct_eqb t u && all ts us
  | _, _ => false
  end.

(** Induction through the parameters of functions. *)
Section ct_ind.
Context (P : ct → Prop).
Context (HV : P TVoid) (HA : ∀ a, P (TArith a)) (HT : ∀ a, P (TTag a)) (HN : ∀ a, P (TName a)).
Context (HC : ∀ t, P t → P (TConst t)) (HP : ∀ t, P t → P (TPtr t)) (HR : ∀ t n, P t → P (TArr t n)).
Context (HF : ∀ v t ts, P t → Forall P ts → P (TFun v t ts)).

Fixpoint ct_params_ind (t : ct) : P t :=
  let all := fix all (ts : list ct) : Forall P ts :=
    match ts with
    | [] => Forall_nil_2 _
    | t :: ts => Forall_cons_2 _ _ _ (ct_params_ind t) (all ts)
    end in
  match t with
  | TVoid => HV
  | TArith a => HA a
  | TTag a => HT a
  | TName a => HN a
  | TConst t => HC t (ct_params_ind t)
  | TPtr t => HP t (ct_params_ind t)
  | TArr t n => HR t n (ct_params_ind t)
  | TFun v t ts => HF v t ts (ct_params_ind t) (all ts)
  end.
End ct_ind.

Lemma ct_eqb_eq t u : ct_eqb t u = true ↔ t = u.
Proof.
  revert u. induction t as [|a|a|a|t IH|t IH|t n IH|v t ts IH IHs] using ct_params_ind;
    intros [|b|b|b|u|u|u m|w u us]; cbn [ct_eqb]; try (by split; [|congruence]);
    rewrite ?andb_true_iff, ?bool_decide_eq_true, ?IH; try (split; congruence || naive_solver).
  assert (Hall : ∀ us, (fix all ts us := match ts, us with
      | [], [] => true | t :: ts, u :: us => ct_eqb t u && all ts us | _, _ => false end) ts us = true ↔ ts = us).
  { induction IHs as [|t' ts Ht _ IHs]; intros [|u' us']; try (by split; [|congruence]).
    rewrite andb_true_iff, Ht, IHs. split; [by intros [-> ->]|by intros [= -> ->]]. }
  rewrite Hall. split; [by intros [[-> ->] ->]|by intros [= -> -> ->]].
Qed.

#[export] Instance ct_eq_dec : EqDecision ct.
Proof.
  intros t u. destruct (ct_eqb t u) eqn:E; [left; by apply ct_eqb_eq|right].
  intros Htu%ct_eqb_eq. congruence.
Defined.

(** ** Typedefs *)
Section typedefs.
Context (typedefs : list decl).

(** Typedefs written out, [fuel] of them one inside the other. *)
Fixpoint expand (fuel : nat) (t : ct) : ct :=
  match fuel with
  | O => t
  | S fuel =>
      match t with
      | TVoid | TArith _ | TTag _ => t
      | TName a => match assoc a typedefs with Some u => expand fuel u | None => t end
      | TConst t => TConst (expand fuel t)
      | TPtr t => TPtr (expand fuel t)
      | TArr t n => TArr (expand fuel t) n
      | TFun v t ts => TFun v (expand fuel t) (expand fuel <$> ts)
      end
  end.

(** What a value of the type is: an array is a pointer to its first element, a
    function a pointer to it, and a constant a value. *)
Definition value_type (t : ct) : ct :=
  match t with
  | TConst t => t
  | TArr t _ => TPtr t
  | TFun _ _ _ => TPtr t
  | _ => t
  end.

(** [12] levels are more than any declaration here has. *)
Definition norm (t : ct) : ct := value_type (expand 12 t).

(** A function type with its parameters as values. *)
Definition norm_fun (t : ct) : ct :=
  match t with TFun v t ts => TFun v t (value_type <$> ts) | _ => t end.

Definition unqualified (t : ct) : ct := match t with TConst t => t | _ => t end.
Definition is_const (t : ct) : bool := match t with TConst _ => true | _ => false end.

(** A pointer may be passed for one to the same type, with as many
    qualifications, or for one to [void]. *)
Definition target_ok (to from : ct) : bool :=
  (negb (is_const from) || is_const to) &&
  (bool_decide (unqualified to = TVoid) || bool_decide (norm_fun (unqualified to) = norm_fun (unqualified from))).

Definition converts (to from : ct) : bool :=
  match to, from with
  | TArith _, TArith _ => true
  | TPtr to, TPtr from => target_ok to from
  | _, _ => bool_decide (to = from)
  end.

(** ** Expressions *)

Inductive cexpr :=
  | Lit (n : Z)
  | Enum (x : string)                    (** an enumeration constant *)
  | Var (x : string)                     (** a variable, or a function *)
  | Arrow (e : cexpr) (x : string)       (** [e->x] *)
  | Dot (e : cexpr) (x : string)         (** [e.x] *)
  | Addr (e : cexpr)                     (** [&e] *)
  | Cast (t : ct) (e : cexpr).           (** [(t)e] *)

Context (enumerators : list string).
(** The members of structures and unions, and which may be used as which. *)
Context (tags : list (string * list decl)) (used_as : string → string → bool).

Definition member_of (t : ct) (x : string) : option ct :=
  match unqualified t with TTag tag => ds ← assoc tag tags; assoc x ds | _ => None end.

(** The type a pointer is cast to has to be one that what it points to may be
    used as; integers are cast to integers. *)
Definition cast_ok (to from : ct) : bool :=
  match to, from with
  | TArith _, TArith _ => true
  | TPtr to, TPtr from =>
      (negb (is_const from) || is_const to) &&
      match unqualified to, unqualified from with
      | TTag b, TTag d => used_as d b
      | _, _ => false
      end
  | _, _ => false
  end.

Fixpoint type_of (env : list decl) (e : cexpr) : option ct :=
  match e with
  | Lit _ => Some (TArith "int")
  | Enum x => if decide (x ∈ enumerators) then Some (TArith "int") else None
  | Var x => t ← assoc x env; Some (expand 12 t)
  | Arrow e x =>
      t ← type_of env e;
      match value_type t with
      | TPtr t => u ← member_of t x; Some (expand 12 u)
      | _ => None
      end
  | Dot e x => t ← type_of env e; u ← member_of t x; Some (expand 12 u)
  | Addr e => t ← type_of env e; Some (TPtr t)
  | Cast t e =>
      u ← type_of env e;
      if cast_ok (norm t) (value_type u) then Some (norm t) else None
  end.

(** The argument [e] may be passed for a parameter of type [p]: a null pointer
    for any pointer. *)
Definition arg_ok (env : list decl) (p : ct) (e : cexpr) : bool :=
  match type_of env e with
  | Some t =>
      match norm p, e with
      | TPtr _, Lit 0 => true
      | p, _ => converts p (value_type t)
      end
  | None => false
  end.

(** ** Calls *)

(** A call, in the function [c_in], of the function [c_fun]; the types of the
    names in it, and the type of what its result is stored in, if it is. *)
Record ccall := CCall {
  c_in : string;
  c_env : list decl;
  c_fun : string;
  c_args : list cexpr;
  c_result : option ct
}.

Fixpoint args_ok (env : list decl) (ps : list ct) (es : list cexpr) : bool :=
  match ps, es with
  | [], [] => true
  | p :: ps, e :: es => arg_ok env p e && args_ok env ps es
  | _, _ => false
  end.

Definition result_ok (r : ct) (use : option ct) : bool :=
  match use with None => true | Some t => converts (norm t) (norm r) end.

Definition call_ok (functions : list decl) (c : ccall) : bool :=
  match assoc (c_fun c) functions with
  | Some (TFun false r ps) => args_ok (c_env c) ps (c_args c) && result_ok r (c_result c)
  | _ => false
  end.

(** The structure an argument points to, whatever it is cast to; and the one a
    parameter points to. *)
Fixpoint uncast (e : cexpr) : cexpr := match e with Cast _ e => uncast e | _ => e end.
Definition pointee (t : ct) : option string :=
  match t with
  | TPtr t => match unqualified t with TTag tag => Some tag | _ => None end
  | _ => None
  end.
Definition points_to (env : list decl) (e : cexpr) : option string :=
  t ← type_of env (uncast e); pointee (value_type t).

Context (used_refl : ∀ a, used_as a a = true) (used_trans : ∀ a b c, used_as a b = true → used_as b c = true → used_as a c = true).

(** ** What the checks are good for *)

Lemma target_ok_pointee to from b :
  target_ok to from = true → pointee (TPtr to) = Some b → pointee (TPtr from) = Some b.
Proof.
  unfold target_ok. cbn. intros [_ H]%andb_true_iff E. destruct (unqualified to) as [| |tag| | | | | ]; try done.
  injection E as ->. apply orb_true_iff in H as [H|H]; apply bool_decide_eq_true in H; [done|].
  cbn in H. destruct (unqualified from); try done; cbn in H; by simplify_eq.
Qed.

#[local] Opaque expand.

(** A pointer that is cast, perhaps more than once, to one to [b] points to
    something that may be used as a [b]. *)
Lemma cast_pointee env e t b :
  type_of env e = Some t → pointee (value_type t) = Some b →
  ∃ d, points_to env e = Some d ∧ used_as d b = true.
Proof.
  revert t b. induction e as [| | | | | |c e IH]; intros t b Et Eb;
    try (exists b; split; [|done]; unfold points_to; cbn [uncast]; rewrite Et; exact Eb).
  cbn [type_of] in Et. destruct (type_of env e) as [u|] eqn:Eu; [|done]. cbn in Et.
  destruct (cast_ok (norm c) (value_type u)) eqn:Ec; [|done]. injection Et as <-.
  destruct (norm c) as [| | | | |to| |]; try done. cbn in Eb.
  destruct (value_type u) as [| | | | |from| |] eqn:Ev; try done. unfold cast_ok in Ec.
  destruct (unqualified to) as [| |b'| | | | |]; try done. injection Eb as ->.
  destruct (unqualified from) as [| |d| | | | |] eqn:Ef; try (by rewrite andb_false_r in Ec).
  apply andb_true_iff in Ec as [_ Ec]. destruct (IH u d eq_refl) as (d' & Ed & Hd).
  { rewrite Ev. cbn. by rewrite Ef. }
  exists d'. split; [exact Ed|by eapply used_trans].
Qed.

Lemma arg_ok_pointee env p e b :
  arg_ok env p e = true → pointee (norm p) = Some b →
  e = Lit 0 ∨ ∃ d, points_to env e = Some d ∧ used_as d b = true.
Proof.
  unfold arg_ok. intros H Eb. destruct (type_of env e) as [t|] eqn:Et; [|done].
  destruct (norm p) as [| | | | |to| |]; try done.
  assert (Hc : e = Lit 0 ∨ converts (TPtr to) (value_type t) = true).
  { destruct e as [[| |]| | | | | |]; auto. }
  destruct Hc as [->|Hc]; [by left|right]. destruct (value_type t) as [| | | | |from| |] eqn:Ev; try done.
  eapply cast_pointee; [done|]. rewrite Ev. by eapply target_ok_pointee.
Qed.

(** So does every argument of a call that passes the check. *)
Lemma args_ok_pointees env ps es :
  args_ok env ps es = true →
  Forall2 (λ p e, arg_ok env p e = true ∧ ∀ b, pointee (norm p) = Some b →
    e = Lit 0 ∨ ∃ d, points_to env e = Some d ∧ used_as d b = true) ps es.
Proof.
  revert es. induction ps as [|p ps IH]; intros [|e es]; try done. cbn.
  intros [H Hs]%andb_true_iff. constructor; [|by apply IH]. split; [done|].
  intros b. by apply arg_ok_pointee.
Qed.

Lemma call_ok_args functions c :
  call_ok functions c = true →
  ∃ r ps, assoc (c_fun c) functions = Some (TFun false r ps) ∧ result_ok r (c_result c) = true ∧
    Forall2 (λ p e, arg_ok (c_env c) p e = true ∧ ∀ b, pointee (norm p) = Some b →
      e = Lit 0 ∨ ∃ d, points_to (c_env c) e = Some d ∧ used_as d b = true) ps (c_args c).
Proof.
  unfold call_ok. destruct (assoc (c_fun c) functions) as [[| | | | | | |[|] r ps]|]; try done.
  intros [Ha Hr]%andb_true_iff. exists r, ps. split_and!; [done|done|by apply args_ok_pointees].
Qed.
End typedefs.
