(* ===== verification/UvDecls.v ===== *)
(** * The declarations of libuv (uv.h)

    Every typedef of a structure, every type of callback, and every function
    that uv.h declares, in the order it does; [fn r ps] is a function of [ps]
    that returns [r].  A group of declarations is what stands between two
    definitions of structures. *)

From S2P Require Import Prelude CDecl.
Import Ct.

Abbreviation ptr name := (TPtr (TName name)).
Abbreviation const_ptr name := (TPtr (TConst (TName name))).
Abbreviation text_ := (TPtr (TConst char_)).

Definition handle_typedefs : list decl :=
  [("uv_loop_t", TTag "uv_loop_s");
   ("uv_handle_t", TTag "uv_handle_s");
   ("uv_dir_t", TTag "uv_dir_s");
   ("uv_stream_t", TTag "uv_stream_s");
   ("uv_tcp_t", TTag "uv_tcp_s");
   ("uv_udp_t", TTag "uv_udp_s");
   ("uv_pipe_t", TTag "uv_pipe_s");
   ("uv_tty_t", TTag "uv_tty_s");
   ("uv_poll_t", TTag "uv_poll_s");
   ("uv_timer_t", TTag "uv_timer_s");
   ("uv_prepare_t", TTag "uv_prepare_s");
   ("uv_check_t", TTag "uv_check_s");
   ("uv_idle_t", TTag "uv_idle_s");
   ("uv_async_t", TTag "uv_async_s");
   ("uv_process_t", TTag "uv_process_s");
   ("uv_fs_event_t", TTag "uv_fs_event_s");
   ("uv_fs_poll_t", TTag "uv_fs_poll_s");
   ("uv_signal_t", TTag "uv_signal_s")].

Definition request_typedefs : list decl :=
  [("uv_req_t", TTag "uv_req_s");
   ("uv_getaddrinfo_t", TTag "uv_getaddrinfo_s");
   ("uv_getnameinfo_t", TTag "uv_getnameinfo_s");
   ("uv_shutdown_t", TTag "uv_shutdown_s");
   ("uv_write_t", TTag "uv_write_s");
   ("uv_connect_t", TTag "uv_connect_s");
   ("uv_udp_send_t", TTag "uv_udp_send_s");
   ("uv_fs_t", TTag "uv_fs_s");
   ("uv_work_t", TTag "uv_work_s");
   ("uv_random_t", TTag "uv_random_s")].

Definition other_typedefs : list decl :=
  [("uv_env_item_t", TTag "uv_env_item_s");
   ("uv_cpu_info_t", TTag "uv_cpu_info_s");
   ("uv_interface_address_t", TTag "uv_interface_address_s");
   ("uv_dirent_t", TTag "uv_dirent_s");
   ("uv_passwd_t", TTag "uv_passwd_s");
   ("uv_utsname_t", TTag "uv_utsname_s");
   ("uv_statfs_t", TTag "uv_statfs_s")].

Definition version_functions : list decl :=
  [("uv_version", fn unsigned_ []);
   ("uv_version_string", fn (text_) [])].

Definition allocator_types : list decl :=
  [("uv_malloc_func", TPtr (fn (TPtr TVoid) [size_t]));
   ("uv_realloc_func", TPtr (fn (TPtr TVoid) [TPtr TVoid; size_t]));
   ("uv_calloc_func", TPtr (fn (TPtr TVoid) [size_t; size_t]));
   ("uv_free_func", TPtr (fn TVoid [TPtr TVoid]))].

Definition loop_functions : list decl :=
  [("uv_library_shutdown", fn TVoid []);
   ("uv_replace_allocator", fn int_ [TName "uv_malloc_func"; TName "uv_realloc_func";
      TName "uv_calloc_func"; TName "uv_free_func"]);
   ("uv_default_loop", fn (ptr "uv_loop_t") []);
   ("uv_loop_init", fn int_ [ptr "uv_loop_t"]);
   ("uv_loop_close", fn int_ [ptr "uv_loop_t"]);
   ("uv_loop_new", fn (ptr "uv_loop_t") []);
   ("uv_loop_delete", fn TVoid [ptr "uv_loop_t"]);
   ("uv_loop_size", fn size_t []);
   ("uv_loop_alive", fn int_ [const_ptr "uv_loop_t"]);
   ("uv_loop_configure", vfn int_ [ptr "uv_loop_t"; TName "uv_loop_option"]);
   ("uv_loop_fork", fn int_ [ptr "uv_loop_t"]);
   ("uv_run", fn int_ [ptr "uv_loop_t"; TName "uv_run_mode"]);
   ("uv_stop", fn TVoid [ptr "uv_loop_t"]);
   ("uv_ref", fn TVoid [ptr "uv_handle_t"]);
   ("uv_unref", fn TVoid [ptr "uv_handle_t"]);
   ("uv_has_ref", fn int_ [const_ptr "uv_handle_t"]);
   ("uv_update_time", fn TVoid [ptr "uv_loop_t"]);
   ("uv_now", fn (TArith "uint64_t") [const_ptr "uv_loop_t"]);
   ("uv_backend_fd", fn int_ [const_ptr "uv_loop_t"]);
   ("uv_backend_timeout", fn int_ [const_ptr "uv_loop_t"])].

Definition callback_types : list decl :=
  [("uv_alloc_cb", TPtr (fn TVoid [ptr "uv_handle_t"; size_t; ptr "uv_buf_t"]));
   ("uv_read_cb", TPtr (fn TVoid [ptr "uv_stream_t"; TArith "ssize_t"; const_ptr "uv_buf_t"]));
   ("uv_write_cb", TPtr (fn TVoid [ptr "uv_write_t"; int_]));
   ("uv_connect_cb", TPtr (fn TVoid [ptr "uv_connect_t"; int_]));
   ("uv_shutdown_cb", TPtr (fn TVoid [ptr "uv_shutdown_t"; int_]));
   ("uv_connection_cb", TPtr (fn TVoid [ptr "uv_stream_t"; int_]));
   ("uv_close_cb", TPtr (fn TVoid [ptr "uv_handle_t"]));
   ("uv_poll_cb", TPtr (fn TVoid [ptr "uv_poll_t"; int_; int_]));
   ("uv_timer_cb", TPtr (fn TVoid [ptr "uv_timer_t"]));
   ("uv_async_cb", TPtr (fn TVoid [ptr "uv_async_t"]));
   ("uv_prepare_cb", TPtr (fn TVoid [ptr "uv_prepare_t"]));
   ("uv_check_cb", TPtr (fn TVoid [ptr "uv_check_t"]));
   ("uv_idle_cb", TPtr (fn TVoid [ptr "uv_idle_t"]));
   ("uv_exit_cb", TPtr (fn TVoid [ptr "uv_process_t"; TArith "int64_t"; int_]));
   ("uv_walk_cb", TPtr (fn TVoid [ptr "uv_handle_t"; TPtr TVoid]));
   ("uv_fs_cb", TPtr (fn TVoid [ptr "uv_fs_t"]));
   ("uv_work_cb", TPtr (fn TVoid [ptr "uv_work_t"]));
   ("uv_after_work_cb", TPtr (fn TVoid [ptr "uv_work_t"; int_]));
   ("uv_getaddrinfo_cb", TPtr (fn TVoid [ptr "uv_getaddrinfo_t"; int_; TPtr (TTag "addrinfo")]));
   ("uv_getnameinfo_cb", TPtr (fn TVoid [ptr "uv_getnameinfo_t"; int_; text_; text_]));
   ("uv_random_cb", TPtr (fn TVoid [ptr "uv_random_t"; int_; TPtr TVoid; size_t]))].

Definition watcher_callback_types : list decl :=
  [("uv_fs_event_cb", TPtr (fn TVoid [ptr "uv_fs_event_t"; text_; int_; int_]));
   ("uv_fs_poll_cb", TPtr (fn TVoid [ptr "uv_fs_poll_t"; int_; const_ptr "uv_stat_t";
      const_ptr "uv_stat_t"]));
   ("uv_signal_cb", TPtr (fn TVoid [ptr "uv_signal_t"; int_]))].

Definition error_functions : list decl :=
  [("uv_translate_sys_error", fn int_ [int_]);
   ("uv_strerror", fn (text_) [int_]);
   ("uv_strerror_r", fn (TPtr char_) [int_; TPtr char_; size_t]);
   ("uv_err_name", fn (text_) [int_]);
   ("uv_err_name_r", fn (TPtr char_) [int_; TPtr char_; size_t])].

Definition shutdown_functions : list decl :=
  [("uv_shutdown", fn int_ [ptr "uv_shutdown_t"; ptr "uv_stream_t"; TName "uv_shutdown_cb"])].

Definition handle_functions : list decl :=
  [("uv_handle_size", fn size_t [TName "uv_handle_type"]);
   ("uv_handle_get_type", fn (TName "uv_handle_type") [const_ptr "uv_handle_t"]);
   ("uv_handle_type_name", fn (text_) [TName "uv_handle_type"]);
   ("uv_handle_get_data", fn (TPtr TVoid) [const_ptr "uv_handle_t"]);
   ("uv_handle_get_loop", fn (ptr "uv_loop_t") [const_ptr "uv_handle_t"]);
   ("uv_handle_set_data", fn TVoid [ptr "uv_handle_t"; TPtr TVoid]);
   ("uv_req_size", fn size_t [TName "uv_req_type"]);
   ("uv_req_get_data", fn (TPtr TVoid) [const_ptr "uv_req_t"]);
   ("uv_req_set_data", fn TVoid [ptr "uv_req_t"; TPtr TVoid]);
   ("uv_req_get_type", fn (TName "uv_req_type") [const_ptr "uv_req_t"]);
   ("uv_req_type_name", fn (text_) [TName "uv_req_type"]);
   ("uv_is_active", fn int_ [const_ptr "uv_handle_t"]);
   ("uv_walk", fn TVoid [ptr "uv_loop_t"; TName "uv_walk_cb"; TPtr TVoid]);
   ("uv_print_all_handles", fn TVoid [ptr "uv_loop_t"; ptr "FILE"]);
   ("uv_print_active_handles", fn TVoid [ptr "uv_loop_t"; ptr "FILE"]);
   ("uv_close", fn TVoid [ptr "uv_handle_t"; TName "uv_close_cb"]);
   ("uv_send_buffer_size", fn int_ [ptr "uv_handle_t"; TPtr int_]);
   ("uv_recv_buffer_size", fn int_ [ptr "uv_handle_t"; TPtr int_]);
   ("uv_fileno", fn int_ [const_ptr "uv_handle_t"; ptr "uv_os_fd_t"]);
   ("uv_buf_init", fn (TName "uv_buf_t") [TPtr char_; unsigned_])].

Definition descriptor_functions : list decl :=
  [("uv_pipe", fn int_ [TArr (TName "uv_file") (Some 2%nat); int_; int_]);
   ("uv_socketpair", fn int_ [int_; int_; TArr (TName "uv_os_sock_t") (Some 2%nat); int_; int_])].

Definition stream_functions : list decl :=
  [("uv_stream_get_write_queue_size", fn size_t [const_ptr "uv_stream_t"]);
   ("uv_listen", fn int_ [ptr "uv_stream_t"; int_; TName "uv_connection_cb"]);
   ("uv_accept", fn int_ [ptr "uv_stream_t"; ptr "uv_stream_t"]);
   ("uv_read_start", fn int_ [ptr "uv_stream_t"; TName "uv_alloc_cb"; TName "uv_read_cb"]);
   ("uv_read_stop", fn int_ [ptr "uv_stream_t"]);
   ("uv_write", fn int_ [ptr "uv_write_t"; ptr "uv_stream_t"; TArr (TConst (TName "uv_buf_t")) None;
      unsigned_; TName "uv_write_cb"]);
   ("uv_write2", fn int_ [ptr "uv_write_t"; ptr "uv_stream_t"; TArr (TConst (TName "uv_buf_t")) None;
      unsigned_; ptr "uv_stream_t"; TName "uv_write_cb"]);
   ("uv_try_write", fn int_ [ptr "uv_stream_t"; TArr (TConst (TName "uv_buf_t")) None; unsigned_]);
   ("uv_try_write2", fn int_ [ptr "uv_stream_t"; TArr (TConst (TName "uv_buf_t")) None; unsigned_;
      ptr "uv_stream_t"])].

Definition stream_state_functions : list decl :=
  [("uv_is_readable", fn int_ [const_ptr "uv_stream_t"]);
   ("uv_is_writable", fn int_ [const_ptr "uv_stream_t"]);
   ("uv_stream_set_blocking", fn int_ [ptr "uv_stream_t"; int_]);
   ("uv_is_closing", fn int_ [const_ptr "uv_handle_t"])].

Definition tcp_functions : list decl :=
  [("uv_tcp_init", fn int_ [ptr "uv_loop_t"; ptr "uv_tcp_t"]);
   ("uv_tcp_init_ex", fn int_ [ptr "uv_loop_t"; ptr "uv_tcp_t"; unsigned_]);
   ("uv_tcp_open", fn int_ [ptr "uv_tcp_t"; TName "uv_os_sock_t"]);
   ("uv_tcp_nodelay", fn int_ [ptr "uv_tcp_t"; int_]);
   ("uv_tcp_keepalive", fn int_ [ptr "uv_tcp_t"; int_; unsigned_]);
   ("uv_tcp_simultaneous_accepts", fn int_ [ptr "uv_tcp_t"; int_])].

Definition tcp_address_functions : list decl :=
  [("uv_tcp_bind", fn int_ [ptr "uv_tcp_t"; TPtr (TConst (TTag "sockaddr")); unsigned_]);
   ("uv_tcp_getsockname", fn int_ [const_ptr "uv_tcp_t"; TPtr (TTag "sockaddr"); TPtr int_]);
   ("uv_tcp_getpeername", fn int_ [const_ptr "uv_tcp_t"; TPtr (TTag "sockaddr"); TPtr int_]);
   ("uv_tcp_close_reset", fn int_ [ptr "uv_tcp_t"; TName "uv_close_cb"]);
   ("uv_tcp_connect", fn int_ [ptr "uv_connect_t"; ptr "uv_tcp_t"; TPtr (TConst (TTag "sockaddr"));
      TName "uv_connect_cb"])].

Definition udp_callback_types : list decl :=
  [("uv_udp_send_cb", TPtr (fn TVoid [ptr "uv_udp_send_t"; int_]));
   ("uv_udp_recv_cb", TPtr (fn TVoid [ptr "uv_udp_t"; TArith "ssize_t"; const_ptr "uv_buf_t";
      TPtr (TConst (TTag "sockaddr")); unsigned_]))].

Definition udp_functions : list decl :=
  [("uv_udp_init", fn int_ [ptr "uv_loop_t"; ptr "uv_udp_t"]);
   ("uv_udp_init_ex", fn int_ [ptr "uv_loop_t"; ptr "uv_udp_t"; unsigned_]);
   ("uv_udp_open", fn int_ [ptr "uv_udp_t"; TName "uv_os_sock_t"]);
   ("uv_udp_bind", fn int_ [ptr "uv_udp_t"; TPtr (TConst (TTag "sockaddr")); unsigned_]);
   ("uv_udp_connect", fn int_ [ptr "uv_udp_t"; TPtr (TConst (TTag "sockaddr"))]);
   ("uv_udp_getpeername", fn int_ [const_ptr "uv_udp_t"; TPtr (TTag "sockaddr"); TPtr int_]);
   ("uv_udp_getsockname", fn int_ [const_ptr "uv_udp_t"; TPtr (TTag "sockaddr"); TPtr int_]);
   ("uv_udp_set_membership", fn int_ [ptr "uv_udp_t"; text_; text_; TName "uv_membership"]);
   ("uv_udp_set_source_membership", fn int_ [ptr "uv_udp_t"; text_; text_; text_;
      TName "uv_membership"]);
   ("uv_udp_set_multicast_loop", fn int_ [ptr "uv_udp_t"; int_]);
   ("uv_udp_set_multicast_ttl", fn int_ [ptr "uv_udp_t"; int_]);
   ("uv_udp_set_multicast_interface", fn int_ [ptr "uv_udp_t"; text_]);
   ("uv_udp_set_broadcast", fn int_ [ptr "uv_udp_t"; int_]);
   ("uv_udp_set_ttl", fn int_ [ptr "uv_udp_t"; int_]);
   ("uv_udp_send", fn int_ [ptr "uv_udp_send_t"; ptr "uv_udp_t"; TArr (TConst (TName "uv_buf_t")) None;
      unsigned_; TPtr (TConst (TTag "sockaddr")); TName "uv_udp_send_cb"]);
   ("uv_udp_try_send", fn int_ [ptr "uv_udp_t"; TArr (TConst (TName "uv_buf_t")) None; unsigned_;
      TPtr (TConst (TTag "sockaddr"))]);
   ("uv_udp_recv_start", fn int_ [ptr "uv_udp_t"; TName "uv_alloc_cb"; TName "uv_udp_recv_cb"]);
   ("uv_udp_using_recvmmsg", fn int_ [const_ptr "uv_udp_t"]);
   ("uv_udp_recv_stop", fn int_ [ptr "uv_udp_t"]);
   ("uv_udp_get_send_queue_size", fn size_t [const_ptr "uv_udp_t"]);
   ("uv_udp_get_send_queue_count", fn size_t [const_ptr "uv_udp_t"])].

Definition tty_functions : list decl :=
  [("uv_tty_init", fn int_ [ptr "uv_loop_t"; ptr "uv_tty_t"; TName "uv_file"; int_]);
   ("uv_tty_set_mode", fn int_ [ptr "uv_tty_t"; TName "uv_tty_mode_t"]);
   ("uv_tty_reset_mode", fn int_ []);
   ("uv_tty_get_winsize", fn int_ [ptr "uv_tty_t"; TPtr int_; TPtr int_]);
   ("uv_tty_set_vterm_state", fn TVoid [TName "uv_tty_vtermstate_t"]);
   ("uv_tty_get_vterm_state", fn int_ [ptr "uv_tty_vtermstate_t"])].

Definition guess_functions : list decl :=
  [("uv_guess_handle", fn (TName "uv_handle_type") [TName "uv_file"])].

Definition pipe_functions : list decl :=
  [("uv_pipe_init", fn int_ [ptr "uv_loop_t"; ptr "uv_pipe_t"; int_]);
   ("uv_pipe_open", fn int_ [ptr "uv_pipe_t"; TName "uv_file"]);
   ("uv_pipe_bind", fn int_ [ptr "uv_pipe_t"; text_]);
   ("uv_pipe_connect", fn TVoid [ptr "uv_connect_t"; ptr "uv_pipe_t"; text_; TName "uv_connect_cb"]);
   ("uv_pipe_getsockname", fn int_ [const_ptr "uv_pipe_t"; TPtr char_; TPtr size_t]);
   ("uv_pipe_getpeername", fn int_ [const_ptr "uv_pipe_t"; TPtr char_; TPtr size_t]);
   ("uv_pipe_pending_instances", fn TVoid [ptr "uv_pipe_t"; int_]);
   ("uv_pipe_pending_count", fn int_ [ptr "uv_pipe_t"]);
   ("uv_pipe_pending_type", fn (TName "uv_handle_type") [ptr "uv_pipe_t"]);
   ("uv_pipe_chmod", fn int_ [ptr "uv_pipe_t"; int_])].

Definition poll_functions : list decl :=
  [("uv_poll_init", fn int_ [ptr "uv_loop_t"; ptr "uv_poll_t"; int_]);
   ("uv_poll_init_socket", fn int_ [ptr "uv_loop_t"; ptr "uv_poll_t"; TName "uv_os_sock_t"]);
   ("uv_poll_start", fn int_ [ptr "uv_poll_t"; int_; TName "uv_poll_cb"]);
   ("uv_poll_stop", fn int_ [ptr "uv_poll_t"])].

Definition prepare_functions : list decl :=
  [("uv_prepare_init", fn int_ [ptr "uv_loop_t"; ptr "uv_prepare_t"]);
   ("uv_prepare_start", fn int_ [ptr "uv_prepare_t"; TName "uv_prepare_cb"]);
   ("uv_prepare_stop", fn int_ [ptr "uv_prepare_t"])].

Definition check_functions : list decl :=
  [("uv_check_init", fn int_ [ptr "uv_loop_t"; ptr "uv_check_t"]);
   ("uv_check_start", fn int_ [ptr "uv_check_t"; TName "uv_check_cb"]);
   ("uv_check_stop", fn int_ [ptr "uv_check_t"])].

Definition idle_functions : list decl :=
  [("uv_idle_init", fn int_ [ptr "uv_loop_t"; ptr "uv_idle_t"]);
   ("uv_idle_start", fn int_ [ptr "uv_idle_t"; TName "uv_idle_cb"]);
   ("uv_idle_stop", fn int_ [ptr "uv_idle_t"])].

Definition async_functions : list decl :=
  [("uv_async_init", fn int_ [ptr "uv_loop_t"; ptr "uv_async_t"; TName "uv_async_cb"]);
   ("uv_async_send", fn int_ [ptr "uv_async_t"])].

Definition timer_functions : list decl :=
  [("uv_timer_init", fn int_ [ptr "uv_loop_t"; ptr "uv_timer_t"]);
   ("uv_timer_start", fn int_ [ptr "uv_timer_t"; TName "uv_timer_cb"; TArith "uint64_t";
      TArith "uint64_t"]);
   ("uv_timer_stop", fn int_ [ptr "uv_timer_t"]);
   ("uv_timer_again", fn int_ [ptr "uv_timer_t"]);
   ("uv_timer_set_repeat", fn TVoid [ptr "uv_timer_t"; TArith "uint64_t"]);
   ("uv_timer_get_repeat", fn (TArith "uint64_t") [const_ptr "uv_timer_t"]);
   ("uv_timer_get_due_in", fn (TArith "uint64_t") [const_ptr "uv_timer_t"])].

Definition getaddrinfo_functions : list decl :=
  [("uv_getaddrinfo", fn int_ [ptr "uv_loop_t"; ptr "uv_getaddrinfo_t"; TName "uv_getaddrinfo_cb";
      text_; text_; TPtr (TConst (TTag "addrinfo"))]);
   ("uv_freeaddrinfo", fn TVoid [TPtr (TTag "addrinfo")])].

Definition getnameinfo_functions : list decl :=
  [("uv_getnameinfo", fn int_ [ptr "uv_loop_t"; ptr "uv_getnameinfo_t"; TName "uv_getnameinfo_cb";
      TPtr (TConst (TTag "sockaddr")); int_])].

Definition process_functions : list decl :=
  [("uv_spawn", fn int_ [ptr "uv_loop_t"; ptr "uv_process_t"; const_ptr "uv_process_options_t"]);
   ("uv_process_kill", fn int_ [ptr "uv_process_t"; int_]);
   ("uv_kill", fn int_ [int_; int_]);
   ("uv_process_get_pid", fn (TName "uv_pid_t") [const_ptr "uv_process_t"])].

Definition work_functions : list decl :=
  [("uv_queue_work", fn int_ [ptr "uv_loop_t"; ptr "uv_work_t"; TName "uv_work_cb";
      TName "uv_after_work_cb"]);
   ("uv_cancel", fn int_ [ptr "uv_req_t"])].

Definition setup_functions : list decl :=
  [("uv_setup_args", fn (TPtr (TPtr char_)) [int_; TPtr (TPtr char_)]);
   ("uv_get_process_title", fn int_ [TPtr char_; size_t]);
   ("uv_set_process_title", fn int_ [text_]);
   ("uv_resident_set_memory", fn int_ [TPtr size_t]);
   ("uv_uptime", fn int_ [TPtr (TArith "double")]);
   ("uv_get_osfhandle", fn (TName "uv_os_fd_t") [int_]);
   ("uv_open_osfhandle", fn int_ [TName "uv_os_fd_t"])].

Definition os_functions : list decl :=
  [("uv_getrusage", fn int_ [ptr "uv_rusage_t"]);
   ("uv_os_homedir", fn int_ [TPtr char_; TPtr size_t]);
   ("uv_os_tmpdir", fn int_ [TPtr char_; TPtr size_t]);
   ("uv_os_get_passwd", fn int_ [ptr "uv_passwd_t"]);
   ("uv_os_free_passwd", fn TVoid [ptr "uv_passwd_t"]);
   ("uv_os_getpid", fn (TName "uv_pid_t") []);
   ("uv_os_getppid", fn (TName "uv_pid_t") [])].

Definition os_info_functions : list decl :=
  [("uv_os_getpriority", fn int_ [TName "uv_pid_t"; TPtr int_]);
   ("uv_os_setpriority", fn int_ [TName "uv_pid_t"; int_]);
   ("uv_available_parallelism", fn unsigned_ []);
   ("uv_cpu_info", fn int_ [TPtr (ptr "uv_cpu_info_t"); TPtr int_]);
   ("uv_free_cpu_info", fn TVoid [ptr "uv_cpu_info_t"; int_]);
   ("uv_interface_addresses", fn int_ [TPtr (ptr "uv_interface_address_t"); TPtr int_]);
   ("uv_free_interface_addresses", fn TVoid [ptr "uv_interface_address_t"; int_])].

Definition environ_functions : list decl :=
  [("uv_os_environ", fn int_ [TPtr (ptr "uv_env_item_t"); TPtr int_]);
   ("uv_os_free_environ", fn TVoid [ptr "uv_env_item_t"; int_]);
   ("uv_os_getenv", fn int_ [text_; TPtr char_; TPtr size_t]);
   ("uv_os_setenv", fn int_ [text_; text_]);
   ("uv_os_unsetenv", fn int_ [text_])].

Definition host_functions : list decl :=
  [("uv_os_gethostname", fn int_ [TPtr char_; TPtr size_t]);
   ("uv_os_uname", fn int_ [ptr "uv_utsname_t"]);
   ("uv_metrics_idle_time", fn (TArith "uint64_t") [ptr "uv_loop_t"])].

Definition fs_functions_1 : list decl :=
  [("uv_fs_get_type", fn (TName "uv_fs_type") [const_ptr "uv_fs_t"]);
   ("uv_fs_get_result", fn (TArith "ssize_t") [const_ptr "uv_fs_t"]);
   ("uv_fs_get_system_error", fn int_ [const_ptr "uv_fs_t"]);
   ("uv_fs_get_ptr", fn (TPtr TVoid) [const_ptr "uv_fs_t"]);
   ("uv_fs_get_path", fn (text_) [const_ptr "uv_fs_t"]);
   ("uv_fs_get_statbuf", fn (ptr "uv_stat_t") [ptr "uv_fs_t"]);
   ("uv_fs_req_cleanup", fn TVoid [ptr "uv_fs_t"]);
   ("uv_fs_close", fn int_ [ptr "uv_loop_t"; ptr "uv_fs_t"; TName "uv_file"; TName "uv_fs_cb"]);
   ("uv_fs_open", fn int_ [ptr "uv_loop_t"; ptr "uv_fs_t"; text_; int_; int_; TName "uv_fs_cb"]);
   ("uv_fs_read", fn int_ [ptr "uv_loop_t"; ptr "uv_fs_t"; TName "uv_file";
      TArr (TConst (TName "uv_buf_t")) None; unsigned_; TArith "int64_t"; TName "uv_fs_cb"]);
   ("uv_fs_unlink", fn int_ [ptr "uv_loop_t"; ptr "uv_fs_t"; text_; TName "uv_fs_cb"]);
   ("uv_fs_write", fn int_ [ptr "uv_loop_t"; ptr "uv_fs_t"; TName "uv_file";
      TArr (TConst (TName "uv_buf_t")) None; unsigned_; TArith "int64_t"; TName "uv_fs_cb"])].

Definition fs_functions_2 : list decl :=
  [("uv_fs_copyfile", fn int_ [ptr "uv_loop_t"; ptr "uv_fs_t"; text_; text_; int_; TName "uv_fs_cb"]);
   ("uv_fs_mkdir", fn int_ [ptr "uv_loop_t"; ptr "uv_fs_t"; text_; int_; TName "uv_fs_cb"]);
   ("uv_fs_mkdtemp", fn int_ [ptr "uv_loop_t"; ptr "uv_fs_t"; text_; TName "uv_fs_cb"]);
   ("uv_fs_mkstemp", fn int_ [ptr "uv_loop_t"; ptr "uv_fs_t"; text_; TName "uv_fs_cb"]);
   ("uv_fs_rmdir", fn int_ [ptr "uv_loop_t"; ptr "uv_fs_t"; text_; TName "uv_fs_cb"]);
   ("uv_fs_scandir", fn int_ [ptr "uv_loop_t"; ptr "uv_fs_t"; text_; int_; TName "uv_fs_cb"]);
   ("uv_fs_scandir_next", fn int_ [ptr "uv_fs_t"; ptr "uv_dirent_t"]);
   ("uv_fs_opendir", fn int_ [ptr "uv_loop_t"; ptr "uv_fs_t"; text_; TName "uv_fs_cb"]);
   ("uv_fs_readdir", fn int_ [ptr "uv_loop_t"; ptr "uv_fs_t"; ptr "uv_dir_t"; TName "uv_fs_cb"]);
   ("uv_fs_closedir", fn int_ [ptr "uv_loop_t"; ptr "uv_fs_t"; ptr "uv_dir_t"; TName "uv_fs_cb"])].

Definition fs_functions_3 : list decl :=
  [("uv_fs_stat", fn int_ [ptr "uv_loop_t"; ptr "uv_fs_t"; text_; TName "uv_fs_cb"]);
   ("uv_fs_fstat", fn int_ [ptr "uv_loop_t"; ptr "uv_fs_t"; TName "uv_file"; TName "uv_fs_cb"]);
   ("uv_fs_rename", fn int_ [ptr "uv_loop_t"; ptr "uv_fs_t"; text_; text_; TName "uv_fs_cb"]);
   ("uv_fs_fsync", fn int_ [ptr "uv_loop_t"; ptr "uv_fs_t"; TName "uv_file"; TName "uv_fs_cb"]);
   ("uv_fs_fdatasync", fn int_ [ptr "uv_loop_t"; ptr "uv_fs_t"; TName "uv_file"; TName "uv_fs_cb"]);
   ("uv_fs_ftruncate", fn int_ [ptr "uv_loop_t"; ptr "uv_fs_t"; TName "uv_file"; TArith "int64_t";
      TName "uv_fs_cb"]);
   ("uv_fs_sendfile", fn int_ [ptr "uv_loop_t"; ptr "uv_fs_t"; TName "uv_file"; TName "uv_file";
      TArith "int64_t"; size_t; TName "uv_fs_cb"]);
   ("uv_fs_access", fn int_ [ptr "uv_loop_t"; ptr "uv_fs_t"; text_; int_; TName "uv_fs_cb"]);
   ("uv_fs_chmod", fn int_ [ptr "uv_loop_t"; ptr "uv_fs_t"; text_; int_; TName "uv_fs_cb"]);
   ("uv_fs_utime", fn int_ [ptr "uv_loop_t"; ptr "uv_fs_t"; text_; TArith "double"; TArith "double";
      TName "uv_fs_cb"]);
   ("uv_fs_futime", fn int_ [ptr "uv_loop_t"; ptr "uv_fs_t"; TName "uv_file"; TArith "double";
      TArith "double"; TName "uv_fs_cb"]);
   ("uv_fs_lutime", fn int_ [ptr "uv_loop_t"; ptr "uv_fs_t"; text_; TArith "double"; TArith "double";
      TName "uv_fs_cb"]);
   ("uv_fs_lstat", fn int_ [ptr "uv_loop_t"; ptr "uv_fs_t"; text_; TName "uv_fs_cb"]);
   ("uv_fs_link", fn int_ [ptr "uv_loop_t"; ptr "uv_fs_t"; text_; text_; TName "uv_fs_cb"])].

Definition fs_functions_4 : list decl :=
  [("uv_fs_symlink", fn int_ [ptr "uv_loop_t"; ptr "uv_fs_t"; text_; text_; int_; TName "uv_fs_cb"]);
   ("uv_fs_readlink", fn int_ [ptr "uv_loop_t"; ptr "uv_fs_t"; text_; TName "uv_fs_cb"]);
   ("uv_fs_realpath", fn int_ [ptr "uv_loop_t"; ptr "uv_fs_t"; text_; TName "uv_fs_cb"]);
   ("uv_fs_fchmod", fn int_ [ptr "uv_loop_t"; ptr "uv_fs_t"; TName "uv_file"; int_; TName "uv_fs_cb"]);
   ("uv_fs_chown", fn int_ [ptr "uv_loop_t"; ptr "uv_fs_t"; text_; TName "uv_uid_t"; TName "uv_gid_t";
      TName "uv_fs_cb"]);
   ("uv_fs_fchown", fn int_ [ptr "uv_loop_t"; ptr "uv_fs_t"; TName "uv_file"; TName "uv_uid_t";
      TName "uv_gid_t"; TName "uv_fs_cb"]);
   ("uv_fs_lchown", fn int_ [ptr "uv_loop_t"; ptr "uv_fs_t"; text_; TName "uv_uid_t"; TName "uv_gid_t";
      TName "uv_fs_cb"]);
   ("uv_fs_statfs", fn int_ [ptr "uv_loop_t"; ptr "uv_fs_t"; text_; TName "uv_fs_cb"])].

Definition fs_poll_functions : list decl :=
  [("uv_fs_poll_init", fn int_ [ptr "uv_loop_t"; ptr "uv_fs_poll_t"]);
   ("uv_fs_poll_start", fn int_ [ptr "uv_fs_poll_t"; TName "uv_fs_poll_cb"; text_; unsigned_]);
   ("uv_fs_poll_stop", fn int_ [ptr "uv_fs_poll_t"]);
   ("uv_fs_poll_getpath", fn int_ [ptr "uv_fs_poll_t"; TPtr char_; TPtr size_t])].

Definition signal_functions : list decl :=
  [("uv_signal_init", fn int_ [ptr "uv_loop_t"; ptr "uv_signal_t"]);
   ("uv_signal_start", fn int_ [ptr "uv_signal_t"; TName "uv_signal_cb"; int_]);
   ("uv_signal_start_oneshot", fn int_ [ptr "uv_signal_t"; TName "uv_signal_cb"; int_]);
   ("uv_signal_stop", fn int_ [ptr "uv_signal_t"]);
   ("uv_loadavg", fn TVoid [TArr (TArith "double") (Some 3%nat)])].

Definition fs_event_functions : list decl :=
  [("uv_fs_event_init", fn int_ [ptr "uv_loop_t"; ptr "uv_fs_event_t"]);
   ("uv_fs_event_start", fn int_ [ptr "uv_fs_event_t"; TName "uv_fs_event_cb"; text_; unsigned_]);
   ("uv_fs_event_stop", fn int_ [ptr "uv_fs_event_t"]);
   ("uv_fs_event_getpath", fn int_ [ptr "uv_fs_event_t"; TPtr char_; TPtr size_t])].

Definition address_functions : list decl :=
  [("uv_ip4_addr", fn int_ [text_; int_; TPtr (TTag "sockaddr_in")]);
   ("uv_ip6_addr", fn int_ [text_; int_; TPtr (TTag "sockaddr_in6")]);
   ("uv_ip4_name", fn int_ [TPtr (TConst (TTag "sockaddr_in")); TPtr char_; size_t]);
   ("uv_ip6_name", fn int_ [TPtr (TConst (TTag "sockaddr_in6")); TPtr char_; size_t]);
   ("uv_ip_name", fn int_ [TPtr (TConst (TTag "sockaddr")); TPtr char_; size_t]);
   ("uv_inet_ntop", fn int_ [int_; TPtr (TConst TVoid); TPtr char_; size_t]);
   ("uv_inet_pton", fn int_ [int_; text_; TPtr TVoid])].

Definition random_functions : list decl :=
  [("uv_random", fn int_ [ptr "uv_loop_t"; ptr "uv_random_t"; TPtr TVoid; size_t; unsigned_;
      TName "uv_random_cb"])].

Definition interface_functions : list decl :=
  [("uv_if_indextoname", fn int_ [unsigned_; TPtr char_; TPtr size_t]);
   ("uv_if_indextoiid", fn int_ [unsigned_; TPtr char_; TPtr size_t])].

Definition machine_functions : list decl :=
  [("uv_exepath", fn int_ [TPtr char_; TPtr size_t]);
   ("uv_cwd", fn int_ [TPtr char_; TPtr size_t]);
   ("uv_chdir", fn int_ [text_]);
   ("uv_get_free_memory", fn (TArith "uint64_t") []);
   ("uv_get_total_memory", fn (TArith "uint64_t") []);
   ("uv_get_constrained_memory", fn (TArith "uint64_t") []);
   ("uv_hrtime", fn (TArith "uint64_t") []);
   ("uv_sleep", fn TVoid [unsigned_]);
   ("uv_disable_stdio_inheritance", fn TVoid [])].

Definition dl_functions : list decl :=
  [("uv_dlopen", fn int_ [text_; ptr "uv_lib_t"]);
   ("uv_dlclose", fn TVoid [ptr "uv_lib_t"]);
   ("uv_dlsym", fn int_ [ptr "uv_lib_t"; text_; TPtr (TPtr TVoid)]);
   ("uv_dlerror", fn (text_) [const_ptr "uv_lib_t"])].

Definition lock_functions : list decl :=
  [("uv_mutex_init", fn int_ [ptr "uv_mutex_t"]);
   ("uv_mutex_init_recursive", fn int_ [ptr "uv_mutex_t"]);
   ("uv_mutex_destroy", fn TVoid [ptr "uv_mutex_t"]);
   ("uv_mutex_lock", fn TVoid [ptr "uv_mutex_t"]);
   ("uv_mutex_trylock", fn int_ [ptr "uv_mutex_t"]);
   ("uv_mutex_unlock", fn TVoid [ptr "uv_mutex_t"]);
   ("uv_rwlock_init", fn int_ [ptr "uv_rwlock_t"]);
   ("uv_rwlock_destroy", fn TVoid [ptr "uv_rwlock_t"]);
   ("uv_rwlock_rdlock", fn TVoid [ptr "uv_rwlock_t"]);
   ("uv_rwlock_tryrdlock", fn int_ [ptr "uv_rwlock_t"]);
   ("uv_rwlock_rdunlock", fn TVoid [ptr "uv_rwlock_t"]);
   ("uv_rwlock_wrlock", fn TVoid [ptr "uv_rwlock_t"]);
   ("uv_rwlock_trywrlock", fn int_ [ptr "uv_rwlock_t"]);
   ("uv_rwlock_wrunlock", fn TVoid [ptr "uv_rwlock_t"]);
   ("uv_sem_init", fn int_ [ptr "uv_sem_t"; unsigned_]);
   ("uv_sem_destroy", fn TVoid [ptr "uv_sem_t"]);
   ("uv_sem_post", fn TVoid [ptr "uv_sem_t"]);
   ("uv_sem_wait", fn TVoid [ptr "uv_sem_t"]);
   ("uv_sem_trywait", fn int_ [ptr "uv_sem_t"]);
   ("uv_cond_init", fn int_ [ptr "uv_cond_t"]);
   ("uv_cond_destroy", fn TVoid [ptr "uv_cond_t"]);
   ("uv_cond_signal", fn TVoid [ptr "uv_cond_t"]);
   ("uv_cond_broadcast", fn TVoid [ptr "uv_cond_t"]);
   ("uv_barrier_init", fn int_ [ptr "uv_barrier_t"; unsigned_]);
   ("uv_barrier_destroy", fn TVoid [ptr "uv_barrier_t"]);
   ("uv_barrier_wait", fn int_ [ptr "uv_barrier_t"]);
   ("uv_cond_wait", fn TVoid [ptr "uv_cond_t"; ptr "uv_mutex_t"]);
   ("uv_cond_timedwait", fn int_ [ptr "uv_cond_t"; ptr "uv_mutex_t"; TArith "uint64_t"]);
   ("uv_once", fn TVoid [ptr "uv_once_t"; TPtr (fn TVoid [])]);
   ("uv_key_create", fn int_ [ptr "uv_key_t"]);
   ("uv_key_delete", fn TVoid [ptr "uv_key_t"]);
   ("uv_key_get", fn (TPtr TVoid) [ptr "uv_key_t"]);
   ("uv_key_set", fn TVoid [ptr "uv_key_t"; TPtr TVoid])].

Definition time_functions : list decl :=
  [("uv_gettimeofday", fn int_ [ptr "uv_timeval64_t"])].

Definition thread_callback_types : list decl :=
  [("uv_thread_cb", TPtr (fn TVoid [TPtr TVoid]))].

Definition thread_functions_1 : list decl :=
  [("uv_thread_create", fn int_ [ptr "uv_thread_t"; TName "uv_thread_cb"; TPtr TVoid])].

Definition thread_typedefs : list decl :=
  [("uv_thread_options_t", TTag "uv_thread_options_s")].

Definition thread_functions_2 : list decl :=
  [("uv_thread_create_ex", fn int_ [ptr "uv_thread_t"; const_ptr "uv_thread_options_t";
      TName "uv_thread_cb"; TPtr TVoid]);
   ("uv_thread_self", fn (TName "uv_thread_t") []);
   ("uv_thread_join", fn int_ [ptr "uv_thread_t"]);
   ("uv_thread_equal", fn int_ [const_ptr "uv_thread_t"; const_ptr "uv_thread_t"])].

Definition loop_data_functions : list decl :=
  [("uv_loop_get_data", fn (TPtr TVoid) [const_ptr "uv_loop_t"]);
   ("uv_loop_set_data", fn TVoid [ptr "uv_loop_t"; TPtr TVoid])].

(** All of them. *)
Definition uv_typedefs : list decl :=
  handle_typedefs ++ request_typedefs ++ other_typedefs ++ allocator_types ++ callback_types ++
  watcher_callback_types ++ udp_callback_types ++ thread_callback_types ++ thread_typedefs.
Definition uv_functions : list decl :=
  version_functions ++ loop_functions ++ error_functions ++ shutdown_functions ++
  handle_functions ++ descriptor_functions ++ stream_functions ++ stream_state_functions ++
  tcp_functions ++ tcp_address_functions ++ udp_functions ++ tty_functions ++ guess_functions ++
  pipe_functions ++ poll_functions ++ prepare_functions ++ check_functions ++ idle_functions ++
  async_functions ++ timer_functions ++ getaddrinfo_functions ++ getnameinfo_functions ++
  process_functions ++ work_functions ++ setup_functions ++ os_functions ++ os_info_functions ++
  environ_functions ++ host_functions ++ fs_functions_1 ++ fs_functions_2 ++ fs_functions_3 ++
  fs_functions_4 ++ fs_poll_functions ++ signal_functions ++ fs_event_functions ++
  address_functions ++ random_functions ++ interface_functions ++ machine_functions ++
  dl_functions ++ lock_functions ++ time_functions ++ thread_functions_1 ++ thread_functions_2 ++
  loop_data_functions.

(** Nothing is declared twice. *)
Lemma uv_functions_distinct : NoDup (fst <$> uv_functions).
Proof. apply (bool_decide_eq_true_1 _). vm_compute. reflexivity. Qed.
