(* ===== verification/UvEnums.v ===== *)
(** * The enumerations and constants of libuv (uv.h, uv/version.h)

    Enumerations with the values C gives them, the constants of uv.h that
    depend on the system, the version, and the flags for opening files. *)

From S2P Require Import Prelude CDecl.

(** Each enumerator is the one before it plus one, from zero, unless it has a
    value of its own. *)
Fixpoint enum_from (next : Z) (l : list (string * option Z)) : list (string * Z) :=
  match l with
  | [] => []
  | (x, v) :: l => let v := default next v in (x, v) :: enum_from (v + 1) l
  end.
Definition enumeration : list (string * option Z) → list (string * Z) := enum_from 0.

Definition uv_loop_option : list (string * Z) := enumeration
  [("UV_LOOP_BLOCK_SIGNAL", Some 0); ("UV_METRICS_IDLE_TIME", None)].

Definition uv_run_mode : list (string * Z) := enumeration
  [("UV_RUN_DEFAULT", Some 0); ("UV_RUN_ONCE", None); ("UV_RUN_NOWAIT", None)].

Definition uv_membership : list (string * Z) := enumeration
  [("UV_LEAVE_GROUP", Some 0); ("UV_JOIN_GROUP", None)].

Definition uv_tcp_flags : list (string * Z) := enumeration
  [("UV_TCP_IPV6ONLY", Some 1)].

Definition uv_udp_flags : list (string * Z) := enumeration
  [("UV_UDP_IPV6ONLY", Some 1); ("UV_UDP_PARTIAL", Some 2); ("UV_UDP_REUSEADDR", Some 4);
   ("UV_UDP_MMSG_CHUNK", Some 8); ("UV_UDP_MMSG_FREE", Some 16); ("UV_UDP_LINUX_RECVERR", Some 32);
   ("UV_UDP_RECVMMSG", Some 256)].

Definition uv_tty_mode_t : list (string * Z) := enumeration
  [("UV_TTY_MODE_NORMAL", None); ("UV_TTY_MODE_RAW", None); ("UV_TTY_MODE_IO", None)].

Definition uv_tty_vtermstate_t : list (string * Z) := enumeration
  [("UV_TTY_SUPPORTED", None); ("UV_TTY_UNSUPPORTED", None)].

Definition uv_poll_event : list (string * Z) := enumeration
  [("UV_READABLE", Some 1); ("UV_WRITABLE", Some 2); ("UV_DISCONNECT", Some 4);
   ("UV_PRIORITIZED", Some 8)].

Definition uv_stdio_flags : list (string * Z) := enumeration
  [("UV_IGNORE", Some 0x00); ("UV_CREATE_PIPE", Some 0x01); ("UV_INHERIT_FD", Some 0x02);
   ("UV_INHERIT_STREAM", Some 0x04); ("UV_READABLE_PIPE", Some 0x10);
   ("UV_WRITABLE_PIPE", Some 0x20); ("UV_NONBLOCK_PIPE", Some 0x40);
   ("UV_OVERLAPPED_PIPE", Some 0x40)].

Definition uv_process_flags : list (string * Z) := enumeration
  [("UV_PROCESS_SETUID", Some (Z.shiftl 1 0)); ("UV_PROCESS_SETGID", Some (Z.shiftl 1 1));
   ("UV_PROCESS_WINDOWS_VERBATIM_ARGUMENTS", Some (Z.shiftl 1 2));
   ("UV_PROCESS_DETACHED", Some (Z.shiftl 1 3)); ("UV_PROCESS_WINDOWS_HIDE", Some (Z.shiftl 1 4));
   ("UV_PROCESS_WINDOWS_HIDE_CONSOLE", Some (Z.shiftl 1 5));
   ("UV_PROCESS_WINDOWS_HIDE_GUI", Some (Z.shiftl 1 6))].

Definition uv_dirent_type_t : list (string * Z) := enumeration
  [("UV_DIRENT_UNKNOWN", None); ("UV_DIRENT_FILE", None); ("UV_DIRENT_DIR", None);
   ("UV_DIRENT_LINK", None); ("UV_DIRENT_FIFO", None); ("UV_DIRENT_SOCKET", None);
   ("UV_DIRENT_CHAR", None); ("UV_DIRENT_BLOCK", None)].

Definition uv_fs_type : list (string * Z) := enumeration
  [("UV_FS_UNKNOWN", Some (-1)); ("UV_FS_CUSTOM", None); ("UV_FS_OPEN", None);
   ("UV_FS_CLOSE", None); ("UV_FS_READ", None); ("UV_FS_WRITE", None); ("UV_FS_SENDFILE", None);
   ("UV_FS_STAT", None); ("UV_FS_LSTAT", None); ("UV_FS_FSTAT", None); ("UV_FS_FTRUNCATE", None);
   ("UV_FS_UTIME", None); ("UV_FS_FUTIME", None); ("UV_FS_ACCESS", None); ("UV_FS_CHMOD", None);
   ("UV_FS_FCHMOD", None); ("UV_FS_FSYNC", None); ("UV_FS_FDATASYNC", None);
   ("UV_FS_UNLINK", None); ("UV_FS_RMDIR", None); ("UV_FS_MKDIR", None); ("UV_FS_MKDTEMP", None);
   ("UV_FS_RENAME", None); ("UV_FS_SCANDIR", None); ("UV_FS_LINK", None); ("UV_FS_SYMLINK", None);
   ("UV_FS_READLINK", None); ("UV_FS_CHOWN", None); ("UV_FS_FCHOWN", None);
   ("UV_FS_REALPATH", None); ("UV_FS_COPYFILE", None); ("UV_FS_LCHOWN", None);
   ("UV_FS_OPENDIR", None); ("UV_FS_READDIR", None); ("UV_FS_CLOSEDIR", None);
   ("UV_FS_STATFS", None); ("UV_FS_MKSTEMP", None); ("UV_FS_LUTIME", None)].

Definition uv_fs_event : list (string * Z) := enumeration
  [("UV_RENAME", Some 1); ("UV_CHANGE", Some 2)].

Definition uv_fs_event_flags : list (string * Z) := enumeration
  [("UV_FS_EVENT_WATCH_ENTRY", Some 1); ("UV_FS_EVENT_STAT", Some 2);
   ("UV_FS_EVENT_RECURSIVE", Some 4)].

Definition uv_thread_create_flags : list (string * Z) := enumeration
  [("UV_THREAD_NO_FLAGS", Some 0x00); ("UV_THREAD_HAS_STACK_SIZE", Some 0x01)].


(** Every enumerator of uv.h that is not made by a type map. *)
Definition uv_enumerators : list string := fst <$>
  uv_loop_option ++ uv_run_mode ++ uv_membership ++ uv_tcp_flags ++ uv_udp_flags ++ uv_tty_mode_t ++
  uv_tty_vtermstate_t ++ uv_poll_event ++ uv_stdio_flags ++ uv_process_flags ++ uv_dirent_type_t ++
  uv_fs_type ++ uv_fs_event ++ uv_fs_event_flags ++ uv_thread_create_flags.

(** The names of enumerated types. *)
Definition enum_typedefs : list decl := (λ x, (x, TArith x)) <$>
  ["uv_errno_t"; "uv_handle_type"; "uv_req_type"; "uv_loop_option"; "uv_run_mode"; "uv_membership";
   "uv_tty_mode_t"; "uv_tty_vtermstate_t"; "uv_stdio_flags"; "uv_dirent_type_t"; "uv_fs_type";
   "uv_thread_create_flags"].

(** ** Constants *)

(** Priorities of processes: on IBM i, and elsewhere. *)
Definition UV_PRIORITY (pase : bool) : list (string * Z) :=
  if pase then
    [("UV_PRIORITY_LOW", 39); ("UV_PRIORITY_BELOW_NORMAL", 15); ("UV_PRIORITY_NORMAL", 0);
     ("UV_PRIORITY_ABOVE_NORMAL", -4); ("UV_PRIORITY_HIGH", -7); ("UV_PRIORITY_HIGHEST", -10)]
  else
    [("UV_PRIORITY_LOW", 19); ("UV_PRIORITY_BELOW_NORMAL", 10); ("UV_PRIORITY_NORMAL", 0);
     ("UV_PRIORITY_ABOVE_NORMAL", -7); ("UV_PRIORITY_HIGH", -14); ("UV_PRIORITY_HIGHEST", -20)].

(** Sizes with the terminating null; the macros of the system may be missing. *)
Definition UV_MAXHOSTNAMESIZE (MAXHOSTNAMELEN : option Z) : Z :=
  match MAXHOSTNAMELEN with Some n => n + 1 | None => 256 end.
Definition UV_IF_NAMESIZE (IF_NAMESIZE IFNAMSIZ : option Z) : Z :=
  match IF_NAMESIZE, IFNAMSIZ with
  | Some n, _ => n + 1
  | None, Some n => n + 1
  | None, None => 16 + 1
  end.

Definition UV_FS_COPYFILE_EXCL : Z := 0x0001.
Definition UV_FS_COPYFILE_FICLONE : Z := 0x0002.
Definition UV_FS_COPYFILE_FICLONE_FORCE : Z := 0x0004.
Definition UV_FS_SYMLINK_DIR : Z := 0x0001.
Definition UV_FS_SYMLINK_JUNCTION : Z := 0x0002.

(** ** The version (uv/version.h) *)

Definition UV_VERSION_MAJOR : Z := 1.
Definition UV_VERSION_MINOR : Z := 44.
Definition UV_VERSION_PATCH : Z := 2.
Definition UV_VERSION_IS_RELEASE : bool := true.
Definition UV_VERSION_SUFFIX : string := EmptyString.

(** The macro, for any numbers. *)
Definition version_hex (major minor patch : Z) : Z :=
  Z.lor (Z.lor (Z.shiftl major 16) (Z.shiftl minor 8)) patch.
Definition UV_VERSION_HEX : Z := version_hex UV_VERSION_MAJOR UV_VERSION_MINOR UV_VERSION_PATCH.

(** ** Opening files (uv/unix.h, uv/win.h)

    [O] gives the macros of the system that are defined. *)

(** The processors that have an [O_DIRECT] of their own on Linux. *)
Inductive linux_arch := Arm | M68k | Mips | Powerpc | S390x | X86_64.
Definition linux_O_DIRECT (arch : linux_arch) : Z :=
  match arch with
  | Arm | M68k => 0x10000
  | Mips => 0x08000
  | Powerpc => 0x20000
  | S390x | X86_64 => 0x04000
  end.

Section open_flags.
Context (O : string → option Z).

(** Zero where the system has no such flag. *)
Definition if_defined (x : string) : Z := default 0 (O x).

Definition UV_FS_O_APPEND_CREAT : list (string * Z) :=
  [("UV_FS_O_APPEND", if_defined "O_APPEND"); ("UV_FS_O_CREAT", if_defined "O_CREAT")].
Definition UV_FS_O_DIRECT (arch : option linux_arch) : Z :=
  match arch with Some arch => linux_O_DIRECT arch | None => if_defined "O_DIRECT" end.
Definition unix_open_flags (arch : option linux_arch) : list (string * Z) :=
  UV_FS_O_APPEND_CREAT ++ [("UV_FS_O_DIRECT", UV_FS_O_DIRECT arch)] ++
  [("UV_FS_O_DIRECTORY", if_defined "O_DIRECTORY"); ("UV_FS_O_DSYNC", if_defined "O_DSYNC");
   ("UV_FS_O_EXCL", if_defined "O_EXCL"); ("UV_FS_O_EXLOCK", if_defined "O_EXLOCK");
   ("UV_FS_O_NOATIME", if_defined "O_NOATIME"); ("UV_FS_O_NOCTTY", if_defined "O_NOCTTY");
   ("UV_FS_O_NOFOLLOW", if_defined "O_NOFOLLOW"); ("UV_FS_O_NONBLOCK", if_defined "O_NONBLOCK");
   ("UV_FS_O_RDONLY", if_defined "O_RDONLY"); ("UV_FS_O_RDWR", if_defined "O_RDWR");
   ("UV_FS_O_SYMLINK", if_defined "O_SYMLINK"); ("UV_FS_O_SYNC", if_defined "O_SYNC");
   ("UV_FS_O_TRUNC", if_defined "O_TRUNC"); ("UV_FS_O_WRONLY", if_defined "O_WRONLY");
   ("UV_FS_O_FILEMAP", 0); ("UV_FS_O_RANDOM", 0); ("UV_FS_O_SHORT_LIVED", 0);
   ("UV_FS_O_SEQUENTIAL", 0); ("UV_FS_O_TEMPORARY", 0)].
End open_flags.

(** On Windows the macros are all there. *)
Definition windows_open_flags (O : string → Z) : list (string * Z) :=
  [("UV_FS_O_APPEND", O "_O_APPEND"); ("UV_FS_O_CREAT", O "_O_CREAT"); ("UV_FS_O_EXCL", O "_O_EXCL");
   ("UV_FS_O_FILEMAP", 0x20000000); ("UV_FS_O_RANDOM", O "_O_RANDOM"); ("UV_FS_O_RDONLY", O "_O_RDONLY");
   ("UV_FS_O_RDWR", O "_O_RDWR"); ("UV_FS_O_SEQUENTIAL", O "_O_SEQUENTIAL");
   ("UV_FS_O_SHORT_LIVED", O "_O_SHORT_LIVED"); ("UV_FS_O_TEMPORARY", O "_O_TEMPORARY");
   ("UV_FS_O_TRUNC", O "_O_TRUNC"); ("UV_FS_O_WRONLY", O "_O_WRONLY");
   ("UV_FS_O_DIRECT", 0x02000000); ("UV_FS_O_DIRECTORY", 0); ("UV_FS_O_DSYNC", 0x04000000);
   ("UV_FS_O_EXLOCK", 0x10000000); ("UV_FS_O_NOATIME", 0); ("UV_FS_O_NOCTTY", 0);
   ("UV_FS_O_NOFOLLOW", 0); ("UV_FS_O_NONBLOCK", 0); ("UV_FS_O_SYMLINK", 0);
   ("UV_FS_O_SYNC", 0x08000000)].

(** ** Facts *)

(** A program that names an open flag compiles on both. *)
Lemma open_flags_portable O arch O' :
  fst <$> unix_open_flags O arch ≡ₚ fst <$> windows_open_flags O'.
Proof. apply (bool_decide_eq_true_1 _). vm_compute. reflexivity. Qed.

(** No two enumerators have one name; and those of a set of flags can be told
    apart when they are or-ed together. *)
Lemma uv_enumerators_distinct : NoDup uv_enumerators.
Proof. apply (bool_decide_eq_true_1 _). vm_compute. reflexivity. Qed.

Definition disjoint_bits (l : list Z) : Prop := ∀ i j x y, l !! i = Some x → l !! j = Some y → i ≠ j → Z.land x y = 0.

Lemma disjoint_bits_check l :
  forallb (λ '(i, x), forallb (λ '(j, y), bool_decide (i = j) || bool_decide (Z.land x y = 0))
    (imap pair l)) (imap pair l) = true → disjoint_bits l.
Proof.
  intros Hc i j x y Hi Hj Hne. rewrite forallb_forall in Hc.
  assert (Hp : ∀ k z, l !! k = Some z → In (k, z) (imap pair l)).
  { intros k z Hk. apply list_elem_of_In, list_elem_of_lookup. exists k. by rewrite list_lookup_imap, Hk. }
  specialize (Hc _ (Hp _ _ Hi)). cbn in Hc. rewrite forallb_forall in Hc. specialize (Hc _ (Hp _ _ Hj)).
  cbn in Hc. apply orb_true_iff in Hc as [Hc|Hc]; by apply bool_decide_eq_true in Hc.
Qed.

Lemma flags_disjoint :
  Forall (λ l : list (string * Z), disjoint_bits (snd <$> l))
    [uv_udp_flags; uv_poll_event; uv_process_flags; uv_fs_event; uv_fs_event_flags; take 7 uv_stdio_flags] ∧
  disjoint_bits [UV_FS_COPYFILE_EXCL; UV_FS_COPYFILE_FICLONE; UV_FS_COPYFILE_FICLONE_FORCE] ∧
  disjoint_bits [UV_FS_SYMLINK_DIR; UV_FS_SYMLINK_JUNCTION].
Proof. split_and!; repeat constructor; apply disjoint_bits_check; vm_compute; reflexivity. Qed.

(** Bits above and below do not meet. *)
Lemma lor_shift a b n : 0 ≤ n → 0 ≤ b < 2 ^ n → Z.lor (Z.shiftl a n) b = a * 2 ^ n + b.
Proof.
  intros Hn Hb. rewrite <-Z.shiftl_mul_pow2 by done. rewrite <-Z.add_lor_land.
  enough (Z.land (Z.shiftl a n) b = 0) as -> by lia.
  apply Z.bits_inj'. intros k Hk. rewrite Z.land_spec, Z.bits_0, Z.shiftl_spec by done.
  destruct (decide (k < n)); [by rewrite Z.testbit_neg_r by lia|].
  destruct (decide (b = 0)) as [->|]; [by rewrite Z.bits_0, andb_false_r|].
  rewrite (Z.bits_above_log2 b), andb_false_r; [done|lia|].
  apply Z.lt_le_trans with n; [apply Z.log2_lt_pow2; lia|lia].
Qed.

Lemma version_hex_value major minor patch :
  0 ≤ minor < 2 ^ 8 → 0 ≤ patch < 2 ^ 8 →
  version_hex major minor patch = (major * 2 ^ 8 + minor) * 2 ^ 8 + patch.
Proof.
  intros. unfold version_hex. assert (E : Z.shiftl major 16 = Z.shiftl (Z.shiftl major 8) 8)
    by by rewrite Z.shiftl_shiftl.
  rewrite E, <-Z.shiftl_lor, lor_shift by lia. by rewrite lor_shift by lia.
Qed.

(** Versions compare as their numbers do, one after the other, as long as they
    fit. *)
Lemma version_hex_order a b c a' b' c' :
  0 ≤ b < 2 ^ 8 → 0 ≤ c < 2 ^ 8 → 0 ≤ b' < 2 ^ 8 → 0 ≤ c' < 2 ^ 8 →
  version_hex a b c < version_hex a' b' c' ↔ a < a' ∨ a = a' ∧ (b < b' ∨ b = b' ∧ c < c').
Proof. intros. rewrite !version_hex_value by done. lia. Qed.

Lemma UV_VERSION_HEX_value : UV_VERSION_HEX = 0x012c02.
Proof. reflexivity. Qed.
