(* ===== verification/UvUnixSys.v ===== *)
(** * The small types of Unix (uv/unix.h)

    What the header of Unix defines beside the private members of handles and
    requests (UvUnix.v): descriptors, the primitives of threads, directory
    entries, libraries. *)

From S2P Require Import Prelude CTypes UvUnix.

Definition descriptors : list field :=
  [("uv_file", int_); ("uv_os_sock_t", int_); ("uv_os_fd_t", int_); ("uv_pid_t", named "pid_t")].

Definition uv_once_t : cty := named "pthread_once_t".
Definition uv_cond_t : cty := named "pthread_cond_t".
Definition uv_key_t : cty := named "pthread_key_t".

(** libuv's own barrier. *)
Definition _uv_barrier : cty := CStruct
  [("mutex", UvUnix.uv_mutex_t); ("cond", uv_cond_t); ("threshold", unsigned_); ("in", unsigned_);
   ("out", unsigned_)].

(** [own]: on AIX and OpenBSD.  [system]: PTHREAD_BARRIER_SERIAL_THREAD is
    defined, so that there is a [pthread_barrier_t]. *)
Definition uv_barrier_t `{Abi} (own system : bool) : cty :=
  if own || negb system then
    CStruct (("b", pointer "struct _uv_barrier") ::
      if system then
        [("pad", CArray char_ (Z.to_nat
          (sizeof (named "pthread_barrier_t") - sizeof (pointer "struct _uv_barrier"))))]
      else [])
  else named "pthread_barrier_t".

Definition uv__dirent_t : cty := named "struct dirent".
Definition uv_lib_t : cty := CStruct [("handle", pointer "void"); ("errmsg", pointer "char")].

(** The kinds of directory entries: of the macros of the system, [DT] has
    those that are defined. *)
Definition dirent_type (DT : string → option Z) (x : string) (fallback : Z) : Z := default fallback (DT x).
Definition dirent_types (DT : string → option Z) : list (string * Z) :=
  match DT "DT_UNKNOWN" with
  | Some _ =>
    [("UV__DT_FILE", dirent_type DT "DT_REG" (-1)); ("UV__DT_DIR", dirent_type DT "DT_DIR" (-2));
     ("UV__DT_LINK", dirent_type DT "DT_LNK" (-3)); ("UV__DT_FIFO", dirent_type DT "DT_FIFO" (-4));
     ("UV__DT_SOCKET", dirent_type DT "DT_SOCK" (-5)); ("UV__DT_CHAR", dirent_type DT "DT_CHR" (-6));
     ("UV__DT_BLOCK", dirent_type DT "DT_BLK" (-7))]
  | None => []
  end.

(** ** Facts *)

Lemma round_up_self n a : 0 < a → (a | n) → round_up n a = n.
Proof.
  intros Ha Hd. pose proof (round_up_spec n a Ha). pose proof (round_up_least n a n Ha ltac:(lia) Hd). lia.
Qed.

(** With its padding libuv's barrier has the size of the system's, so that
    what is laid out after one does not depend on which it is. *)
Lemma padded_barrier_size `{Abi} :
  prim_size PChar = 1 → prim_align PChar = 1 →
  let ptr := pointer "struct _uv_barrier" in let sys := named "pthread_barrier_t" in
  sizeof ptr ≤ sizeof sys → (alignof ptr | sizeof sys) →
  sizeof (uv_barrier_t true true) = sizeof (uv_barrier_t false true).
Proof.
  intros Hc Ha ptr sys Hle Hd. unfold uv_barrier_t. cbn [orb negb].
  assert (Hp : 0 < alignof ptr) by apply alignof_pos.
  change (round_up (round_up (round_up 0 (alignof ptr) + sizeof ptr) (alignof char_) +
    Z.of_nat (Z.to_nat (sizeof sys - sizeof ptr)) * sizeof char_)
    (Z.max (alignof ptr) (Z.max (alignof char_) 1)) = sizeof sys).
  assert (E1 : sizeof char_ = 1) by exact Hc. assert (E2 : alignof char_ = 1) by exact Ha. rewrite E1, E2.
  rewrite (round_up_self 0) by (lia || apply Z.divide_0_r). rewrite (round_up_self _ 1) by (lia || apply Z.divide_1_l).
  rewrite Z.mul_1_r, Z2Nat.id, Z.add_0_l, Zplus_minus by lia.
  rewrite !Z.max_l by lia. by apply round_up_self.
Qed.

(** The kinds of entries can be told apart when those of the system can, as its
    macros are not negative. *)
Definition kinds : list string := ["DT_REG"; "DT_DIR"; "DT_LNK"; "DT_FIFO"; "DT_SOCK"; "DT_CHR"; "DT_BLK"].

Lemma unix_dirent_types_distinct DT :
  (∀ x z, x ∈ kinds → DT x = Some z → 0 ≤ z) →
  (∀ x y z, x ∈ kinds → y ∈ kinds → DT x = Some z → DT y = Some z → x = y) →
  NoDup (snd <$> dirent_types DT).
Proof.
  intros Hpos Hinj. unfold dirent_types. destruct (DT "DT_UNKNOWN"); [|apply NoDup_nil_2].
  set (fallback := λ i : nat, - (Z.of_nat i + 1)).
  change (NoDup ((λ '(i, x), dirent_type DT x (fallback i)) <$> imap pair kinds)).
  apply NoDup_fmap_2_strong; [|by apply (bool_decide_eq_true_1 _); vm_compute].
  intros [i x] [j y] Hx Hy.
  assert (Hin : ∀ i x, (i, x) ∈ imap pair kinds → x ∈ kinds ∧ kinds !! i = Some x).
  { intros k s Hk. apply elem_of_lookup_imap in Hk as (k' & s' & [= -> ->] & E). split; [|done].
    by eapply list_elem_of_lookup_2. }
  apply Hin in Hx as [Hx Ex], Hy as [Hy Ey]. unfold dirent_type, fallback.
  destruct (DT x) as [u|] eqn:Eu, (DT y) as [v|] eqn:Ev; cbn [default from_option id]; intros Heq.
  - subst v. pose proof (Hinj x y u Hx Hy Eu Ev). subst y. f_equal.
    by eapply NoDup_lookup; [apply (bool_decide_eq_true_1 (NoDup kinds)); vm_compute| |].
  - specialize (Hpos x u Hx Eu). lia.
  - specialize (Hpos y v Hy Ev). lia.
  - assert (i = j) as -> by lia. congruence.
Qed.
