(* ===== verification/UvWinSys.v ===== *)
(** * The small types of Windows (uv/win.h)

    What the header of Windows defines beside the private members of handles
    and requests (UvWin.v): descriptors, the primitives of threads, directory
    entries, libraries, and the functions of Winsock that libuv looks up at
    run time. *)

From S2P Require Import Prelude CTypes UvUnix UvWin UvTypes CDecl UvEnums UvUnixSys.

Definition descriptors : list field :=
  [("uv_file", int_); ("uv_os_sock_t", named "SOCKET"); ("uv_os_fd_t", named "HANDLE"); ("uv_pid_t", int_);
   ("uv_thread_t", named "HANDLE"); ("uv_sem_t", named "HANDLE")].

Definition uv_cond_t : cty := CUnion
  [("cond_var", named "CONDITION_VARIABLE");
   ("unused_", CStruct
     [("waiters_count", unsigned_); ("waiters_count_lock", named "CRITICAL_SECTION");
      ("signal_event", named "HANDLE"); ("broadcast_event", named "HANDLE")])].
Definition uv_rwlock_t (win64 : bool) : cty := CStruct
  [("read_write_lock_", named "SRWLOCK"); ("padding_", CArray unsigned_char (if win64 then 72 else 44))].
Definition uv_barrier_t : cty := CStruct
  [("n", unsigned_); ("count", unsigned_); ("mutex", UvWin.uv_mutex_t); ("turnstile1", named "HANDLE");
   ("turnstile2", named "HANDLE")].
Definition uv_key_t : cty := CStruct [("tls_index", named "DWORD")].
Definition uv_once_s : cty := CStruct [("ran", unsigned_char); ("event", named "HANDLE")].
Definition uv__dirent_s : cty := CStruct [("d_type", int_); ("d_name", CArray char_ 1)].
Definition uv_lib_t : cty := CStruct [("handle", named "HMODULE"); ("errmsg", pointer "char")].

Definition dirent_types : list (string * option Z) :=
  [("UV__DT_DIR", assoc "UV_DIRENT_DIR" uv_dirent_type_t); ("UV__DT_FILE", assoc "UV_DIRENT_FILE" uv_dirent_type_t);
   ("UV__DT_LINK", assoc "UV_DIRENT_LINK" uv_dirent_type_t); ("UV__DT_FIFO", assoc "UV_DIRENT_FIFO" uv_dirent_type_t);
   ("UV__DT_SOCKET", assoc "UV_DIRENT_SOCKET" uv_dirent_type_t); ("UV__DT_CHAR", assoc "UV_DIRENT_CHAR" uv_dirent_type_t);
   ("UV__DT_BLOCK", assoc "UV_DIRENT_BLOCK" uv_dirent_type_t)].

(** Winsock: where mswsock.h does not have them. *)
Abbreviation names := (fmap TName).
Definition winsock_extensions (WSAID_ACCEPTEX : bool) : list decl :=
  if WSAID_ACCEPTEX then [] else
  [("LPFN_ACCEPTEX", TPtr (fn (TName "BOOL") (names
     ["SOCKET"; "SOCKET"; "PVOID"; "DWORD"; "DWORD"; "DWORD"; "LPDWORD"; "LPOVERLAPPED"])));
   ("LPFN_CONNECTEX", TPtr (fn (TName "BOOL")
     ([TName "SOCKET"; TPtr (TConst (TTag "sockaddr")); Ct.int_] ++
      names ["PVOID"; "DWORD"; "LPDWORD"; "LPOVERLAPPED"])));
   ("LPFN_GETACCEPTEXSOCKADDRS", TPtr (fn TVoid
     (names ["PVOID"; "DWORD"; "DWORD"; "DWORD"] ++
      [TPtr (TName "LPSOCKADDR"); TName "LPINT"; TPtr (TName "LPSOCKADDR"); TName "LPINT"])));
   ("LPFN_DISCONNECTEX", TPtr (fn (TName "BOOL") (names ["SOCKET"; "LPOVERLAPPED"; "DWORD"; "DWORD"])));
   ("LPFN_TRANSMITFILE", TPtr (fn (TName "BOOL") (names
     ["SOCKET"; "HANDLE"; "DWORD"; "DWORD"; "LPOVERLAPPED"; "LPTRANSMIT_FILE_BUFFERS"; "DWORD"])));
   ("RTL_SRWLOCK", TName "PVOID"); ("SRWLOCK", TName "RTL_SRWLOCK"); ("PSRWLOCK", TPtr (TName "RTL_SRWLOCK"))].
Definition winsock_functions : list decl :=
  [("LPFN_WSARECV", TPtr (fn Ct.int_ (names
     ["SOCKET"; "LPWSABUF"; "DWORD"; "LPDWORD"; "LPDWORD"; "LPWSAOVERLAPPED";
      "LPWSAOVERLAPPED_COMPLETION_ROUTINE"])));
   ("LPFN_WSARECVFROM", TPtr (fn Ct.int_
     (names ["SOCKET"; "LPWSABUF"; "DWORD"; "LPDWORD"; "LPDWORD"] ++ [TPtr (TTag "sockaddr")] ++
      names ["LPINT"; "LPWSAOVERLAPPED"; "LPWSAOVERLAPPED_COMPLETION_ROUTINE"])))].

(** The signals that Windows has not, and what tests of access ask for. *)
Definition signals : list (string * Z) := [("SIGHUP", 1); ("SIGKILL", 9); ("SIGWINCH", 28)].
Definition NSIG (defined : option Z) : Z :=
  match defined with
  | Some n => if decide (n ≤ 28) then 28 + 1 else n
  | None => 28 + 1
  end.
Definition access_modes (defined : string → option Z) : list (string * Z) :=
  [("F_OK", default 0 (defined "F_OK")); ("R_OK", default 4 (defined "R_OK"));
   ("W_OK", default 2 (defined "W_OK")); ("X_OK", default 1 (defined "X_OK"))].

(** ** Facts *)

(** Directory entries have the same kinds on both families. *)
Lemma dirent_types_same_names DT z : DT "DT_UNKNOWN" = Some z →
  fst <$> UvUnixSys.dirent_types DT ≡ₚ fst <$> dirent_types.
Proof.
  intros E. unfold UvUnixSys.dirent_types. rewrite E. apply (bool_decide_eq_true_1 _). vm_compute. reflexivity.
Qed.

Lemma windows_dirent_types : snd <$> dirent_types = Some <$> [2; 1; 3; 4; 5; 6; 7].
Proof. reflexivity. Qed.
