(* ===== verification/UvCalls.v ===== *)
(** * The calls of libuv

    Every call that src/ makes of a function of libuv, as an expression with
    the types of the names in it, checked against the declarations of uv.h:
    the number and the types of the arguments, casts included.  A local
    variable that holds a cast is written out. *)

From S2P Require Import Prelude CTypes UvUnix UvWin UvTypes UvLayout CDecl UvDecls UvEnums.
Import Ct.

(** ** Which structures may be used as which *)

(** A handle as a [uv_handle_s], a stream as a [uv_stream_s], a request as a
    [uv_req_s]; a union as what all of its members may be used as; and an
    address of a family as an address, which is the system's to promise. *)
Definition plain_handles : list string :=
  ["uv_stream_s"; "uv_udp_s"; "uv_poll_s"; "uv_prepare_s"; "uv_check_s"; "uv_idle_s"; "uv_async_s";
   "uv_timer_s"; "uv_process_s"; "uv_fs_event_s"; "uv_fs_poll_s"; "uv_signal_s"].
Definition stream_handles : list string := ["uv_tcp_s"; "uv_pipe_s"; "uv_tty_s"].
Definition requests : list string :=
  ["uv_connect_s"; "uv_write_s"; "uv_shutdown_s"; "uv_udp_send_s"; "uv_fs_s"; "uv_work_s";
   "uv_getaddrinfo_s"; "uv_getnameinfo_s"; "uv_random_s"].
Definition supers : list (string * list string) :=
  ((λ d, (d, ["uv_handle_s"])) <$> plain_handles) ++
  ((λ d, (d, ["uv_stream_s"; "uv_handle_s"])) <$> stream_handles ++ ["stream"]) ++
  ((λ d, (d, ["uv_req_s"])) <$> requests) ++
  [("sockaddr_in", ["sockaddr"])].

Definition supers_of (d : string) : list string := default [] (assoc d supers).
Definition used_as (d b : string) : bool := bool_decide (d = b) || bool_decide (b ∈ supers_of d).

(** ** The structures of the programs *)

Definition sc_backend_uv_data_members : list decl := [("loop", TPtr (TTag "uv_loop_s"))].
Definition stream_members : list decl := [("pipe", TTag "uv_pipe_s"); ("tcp", TTag "uv_tcp_s")].
Definition socket_uv_members : list decl :=
  [("watcher", TPtr (TTag "watcher")); ("stream", TTag "stream");
   ("connect_request", TTag "uv_connect_s"); ("write_request", TTag "uv_write_s");
   ("write_buffers", TArr (TName "uv_buf_t") (Some 2%nat)); ("msg", TPtr (TTag "sc_msg"));
   ("reader", TTag "msg_reader"); ("proto", TArith "enum proto"); ("tcp_addr", TTag "sockaddr_in")].
Definition server_members : list decl :=
  [("uv", TTag "sc_backend_uv_data"); ("async", TTag "uv_async_s"); ("sigterm", TTag "uv_signal_s");
   ("sigint", TTag "uv_signal_s"); ("idle", TTag "uv_idle_s"); ("socket", TPtr (TTag "sc_socket"));
   ("client", TTag "client"); ("terminate", TArith "enum terminate")].
Definition client_members : list decl :=
  [("uv", TTag "sc_backend_uv_data"); ("async", TTag "uv_async_s"); ("sigterm", TTag "uv_signal_s");
   ("sigint", TTag "uv_signal_s"); ("idle", TTag "uv_idle_s"); ("msg", TPtr (TTag "sc_msg"));
   ("socket", TPtr (TTag "sc_socket")); ("terminate", TArith "bool"); ("input_eof", TArith "bool");
   ("ready_send", TArith "bool")].

(** The tags of each source file. *)
Definition backend_tags : list (string * list decl) :=
  [("sc_backend_uv_data", sc_backend_uv_data_members); ("stream", stream_members);
   ("socket_uv", socket_uv_members)].
Definition server_tags : list (string * list decl) :=
  [("sc_backend_uv_data", sc_backend_uv_data_members); ("server", server_members)].
Definition client_tags : list (string * list decl) :=
  [("sc_backend_uv_data", sc_backend_uv_data_members); ("client", client_members)].
Definition main_tags : list (string * list decl) :=
  [("sc_backend_uv_data", sc_backend_uv_data_members)].

Abbreviation to tag := (TPtr (TTag tag)).
Abbreviation as_int := (Some int_).

(** ** src/backend_uv.c *)

(** The callbacks it hands to libuv. *)
Definition wrappers : list decl :=
  [("on_connect_wrap", fn TVoid [to "uv_connect_s"; int_]);
   ("alloc_wrap", fn TVoid [ptr "uv_handle_t"; size_t; ptr "uv_buf_t"]);
   ("read_wrap", fn TVoid [ptr "uv_stream_t"; TArith "ssize_t"; const_ptr "uv_buf_t"]);
   ("on_connection_wrap", fn TVoid [to "uv_stream_s"; int_]);
   ("write_wrap", fn TVoid [to "uv_write_s"; int_]);
   ("close_wrap", fn TVoid [to "uv_handle_s"])].

Definition buv_env (vars : list decl) : list decl :=
  [("buv_data", to "sc_backend_uv_data")] ++ wrappers ++ vars.
Definition loop_ : cexpr := Arrow (Var "buv_data") "loop".

Definition buv_init_calls : list ccall :=
  let env := buv_env [("socket", TPtr TVoid); ("uv", to "socket_uv")] in
  [CCall "buv_init" env "uv_buf_init" [Lit 0; Lit 0] (Some (TName "uv_buf_t"));
   CCall "buv_init" env "uv_buf_init" [Lit 0; Lit 0] (Some (TName "uv_buf_t"))].

Definition connect_pipe_calls : list ccall :=
  let env := buv_env [("clt", to "socket_uv"); ("filepath", text_)] in
  let pipe := Addr (Dot (Arrow (Var "clt") "stream") "pipe") in
  [CCall "connect_pipe" env "uv_pipe_init" [loop_; pipe; Lit 0] as_int;
   CCall "connect_pipe" env "uv_pipe_connect"
     [Addr (Arrow (Var "clt") "connect_request"); pipe; Var "filepath"; Addr (Var "on_connect_wrap")] None].

Definition connect_tcp_calls : list ccall :=
  let env := buv_env [("clt", to "socket_uv"); ("ip4", text_); ("port", unsigned_)] in
  let tcp := Addr (Dot (Arrow (Var "clt") "stream") "tcp") in
  let tcp_addr := Addr (Arrow (Var "clt") "tcp_addr") in
  [CCall "connect_tcp" env "uv_tcp_init" [loop_; tcp] as_int;
   CCall "connect_tcp" env "uv_ip4_addr" [Var "ip4"; Cast int_ (Var "port"); tcp_addr] as_int;
   CCall "connect_tcp" env "uv_tcp_connect"
     [Addr (Arrow (Var "clt") "connect_request"); tcp; Cast (TPtr (TConst (TTag "sockaddr"))) tcp_addr;
      Addr (Var "on_connect_wrap")] as_int].

Definition buv_accept_calls : list ccall :=
  let env := buv_env [("srv", to "socket_uv"); ("clt", to "socket_uv")] in
  let srv_stream := Cast (to "uv_stream_s") (Addr (Arrow (Var "srv") "stream")) in
  let clt_stream := Cast (to "uv_stream_s") (Addr (Arrow (Var "clt") "stream")) in
  [CCall "buv_accept" env "uv_pipe_init"
     [loop_; Addr (Dot (Arrow (Var "clt") "stream") "pipe"); Lit 0] as_int;
   CCall "buv_accept" env "uv_tcp_init" [loop_; Addr (Dot (Arrow (Var "clt") "stream") "tcp")] as_int;
   CCall "buv_accept" env "uv_accept" [srv_stream; clt_stream] as_int;
   CCall "buv_accept" env "uv_read_start" [clt_stream; Var "alloc_wrap"; Var "read_wrap"] as_int].

Definition bind_pipe_calls : list ccall :=
  let env := buv_env [("srv", to "socket_uv"); ("filepath", text_)] in
  let pipe := Addr (Dot (Arrow (Var "srv") "stream") "pipe") in
  [CCall "bind_pipe" env "uv_pipe_init" [loop_; pipe; Lit 0] as_int;
   CCall "bind_pipe" env "uv_pipe_bind" [pipe; Var "filepath"] as_int].

Definition bind_tcp_calls : list ccall :=
  let env := buv_env [("srv", to "socket_uv"); ("ip4", text_); ("port", unsigned_)] in
  let tcp := Addr (Dot (Arrow (Var "srv") "stream") "tcp") in
  let tcp_addr := Addr (Arrow (Var "srv") "tcp_addr") in
  [CCall "bind_tcp" env "uv_tcp_init" [loop_; tcp] as_int;
   CCall "bind_tcp" env "uv_ip4_addr" [Var "ip4"; Cast int_ (Var "port"); tcp_addr] as_int;
   CCall "bind_tcp" env "uv_tcp_bind" [tcp; Cast (TPtr (TConst (TTag "sockaddr"))) tcp_addr; Lit 0] as_int].

Definition buv_listen_calls : list ccall :=
  let env := buv_env [("srv", to "socket_uv"); ("backlog", int_)] in
  [CCall "buv_listen" env "uv_listen"
     [Cast (to "uv_stream_s") (Addr (Arrow (Var "srv") "stream")); Var "backlog";
      Addr (Var "on_connection_wrap")] as_int].

Definition buv_send_calls : list ccall :=
  let env := buv_env [("uv", to "socket_uv")] in
  [CCall "buv_send" env "uv_write"
     [Addr (Arrow (Var "uv") "write_request"); Cast (to "uv_stream_s") (Addr (Arrow (Var "uv") "stream"));
      Arrow (Var "uv") "write_buffers"; Lit 2; Addr (Var "write_wrap")] as_int].

Definition buv_close_calls : list ccall :=
  let env := buv_env [("uv", to "socket_uv")] in
  [CCall "buv_close" env "uv_close"
     [Cast (to "uv_handle_s") (Addr (Arrow (Var "uv") "stream")); Var "close_wrap"] None].

Definition backend_calls : list ccall :=
  buv_init_calls ++ connect_pipe_calls ++ connect_tcp_calls ++ buv_accept_calls ++ bind_pipe_calls ++
  bind_tcp_calls ++ buv_listen_calls ++ buv_send_calls ++ buv_close_calls.

(** ** test/server.c *)

(** The callbacks it hands to libuv. *)
Definition server_callbacks : list decl :=
  [("async_cb", fn TVoid [to "uv_async_s"]); ("signal_cb", fn TVoid [to "uv_signal_s"; int_]);
   ("idle_cb", fn TVoid [to "uv_idle_s"])].

Definition server_env (vars : list decl) : list decl := ("server", to "server") :: vars ++ server_callbacks.
Definition server_loop : cexpr := Dot (Arrow (Var "server") "uv") "loop".
(** [uv_close((struct uv_handle_s * )&server->x, 0)] *)
Definition close_server (f x : string) : ccall :=
  CCall f (server_env []) "uv_close" [Cast (to "uv_handle_s") (Addr (Arrow (Var "server") x)); Lit 0] None.

Definition server_on_close_calls : list ccall :=
  [close_server "server_on_close" "sigterm"; close_server "server_on_close" "sigint"].
Definition server_async_cb_calls : list ccall := [close_server "async_cb" "async"].
Definition server_signal_cb_calls : list ccall :=
  [CCall "signal_cb" (server_env []) "uv_async_send" [Addr (Arrow (Var "server") "async")] as_int].
Definition server_idle_cb_calls : list ccall := [close_server "idle_cb" "idle"].
Definition server_async_init_calls : list ccall :=
  [CCall "async_init" (server_env []) "uv_async_init"
     [server_loop; Addr (Arrow (Var "server") "async"); Var "async_cb"] as_int].
(** Its parameter [signal_cb] hides the function. *)
Definition server_signal_init_calls : list ccall :=
  let env := server_env [("signal", to "uv_signal_s"); ("signal_cb", TName "uv_signal_cb"); ("signum", int_)] in
  [CCall "signal_init" env "uv_signal_init" [server_loop; Var "signal"] as_int;
   CCall "signal_init" env "uv_signal_start" [Var "signal"; Var "signal_cb"; Var "signum"] as_int].
Definition server_idle_init_calls : list ccall :=
  let idle := Addr (Arrow (Var "server") "idle") in
  [CCall "idle_init" (server_env []) "uv_idle_init" [server_loop; idle] as_int;
   CCall "idle_init" (server_env []) "uv_idle_start" [idle; Var "idle_cb"] as_int].
(** [server_new] takes the loop, which its caller passes. *)
Definition server_main_calls : list ccall :=
  [CCall "main" (server_env []) "uv_default_loop" [] (Some (to "uv_loop_s"));
   CCall "main" (server_env []) "uv_run" [server_loop; Enum "UV_RUN_DEFAULT"] as_int;
   CCall "main" (server_env []) "uv_loop_close" [server_loop] as_int].

Definition server_calls : list ccall :=
  server_on_close_calls ++ server_async_cb_calls ++ server_signal_cb_calls ++ server_idle_cb_calls ++
  server_async_init_calls ++ server_signal_init_calls ++ server_idle_init_calls ++ server_main_calls.

(** ** test/client.c *)

(** The callbacks it hands to libuv. *)
Definition client_callbacks : list decl :=
  [("async_cb", fn TVoid [to "uv_async_s"]); ("signal_cb", fn TVoid [to "uv_signal_s"; int_]);
   ("idle_cb", fn TVoid [to "uv_idle_s"])].

Definition client_env (vars : list decl) : list decl := ("client", to "client") :: vars ++ client_callbacks.
Definition client_loop : cexpr := Dot (Arrow (Var "client") "uv") "loop".
Definition close_client (f x : string) : ccall :=
  CCall f (client_env []) "uv_close" [Cast (to "uv_handle_s") (Addr (Arrow (Var "client") x)); Lit 0] None.
Definition client_async : cexpr := Addr (Arrow (Var "client") "async").

Definition client_async_cb_calls : list ccall := [close_client "async_cb" "async"].
Definition client_signal_cb_calls : list ccall :=
  [CCall "signal_cb" (client_env []) "uv_async_send" [client_async] as_int].
Definition client_idle_cb_calls : list ccall :=
  [close_client "idle_cb" "idle"; CCall "idle_cb" (client_env []) "uv_async_send" [client_async] as_int].
Definition client_async_init_calls : list ccall :=
  [CCall "async_init" (client_env []) "uv_async_init" [client_loop; client_async; Var "async_cb"] as_int].
Definition client_signal_init_calls : list ccall :=
  let env := client_env [("signal", to "uv_signal_s"); ("signal_cb", TName "uv_signal_cb"); ("signum", int_)] in
  [CCall "signal_init" env "uv_signal_init" [client_loop; Var "signal"] as_int;
   CCall "signal_init" env "uv_signal_start" [Var "signal"; Var "signal_cb"; Var "signum"] as_int].
Definition client_idle_init_calls : list ccall :=
  let idle := Addr (Arrow (Var "client") "idle") in
  [CCall "idle_init" (client_env []) "uv_idle_init" [client_loop; idle] as_int;
   CCall "idle_init" (client_env []) "uv_idle_start" [idle; Var "idle_cb"] as_int].
Definition client_on_close_calls : list ccall :=
  [close_client "on_close" "sigterm"; close_client "on_close" "sigint"].
Definition client_main_calls : list ccall :=
  [CCall "main" (client_env []) "uv_default_loop" [] (Some (to "uv_loop_s"));
   CCall "main" (client_env []) "uv_run" [client_loop; Enum "UV_RUN_DEFAULT"] as_int;
   CCall "main" (client_env []) "uv_loop_close" [client_loop] as_int].

Definition client_calls : list ccall :=
  client_async_cb_calls ++ client_signal_cb_calls ++ client_idle_cb_calls ++ client_async_init_calls ++
  client_signal_init_calls ++ client_idle_init_calls ++ client_on_close_calls ++ client_main_calls.

(** ** test/echo_server.c and test/send_hello.c *)

Definition uv_data_env : list decl := [("uv", TTag "sc_backend_uv_data")].
Definition uv_loop_ : cexpr := Dot (Var "uv") "loop".
Definition echo_main_calls : list ccall :=
  [CCall "main" uv_data_env "uv_default_loop" [] (Some (to "uv_loop_s"));
   CCall "main" uv_data_env "uv_run" [uv_loop_; Enum "UV_RUN_DEFAULT"] None].
Definition hello_main_calls : list ccall :=
  [CCall "main" uv_data_env "uv_default_loop" [] (Some (to "uv_loop_s"));
   CCall "main" uv_data_env "uv_run" [uv_loop_; Enum "UV_RUN_DEFAULT"] None].

(** Every source file that calls libuv: the structures it names, and its calls. *)
Definition program_calls : list (string * (list (string * list decl) * list ccall)) :=
  [("src/backend_uv.c", (backend_tags, backend_calls)); ("test/server.c", (server_tags, server_calls));
   ("test/client.c", (client_tags, client_calls)); ("test/echo_server.c", (main_tags, echo_main_calls));
   ("test/send_hello.c", (main_tags, hello_main_calls))].

(** ** They all pass *)

Definition all_typedefs : list decl := uv_typedefs ++ enum_typedefs.
Definition checked (tags : list (string * list decl)) : list ccall → bool :=
  forallb (call_ok all_typedefs uv_enumerators tags used_as uv_functions).

Lemma program_checked : forallb (λ '(_, (tags, calls)), checked tags calls) program_calls = true.
Proof. vm_compute. reflexivity. Qed.

(** ** The table of uses is borne out by the layouts *)

Lemma used_refl a : used_as a a = true.
Proof. unfold used_as. by rewrite (bool_decide_eq_true_2 (a = a)). Qed.

Lemma used_as_cases a b : used_as a b = true → a = b ∨ ∃ bs, (a, bs) ∈ supers ∧ b ∈ bs.
Proof.
  unfold used_as, supers_of. intros [H|H]%orb_true_iff; apply bool_decide_eq_true in H; [by left|right].
  destruct (assoc a supers) as [bs|] eqn:E; [|by apply elem_of_nil in H].
  exists bs. split; [|exact H].
  apply assoc_Some in E as [i Ei]. by eapply list_elem_of_lookup_2.
Qed.

(** What may be used as a base may be used as the base of that. *)
Lemma supers_trans :
  forallb (λ '(a, bs), forallb (λ b, forallb (used_as a) (supers_of b)) bs) supers = true.
Proof. reflexivity. Qed.

Lemma used_trans a b c : used_as a b = true → used_as b c = true → used_as a c = true.
Proof.
  intros Hab Hbc. destruct (used_as_cases _ _ Hab) as [->|(bs & Ha & Hb)]; [done|].
  apply orb_true_iff in Hbc as [Hc|Hc]; apply bool_decide_eq_true in Hc; [by subst c|].
  pose proof supers_trans as Ht. rewrite forallb_forall in Ht.
  specialize (Ht _ (proj1 (list_elem_of_In _ _) Ha)). cbn in Ht. rewrite forallb_forall in Ht.
  specialize (Ht _ (proj1 (list_elem_of_In _ _) Hb)). rewrite forallb_forall in Ht.
  by apply Ht, list_elem_of_In.
Qed.

Section layouts.
Context `{Abi} (pf : platform).

(** The types of the tags: those of the handles and of the requests are named
    after the entries of UV_HANDLE_TYPE_MAP and UV_REQ_TYPE_MAP. *)
Definition tag_cty : string → option cty := λ tag, assoc tag
  (((λ '(_, name, t), ("uv_" +:+ name +:+ "_s", t)) <$> UV_HANDLE_TYPE_MAP pf ++ UV_REQ_TYPE_MAP pf) ++
   [("uv_loop_s", uv_loop_s pf); ("stream", stream pf); ("socket_uv", socket_uv_c pf)]).

(** A [t] does for a [u], or every member of the union [t] does. *)
Definition stands_for (t u : cty) : Prop :=
  usable_as t u ∨ ∃ fs, t = CUnion fs ∧ Forall (λ f, usable_as f.2 u) fs.

(** The members the checker gives to [struct socket_uv] are those of its layout. *)
Lemma socket_uv_members_layout :
  ∃ fs, socket_uv_c pf = CStruct fs ∧
    Forall2 (λ (d : decl) (f : field), d.1 = f.1 ∧
      ∀ tag u, d.2 = TTag tag → tag_cty tag = Some u → f.2 = u) socket_uv_members fs.
Proof.
  eexists. split; [reflexivity|].
  repeat (apply Forall2_cons_2; [split; [reflexivity|intros tag u; cbn [snd]; intros [= <-]]|]);
    try (by intros [=]); by apply Forall2_nil_2.
Qed.

Lemma usable_refl t : usable_as t t.
Proof. split_and!; [lia|done|auto]. Qed.

Lemma handle_tags : Forall (λ d, ∃ t, tag_cty d = Some t ∧ derives t (uv_handle_s pf))
  (plain_handles ++ stream_handles).
Proof. repeat constructor; (eexists; split; [reflexivity|apply handle_derives]). Qed.
Lemma stream_tags : Forall (λ d, ∃ t, tag_cty d = Some t ∧ derives t (uv_stream_s pf)) stream_handles.
Proof. repeat constructor; (eexists; split; [reflexivity|apply stream_derives]). Qed.
Lemma request_tags : Forall (λ d, ∃ t, tag_cty d = Some t ∧ derives t (uv_req_s pf)) requests.
Proof. repeat constructor; (eexists; split; [reflexivity|apply req_derives]). Qed.

(** Each entry of the table, whatever the platform and the ABI. *)
Definition backed (d b : string) : Prop :=
  ∀ u, tag_cty b = Some u → ∃ t, tag_cty d = Some t ∧ stands_for t u.

Lemma derives_backed d b u :
  tag_cty b = Some u → (∃ t, tag_cty d = Some t ∧ derives t u) → backed d b.
Proof.
  intros Eb (t & Ed & Hd) u' Eu. rewrite Eb in Eu. injection Eu as <-.
  exists t. split; [done|]. left. by apply derives_usable.
Qed.

Lemma stream_backed b u :
  tag_cty b = Some u → derives (uv_pipe_s pf) u → derives (uv_tcp_s pf) u → backed "stream" b.
Proof.
  intros Eb Hp Ht u' Eu. rewrite Eb in Eu. injection Eu as <-.
  exists (stream pf). split; [reflexivity|]. right. eexists. split; [reflexivity|].
  repeat constructor; by apply derives_usable.
Qed.

Lemma supers_backed : Forall (λ '(d, bs), Forall (backed d) bs) supers.
Proof.
  pose proof handle_tags as Hh. apply Forall_app in Hh as [Hh Hs]. pose proof stream_tags as Hs'.
  pose proof request_tags as Hr. unfold supers. rewrite !Forall_app. split_and!.
  - apply Forall_fmap. eapply Forall_impl; [exact Hh|]. intros d Hd. repeat constructor.
    by eapply derives_backed.
  - rewrite fmap_app, Forall_app. split.
    + apply Forall_fmap. eapply Forall_impl; [apply Forall_and, conj; [exact Hs|exact Hs']|].
      intros d [Hd Hd']. repeat constructor; by eapply derives_backed.
    + repeat constructor; (eapply stream_backed; [reflexivity| |]);
        first [apply stream_derives|apply handle_derives].
  - apply Forall_fmap. eapply Forall_impl; [exact Hr|]. intros d Hd. repeat constructor.
    by eapply derives_backed.
  - repeat constructor. by intros u [=].
Qed.

Lemma used_as_backed d b u :
  used_as d b = true → tag_cty b = Some u → ∃ t, tag_cty d = Some t ∧ stands_for t u.
Proof.
  intros [->|(bs & Hd & Hb)]%used_as_cases Eu.
  { exists u. split; [done|]. left. apply usable_refl. }
  pose proof supers_backed as Hs. rewrite Forall_forall in Hs. specialize (Hs _ Hd). cbn in Hs.
  rewrite Forall_forall in Hs. by apply (Hs b Hb).
Qed.

(** The argument [e] of a call in a function with the names [env] can be passed
    for the parameter [p]: it has its type, and where that is a pointer to one
    of the structures above, it points to an object that stands for one, or
    is a null pointer. *)
Definition passes (tags : list (string * list decl)) (env : list decl) (p : ct) (e : cexpr) : Prop :=
  arg_ok all_typedefs uv_enumerators tags used_as env p e = true ∧
  ∀ b u, pointee (norm all_typedefs p) = Some b → tag_cty b = Some u →
    e = Lit 0 ∨ ∃ d t, points_to all_typedefs uv_enumerators tags used_as env e = Some d ∧
      tag_cty d = Some t ∧ stands_for t u.

Definition well_typed (tags : list (string * list decl)) (c : ccall) : Prop :=
  ∃ r ps, assoc (c_fun c) uv_functions = Some (TFun false r ps) ∧
    result_ok all_typedefs r (c_result c) = true ∧ Forall2 (passes tags (c_env c)) ps (c_args c).

Lemma call_ok_well_typed tags c :
  call_ok all_typedefs uv_enumerators tags used_as uv_functions c = true → well_typed tags c.
Proof.
  intros (r & ps & Ef & Hr & Ha)%call_ok_args; [|apply used_refl|apply used_trans].
  exists r, ps. split_and!; [done..|]. eapply Forall2_impl; [exact Ha|]. cbn.
  intros p e [Hp Hb]. split; [done|]. intros b u Ep Eu.
  destruct (Hb b Ep) as [->|(d & Ed & Hd)]; [by left|right].
  destruct (used_as_backed d b u Hd Eu) as (t & Et & Ht). by exists d, t.
Qed.

(** C21. Every call that the library and the test programs make of libuv is of a
    function uv.h declares, with as many arguments as it has parameters; each
    argument has the type of its parameter, and its result, where it is used,
    the type it is used at.  Whatever it is cast to, each argument that is
    passed for a handle, a stream, a request or a loop points, on every
    platform libuv supports and every ABI, to an object with all the members
    of that type at its offsets, within its size and aligned for it (or to a
    union, each of whose members is such an object), or is a null pointer. *)
Theorem calls_well_typed :
  Forall (λ '(_, (tags, calls)), Forall (well_typed tags) calls) program_calls.
Proof.
  pose proof program_checked as Hp. rewrite forallb_forall in Hp. apply Forall_forall.
  intros [file [tags calls]] Hc%list_elem_of_In. specialize (Hp _ Hc). cbn in Hp.
  unfold checked in Hp. rewrite forallb_forall in Hp. apply Forall_forall.
  intros c Hi%list_elem_of_In. by apply call_ok_well_typed, Hp.
Qed.
End layouts.
