(* ===== verification/UvStdint.v ===== *)
(** * The integer types of old Visual C++ (uv/stdint-msvc2008.h)

    The replacement of <stdint.h> that libuv brings for compilers that have
    none (before Visual Studio 2010): the types, with the typedefs as they are
    written, their limits, and the macros of constants.  What the compiler and its <limits.h> say is an
    interface, [Msvc]. *)

From S2P Require Import Prelude CTypes.

(** ** The compiler *)

(** Its integer types: those of C, and those with a width in their name. *)
Inductive basic := Char | Short | Int | Int8 | Int16 | Int32 | Int64.

#[export] Instance basic_eq_dec : EqDecision basic.
Proof. solve_decision. Defined.

(** A type of the header: a basic one, or the name of an earlier one. *)
Inductive int_ty := Basic (signed : bool) (b : basic) | Named (name : string).
Abbreviation signed := (Basic true).
Abbreviation unsigned := (Basic false).

(** What the compiler documents: the widths of its types, and the constants of
    its <limits.h>. *)
Class Msvc := {
  msc_ver : Z;                    (** [_MSC_VER] *)
  win64 : bool;                   (** [_WIN64] is defined *)
  width : basic → Z;
  limits_h : string → Z;
  width_c : width Char = 8 ∧ width Short = 16 ∧ width Int = 32;
  width_named : width Int8 = 8 ∧ width Int16 = 16 ∧ width Int32 = 32 ∧ width Int64 = 64;
  limits_8 : limits_h "_I8_MIN" = - 2 ^ 7 ∧ limits_h "_I8_MAX" = 2 ^ 7 - 1 ∧ limits_h "_UI8_MAX" = 2 ^ 8 - 1;
  limits_16 : limits_h "_I16_MIN" = - 2 ^ 15 ∧ limits_h "_I16_MAX" = 2 ^ 15 - 1 ∧ limits_h "_UI16_MAX" = 2 ^ 16 - 1;
  limits_32 : limits_h "_I32_MIN" = - 2 ^ 31 ∧ limits_h "_I32_MAX" = 2 ^ 31 - 1 ∧ limits_h "_UI32_MAX" = 2 ^ 32 - 1;
  limits_64 : limits_h "_I64_MIN" = - 2 ^ 63 ∧ limits_h "_I64_MAX" = 2 ^ 63 - 1 ∧ limits_h "_UI64_MAX" = 2 ^ 64 - 1;
  limits_int : limits_h "INT_MIN" = - 2 ^ 31 ∧ limits_h "INT_MAX" = 2 ^ 31 - 1
}.

Section stdint.
Context `{Msvc}.

(** ** The types *)

Definition exact_width_types : list (string * int_ty) :=
  (if decide (msc_ver < 1300) then
    [("int8_t", signed Char); ("int16_t", signed Short); ("int32_t", signed Int);
     ("uint8_t", unsigned Char); ("uint16_t", unsigned Short); ("uint32_t", unsigned Int)]
  else
    [("int8_t", signed Int8); ("int16_t", signed Int16); ("int32_t", signed Int32);
     ("uint8_t", unsigned Int8); ("uint16_t", unsigned Int16); ("uint32_t", unsigned Int32)]) ++
  [("int64_t", signed Int64); ("uint64_t", unsigned Int64)].

Definition minimum_width_types : list (string * int_ty) :=
  [("int_least8_t", Named "int8_t"); ("int_least16_t", Named "int16_t");
   ("int_least32_t", Named "int32_t"); ("int_least64_t", Named "int64_t");
   ("uint_least8_t", Named "uint8_t"); ("uint_least16_t", Named "uint16_t");
   ("uint_least32_t", Named "uint32_t"); ("uint_least64_t", Named "uint64_t")].

Definition fastest_types : list (string * int_ty) :=
  [("int_fast8_t", Named "int8_t"); ("int_fast16_t", Named "int16_t");
   ("int_fast32_t", Named "int32_t"); ("int_fast64_t", Named "int64_t");
   ("uint_fast8_t", Named "uint8_t"); ("uint_fast16_t", Named "uint16_t");
   ("uint_fast32_t", Named "uint32_t"); ("uint_fast64_t", Named "uint64_t")].

(** [_W64] asks the compiler for a warning and is no part of the type. *)
Definition pointer_types : list (string * int_ty) :=
  if win64 then [("intptr_t", signed Int64); ("uintptr_t", unsigned Int64)]
  else [("intptr_t", signed Int); ("uintptr_t", unsigned Int)].
Definition greatest_types : list (string * int_ty) :=
  [("intmax_t", Named "int64_t"); ("uintmax_t", Named "uint64_t")].

Definition stdint_types : list (string * int_ty) :=
  exact_width_types ++ minimum_width_types ++ fastest_types ++ pointer_types ++ greatest_types.

(** The basic type a name stands for; a name is defined by a basic type or by a
    name that is. *)
Definition basic_of (name : string) : option (bool * basic) :=
  t ← assoc name stdint_types;
  match t with
  | Basic s b => Some (s, b)
  | Named name =>
      t ← assoc name stdint_types;
      match t with Basic s b => Some (s, b) | Named _ => None end
  end.

(** ** The limits *)

(** A macro stands for a constant of <limits.h>, one that is cast to a type,
    another macro, or a number. *)
Inductive limit := Limit (name : string) | CastLimit (ty name : string) | Macro (name : string) | Number (z : Z).

Definition exact_width_limits : list (string * limit) :=
  [("INT8_MIN", CastLimit "int8_t" "_I8_MIN"); ("INT8_MAX", Limit "_I8_MAX");
   ("INT16_MIN", CastLimit "int16_t" "_I16_MIN"); ("INT16_MAX", Limit "_I16_MAX");
   ("INT32_MIN", CastLimit "int32_t" "_I32_MIN"); ("INT32_MAX", Limit "_I32_MAX");
   ("INT64_MIN", CastLimit "int64_t" "_I64_MIN"); ("INT64_MAX", Limit "_I64_MAX");
   ("UINT8_MAX", Limit "_UI8_MAX"); ("UINT16_MAX", Limit "_UI16_MAX");
   ("UINT32_MAX", Limit "_UI32_MAX"); ("UINT64_MAX", Limit "_UI64_MAX")].

Definition minimum_width_limits : list (string * limit) :=
  [("INT_LEAST8_MIN", Macro "INT8_MIN"); ("INT_LEAST8_MAX", Macro "INT8_MAX");
   ("INT_LEAST16_MIN", Macro "INT16_MIN"); ("INT_LEAST16_MAX", Macro "INT16_MAX");
   ("INT_LEAST32_MIN", Macro "INT32_MIN"); ("INT_LEAST32_MAX", Macro "INT32_MAX");
   ("INT_LEAST64_MIN", Macro "INT64_MIN"); ("INT_LEAST64_MAX", Macro "INT64_MAX");
   ("UINT_LEAST8_MAX", Macro "UINT8_MAX"); ("UINT_LEAST16_MAX", Macro "UINT16_MAX");
   ("UINT_LEAST32_MAX", Macro "UINT32_MAX"); ("UINT_LEAST64_MAX", Macro "UINT64_MAX")].

Definition fastest_limits : list (string * limit) :=
  [("INT_FAST8_MIN", Macro "INT8_MIN"); ("INT_FAST8_MAX", Macro "INT8_MAX");
   ("INT_FAST16_MIN", Macro "INT16_MIN"); ("INT_FAST16_MAX", Macro "INT16_MAX");
   ("INT_FAST32_MIN", Macro "INT32_MIN"); ("INT_FAST32_MAX", Macro "INT32_MAX");
   ("INT_FAST64_MIN", Macro "INT64_MIN"); ("INT_FAST64_MAX", Macro "INT64_MAX");
   ("UINT_FAST8_MAX", Macro "UINT8_MAX"); ("UINT_FAST16_MAX", Macro "UINT16_MAX");
   ("UINT_FAST32_MAX", Macro "UINT32_MAX"); ("UINT_FAST64_MAX", Macro "UINT64_MAX")].

Definition pointer_limits : list (string * limit) :=
  if win64 then
    [("INTPTR_MIN", Macro "INT64_MIN"); ("INTPTR_MAX", Macro "INT64_MAX"); ("UINTPTR_MAX", Macro "UINT64_MAX")]
  else
    [("INTPTR_MIN", Macro "INT32_MIN"); ("INTPTR_MAX", Macro "INT32_MAX"); ("UINTPTR_MAX", Macro "UINT32_MAX")].
Definition greatest_limits : list (string * limit) :=
  [("INTMAX_MIN", Macro "INT64_MIN"); ("INTMAX_MAX", Macro "INT64_MAX"); ("UINTMAX_MAX", Macro "UINT64_MAX")].
Definition ptrdiff_limits : list (string * limit) :=
  if win64 then [("PTRDIFF_MIN", Limit "_I64_MIN"); ("PTRDIFF_MAX", Limit "_I64_MAX")]
  else [("PTRDIFF_MIN", Limit "_I32_MIN"); ("PTRDIFF_MAX", Limit "_I32_MAX")].
Definition sig_atomic_limits : list (string * limit) :=
  [("SIG_ATOMIC_MIN", Limit "INT_MIN"); ("SIG_ATOMIC_MAX", Limit "INT_MAX")].
(** Each of these three only where <wchar.h> and <limits.h> have not [defined] it. *)
Definition size_limits (defined : string → bool) : list (string * limit) :=
  if defined "SIZE_MAX" then []
  else if win64 then [("SIZE_MAX", Limit "_UI64_MAX")] else [("SIZE_MAX", Limit "_UI32_MAX")].
Definition wchar_limits (defined : string → bool) : list (string * limit) :=
  (if defined "WCHAR_MIN" then [] else [("WCHAR_MIN", Number 0)]) ++
  (if defined "WCHAR_MAX" then [] else [("WCHAR_MAX", Limit "_UI16_MAX")]).
Definition wint_limits : list (string * limit) :=
  [("WINT_MIN", Number 0); ("WINT_MAX", Limit "_UI16_MAX")].

Definition stdint_limits (defined : string → bool) : list (string * limit) :=
  exact_width_limits ++ minimum_width_limits ++ fastest_limits ++ pointer_limits ++ greatest_limits ++
  ptrdiff_limits ++ sig_atomic_limits ++ size_limits defined ++ wchar_limits defined ++ wint_limits.

(** The range of a type, and the value of [z] in it. *)
Definition least (s : bool) (w : Z) : Z := if s then - 2 ^ (w - 1) else 0.
Definition greatest (s : bool) (w : Z) : Z := if s then 2 ^ (w - 1) - 1 else 2 ^ w - 1.
Definition cast_to (s : bool) (w z : Z) : Z := (z - least s w) `mod` 2 ^ w + least s w.

Section values.
Context (defined : string → bool).

Definition value_of_limit (l : limit) : option Z :=
  match l with
  | Limit x => Some (limits_h x)
  | CastLimit t x => '(s, b) ← basic_of t; Some (cast_to s (width b) (limits_h x))
  | Number z => Some z
  | Macro _ => None
  end.
(** A macro that stands for another stands for one of a constant. *)
Definition limit_value (name : string) : option Z :=
  l ← assoc name (stdint_limits defined);
  match l with
  | Macro name => l ← assoc name (stdint_limits defined); value_of_limit l
  | l => value_of_limit l
  end.
End values.

(** ** The macros of constants *)

(** The type of the suffix that the macro gives to its argument. *)
Definition int_constants : list (string * int_ty) :=
  [("INT8_C", signed Int8); ("INT16_C", signed Int16); ("INT32_C", signed Int32); ("INT64_C", signed Int64);
   ("UINT8_C", unsigned Int8); ("UINT16_C", unsigned Int16); ("UINT32_C", unsigned Int32);
   ("UINT64_C", unsigned Int64)].
Definition greatest_constants : list (string * int_ty) :=
  [("INTMAX_C", Named "INT64_C"); ("UINTMAX_C", Named "UINT64_C")].

(** ** The header keeps the promises of C99 *)

(** 7.18.1: the signedness and the width of each type; the others are at least
    as wide as they have to be because they are exactly that. *)
Definition promised_types : list (string * bool * Z) :=
  [("int8_t", true, 8); ("uint8_t", false, 8); ("int16_t", true, 16); ("uint16_t", false, 16);
   ("int32_t", true, 32); ("uint32_t", false, 32); ("int64_t", true, 64); ("uint64_t", false, 64);
   ("int_least8_t", true, 8); ("uint_least8_t", false, 8); ("int_least16_t", true, 16); ("uint_least16_t", false, 16);
   ("int_least32_t", true, 32); ("uint_least32_t", false, 32); ("int_least64_t", true, 64); ("uint_least64_t", false, 64);
   ("int_fast8_t", true, 8); ("uint_fast8_t", false, 8); ("int_fast16_t", true, 16); ("uint_fast16_t", false, 16);
   ("int_fast32_t", true, 32); ("uint_fast32_t", false, 32); ("int_fast64_t", true, 64); ("uint_fast64_t", false, 64);
   ("intptr_t", true, if win64 then 64 else 32); ("uintptr_t", false, if win64 then 64 else 32);
   ("intmax_t", true, 64); ("uintmax_t", false, 64)].

(** 7.18.2: the macros of the limits of each type. *)
Definition promised_limits : list (string * option string * string) :=
  [("int8_t", Some "INT8_MIN", "INT8_MAX"); ("uint8_t", None, "UINT8_MAX");
   ("int16_t", Some "INT16_MIN", "INT16_MAX"); ("uint16_t", None, "UINT16_MAX");
   ("int32_t", Some "INT32_MIN", "INT32_MAX"); ("uint32_t", None, "UINT32_MAX");
   ("int64_t", Some "INT64_MIN", "INT64_MAX"); ("uint64_t", None, "UINT64_MAX");
   ("int_least8_t", Some "INT_LEAST8_MIN", "INT_LEAST8_MAX"); ("uint_least8_t", None, "UINT_LEAST8_MAX");
   ("int_least16_t", Some "INT_LEAST16_MIN", "INT_LEAST16_MAX"); ("uint_least16_t", None, "UINT_LEAST16_MAX");
   ("int_least32_t", Some "INT_LEAST32_MIN", "INT_LEAST32_MAX"); ("uint_least32_t", None, "UINT_LEAST32_MAX");
   ("int_least64_t", Some "INT_LEAST64_MIN", "INT_LEAST64_MAX"); ("uint_least64_t", None, "UINT_LEAST64_MAX");
   ("int_fast8_t", Some "INT_FAST8_MIN", "INT_FAST8_MAX"); ("uint_fast8_t", None, "UINT_FAST8_MAX");
   ("int_fast16_t", Some "INT_FAST16_MIN", "INT_FAST16_MAX"); ("uint_fast16_t", None, "UINT_FAST16_MAX");
   ("int_fast32_t", Some "INT_FAST32_MIN", "INT_FAST32_MAX"); ("uint_fast32_t", None, "UINT_FAST32_MAX");
   ("int_fast64_t", Some "INT_FAST64_MIN", "INT_FAST64_MAX"); ("uint_fast64_t", None, "UINT_FAST64_MAX");
   ("intptr_t", Some "INTPTR_MIN", "INTPTR_MAX"); ("uintptr_t", None, "UINTPTR_MAX");
   ("intmax_t", Some "INTMAX_MIN", "INTMAX_MAX"); ("uintmax_t", None, "UINTMAX_MAX")].

Definition type_kept (t : string * bool * Z) : Prop :=
  let '(name, s, w) := t in ∃ b, basic_of name = Some (s, b) ∧ width b = w.

Definition limit_kept (defined : string → bool) (l : string * option string * string) : Prop :=
  let '(name, min, max) := l in
  ∃ s b, basic_of name = Some (s, b) ∧
    limit_value defined max = Some (greatest s (width b)) ∧
    match min with Some min => limit_value defined min = Some (least s (width b)) | None => s = false end.

Lemma stdint_types_kept : Forall type_kept promised_types.
Proof.
  pose proof width_c as (Hc & Hs & Hi). pose proof width_named as (H8 & H16 & H32 & H64).
  unfold promised_types, type_kept, basic_of, stdint_types, exact_width_types, pointer_types.
  destruct (decide (msc_ver < 1300)), win64; repeat constructor; eexists; (split; [reflexivity|done]).
Qed.

(** Likewise the constants of 7.18.4. *)
Definition promised_constants : list (string * bool * Z) :=
  [("INT8_C", true, 8); ("INT16_C", true, 16); ("INT32_C", true, 32); ("INT64_C", true, 64);
   ("UINT8_C", false, 8); ("UINT16_C", false, 16); ("UINT32_C", false, 32); ("UINT64_C", false, 64);
   ("INTMAX_C", true, 64); ("UINTMAX_C", false, 64)].
Definition constant_type (name : string) : option (bool * basic) :=
  let name := match assoc name greatest_constants with Some (Named name) => name | _ => name end in
  t ← assoc name int_constants;
  match t with Basic s b => Some (s, b) | Named _ => None end.

Lemma constants_kept : Forall (λ '(name, s, w), ∃ b, constant_type name = Some (s, b) ∧ width b = w) promised_constants.
Proof.
  pose proof width_named as (H8 & H16 & H32 & H64).
  repeat constructor; eexists; (split; [reflexivity|done]).
Qed.

Lemma stdint_limits_kept defined : Forall (limit_kept defined) promised_limits.
Proof.
  pose proof width_c as (Hc & Hs & Hi). pose proof width_named as (H8 & H16 & H32 & H64).
  pose proof limits_8 as (a & b & c). pose proof limits_16 as (d & e & f).
  pose proof limits_32 as (g & h & i). pose proof limits_64 as (j & k & l).
  unfold promised_limits, limit_kept, limit_value, value_of_limit, stdint_limits, basic_of, stdint_types,
    exact_width_types, pointer_types, pointer_limits.
  destruct (decide (msc_ver < 1300)), win64; repeat constructor; eexists _, _;
    (split_and!; [reflexivity|..]);
    cbv -[limits_h width Z.pow Z.mul Z.add Z.sub Z.modulo Z.opp least greatest cast_to]; try done; f_equal;
    rewrite ?Hc, ?Hs, ?Hi, ?H8, ?H16, ?H32, ?H64, ?a, ?b, ?c, ?d, ?e, ?f, ?g, ?h, ?i, ?j, ?k, ?l; reflexivity.
Qed.

(** The limits of the types of other headers: pointers are as wide as the
    platform's, and what is already [defined] is left alone. *)
Lemma other_limits_kept defined :
  let w := if win64 then 64 else 32 in
  limit_value defined "PTRDIFF_MIN" = Some (least true w) ∧
  limit_value defined "PTRDIFF_MAX" = Some (greatest true w) ∧
  limit_value defined "SIZE_MAX" = (if defined "SIZE_MAX" then None else Some (greatest false w)) ∧
  limit_value defined "SIG_ATOMIC_MIN" = Some (least true (width Int)) ∧
  limit_value defined "SIG_ATOMIC_MAX" = Some (greatest true (width Int)) ∧
  limit_value defined "WCHAR_MAX" = (if defined "WCHAR_MAX" then None else Some (greatest false (width Int16))) ∧
  limit_value defined "WINT_MIN" = Some (least false (width Int16)) ∧
  limit_value defined "WINT_MAX" = Some (greatest false (width Int16)).
Proof.
  pose proof width_c as (Hc & Hs & Hi). pose proof width_named as (H8 & H16 & H32 & H64).
  pose proof limits_16 as (d & e & f). pose proof limits_int as (m & n).
  pose proof limits_32 as (g & h & i). pose proof limits_64 as (j & k & l).
  unfold limit_value, value_of_limit, stdint_limits, pointer_limits, ptrdiff_limits, size_limits, wchar_limits.
  cbv zeta. destruct win64, (defined "SIZE_MAX"), (defined "WCHAR_MIN"), (defined "WCHAR_MAX");
    split_and!; cbv -[limits_h width Z.pow Z.mul Z.add Z.sub Z.modulo Z.opp least greatest cast_to];
    rewrite ?Hi, ?H16, ?f, ?g, ?h, ?i, ?j, ?k, ?l, ?m, ?n; reflexivity.
Qed.
End stdint.

(** ** Compilers *)

Definition msvc_width (b : basic) : Z :=
  match b with Char | Int8 => 8 | Short | Int16 => 16 | Int | Int32 => 32 | Int64 => 64 end.
Definition msvc_limits (x : string) : Z := default 0 (assoc x
  [("_I8_MIN", -128); ("_I8_MAX", 127); ("_UI8_MAX", 0xff);
   ("_I16_MIN", -32768); ("_I16_MAX", 32767); ("_UI16_MAX", 0xffff);
   ("_I32_MIN", -2147483648); ("_I32_MAX", 2147483647); ("_UI32_MAX", 0xffffffff);
   ("_I64_MIN", -9223372036854775808); ("_I64_MAX", 9223372036854775807);
   ("_UI64_MAX", 0xffffffffffffffff); ("INT_MIN", -2147483648); ("INT_MAX", 2147483647)]).

(** Visual Studio 6 is 1200, and Visual Studio 2008 1500. *)
#[refine] Instance visual_studio (ver : Z) (x64 : bool) : Msvc :=
  {| msc_ver := ver; win64 := x64; width := msvc_width; limits_h := msvc_limits |}.
Proof. all: vm_compute; auto. Defined.

Example int64_min : let _ := visual_studio 1500 true in limit_value (λ _, false) "INT64_MIN" = Some (-9223372036854775808).
Proof. vm_compute. reflexivity. Qed.
Example intptr_max : let _ := visual_studio 1200 false in limit_value (λ _, false) "INTPTR_MAX" = Some 2147483647.
Proof. vm_compute. reflexivity. Qed.
