(* ===== verification/RbInsert.v ===== *)
(** * Inserting into a red-black tree (RB_INSERT and RB_INSERT_COLOR of uv/tree.h) *)

From S2P Require Import Prelude RbTree RbShape TreeDemo.

(** The loop of [RB_INSERT_COLOR]; [continue] and the end of the body both go
    on with the [elm] of that moment. *)
Definition insert_color_body (elm : option nat) : RB (option nat + unit) :=
  parent ← RB_PARENT elm;
  red_parent ← is_red parent;
  if negb red_parent then mret (inr tt) else
  gparent ← RB_PARENT parent;
  gl ← RB_LEFT gparent;
  if bool_decide (parent = gl) then
    tmp ← RB_RIGHT gparent;
    red ← is_red tmp;
    if red : bool then
      set_RB_COLOR tmp RB_BLACK;;
      RB_SET_BLACKRED parent gparent;;
      mret (inl gparent)
    else
      x ← RB_RIGHT parent;
      pe ← (if bool_decide (x = elm) then RB_ROTATE_LEFT parent;; mret (elm, parent)
            else mret (parent, elm));
      RB_SET_BLACKRED (fst pe) gparent;;
      RB_ROTATE_RIGHT gparent;;
      mret (inl (snd pe))
  else
    tmp ← RB_LEFT gparent;
    red ← is_red tmp;
    if red : bool then
      set_RB_COLOR tmp RB_BLACK;;
      RB_SET_BLACKRED parent gparent;;
      mret (inl gparent)
    else
      x ← RB_LEFT parent;
      pe ← (if bool_decide (x = elm) then RB_ROTATE_RIGHT parent;; mret (elm, parent)
            else mret (parent, elm));
      RB_SET_BLACKRED (fst pe) gparent;;
      RB_ROTATE_LEFT gparent;;
      mret (inl (snd pe)).

Definition RB_INSERT_COLOR (fuel : nat) (elm : option nat) : RB unit :=
  loop fuel insert_color_body elm;;
  r ← RB_ROOT;
  set_RB_COLOR r RB_BLACK.

Section insert.
Context (cmp : nat → nat → Z).

(** The descent: a turn of the loop over [tmp], [parent] and [comp], which
    leaves it with [inl] the element with the same key, or [inr] the parent to
    be and the last comparison. *)
Definition descend_body (elm : nat) (s : option nat * option nat * Z) :
    RB (option nat * option nat * Z + (option nat + (option nat * Z))) :=
  let '(tmp, parent, comp) := s in
  match tmp with
  | None => mret (inr (inr (parent, comp)))
  | Some t =>
      let comp := cmp elm t in
      if decide (comp < 0) then l ← RB_LEFT tmp; mret (inl (l, tmp, comp))
      else if decide (comp > 0) then r ← RB_RIGHT tmp; mret (inl (r, tmp, comp))
      else mret (inr (inl tmp))
  end.

Definition RB_INSERT (fuel : nat) (elm : nat) : RB (option nat) :=
  r ← RB_ROOT;
  found ← loop fuel (descend_body elm) (r, None, 0);
  match found with
  | inl tmp => mret tmp
  | inr (parent, comp) =>
      RB_SET (Some elm) parent;;
      (if is_null parent then set_RB_ROOT (Some elm) else
       (if decide (comp < 0) then set_RB_LEFT parent (Some elm)
        else set_RB_RIGHT parent (Some elm));;
       RB_AUGMENT parent);;
      RB_INSERT_COLOR fuel (Some elm);;
      mret None
  end.
End insert.

(** ** Repairing the colors *)

(** The two mirrored halves of the loop. *)
Definition insert_case (d : dir) (elm parent gparent : option nat) : RB (option nat + unit) :=
  tmp ← rd (rbe_child (flip d)) gparent;
  red ← is_red tmp;
  if red : bool then
    set_RB_COLOR tmp RB_BLACK;;
    RB_SET_BLACKRED parent gparent;;
    mret (inl gparent)
  else
    x ← rd (rbe_child (flip d)) parent;
    pe ← (if bool_decide (x = elm) then rotate d parent;; mret (elm, parent)
          else mret (parent, elm));
    RB_SET_BLACKRED (fst pe) gparent;;
    rotate (flip d) gparent;;
    mret (inl (snd pe)).


Section color.
Context (S : list nat) (h0 : nodes).
#[local] Abbreviation holds := (RbShape.holds S h0).

(** A red uncle: the problem moves up two levels. *)
Lemma insert_case_red k d1 p s d g u e l r w :
  holds (Frame d1 RB_RED p s :: Frame d RB_BLACK g u :: k) (Node RB_RED l e r) w →
  shade u = RB_RED →
  ∃ ul x ur w', u = Node RB_RED ul x ur ∧
    insert_case d (Some e) (Some p) (Some g) w = Ok (inl (Some g), w') ∧
    holds k (mk d RB_RED (mk d1 RB_BLACK (Node RB_RED l e r) p s) g (Node RB_BLACK ul x ur)) w'.
Proof.
  intros Hw Hu. destruct u as [|[] ul x ur]; [done..|]. exists ul, x, ur.
  pose proof Hw as Hg. apply holds_up in Hg. pose proof (above_get _ _ _ _ _ _ _ _ _ Hg) as Eg.
  apply holds_up in Hg. rewrite mk_flip in Hg. apply holds_down in Hg.
  change (Node RB_RED ul x ur) with (mk DL RB_RED ul x ur) in Hg.
  pose proof (is_red_ok _ _ _ (ho_tree _ _ _ _ _ Hg)) as Er.
  destruct (paint_ok _ _ _ _ RB_RED RB_BLACK _ _ _ _ Hg) as (w1 & E1 & H1).
  apply holds_up in H1. rewrite <-mk_flip in H1. apply holds_down, holds_down in H1.
  destruct (blackred_above _ _ _ _ _ _ _ _ _ _ _ _ _ H1) as (w2 & E2 & H2).
  exists w2. split; [done|]. split.
  - unfold insert_case. rewrite (st_bind_ok _ _ _ _ _ (rd_ok _ g _ w Eg)), links_other.
    rewrite (st_bind_ok _ _ _ _ _ Er). cbn [shade mk root].
    rewrite bool_decide_eq_true_2 by done. cbn [mk root] in E1.
    by rewrite (st_bind_ok _ _ _ _ _ E1), (st_bind_ok _ _ _ _ _ E2).
  - by apply holds_up, holds_up in H2.
Qed.

(** A black uncle and the element on the outside: one rotation ends it. *)
Lemma insert_case_outer k p s d c g u t w :
  holds (Frame d RB_RED p s :: Frame d c g u :: k) t w →
  ∃ w', (RB_SET_BLACKRED (Some p) (Some g);; rotate (flip d) (Some g)) w = Ok (Some p, w') ∧
    holds (Frame d RB_BLACK p (mk d RB_RED s g u) :: k) t w'.
Proof.
  intros Hw. destruct (blackred_above _ _ _ _ _ _ _ _ _ _ _ _ _ Hw) as (w1 & E1 & H1).
  apply holds_up, holds_up in H1. rewrite mk_flip, (mk_flip d RB_BLACK) in H1.
  destruct (rotate_ok _ _ _ _ _ _ _ _ _ _ _ _ H1) as (w2 & E2 & H2).
  exists w2. rewrite (st_bind_ok _ _ _ _ _ E1). split; [done|].
  rewrite mk_flip in H2. destruct d; by apply holds_down in H2.
Qed.

(** A black uncle: the element goes to the outside if it is not there, and one
    rotation ends it. *)
Lemma insert_case_black k d1 n p s d g u e l r w :
  holds (Frame d1 RB_RED p s :: Frame d RB_BLACK g u :: k) (Node RB_RED l e r) w →
  shade u = RB_BLACK → rbt RB_RED n l → rbt RB_RED n r → rbt RB_RED n s →
  ∃ l' e' r' p' s' w',
    insert_case d (Some e) (Some p) (Some g) w = Ok (inl (Some e'), w') ∧
    holds (Frame d RB_BLACK p' (mk d RB_RED s' g u) :: k) (Node RB_RED l' e' r') w' ∧
    rbt RB_RED n l' ∧ rbt RB_RED n r' ∧ rbt RB_RED n s' ∧
    inorder (mk d RB_BLACK (Node RB_RED l' e' r') p' (mk d RB_RED s' g u)) =
      inorder (mk d RB_BLACK (mk d1 RB_RED (Node RB_RED l e r) p s) g u).
Proof.
  intros Hw Hu Hl Hr Hs.
  pose proof Hw as Hg. apply holds_up in Hg. pose proof (above_get _ _ _ _ _ _ _ _ _ Hg) as Eg.
  pose proof (above_get _ _ _ _ _ _ _ _ _ Hw) as Ep.
  apply holds_up, focus_own in Hg as [_ Ou]. pose proof (is_red_ok _ _ _ Ou) as Er.
  rewrite Hu in Er. unfold insert_case.
  rewrite (st_bind_ok _ _ _ _ _ (rd_ok _ g _ w Eg)), links_other.
  rewrite (st_bind_ok _ _ _ _ _ Er), bool_decide_eq_false_2 by done.
  rewrite (st_bind_ok _ _ _ _ _ (rd_ok _ p _ w Ep)).
  destruct (flip_or d1 d) as [->| ->].
  - (* outside *)
    rewrite links_other, bool_decide_eq_false_2 by
      exact (other_child _ _ _ _ _ _ _ _ _ _ (holds_up _ _ _ _ _ _ _ _ _ Hw) eq_refl).
    rewrite (st_bind_ok _ _ _ _ _ (ret_ok _ w)).
    destruct (insert_case_outer k p s d RB_BLACK g u _ w Hw) as (w' & E & Hw').
    exists l, e, r, p, s, w'. cbn [fst snd]. split_and!; try done.
    + apply st_bind_inv in E as ([] & w1 & E1 & E2).
      by rewrite (st_bind_ok _ _ _ _ _ E1), (st_bind_ok _ _ _ _ _ E2).
    + destruct d; by app_norm.
  - (* inside: a first rotation brings it there *)
    rewrite links_child, bool_decide_eq_true_2 by done.
    pose proof Hw as Hp. apply holds_up in Hp. rewrite mk_flip in Hp.
    replace (flip (flip d)) with d in Hp by (by destruct d).
    rewrite (mk_side d RB_RED l e r) in Hp.
    destruct (rotate_ok _ _ _ _ _ _ _ _ _ _ _ _ Hp) as (w1 & E1 & H1).
    rewrite (st_bind_ok _ _ _ _ _ (st_bind_ok _ _ _ _ _ E1)). cbn [fst snd].
    apply holds_down in H1.
    destruct (insert_case_outer k e _ d RB_BLACK g u _ w1 H1) as (w' & E & Hw').
    rewrite (mk_node d RB_RED s p) in Hw'. eexists _, _, _, _, _, w'. split_and!; [|exact Hw'|..].
    + apply st_bind_inv in E as ([] & w2 & E2 & E3).
      by rewrite (st_bind_ok _ _ _ _ _ E2), (st_bind_ok _ _ _ _ _ E3).
    + by destruct d.
    + by destruct d.
    + by destruct d.
    + destruct d; by app_norm.
Qed.

(** The loop. *)
Definition turns (c : color) (k : zipper) : nat :=
  match c with RB_BLACK => 1 | RB_RED => 1 + length k end.

Lemma insert_color_turn k n l e r w :
  holds k (Node RB_RED l e r) w → rbt RB_RED n l → rbt RB_RED n r → rbk RB_RED n k →
  k ≠ [] →
  ∃ k' c' n' l' e' r' w', insert_color_body (Some e) w = Ok (inl (Some e'), w') ∧
    holds k' (Node RB_RED l' e' r') w' ∧ rbt RB_RED n' l' ∧ rbt RB_RED n' r' ∧ rbk c' n' k' ∧
    (turns c' k' < turns RB_RED k)%nat ∧
    inorder (plug k' (Node RB_RED l' e' r')) = inorder (plug k (Node RB_RED l e r)).
Proof.
  intros Hw Hl Hr Hk Hne. destruct k as [|[d1 [] p s] k]; [done|by destruct Hk|].
  destruct Hk as (_ & Hs & Hk).
  destruct k as [|[d [] g u] k]; [done| |by destruct Hk]. destruct Hk as (_ & Hu & Hk).
  assert (E : insert_color_body (Some e) w = insert_case d (Some e) (Some p) (Some g) w).
  { pose proof (focus_get _ _ _ DL _ _ _ _ _ Hw) as Ee.
    pose proof (above_get _ _ _ _ _ _ _ _ _ Hw) as Ep.
    pose proof (holds_up _ _ _ _ _ _ _ _ _ Hw) as Hp.
    pose proof (above_get _ _ _ _ _ _ _ _ _ Hp) as Eg.
    pose proof (is_left_child _ _ _ _ _ _ _ _ p _ (holds_up _ _ _ _ _ _ _ _ _ Hp)
      (root_mk _ _ _ _ _)) as Hleft.
    unfold insert_color_body, RB_PARENT, RB_LEFT.
    rewrite (st_bind_ok _ _ _ _ _ (rd_ok _ e _ w Ee)), links_parent. cbn [above f_addr].
    rewrite (st_bind_ok _ _ _ _ _ (is_red_node p _ w Ep)), links_color. cbn [negb].
    rewrite bool_decide_eq_true_2 by done. cbn [negb].
    rewrite (st_bind_ok _ _ _ _ _ (rd_ok _ p _ w Ep)), links_parent. cbn [above f_addr].
    rewrite (st_bind_ok _ _ _ _ _ (rd_ok _ g _ w Eg)). rewrite root_mk in *.
    rewrite (bool_decide_ext _ _ Hleft). by destruct d. }
  destruct (shade u) eqn:Eu.
  - destruct (insert_case_black k d1 n p s d g u e l r w Hw Eu Hl Hr Hs)
      as (l' & e' & r' & p' & s' & w' & E' & Hw' & Hl' & Hr' & Hs' & Eo).
    eexists _, RB_BLACK, n, l', e', r', w'. rewrite E. split_and!; [done|done|done|done| | |].
    + cbn. split_and!; [done| |done]. rewrite rbt_mk. split_and!; [done..|].
      by apply rbt_shade.
    + cbn. lia.
    + cbn [plug]. by apply plug_inorder.
  - destruct (insert_case_red k d1 p s d g u e l r w Hw Eu) as (ul & x & ur & w' & -> & E' & Hw').
    rewrite mk_node in Hw'.
    assert (∃ c', rbk c' (1 + n) k) as [c' Hk'] by (destruct Hk; eauto).
    destruct Hu as (_ & Hul & Hur).
    assert (rbt RB_RED (1 + n) (mk d1 RB_BLACK (Node RB_RED l e r) p s)) as Hp.
    { rewrite rbt_mk. exists n. split_and!; [done..|by apply rbt_black]. }
    assert (rbt RB_RED (1 + n) (Node RB_BLACK ul x ur)) as Hx by (by split; apply rbt_black).
    eexists k, c', (1 + n)%nat, _, g, _, w'. rewrite E.
    split_and!; [done|done|by destruct d|by destruct d|done| |].
    + destruct c'; cbn; lia.
    + cbn [plug]. rewrite <-mk_node. apply plug_inorder. destruct d, d1; by app_norm.
Qed.

Lemma insert_color_stop k c n l e r w :
  holds k (Node RB_RED l e r) w → rbk c n k → c = RB_BLACK ∨ k = [] →
  insert_color_body (Some e) w = Ok (inr tt, w).
Proof.
  intros Hw Hk Hc. pose proof (focus_get _ _ _ DL _ _ _ _ _ Hw) as Ee.
  unfold insert_color_body, RB_PARENT.
  rewrite (st_bind_ok _ _ _ _ _ (rd_ok _ e _ w Ee)), links_parent.
  destruct k as [|[d c' p s] k]; [done|]. destruct Hc as [->|]; [|done].
  pose proof (above_get _ _ _ _ _ _ _ _ _ Hw) as Ep. cbn [above f_addr].
  rewrite (st_bind_ok _ _ _ _ _ (is_red_node p _ w Ep)), links_color.
  destruct c'; [done|]. by destruct Hk.
Qed.

Lemma insert_color_loop fuel : ∀ k c n l e r w,
  holds k (Node RB_RED l e r) w → rbt RB_RED n l → rbt RB_RED n r → rbk c n k →
  (turns c k ≤ fuel)%nat →
  ∃ k' c' n' l' e' r' w', loop fuel insert_color_body (Some e) w = Ok (tt, w') ∧
    holds k' (Node RB_RED l' e' r') w' ∧ rbt RB_RED n' l' ∧ rbt RB_RED n' r' ∧ rbk c' n' k' ∧
    (c' = RB_BLACK ∨ k' = []) ∧
    inorder (plug k' (Node RB_RED l' e' r')) = inorder (plug k (Node RB_RED l e r)).
Proof.
  induction fuel as [|fuel IH]; intros k c n l e r w Hw Hl Hr Hk Hf; [destruct c; cbn in Hf; lia|].
  assert (Hstop : (c = RB_BLACK ∨ k = []) ∨ (c = RB_RED ∧ k ≠ [])).
  { destruct c; [auto|]. destruct k; [auto|]. by right. }
  destruct Hstop as [Hstop|[-> Hne]].
  - exists k, c, n, l, e, r, w.
    by rewrite (loop_last _ _ _ _ _ _ (insert_color_stop _ _ _ _ _ _ _ Hw Hk Hstop)).
  - destruct (insert_color_turn k n l e r w Hw Hl Hr Hk Hne)
      as (k1 & c1 & n1 & l1 & e1 & r1 & w1 & E1 & Hw1 & Hl1 & Hr1 & Hk1 & Ht1 & Eo1).
    rewrite (loop_next _ _ _ _ _ _ E1).
    destruct (IH k1 c1 n1 l1 e1 r1 w1 Hw1 Hl1 Hr1 Hk1 ltac:(lia))
      as (k2 & c2 & n2 & l2 & e2 & r2 & w2 & E2 & Hw2 & Hl2 & Hr2 & Hk2 & Hc2 & Eo2).
    exists k2, c2, n2, l2, e2, r2, w2. split_and!; try done. by rewrite Eo2.
Qed.

(** [RB_INSERT_COLOR] makes a red-black tree with the same elements in the same
    order. *)
Lemma insert_color_ok fuel k c n l e r w :
  holds k (Node RB_RED l e r) w → rbt RB_RED n l → rbt RB_RED n r → rbk c n k →
  (length k < fuel)%nat →
  ∃ t w', RB_INSERT_COLOR fuel (Some e) w = Ok (tt, w') ∧ holds [] t w' ∧ redblack t ∧
    inorder t = inorder (plug k (Node RB_RED l e r)).
Proof.
  intros Hw Hl Hr Hk Hf.
  destruct (insert_color_loop fuel k c n l e r w Hw Hl Hr Hk)
    as (k1 & c1 & n1 & l1 & e1 & r1 & w1 & E1 & Hw1 & Hl1 & Hr1 & Hk1 & Hc1 & Eo1);
    [destruct c; cbn; lia|].
  apply holds_plug in Hw1. rewrite <-Eo1.
  assert (∃ c' l' a r', plug k1 (Node RB_RED l1 e1 r1) = Node c' l' a r' ∧
    redblack (Node RB_BLACK l' a r')) as (c' & l' & a & r' & Et & Hrb).
  { destruct Hc1 as [->| ->].
    - destruct (rbt_plug RB_BLACK n1 k1 (Node RB_RED l1 e1 r1) ltac:(by split_and!) Hk1) as [m Hm].
      destruct (plug k1 _) as [|[] l' a r'] eqn:Et; [|by exists RB_BLACK, l', a, r'; split; [|exists m]|by destruct Hm].
      exfalso. pose proof (plug_perm k1 (Node RB_RED l1 e1 r1)) as Hp. rewrite Et in Hp.
      apply Permutation_nil_l, eq_sym, app_nil in Hp as [Hp%app_nil _]. by destruct Hp.
    - exists RB_RED, l1, e1, r1. split; [done|]. exists (1 + n1)%nat. split; by apply rbt_black. }
  rewrite Et in *. destruct (paint_ok _ _ _ DL _ RB_BLACK _ _ _ _ Hw1) as (w2 & E2 & Hw2).
  exists (Node RB_BLACK l' a r'), w2. split_and!; [|done..].
  unfold RB_INSERT_COLOR, RB_ROOT. rewrite (st_bind_ok _ _ _ _ _ E1).
  rewrite (st_bind_ok _ _ _ _ _ (gets_ok _ w1)).
  destruct Hw1 as [_ Hroot _ _ _]. cbn in Hroot. by rewrite Hroot.
Qed.
End color.

(** ** Where the element goes *)
Section descend.
Context (cmp : nat → nat → Z) `{!KeyOrder cmp} (S : list nat) (h0 : nodes) (elm : nat).

(** The key of [elm] is between those before and after the hole, and [comp] is
    the comparison with the element above. *)
Definition hole_of (k : zipper) (comp : Z) : Prop :=
  Forall (λ x, cmp x elm < 0) (before k) ∧ Forall (λ x, cmp elm x < 0) (after k) ∧
  match k with [] => True | Frame DL _ _ _ :: _ => comp < 0 | Frame DR _ _ _ :: _ => ¬ comp < 0 end.

Lemma hole_down d k c a l r comp :
  sorted cmp (inorder (plug k (Node c l a r))) → hole_of k comp →
  match d with DL => cmp elm a < 0 | DR => 0 < cmp elm a end →
  hole_of (Frame d c a (side (flip d) l r) :: k) (cmp elm a).
Proof.
  intros Hs (Hb & Ha & _) Hd. rewrite inorder_plug in Hs. cbn in Hs.
  rewrite <-app_assoc in Hs. cbn in Hs. rewrite app_assoc in Hs.
  apply sorted_app in Hs as (_ & _ & Hl & Hr & _).
  apply Forall_app in Hl as [_ Hl]. apply Forall_app in Hr as [Hr _].
  destruct d; cbn; (split; [|split; [|lia]]).
  - done.
  - constructor; [done|]. apply Forall_app. split; [|done].
    eapply Forall_impl; [exact Hr|]. intros x Hx. by apply (cmp_trans elm a x).
  - apply (cmp_gt cmp) in Hd.
    apply Forall_app. split; [done|]. apply Forall_app. split; [|by repeat constructor].
    eapply Forall_impl; [exact Hl|]. intros x Hx. by apply (cmp_trans x a elm).
  - done.
Qed.

(** What the descent finds: an element with the same key, or its hole. *)
Definition descended (t0 : tree) (r : option nat + (option nat * Z)) : Prop :=
  match r with
  | inl x => ∃ y, x = Some y ∧ y ∈ inorder t0 ∧ cmp elm y = 0
  | inr (p, comp) => ∃ k, plug k Leaf = t0 ∧ p = above k ∧ hole_of k comp
  end.

Lemma descend_ok fuel : ∀ t k comp w,
  RbShape.holds S h0 k t w → sorted cmp (inorder (plug k t)) → (height t < fuel)%nat →
  hole_of k comp →
  ∃ r, loop fuel (descend_body cmp elm) (root t, above k, comp) w = Ok (r, w) ∧ descended (plug k t) r.
Proof.
  induction fuel as [|fuel IH]; intros t k comp w Hw Hs Hf Hk; [lia|].
  destruct t as [|c l a r].
  { eexists. split; [by apply loop_last|]. by exists k. }
  pose proof (focus_get _ _ _ DL _ _ _ _ _ Hw) as Ea. cbn [root].
  assert (Hdown : ∀ d, match d with DL => cmp elm a < 0 | DR => 0 < cmp elm a end →
    descend_body cmp elm (Some a, above k, comp) w =
      Ok (inl (root (side d l r), Some a, cmp elm a), w) →
    ∃ r0, loop (Datatypes.S fuel) (descend_body cmp elm) (Some a, above k, comp) w = Ok (r0, w) ∧
      descended (plug k (Node c l a r)) r0).
  { intros d Hd E. rewrite (loop_next _ _ _ _ _ _ E). rewrite (mk_side d c l a r) in Hw.
    apply holds_down in Hw.
    destruct (IH _ _ (cmp elm a) w Hw) as (r0 & E0 & H0).
    - cbn [plug]. by rewrite <-mk_side.
    - cbn in Hf. destruct d; cbn; lia.
    - by apply (hole_down d k c a l r comp).
    - exists r0. split; [done|]. cbn [plug] in H0. by rewrite <-mk_side in H0. }
  destruct (decide (cmp elm a < 0)) as [Hlt|Hlt].
  { apply (Hdown DL); [done|]. unfold descend_body, RB_LEFT. rewrite decide_True by done.
    by rewrite (st_bind_ok _ _ _ _ _ (rd_ok _ a _ w Ea)). }
  destruct (decide (cmp elm a > 0)) as [Hgt|Hgt].
  { apply (Hdown DR); [lia|]. unfold descend_body, RB_RIGHT.
    rewrite decide_False, decide_True by done.
    by rewrite (st_bind_ok _ _ _ _ _ (rd_ok _ a _ w Ea)). }
  eexists. split.
  { apply loop_last. unfold descend_body. by rewrite !decide_False. }
  exists a. split_and!; [done| |lia]. rewrite inorder_plug. set_solver.
Qed.
End descend.

(** ** Insertion *)
Section attach.
Context (S : list nat) (h0 : nodes).

(** The element is linked in as a red leaf. *)
Lemma attach_ok k comp e w :
  RbShape.holds S h0 k Leaf w → is_Some (rb_nodes w !! e) → e ∉ around k → e ∈ S →
  match k with [] => True | Frame DL _ _ _ :: _ => comp < 0 | Frame DR _ _ _ :: _ => ¬ comp < 0 end →
  ∃ w', (RB_SET (Some e) (above k);;
         (if is_null (above k) then set_RB_ROOT (Some e) else
          (if decide (comp < 0) then set_RB_LEFT (above k) (Some e)
           else set_RB_RIGHT (above k) (Some e));;
          RB_AUGMENT (above k))) w = Ok (tt, w') ∧
    RbShape.holds S h0 k (Node RB_RED Leaf e Leaf) w'.
Proof.
  intros [Ht Hk Hnd Hsub Hoff] [n He] Hek HeS Hc.
  set (n1 := RbNode None None (above k) RB_RED).
  assert (E1 : RB_SET (Some e) (above k) w = Ok (tt, set_nodes (<[e := n1]> (rb_nodes w)) w)).
  { unfold RB_SET, set_RB_PARENT, set_RB_RIGHT, set_RB_LEFT, set_RB_COLOR.
    rewrite (st_bind_ok _ _ _ _ _ (wr_ok _ e n w He)).
    do 2 (erewrite st_bind_ok by (apply wr_ok; apply lookup_insert_eq)).
    erewrite wr_ok by apply lookup_insert_eq. cbn. unfold set_nodes. cbn.
    by rewrite !insert_insert_eq. }
  set (w1 := set_nodes _ w) in E1.
  assert (HND : NoDup (inorder (plug k (Node RB_RED Leaf e Leaf)))).
  { rewrite plug_perm in Hnd |- *. cbn in *. by constructor. }
  assert (HS : inorder (plug k (Node RB_RED Leaf e Leaf)) ⊆ S).
  { intros x. rewrite plug_perm. cbn. intros [->|Hx]%elem_of_cons; [done|].
    apply Hsub. by rewrite plug_perm. }
  assert (Hk1 : ownk (rb_nodes w1) (rbh_root w1) k None) by (by apply ownk_insert).
  assert (Ho1 : off S h0 (rb_nodes w1)).
  { apply (off_trans _ _ (rb_nodes w)); [done|]. by apply off_insert. }
  rewrite (st_bind_ok _ _ _ _ _ E1). destruct k as [|[d c p s] k].
  { exists (with_root (Some e) w1). split; [done|]. split; try done.
    cbn. split; [|done]. apply lookup_insert_eq. }
  cbn in Hek. rewrite not_elem_of_cons, not_elem_of_app in Hek.
  destruct Hk1 as (Hp & Hs & Hk1). cbn [above f_addr]. rewrite is_null_some.
  set (n2 := links d (Some e) (root s) (above k) c).
  exists (set_nodes (<[p := n2]> (rb_nodes w1)) w1). split.
  { unfold set_RB_LEFT, set_RB_RIGHT, RB_AUGMENT.
    destruct d; [rewrite decide_True by done|rewrite decide_False by done];
      by rewrite (st_bind_ok _ _ _ _ _ (wr_ok _ p _ w1 Hp)). }
  rewrite plug_perm in Hnd. cbn in Hnd. nodup_in Hnd.
  split; cbn [rb_nodes set_nodes rbh_root]; [..|done|done|].
  - cbn. rewrite lookup_insert_ne by naive_solver. split; [|done]. apply lookup_insert_eq.
  - cbn. split_and!; [apply lookup_insert_eq| |]; [apply own_insert|apply ownk_insert]; set_solver.
  - apply (off_trans _ _ (rb_nodes w1)); [done|]. apply off_insert. apply Hsub.
    rewrite plug_perm. cbn. set_solver.
Qed.
End attach.

Section correct.
Context (cmp : nat → nat → Z) `{!KeyOrder cmp}.

Lemma hole_sorted k comp e :
  hole_of cmp e k comp → sorted cmp (before k ++ after k) → sorted cmp (before k ++ e :: after k).
Proof.
  intros (Hb & Ha & _) Hs. apply sorted_app.
  apply StronglySorted_app in Hs as (Hba & ? & ?). by split_and!.
Qed.

Lemma hole_free k comp e x : hole_of cmp e k comp → x ∈ inorder (plug k Leaf) → cmp e x ≠ 0.
Proof.
  intros (Hb & Ha & _) Hx. rewrite inorder_plug in Hx. apply elem_of_app in Hx as [Hx|Hx].
  - rewrite Forall_forall in Hb. apply Hb, (cmp_gt cmp) in Hx. lia.
  - rewrite Forall_forall in Ha. apply Ha in Hx. lia.
Qed.

(** C9. Insertion into a red-black tree of n elements, with loops of at most
    2 log2 (n+1) + 1 turns, of an element that is not in it: if there is an
    element with the same key, it is returned and nothing changes; otherwise the element is linked in at its
    place in the order, the colors are those of a red-black tree again, and no
    other element of memory is written. *)
Theorem RB_INSERT_correct fuel elm t w :
  rep t w → redblack t → sorted cmp (inorder t) →
  is_Some (rb_nodes w !! elm) → elm ∉ inorder t →
  (2 * Nat.log2 (S (length (inorder t))) < fuel)%nat →
  (∃ x, x ∈ inorder t ∧ cmp elm x = 0 ∧ RB_INSERT cmp fuel elm w = Ok (Some x, w)) ∨
  (∃ t' w' l1 l2, RB_INSERT cmp fuel elm w = Ok (None, w') ∧ (∀ x, x ∈ inorder t → cmp elm x ≠ 0) ∧
    rep t' w' ∧ redblack t' ∧ sorted cmp (inorder t') ∧
    inorder t = l1 ++ l2 ∧ inorder t' = l1 ++ elm :: l2 ∧
    off (elm :: inorder t) (rb_nodes w) (rb_nodes w')).
Proof.
  intros Hrep Hrb Hs Helm Hnot Hfuel. pose proof (redblack_height t Hrb) as Hh.
  pose proof (rep_holds t w (elm :: inorder t) Hrep ltac:(set_solver)) as Hw.
  destruct (descend_ok cmp (elm :: inorder t) (rb_nodes w) elm fuel t [] 0 w Hw Hs ltac:(lia))
    as ([x|[p comp]] & E & Hr); [by repeat constructor|..]; cbn [plug above] in *.
  - left. destruct Hr as (y & -> & Hy & Hc). exists y. split_and!; [done..|].
    unfold RB_INSERT, RB_ROOT. rewrite (st_bind_ok _ _ _ _ _ (gets_ok _ w)).
    rewrite (ho_zipper _ _ _ _ _ Hw : rbh_root w = root t). by rewrite (st_bind_ok _ _ _ _ _ E).
  - right. destruct Hr as (k & <- & -> & Hk). apply holds_plug in Hw.
    assert (Helmk : elm ∉ around k).
    { intros Hx. apply Hnot. rewrite plug_perm. cbn. done. }
    destruct (attach_ok _ _ k comp elm w Hw Helm Helmk ltac:(set_solver) (proj2 (proj2 Hk)))
      as (w1 & E1 & H1).
    destruct (plug_rbt k Leaf Hrb) as (c & [|m] & Hl & Hrk); [|done].
    pose proof (height_plug k Leaf) as Hlen. cbn in Hlen.
    destruct (insert_color_ok _ _ fuel k c 0 Leaf elm Leaf w1 H1) as (t' & w2 & E2 & H2 & Hrb2 & Eo);
      [done..|lia|].
    rewrite inorder_plug in Hs, Eo. cbn in Hs, Eo.
    exists t', w2, (before k), (after k). split_and!; [| |by apply holds_rep in H2|done| | |done|].
    + unfold RB_INSERT, RB_ROOT. rewrite (st_bind_ok _ _ _ _ _ (gets_ok _ w)).
      apply holds_plug in Hw.
      rewrite (ho_zipper _ _ _ _ _ Hw : rbh_root w = root (plug k Leaf)).
      rewrite (st_bind_ok _ _ _ _ _ E). apply st_bind_inv in E1 as ([] & w1' & E1 & E1').
      rewrite (st_bind_ok _ _ _ _ _ E1), (st_bind_ok _ _ _ _ _ E1').
      by rewrite (st_bind_ok _ _ _ _ _ E2).
    + intros x. by apply (hole_free k comp).
    + rewrite Eo. by apply (hole_sorted k comp).
    + by rewrite inorder_plug.
    + exact (ho_off _ _ _ _ _ H2).
Qed.
End correct.

Lemma RB_INSERT_correct_witness :
  ∃ t' w', RB_INSERT demo_cmp 8 25 rb_demo = Ok (None, w') ∧ rep t' w' ∧ redblack t' ∧
    sorted demo_cmp (inorder t') ∧ 25%nat ∈ inorder t'.
Proof.
  destruct (RB_INSERT_correct demo_cmp 8 25 demo_tree rb_demo rb_demo_rep demo_redblack demo_sorted)
    as [(x & _ & _ & E)|(t' & w' & l1 & l2 & E & _ & Hrep & Hrb & Hs & _ & Ei & _)].
  - by eexists.
  - set_solver.
  - cbn. lia.
  - exfalso. vm_compute in E. discriminate E.
  - exists t', w'. split_and!; [done..|]. rewrite Ei. set_solver.
Defined.
