(* ===== verification/RbRemove.v ===== *)
(** * Removing from a red-black tree (RB_REMOVE and RB_REMOVE_COLOR of uv/tree.h) *)

From S2P Require Import Prelude RbTree RbShape TreeDemo.

(** [(p == NULL || black p) && (q == NULL || black q)] for the children of [tmp] *)
Definition both_black (tmp : option nat) : RB bool :=
  l ← RB_LEFT tmp;
  bl ← is_black l;
  if bl : bool then r ← RB_RIGHT tmp; is_black r else mret false.

(** [if (p) RB_COLOR(p) = RB_BLACK] *)
Definition blacken (p : option nat) : RB unit :=
  if is_null p then mret tt else set_RB_COLOR p RB_BLACK.

(** A turn of the loop of [RB_REMOVE_COLOR], over [parent] and [elm]; it ends
    with the last [elm]. *)
Definition remove_color_body (s : option nat * option nat) :
    RB (option nat * option nat + option nat) :=
  let '(parent, elm) := s in
  black ← is_black elm;
  rt ← RB_ROOT;
  if negb (black && bool_decide (elm ≠ rt)) then mret (inr elm) else
  pl ← RB_LEFT parent;
  if bool_decide (pl = elm) then
    tmp ← RB_RIGHT parent;
    c ← RB_COLOR tmp;
    tmp ← (if bool_decide (c = RB_RED) then
             RB_SET_BLACKRED tmp parent;;
             RB_ROTATE_LEFT parent;;
             RB_RIGHT parent
           else mret tmp);
    both ← both_black tmp;
    if both : bool then
      set_RB_COLOR tmp RB_RED;;
      p ← RB_PARENT parent;
      mret (inl (p, parent))
    else
      r ← RB_RIGHT tmp;
      black_right ← is_black r;
      tmp ← (if black_right : bool then
               oleft ← RB_LEFT tmp;
               blacken oleft;;
               set_RB_COLOR tmp RB_RED;;
               RB_ROTATE_RIGHT tmp;;
               RB_RIGHT parent
             else mret tmp);
      c ← RB_COLOR parent;
      set_RB_COLOR tmp c;;
      set_RB_COLOR parent RB_BLACK;;
      r ← RB_RIGHT tmp;
      blacken r;;
      RB_ROTATE_LEFT parent;;
      rt ← RB_ROOT;
      mret (inr rt)
  else
    tmp ← RB_LEFT parent;
    c ← RB_COLOR tmp;
    tmp ← (if bool_decide (c = RB_RED) then
             RB_SET_BLACKRED tmp parent;;
             RB_ROTATE_RIGHT parent;;
             RB_LEFT parent
           else mret tmp);
    both ← both_black tmp;
    if both : bool then
      set_RB_COLOR tmp RB_RED;;
      p ← RB_PARENT parent;
      mret (inl (p, parent))
    else
      l ← RB_LEFT tmp;
      black_left ← is_black l;
      tmp ← (if black_left : bool then
               oright ← RB_RIGHT tmp;
               blacken oright;;
               set_RB_COLOR tmp RB_RED;;
               RB_ROTATE_LEFT tmp;;
               RB_LEFT parent
             else mret tmp);
      c ← RB_COLOR parent;
      set_RB_COLOR tmp c;;
      set_RB_COLOR parent RB_BLACK;;
      l ← RB_LEFT tmp;
      blacken l;;
      RB_ROTATE_RIGHT parent;;
      rt ← RB_ROOT;
      mret (inr rt).

Definition RB_REMOVE_COLOR (fuel : nat) (parent elm : option nat) : RB unit :=
  elm ← loop fuel remove_color_body (parent, elm);
  blacken elm.

(** The leftmost element below [elm]: [while ((left = RB_LEFT(elm)) != NULL) elm = left]. *)
Definition leftmost_body (elm : option nat) : RB (option nat + option nat) :=
  left ← RB_LEFT elm;
  mret (if is_null left then inr elm else inl left).

(** The loop that tells the hook about every element up to the root. *)
Definition augment_body (left : option nat) : RB (option nat + unit) :=
  RB_AUGMENT left;;
  left ← RB_PARENT left;
  mret (if is_null left then inr tt else inl left).

(** The part of [RB_REMOVE] at the label [color]. *)
Definition remove_color (fuel : nat) (c : color) (parent child old : option nat) :
    RB (option nat) :=
  (if bool_decide (c = RB_BLACK) then RB_REMOVE_COLOR fuel parent child else mret tt);;
  mret old.

(** [(elm)->field = (old)->field], and the links to [old] are made to point to
    [elm]. *)
Definition take_over (old elm : option nat) : RB unit :=
  fields ← rb_get old;
  rb_put elm fields;;
  op ← RB_PARENT old;
  (if is_null op then set_RB_ROOT elm else
   op ← RB_PARENT old;
   replace_child op old elm;; RB_AUGMENT op);;
  ol ← RB_LEFT old;
  set_RB_PARENT ol elm;;
  or ← RB_RIGHT old;
  (if is_null or then mret tt else
   or ← RB_RIGHT old; set_RB_PARENT or elm).

Definition RB_REMOVE (fuel : nat) (elm : option nat) : RB (option nat) :=
  let old := elm in
  l ← RB_LEFT elm;
  r ← RB_RIGHT elm;
  if is_null l then
    child ← RB_RIGHT elm;
    parent ← RB_PARENT elm;
    c ← RB_COLOR elm;
    unlink elm child parent;;
    remove_color fuel c parent child old
  else if is_null r then
    child ← RB_LEFT elm;
    parent ← RB_PARENT elm;
    c ← RB_COLOR elm;
    unlink elm child parent;;
    remove_color fuel c parent child old
  else
    elm ← RB_RIGHT elm;
    elm ← loop fuel leftmost_body elm;
    child ← RB_RIGHT elm;
    parent ← RB_PARENT elm;
    c ← RB_COLOR elm;
    unlink elm child parent;;
    ep ← RB_PARENT elm;
    let parent := if bool_decide (ep = old) then elm else parent in
    take_over old elm;;
    (if is_null parent then mret tt else loop fuel augment_body parent);;
    remove_color fuel c parent child old.

(** ** Repairing the colors *)

(** The mirrored halves of the loop, from the black sibling [tmp] on, and from
    the start. *)
Definition remove_case_far (d : dir) (parent tmp : option nat) :
    RB (option nat * option nat + option nat) :=
  c ← RB_COLOR parent;
  set_RB_COLOR tmp c;;
  set_RB_COLOR parent RB_BLACK;;
  r ← rd (rbe_child (flip d)) tmp;
  blacken r;;
  rotate d parent;;
  rt ← RB_ROOT;
  mret (inr rt).

Definition remove_case_black (d : dir) (parent tmp : option nat) :
    RB (option nat * option nat + option nat) :=
  both ← both_black tmp;
  if both : bool then
    set_RB_COLOR tmp RB_RED;;
    p ← RB_PARENT parent;
    mret (inl (p, parent))
  else
    r ← rd (rbe_child (flip d)) tmp;
    black_far ← is_black r;
    tmp ← (if black_far : bool then
             near ← rd (rbe_child d) tmp;
             blacken near;;
             set_RB_COLOR tmp RB_RED;;
             rotate (flip d) tmp;;
             rd (rbe_child (flip d)) parent
           else mret tmp);
    remove_case_far d parent tmp.

Definition remove_case (d : dir) (parent : option nat) :
    RB (option nat * option nat + option nat) :=
  tmp ← rd (rbe_child (flip d)) parent;
  c ← RB_COLOR tmp;
  tmp ← (if bool_decide (c = RB_RED) then
           RB_SET_BLACKRED tmp parent;;
           rotate d parent;;
           rd (rbe_child (flip d)) parent
         else mret tmp);
  remove_case_black d parent tmp.

Section color.
Context (S : list nat) (h0 : nodes).
#[local] Abbreviation holds := (RbShape.holds S h0).

(** A tree that has the black height [n], or would have [n+1] with a black
    root, where [n+1] is wanted. *)
Definition short (n : nat) (t : tree) : Prop :=
  match t with
  | Node RB_RED l a r => rbt RB_BLACK n l ∧ rbt RB_BLACK n r
  | t => rbt RB_BLACK n t
  end.

Definition blackened (t : tree) : tree :=
  match t with Leaf => Leaf | Node _ l a r => Node RB_BLACK l a r end.

Lemma short_blackened n t : short n t → shade t = RB_RED → ∀ c, rbt c (1 + n) (blackened t).
Proof. by destruct t as [|[]]. Qed.

Lemma inorder_blackened t : inorder (blackened t) = inorder t.
Proof. by destruct t. Qed.
Lemma root_blackened t : root (blackened t) = root t.
Proof. by destruct t. Qed.

Lemma blacken_ok k t w :
  holds k t w → ∃ w', blacken (root t) w = Ok (tt, w') ∧ holds k (blackened t) w'.
Proof.
  destruct t as [|c l a r]; [by exists w|]. intros Hw.
  destruct (paint_ok _ _ _ DL _ RB_BLACK _ _ _ _ Hw) as (w' & E & Hw').
  exists w'. split; [|done]. unfold blacken. cbn [root]. by rewrite is_null_some.
Qed.

(** What a turn ends with: a red-black tree, or the problem one level up. *)
Definition turn_result (k : zipper) (cp : color) (p n : nat) (os : list nat)
    (r : option nat * option nat + option nat) (w : rb_state) : Prop :=
  (∃ t' l s, r = inl (above k, Some p) ∧ t' = Node cp l p s ∧ holds k t' w ∧
    short (match cp with RB_RED => n | RB_BLACK => 1 + n end) t' ∧ inorder (plug k t') = os) ∨
  (∃ t', r = inr (root t') ∧ holds [] t' w ∧ redblack t' ∧ inorder t' = os).

(** The frame of a node of color [cp] whose hole wants height [n+1]. *)
Definition wants (cp : color) (n : nat) (k : zipper) : Prop :=
  match cp with
  | RB_RED => rbk RB_BLACK (1 + n) k
  | RB_BLACK => ∃ c, rbk c (2 + n) k
  end.

(** The far nephew is red: one rotation, and all is well. *)
Lemma remove_far_ok k d cp p n t x sm fl f fr w :
  holds (Frame d cp p (mk d RB_BLACK sm x (Node RB_RED fl f fr)) :: k) t w →
  rbt RB_BLACK n t → rbt RB_BLACK n sm → rbt RB_RED n fl → rbt RB_RED n fr →
  wants cp n k →
  ∃ r w', remove_case_far d (Some p) (Some x) w = Ok (r, w') ∧
    turn_result k cp p n
      (inorder (plug k (mk d cp t p (mk d RB_BLACK sm x (Node RB_RED fl f fr))))) r w'.
Proof.
  intros Hw Ht Hm Hfl Hfr Hk. set (far := Node RB_RED fl f fr) in *.
  pose proof (above_get _ _ _ _ _ _ _ _ _ Hw) as Ep.
  apply holds_up in Hw. rewrite mk_flip in Hw. apply holds_down in Hw.
  destruct (paint_ok _ _ _ _ _ cp _ _ _ _ Hw) as (w1 & E1 & H1).
  destruct (paint_above _ _ _ _ _ RB_BLACK _ _ _ _ H1) as (w2 & E2 & H2).
  pose proof (focus_get _ _ _ _ _ _ _ _ _ H2) as Ex.
  rewrite mk_flip in H2. apply holds_down in H2.
  destruct (blacken_ok _ _ _ H2) as (w3 & E3 & H3).
  apply holds_up in H3. rewrite <-mk_flip in H3. apply holds_up in H3. rewrite <-mk_flip in H3.
  destruct (rotate_ok _ _ _ _ _ _ _ _ _ _ _ _ H3) as (w4 & E4 & H4).
  exists (inr (rbh_root w4)), w4. split.
  - unfold remove_case_far, RB_COLOR, RB_ROOT.
    rewrite (st_bind_ok _ _ _ _ _ (rd_ok _ p _ w Ep)), links_color.
    rewrite (st_bind_ok _ _ _ _ _ E1), (st_bind_ok _ _ _ _ _ E2).
    rewrite (st_bind_ok _ _ _ _ _ (rd_ok _ x _ w2 Ex)), links_other.
    by rewrite (st_bind_ok _ _ _ _ _ E3), (st_bind_ok _ _ _ _ _ E4).
  - right. exists (plug k (mk d cp (mk d RB_BLACK t p sm) x (blackened far))).
    apply holds_plug in H4. split_and!; [by rewrite (ho_zipper _ _ _ _ _ H4)|done| |].
    + assert (∀ c, rbt c (1 + n) (mk d RB_BLACK t p sm)) by (intros; rewrite rbt_mk; eauto).
      assert (∀ c, rbt c (1 + n) (blackened far)) by (intros c; by split; apply rbt_black).
      destruct cp; [destruct Hk as [c Hk]|]; eapply rbt_plug; try exact Hk; rewrite rbt_mk; eauto.
    + apply plug_inorder. destruct d; by app_norm.
Qed.

Lemma both_black_ok k d c t a s w :
  holds k (mk d c t a s) w →
  both_black (Some a) w =
    Ok (bool_decide (shade t = RB_BLACK) && bool_decide (shade s = RB_BLACK), w).
Proof.
  intros Hw. rewrite mk_node in Hw. pose proof (focus_get _ _ _ DL _ _ _ _ _ Hw) as Ea.
  destruct (focus_own _ _ _ DL _ _ _ _ _ Hw) as [Ol Or]. unfold both_black, RB_LEFT, RB_RIGHT.
  rewrite (st_bind_ok _ _ _ _ _ (rd_ok _ a _ w Ea)).
  rewrite (st_bind_ok _ _ _ _ _ (is_black_ok _ _ w Ol)).
  transitivity (@Ok (bool * rb_state) (bool_decide (shade (side d t s) = RB_BLACK) &&
    bool_decide (shade (side (flip d) t s) = RB_BLACK), w)).
  - destruct (bool_decide (shade (side d t s) = RB_BLACK)); [|done].
    rewrite (st_bind_ok _ _ _ _ _ (rd_ok _ a _ w Ea)). exact (is_black_ok _ _ w Or).
  - destruct d; [done|]. by rewrite andb_comm.
Qed.

(** Only the near nephew is red: it is brought up to be the sibling. *)
Definition near_up (d : dir) (parent tmp : option nat) : RB (option nat) :=
  near ← rd (rbe_child d) tmp;
  blacken near;;
  set_RB_COLOR tmp RB_RED;;
  rotate (flip d) tmp;;
  rd (rbe_child (flip d)) parent.

Lemma near_up_ok k d cp p t x nl y nr so w :
  holds (Frame d cp p (mk d RB_BLACK (Node RB_RED nl y nr) x so) :: k) t w →
  ∃ w', near_up d (Some p) (Some x) w = Ok (Some y, w') ∧
    holds (Frame d cp p (mk d RB_BLACK (side d nl nr) y
      (mk d RB_RED (side (flip d) nl nr) x so)) :: k) t w'.
Proof.
  intros Hw. apply holds_up in Hw. rewrite mk_flip in Hw. apply holds_down in Hw.
  pose proof (focus_get _ _ _ _ _ _ _ _ _ Hw) as Ex. apply holds_down in Hw.
  destruct (blacken_ok _ _ _ Hw) as (w1 & E1 & H1).
  destruct (paint_above _ _ _ _ _ RB_RED _ _ _ _ H1) as (w2 & E2 & H2).
  apply holds_up in H2. cbn [blackened] in H2.
  rewrite (mk_side (flip d) RB_BLACK nl y nr), mk_flip in H2.
  destruct (rotate_ok _ _ _ _ _ _ _ _ _ _ _ _ H2) as (w3 & E3 & H3).
  apply holds_up in H3. rewrite <-mk_flip in H3.
  pose proof (focus_get _ _ _ _ _ _ _ _ _ H3) as Ep.
  exists w3. split.
  - unfold near_up. rewrite (st_bind_ok _ _ _ _ _ (rd_ok _ x _ w Ex)), links_child.
    rewrite (st_bind_ok _ _ _ _ _ E1), (st_bind_ok _ _ _ _ _ E2), (st_bind_ok _ _ _ _ _ E3).
    rewrite (rd_ok _ p _ w3 Ep), links_other. by rewrite root_mk.
  - apply holds_down. destruct d; exact H3.
Qed.

(** A black sibling. *)
(** Both nephews black: the sibling turns red and the problem moves up. *)
Lemma remove_both_black k d cp p n t x sm so w :
  holds (Frame d cp p (mk d RB_BLACK sm x so) :: k) t w →
  rbt RB_BLACK n t → rbt RB_RED n sm → rbt RB_RED n so →
  (cp = RB_RED → shade t = RB_BLACK) → wants cp n k →
  ∃ r w', (set_RB_COLOR (Some x) RB_RED;; q ← RB_PARENT (Some p); mret (inl (q, Some p))) w = Ok (r, w') ∧
    turn_result k cp p n (inorder (plug k (mk d cp t p (mk d RB_BLACK sm x so)))) r w'.
Proof.
  intros Hw Ht Hm Ho Hsh Hk.
  pose proof Hw as Hx. apply holds_up in Hx. rewrite mk_flip in Hx. apply holds_down in Hx.
  destruct (paint_ok _ _ _ _ _ RB_RED _ _ _ _ Hx) as (w1 & E1 & H1).
  apply holds_up in H1. rewrite <-mk_flip in H1.
  pose proof (focus_get _ _ _ _ _ _ _ _ _ H1) as Ep1.
  eexists _, w1. rewrite (st_bind_ok _ _ _ _ _ E1). unfold RB_PARENT.
  rewrite (st_bind_ok _ _ _ _ _ (rd_ok _ p _ w1 Ep1)), links_parent. split; [done|].
  left. rewrite mk_node in H1. eexists _, _, _. split_and!; [done|done|done| |].
  - assert (Hs' : rbt RB_BLACK n (mk d RB_RED sm x so)) by (by rewrite rbt_mk).
    destruct cp, d; by cbn.
  - apply plug_inorder. destruct d; by app_norm.
Qed.

Lemma remove_black_ok k d cp p n t x sm so w :
  holds (Frame d cp p (mk d RB_BLACK sm x so) :: k) t w →
  rbt RB_BLACK n t → rbt RB_BLACK n sm → rbt RB_BLACK n so →
  (cp = RB_RED → shade t = RB_BLACK) → wants cp n k →
  ∃ r w', remove_case_black d (Some p) (Some x) w = Ok (r, w') ∧
    turn_result k cp p n (inorder (plug k (mk d cp t p (mk d RB_BLACK sm x so)))) r w'.
Proof.
  intros Hw Ht Hm Ho Hsh Hk. pose proof (above_get _ _ _ _ _ _ _ _ _ Hw) as Ep.
  pose proof Hw as Hx. apply holds_up in Hx. rewrite mk_flip in Hx. apply holds_down in Hx.
  pose proof (both_black_ok _ _ _ _ _ _ _ Hx) as Eb. unfold remove_case_black.
  pose proof (rd_ok (rbe_child (flip d)) x _ w (focus_get _ _ _ _ _ _ _ _ _ Hx)) as Ex.
  rewrite links_other in Ex.
  pose proof (is_black_ok _ _ _ (proj2 (focus_own _ _ _ _ _ _ _ _ _ Hx))) as Efar.
  rewrite (st_bind_ok _ _ _ _ _ Eb).
  destruct (shade sm) eqn:Esm, (shade so) eqn:Eso; cbn [andb bool_decide decide_rel];
    rewrite ?bool_decide_eq_true_2, ?bool_decide_eq_false_2 by done; cbn [andb].
  - (* both nephews black *)
    by apply remove_both_black; try done; apply rbt_shade.
  - (* the far one is red *)
    destruct so as [|[] fl f fr]; [done..|]. destruct Ho as (_ & Hfl & Hfr).
    rewrite (st_bind_ok _ _ _ _ _ Ex), (st_bind_ok _ _ _ _ _ Efar), bool_decide_eq_false_2 by done.
    rewrite (st_bind_ok _ _ _ _ _ (ret_ok _ w)). by apply remove_far_ok.
  - (* only the near one is red *)
    destruct sm as [|[] nl y nr]; [done..|]. destruct Hm as (_ & Hnl & Hnr).
    rewrite (st_bind_ok _ _ _ _ _ Ex), (st_bind_ok _ _ _ _ _ Efar), bool_decide_eq_true_2 by done.
    destruct (near_up_ok _ _ _ _ _ _ _ _ _ _ _ Hw) as (w1 & E1 & H1).
    rewrite (st_bind_ok _ _ _ _ _ E1). rewrite (mk_node d RB_RED) in H1.
    destruct (remove_far_ok _ _ _ _ n _ _ _ _ _ _ _ H1) as (r & w2 & E2 & H2); try done.
    + destruct d; by apply rbt_black.
    + destruct d; cbn; [done|by apply rbt_shade].
    + destruct d; cbn; [by apply rbt_shade|done].
    + exists r, w2. split; [done|].
      replace (inorder (plug k _)) with (inorder (plug k (mk d cp t p (mk d RB_BLACK (side d nl nr) y
        (Node RB_RED (side d (side (flip d) nl nr) so) x
          (side (flip d) (side (flip d) nl nr) so)))))); [done|].
      apply plug_inorder. destruct d; by app_norm.
  - destruct so as [|[] fl f fr]; [done..|]. destruct Ho as (_ & Hfl & Hfr).
    rewrite (st_bind_ok _ _ _ _ _ Ex), (st_bind_ok _ _ _ _ _ Efar), bool_decide_eq_false_2 by done.
    rewrite (st_bind_ok _ _ _ _ _ (ret_ok _ w)). by apply remove_far_ok.
Qed.

(** The invariant of the loop: the tree in focus is short by one. *)
Definition removing (os : list nat) (k : zipper) (t : tree) (w : rb_state) : Prop :=
  ∃ c n, holds k t w ∧ short n t ∧ rbk c (1 + n) k ∧ inorder (plug k t) = os.

Definition turns (k : zipper) (t : tree) : nat :=
  match shade t with RB_RED => 1 | RB_BLACK => 1 + length k end.

Definition turn_ok (os : list nat) (m : nat) (r : option nat * option nat + option nat)
    (w : rb_state) : Prop :=
  (∃ k t, r = inl (above k, root t) ∧ removing os k t w ∧ (turns k t < m)%nat) ∨
  (∃ t, r = inr (root t) ∧ holds [] t w ∧ redblack t ∧ inorder t = os).

Lemma turn_result_ok k cp p n os r w m :
  turn_result k cp p n os r w → wants cp n k →
  (match cp with RB_RED => 1 < m | RB_BLACK => 1 + length k < m end)%nat →
  turn_ok os m r w.
Proof.
  intros [(t' & l & s & -> & -> & Hw & Hs & Ho)|Hr] Hk Hm; [left|by right].
  exists k, (Node cp l p s). split_and!; [done| |].
  - destruct cp; [destruct Hk as [c Hk]|]; eexists _, _; by split_and!.
  - destruct cp; cbn; lia.
Qed.

(** A red sibling is rotated up, and its near child is a black one. *)
Lemma remove_red_sibling k d cp p t sm x so w :
  holds (Frame d cp p (mk d RB_RED sm x so) :: k) t w →
  ∃ w1 w2, RB_SET_BLACKRED (Some x) (Some p) w = Ok (tt, w1) ∧
    rotate d (Some p) w1 = Ok (Some x, w2) ∧
    holds (Frame d RB_RED p sm :: Frame d RB_BLACK x so :: k) t w2.
Proof.
  intros Hw. apply holds_up in Hw. rewrite mk_flip in Hw. apply holds_down, holds_down in Hw.
  destruct (blackred_above _ _ _ _ _ _ _ _ _ _ _ _ _ Hw) as (w1 & E1 & H1).
  apply holds_up, holds_up in H1. rewrite <-mk_flip in H1.
  destruct (rotate_ok _ _ _ _ _ _ _ _ _ _ _ _ H1) as (w2 & E2 & H2).
  exists w1, w2. split_and!; [done..|]. by apply holds_down, holds_down in H2.
Qed.

Lemma remove_case_ok k d cp p s n t w :
  holds (Frame d cp p s :: k) t w → rbt RB_BLACK n t → shade t = RB_BLACK →
  rbt cp (1 + n) s → wants cp n k →
  ∃ r w', remove_case d (Some p) w = Ok (r, w') ∧
    turn_ok (inorder (plug k (mk d cp t p s))) (2 + length k) r w'.
Proof.
  intros Hw Ht Hsh Hs Hk. destruct s as [|sc sl x sr]; [done|].
  rewrite (mk_side d sc sl x sr) in Hw |- *. rewrite (mk_side d) in Hs.
  apply rbt_mk in Hs. set (sm := side d sl sr) in *. set (so := side (flip d) sl sr) in *.
  pose proof (above_get _ _ _ _ _ _ _ _ _ Hw) as Ep. rewrite root_mk in Ep.
  pose proof Hw as Hx. apply holds_up in Hx. rewrite mk_flip in Hx.
  apply holds_down, focus_get in Hx. unfold remove_case, RB_COLOR.
  rewrite (st_bind_ok _ _ _ _ _ (rd_ok _ p _ w Ep)), links_other.
  rewrite (st_bind_ok _ _ _ _ _ (rd_ok _ x _ w Hx)), links_color. destruct sc.
  - destruct Hs as (m & [= <-] & Hm & Ho). rewrite bool_decide_eq_false_2 by done.
    rewrite (st_bind_ok _ _ _ _ _ (ret_ok _ w)).
    destruct (remove_black_ok k d cp p n t x sm so w) as (r & w' & E & Hr); [done..|].
    exists r, w'. split; [done|]. apply (turn_result_ok _ _ _ _ _ _ _ _ Hr Hk).
    destruct cp; cbn; lia.
  - destruct Hs as (-> & Hm & Ho). rewrite bool_decide_eq_true_2 by done.
    destruct (remove_red_sibling _ _ _ _ _ _ _ _ _ Hw) as (w1 & w2 & E1 & E2 & H2).
    pose proof (above_get _ _ _ _ _ _ _ _ _ H2) as Ep2.
    destruct sm as [|[] nl y nr] eqn:Esm; [done| |by destruct Hm]. destruct Hm as [Hnl Hnr].
    assert (Hk' : wants RB_RED n (Frame d RB_BLACK x so :: k)).
    { destruct Hk as [[] Hk]; (split_and!; [done|by apply rbt_black|auto]). }
    rewrite (mk_side d RB_BLACK nl y nr) in H2.
    destruct (remove_black_ok (Frame d RB_BLACK x so :: k) d RB_RED p n t y _ _ w2 H2)
      as (r & w' & E & Hr); [done|by destruct d|by destruct d|done|done|].
    exists r, w'. split.
    + rewrite (st_bind_ok _ _ _ (Some y) w2); [done|].
      rewrite (st_bind_ok _ _ _ _ _ E1), (st_bind_ok _ _ _ _ _ E2).
      by rewrite (rd_ok _ p _ w2 Ep2), links_other.
    + replace (inorder _) with (inorder (plug (Frame d RB_BLACK x so :: k)
        (mk d RB_RED t p (mk d RB_BLACK (side d nl nr) y (side (flip d) nl nr))))).
      * apply (turn_result_ok _ _ _ _ _ _ _ _ Hr Hk'). cbn. lia.
      * cbn [plug]. apply plug_inorder. rewrite <-mk_side. destruct d; by app_norm.
Qed.

Lemma root_elsewhere k t w : holds k t w → k ≠ [] → root t ≠ rbh_root w.
Proof.
  intros Hw Hk E. destruct (root_plug k t Hk) as (z & Ez & Hz).
  assert (Er : rbh_root w = Some z).
  { apply holds_plug in Hw. by rewrite <-Ez, (ho_zipper _ _ _ _ _ Hw). }
  rewrite Er in E. apply root_in in E.
  pose proof (ho_nodup _ _ _ _ _ Hw) as Hnd. rewrite plug_perm, NoDup_app in Hnd.
  by apply (proj1 (proj2 Hnd) z).
Qed.

Lemma remove_turn os k t w :
  removing os k t w → shade t = RB_BLACK → k ≠ [] →
  ∃ r w', remove_color_body (above k, root t) w = Ok (r, w') ∧ turn_ok os (turns k t) r w'.
Proof.
  intros (c & n & Hw & Hs & Hk & <-) Hsh Hne.
  pose proof (root_elsewhere k t w Hw Hne) as Hroot.
  destruct k as [|[d cp p s] k]; [done|]. cbn [above f_addr].
  assert (E : remove_color_body (Some p, root t) w = remove_case d (Some p) w).
  { pose proof (above_get _ _ _ _ _ _ _ _ _ Hw) as Ep. unfold remove_color_body, RB_ROOT, RB_LEFT.
    rewrite (st_bind_ok _ _ _ _ _ (is_black_ok _ _ w (ho_tree _ _ _ _ _ Hw))).
    rewrite (st_bind_ok _ _ _ _ _ (gets_ok _ w)), Hsh.
    rewrite !bool_decide_eq_true_2 by done. cbn [andb negb].
    rewrite (st_bind_ok _ _ _ _ _ (rd_ok _ p _ w Ep)). destruct d; cbn [links rbe_left].
    - by rewrite bool_decide_eq_true_2.
    - rewrite bool_decide_eq_false_2; [done|]. intros Es. destruct t as [|ct l e r].
      + destruct s; [|done]. by destruct cp, Hk as (? & ? & ?).
      + by apply (other_child _ _ _ _ _ _ _ _ e _ (holds_up _ _ _ _ _ _ _ _ _ Hw)). }
  assert (Hb : rbt RB_BLACK n t) by (by destruct t as [|[]]).
  assert (rbt cp (1 + n) s ∧ wants cp n k) as [Hs' Hk'].
  { destruct cp; cbn in Hk |- *; destruct Hk as (-> & ? & Hk); (split; [done|]); [|done].
    destruct Hk; eauto. }
  destruct (remove_case_ok k d cp p s n t w Hw Hb Hsh Hs' Hk') as (r & w' & E' & Hr).
  exists r, w'. rewrite E. split; [done|]. unfold turns. by rewrite Hsh.
Qed.

Lemma remove_stop k t w :
  holds k t w → shade t = RB_RED ∨ k = [] →
  remove_color_body (above k, root t) w = Ok (inr (root t), w).
Proof.
  intros Hw Hor. unfold remove_color_body, RB_ROOT.
  rewrite (st_bind_ok _ _ _ _ _ (is_black_ok _ _ w (ho_tree _ _ _ _ _ Hw))).
  rewrite (st_bind_ok _ _ _ _ _ (gets_ok _ w)). destruct Hor as [->| ->].
  - by rewrite bool_decide_eq_false_2.
  - pose proof (ho_zipper _ _ _ _ _ Hw) as Hr. cbn in Hr. rewrite Hr.
    rewrite (bool_decide_eq_false_2 (root t ≠ root t)) by tauto. by rewrite andb_false_r.
Qed.

(** The loop ends with an element that, painted black, mends the tree. *)
Lemma remove_loop os fuel : ∀ k t w,
  removing os k t w → (turns k t < fuel)%nat →
  ∃ k' t' w', loop fuel remove_color_body (above k, root t) w = Ok (root t', w') ∧
    holds k' t' w' ∧ redblack (plug k' (blackened t')) ∧ inorder (plug k' t') = os.
Proof.
  induction fuel as [|fuel IH]; intros k t w Hinv Hf; [lia|].
  destruct (decide (shade t = RB_RED ∨ k = [])) as [Hstop|Hgo].
  - destruct Hinv as (c & n & Hw & Hs & Hk & Ho). exists k, t, w.
    rewrite (loop_last _ _ _ _ _ _ (remove_stop _ _ _ Hw Hstop)). split_and!; [done..| |done].
    destruct Hstop as [Hr| ->].
    + apply (rbt_plug c (1 + n)); [|done]. by apply short_blackened.
    + destruct t as [|[] l a r]; [by exists 0%nat|exists n|exists (1 + n)%nat]; [done|].
      destruct Hs. by split.
  - assert (shade t = RB_BLACK ∧ k ≠ []) as [Hsh Hne].
    { destruct (shade t); naive_solver. }
    destruct (remove_turn os k t w Hinv Hsh Hne) as (r & w1 & E1 & Hr).
    destruct Hr as [(k1 & t1 & -> & H1 & Ht)|(t1 & -> & H1 & Hrb & Ho)].
    + rewrite (loop_next _ _ _ _ _ _ E1). apply IH; [done|lia].
    + rewrite (loop_last _ _ _ _ _ _ E1). exists [], t1, w1. split_and!; [done..| |done].
      destruct Hrb as [n Hrb]. exists n. destruct t1 as [|[] l a r]; [done..|].
      by destruct n, Hrb.
Qed.

(** [RB_REMOVE_COLOR] makes a red-black tree with the same elements in the same
    order. *)
Lemma remove_color_ok os fuel k t w :
  removing os k t w → (1 + length k < fuel)%nat →
  ∃ t' w', RB_REMOVE_COLOR fuel (above k) (root t) w = Ok (tt, w') ∧ holds [] t' w' ∧
    redblack t' ∧ inorder t' = os.
Proof.
  intros Hinv Hf.
  destruct (remove_loop os fuel k t w Hinv) as (k1 & t1 & w1 & E1 & H1 & Hrb & Ho).
  { unfold turns. destruct (shade t); lia. }
  destruct (blacken_ok _ _ _ H1) as (w2 & E2 & H2).
  exists (plug k1 (blackened t1)), w2. split_and!; [|by rewrite <-holds_plug|done|].
  - unfold RB_REMOVE_COLOR. by rewrite (st_bind_ok _ _ _ _ _ E1).
  - rewrite <-Ho. apply plug_inorder, inorder_blackened.
Qed.
End color.

(** ** The parts of [RB_REMOVE] *)
Section parts.
Context (S : list nat) (h0 : nodes).
#[local] Abbreviation holds := (RbShape.holds S h0).

(** The way down to the leftmost element. *)
Lemma leftmost_ok fuel : ∀ k t w,
  holds k t w → t ≠ Leaf → (height t ≤ fuel)%nat →
  ∃ kr c b rb, t = plug kr (Node c Leaf b rb) ∧ before kr = [] ∧
    loop fuel leftmost_body (root t) w = Ok (Some b, w).
Proof.
  induction fuel as [|fuel IH]; intros k t w Hw Hne Hf; destruct t as [|c l a r]; try done.
  { cbn in Hf. lia. }
  pose proof (focus_get _ _ _ DL _ _ _ _ _ Hw) as Ea. cbn in Hf.
  assert (E : leftmost_body (Some a) w =
    Ok (if is_null (root l) then inr (Some a) else inl (root l), w)).
  { unfold leftmost_body, RB_LEFT. by rewrite (st_bind_ok _ _ _ _ _ (rd_ok _ a _ w Ea)). }
  cbn [root]. destruct l as [|cl ll x lr].
  { exists [], c, a, r. by rewrite (loop_last _ _ _ _ _ _ E). }
  apply (holds_down _ _ _ DL) in Hw. cbn [root] in E. rewrite is_null_some in E.
  destruct (IH _ _ w Hw) as (kr & c' & b & rb & Et & Hb & E'); [done|lia|].
  exists (kr ++ [Frame DL c a r]), c', b, rb. rewrite (loop_next _ _ _ _ _ _ E).
  split_and!; [|by rewrite before_app|done]. by rewrite plug_app, <-Et.
Qed.

(** The way up for the sake of the hook. *)
Lemma augment_ok fuel : ∀ k t w,
  holds k t w → k ≠ [] → (length k ≤ fuel)%nat →
  loop fuel augment_body (above k) w = Ok (tt, w).
Proof.
  induction fuel as [|fuel IH]; intros k t w Hw Hne Hf;
    (destruct k as [|[d c a s] k]; [done|cbn [length] in Hf]); [lia|].
  pose proof (above_get _ _ _ _ _ _ _ _ _ Hw) as Ea. cbn [above f_addr].
  assert (E : augment_body (Some a) w =
    Ok (if is_null (above k) then inr tt else inl (above k), w)).
  { unfold augment_body, RB_AUGMENT, RB_PARENT.
    rewrite (st_bind_ok _ _ _ _ _ (ret_ok _ w)).
    by rewrite (st_bind_ok _ _ _ _ _ (rd_ok _ a _ w Ea)), links_parent. }
  destruct k as [|[d' c' b s'] k]; [by apply loop_last|].
  rewrite (loop_next _ _ _ _ _ _ E). apply holds_up in Hw. by apply (IH _ _ w Hw); [|lia].
Qed.

(** The states [take_over] goes through: [b] has the fields of [a] ([w1]), the
    place of [a] ([w2]), and the left and the right subtree ([h3], [h4]). *)
Record taking k c l a r b (w w1 w2 : rb_state) (h3 h4 : nodes) : Prop := {
  tk_fields : w1 = set_nodes (<[b := RbNode (root l) (root r) (above k) c]> (rb_nodes w)) w;
  tk_a1 : rb_nodes w1 !! a = Some (RbNode (root l) (root r) (above k) c);
  tk_place : (if is_null (above k) then set_RB_ROOT (Some b) else
    replace_child (above k) (Some a) (Some b);; RB_AUGMENT (above k)) w1 = Ok (tt, w2);
  tk_a2 : rb_nodes w2 !! a = Some (RbNode (root l) (root r) (above k) c);
  tk_b2 : rb_nodes w2 !! b = Some (RbNode (root l) (root r) (above k) c);
  tk_k2 : ownk (rb_nodes w2) (rbh_root w2) k (Some b);
  tk_off2 : off (around k) (rb_nodes w1) (rb_nodes w2);
  tk_left : reparent (root l) (Some b) w2 = Ok (tt, set_nodes h3 w2);
  tk_a3 : h3 !! a = Some (RbNode (root l) (root r) (above k) c);
  tk_l3 : own h3 (Some b) l;
  tk_off3 : off (inorder l) (rb_nodes w2) h3;
  tk_right : reparent (root r) (Some b) (set_nodes h3 w2) = Ok (tt, set_nodes h4 w2);
  tk_r4 : own h4 (Some b) r;
  tk_off4 : off (inorder r) h3 h4
}.

Lemma taking_distinct k c l a r b w :
  holds k (Node c l a r) w → b ∉ inorder (plug k (Node c l a r)) →
  NoDup (inorder l ++ inorder r ++ around k) ∧ a ≠ b ∧
  a ∉ inorder l ++ inorder r ++ around k ∧ b ∉ inorder l ++ inorder r ++ around k.
Proof.
  intros Hw Hb. pose proof (holds_distinct _ _ _ DL _ _ _ _ _ Hw) as [Ha Hnd]%NoDup_cons.
  rewrite plug_perm, (inorder_mk DL) in Hb. cbn in Hb. rewrite <-app_assoc, not_elem_of_cons in Hb.
  destruct Hb as [Hba Hb]. by split_and!.
Qed.

Lemma take_over_states k c l a r b w :
  holds k (Node c l a r) w → b ∉ inorder (plug k (Node c l a r)) →
  ∃ w1 w2 h3 h4, taking k c l a r b w w1 w2 h3 h4.
Proof.
  intros Hw Hb. destruct (taking_distinct _ _ _ _ _ _ _ Hw Hb) as (Hnd & Hab & Ha & Hb').
  apply NoDup_app in Hnd as (Hnl & Hdl & (Hnr & Hdr & Hnk)%NoDup_app).
  rewrite !not_elem_of_app in Ha, Hb'. destruct Ha as (Hal & Har & Hak), Hb' as (Hbl & Hbr & Hbk).
  destruct Hw as [(Ea & Ol & Or) Hk _ _ _]. cbn [root] in Hk.
  set (n := RbNode (root l) (root r) (above k) c) in *.
  set (w1 := set_nodes (<[b := n]> (rb_nodes w)) w).
  assert (Ea1 : rb_nodes w1 !! a = Some n) by (cbn; by rewrite lookup_insert_ne).
  destruct (replace_ok w1 k a (Some b)) as (w2 & E2 & Hk2 & Ho2); [by apply ownk_insert|done|done|].
  assert (Hsub : ∀ t, b ∉ inorder t → inorder t ## around k → own (rb_nodes w) (Some a) t →
    own (rb_nodes w2) (Some a) t).
  { intros t Hbt Hd Ht. apply (own_agree (rb_nodes w1)); [|by apply own_insert].
    by apply (off_agree (around k)). }
  destruct (reparent_ok w2 _ (Some b) l (Hsub l Hbl ltac:(set_solver) Ol) Hnl) as (h3 & E3 & Ol3 & Ho3).
  assert (Or3 : own h3 (Some a) r).
  { apply (own_agree (rb_nodes w2)); [|apply Hsub; [done|set_solver|done]].
    apply (off_agree (inorder l)); [done|]. set_solver. }
  destruct (reparent_ok (set_nodes h3 w2) _ (Some b) r Or3 Hnr) as (h4 & E4 & Or4 & Ho4).
  exists w1, w2, h3, h4. split; try done.
  - by rewrite Ho2.
  - rewrite Ho2 by done. apply lookup_insert_eq.
  - by rewrite Ho3, Ho2.
Qed.

Lemma take_over_runs k c l a r b w w1 w2 h3 h4 :
  rb_nodes w !! a = Some (RbNode (root l) (root r) (above k) c) → l ≠ Leaf →
  taking k c l a r b w w1 w2 h3 h4 → take_over (Some a) (Some b) w = Ok (tt, set_nodes h4 w2).
Proof.
  intros Ea Hl [-> Ea1 E2 Ea2 _ _ _ E3 Ea3 _ _ E4 _ _].
  set (w1 := set_nodes (<[b := RbNode (root l) (root r) (above k) c]> (rb_nodes w)) w) in *.
  unfold take_over, RB_PARENT, RB_LEFT, RB_RIGHT.
  rewrite (st_bind_ok _ _ _ _ _ (rb_get_ok a _ w Ea)), (st_bind_ok _ _ w tt w1) by done.
  rewrite (st_bind_ok _ _ _ _ _ (rd_ok _ a _ w1 Ea1)). cbn [rbe_parent].
  rewrite (st_bind_ok _ _ _ tt w2).
  2: { rewrite <-E2. destruct k as [|f k]; [done|]. cbn [above]. rewrite is_null_some.
       by rewrite (st_bind_ok _ _ _ _ _ (rd_ok _ a _ w1 Ea1)). }
  rewrite (st_bind_ok _ _ _ _ _ (rd_ok _ a _ w2 Ea2)). cbn [rbe_left].
  rewrite (st_bind_ok _ _ _ tt (set_nodes h3 w2)).
  2: { rewrite <-E3. unfold reparent. destruct l; [done|]. cbn [root]. by rewrite is_null_some. }
  rewrite (st_bind_ok _ _ _ _ _ (rd_ok _ a _ (set_nodes h3 w2) Ea3)). cbn [rbe_right].
  etrans; [|exact E4]. unfold reparent. destruct r; [done|]. cbn [root]. rewrite is_null_some.
  by rewrite (st_bind_ok _ _ _ _ _ (rd_ok _ a _ (set_nodes h3 w2) Ea3)).
Qed.

Lemma take_over_ok k c l a r b w :
  holds k (Node c l a r) w → l ≠ Leaf → b ∈ S → b ∉ inorder (plug k (Node c l a r)) →
  ∃ w', take_over (Some a) (Some b) w = Ok (tt, w') ∧ holds k (Node c l b r) w'.
Proof.
  intros Hw Hl HbS Hb. destruct (taking_distinct _ _ _ _ _ _ _ Hw Hb) as (Hnd & Hab & Ha & Hb').
  destruct (take_over_states _ _ _ _ _ _ _ Hw Hb) as (w1 & w2 & h3 & h4 & Htk).
  exists (set_nodes h4 w2). destruct Hw as [(Ea & _ & _) _ HND Hsub Hoff].
  split; [by eapply take_over_runs|]. destruct Htk as [-> _ _ _ Eb2 Hk2 Ho2 _ _ Ol3 Ho3 _ Or4 Ho4].
  rewrite plug_perm, (inorder_mk DL) in Hsub. cbn in Hsub. rewrite <-app_assoc in Hsub.
  apply NoDup_app in Hnd as (Hnl & Hdl & (Hnr & Hdr & Hnk)%NoDup_app).
  split; cbn [rb_nodes set_nodes rbh_root].
  - cbn [own]. split_and!; [by rewrite Ho4, Ho3 by set_solver| |done].
    apply (own_agree h3); [|done]. apply (off_agree (inorder r)); [done|]. set_solver.
  - cbn [root]. apply (ownk_agree (rb_nodes w2)); [|done]. intros x Hx.
    rewrite Ho4, Ho3; set_solver.
  - rewrite plug_perm, (inorder_mk DL) in HND |- *. cbn in *. apply NoDup_cons in HND as [_ HND].
    constructor; [|done]. by rewrite <-app_assoc.
  - intros x. rewrite plug_perm, (inorder_mk DL). set_solver.
  - intros x Hx. rewrite Ho4, Ho3, Ho2 by set_solver. cbn.
    rewrite lookup_insert_ne by set_solver. by apply Hoff.
Qed.
End parts.


Lemma short_rbt n t : rbt RB_BLACK n t → short n t.
Proof.
  destruct t as [|[] l a r]; [done|done|]. intros Ht.
  assert (rbt RB_RED n l ∧ rbt RB_RED n r) as [??] by (by destruct n, Ht as (_ & ?)).
  split; by apply rbt_black.
Qed.

(** The colors, once the node [a] of color [c] has made way for [u]. *)
Lemma remove_color_step S h0 fuel k d c a u c' n old w :
  holds S h0 k u w → rbt c' n (mk d c Leaf a u) → rbk c' n k → (1 + length k < fuel)%nat →
  ∃ t' w', remove_color fuel c (above k) (root u) old w = Ok (old, w') ∧ holds S h0 [] t' w' ∧
    redblack t' ∧ inorder t' = inorder (plug k u).
Proof.
  intros Hw Hu%rbt_mk Hk Hf. unfold remove_color. destruct c.
  - destruct Hu as (m & -> & _ & Hu). rewrite bool_decide_eq_true_2 by done.
    destruct (remove_color_ok S h0 (inorder (plug k u)) fuel k u w) as (t' & w' & E & ? & ? & ?);
      [by eexists c', m; split_and!; [|apply short_rbt|..]|done|].
    exists t', w'. by rewrite (st_bind_ok _ _ _ _ _ E).
  - destruct Hu as (-> & _ & Hu). exists (plug k u), w.
    rewrite bool_decide_eq_false_2 by done. split_and!; [done|by rewrite <-holds_plug| |done].
    eapply rbt_plug; [by apply rbt_black|done].
Qed.

(** The colors of a zipper do not depend on the addresses in it. *)
Lemma rbk_rename c n k1 d c' a b s k : rbk c n (k1 ++ Frame d c' a s :: k) →
  rbk c n (k1 ++ Frame d c' b s :: k).
Proof.
  revert c n. induction k1 as [|[d1 [] a1 s1] k1 IH]; intros c n; [done|..]; cbn;
    naive_solver.
Qed.

Lemma above_rename k c l a kr cb b rb c' b' l' d :
  NoDup (inorder (plug k (Node c l a (plug kr (Node cb Leaf b rb))))) →
  above (kr ++ Frame d c' b' l' :: k) =
  if bool_decide (above (kr ++ Frame d c a l :: k) = Some a) then Some b'
  else above (kr ++ Frame d c a l :: k).
Proof.
  intros Hnd. destruct kr as [|[d0 c0 z s0] kr]; cbn [app above f_addr].
  - by rewrite bool_decide_eq_true_2.
  - rewrite bool_decide_eq_false_2; [done|]. intros [= ->].
    rewrite plug_perm in Hnd. cbn [inorder] in Hnd.
    apply NoDup_app in Hnd as (Hnd & _). apply NoDup_app in Hnd as (_ & _ & Hnd).
    apply NoDup_cons in Hnd as [Hnd _]. apply Hnd.
    rewrite inorder_plug. cbn [before after]. destruct d0; set_solver.
Qed.

(** What [RB_REMOVE] does to the element in focus. *)
Definition removes S h0 (fuel : nat) (k : zipper) (l : tree) (a : nat) (r : tree)
    (w : rb_state) : Prop :=
  ∃ t' w', RB_REMOVE fuel (Some a) w = Ok (Some a, w') ∧ holds S h0 [] t' w' ∧ redblack t' ∧
    inorder t' = before k ++ (inorder l ++ inorder r) ++ after k.

Lemma remove_one_ok S h0 fuel k d c a u c' n w :
  holds S h0 k (mk d c Leaf a u) w → rbt c' n (mk d c Leaf a u) → rbk c' n k →
  (1 + length k < fuel)%nat → removes S h0 fuel k (side d Leaf u) a (side (flip d) Leaf u) w.
Proof.
  intros Hw Hc Hk Hf.
  pose proof (focus_get _ _ _ _ _ _ _ _ _ Hw) as Ea. cbn [root] in Ea.
  destruct (splice_ok _ _ _ _ _ _ _ _ Hw) as (w1 & E1 & H1 & _).
  destruct (remove_color_step _ _ fuel k d c a u c' n (Some a) w1 H1 Hc Hk Hf)
    as (t' & w' & E2 & H2 & Hrb & Ho).
  exists t', w'. split_and!; [|done|done|].
  - unfold RB_REMOVE, RB_LEFT, RB_RIGHT, RB_PARENT, RB_COLOR.
    rewrite !(st_bind_ok _ _ _ _ _ (rd_ok _ a _ w Ea)).
    assert (Etail : (parent ← rd rbe_parent (Some a); c ← rd rbe_color (Some a);
      unlink (Some a) (root u) parent;; remove_color fuel c parent (root u) (Some a)) w =
      Ok (Some a, w')).
    { rewrite !(st_bind_ok _ _ _ _ _ (rd_ok _ a _ w Ea)), links_parent, links_color.
      by rewrite (st_bind_ok _ _ _ _ _ E1). }
    destruct d; cbn [links rbe_left rbe_right].
    + by rewrite is_null_none, (st_bind_ok _ _ _ _ _ (rd_ok _ a _ w Ea)).
    + destruct u as [|cu ul x ur]; cbn [root] in *.
      * by rewrite is_null_none, (st_bind_ok _ _ _ _ _ (rd_ok _ a _ w Ea)).
      * by rewrite is_null_some, is_null_none, (st_bind_ok _ _ _ _ _ (rd_ok _ a _ w Ea)).
  - rewrite Ho, inorder_plug. destruct d; cbn; by rewrite ?app_nil_r.
Qed.

(** The successor [b] of [a] is taken out of the right subtree ([w1]), of which
    [rb] is what hung below it, and takes over the place of [a] ([w2]); the hole
    it leaves is then at [K']. *)
Record succession S h0 fuel k c l a r w kr cb b rb (w1 w2 : rb_state) c1 n1 (K' : zipper) : Prop := {
  su_right : r = plug kr (Node cb Leaf b rb);
  su_first : before kr = [];
  su_hole : K' = kr ++ Frame DR c b l :: k;
  su_find : loop fuel leftmost_body (root r) w = Ok (Some b, w);
  su_b : rb_nodes w !! b = Some (RbNode None (root rb) (above (kr ++ Frame DR c a l :: k)) cb);
  su_unlink : unlink (Some b) (root rb) (above (kr ++ Frame DR c a l :: k)) w = Ok (tt, w1);
  su_b1 : rb_nodes w1 !! b = rb_nodes w !! b;
  su_take : take_over (Some a) (Some b) w1 = Ok (tt, w2);
  su_holds : holds S h0 K' rb w2;
  su_rbt : rbt c1 n1 (Node cb Leaf b rb);
  su_rbk : rbk c1 n1 K';
  su_length : (1 + length K' < fuel)%nat
}.

Lemma successor_ok S h0 fuel k c l a r c' n w :
  holds S h0 k (Node c l a r) w → l ≠ Leaf → r ≠ Leaf →
  rbt c' n (Node c l a r) → rbk c' n k → (height (plug k (Node c l a r)) < fuel)%nat →
  ∃ kr cb b rb w1 w2 c1 n1 K', succession S h0 fuel k c l a r w kr cb b rb w1 w2 c1 n1 K'.
Proof.
  intros Hw Hl Hr Hc Hk Hf. pose proof (height_plug k (Node c l a r)) as Hh.
  pose proof (holds_down _ _ _ DR _ _ _ _ _ Hw) as Hw'.
  destruct (leftmost_ok S h0 fuel _ r w Hw' Hr) as (kr & cb & b & rb & -> & Hbef & Eleft);
    [cbn in Hh; lia|].
  set (K := kr ++ Frame DR c a l :: k). set (K' := kr ++ Frame DR c b l :: k).
  assert (HK : holds S h0 K (Node cb Leaf b rb) w) by (by apply holds_app).
  assert (∃ c1 n1, rbt c1 n1 (Node cb Leaf b rb) ∧ rbk c1 n1 K) as (c1 & n1 & Hcb & HkK).
  { apply plug_rbt. unfold K. rewrite plug_app. cbn. by eapply rbt_plug. }
  assert (HlenK : (1 + length K < fuel)%nat).
  { pose proof (height_plug K (Node cb Leaf b rb)) as HhK. unfold K in HhK at 2.
    rewrite plug_app in HhK. cbn in HhK. lia. }
  pose proof (holds_in _ _ _ DL _ _ _ _ _ HK) as HbS.
  destruct (splice_ok S h0 K DL cb b rb w HK) as (w1 & E1 & H1 & Eb1).
  assert (Hb1 : b ∉ inorder (plug K rb)).
  { pose proof (ho_nodup _ _ _ _ _ HK) as Hnd. rewrite plug_perm, (inorder_mk DL) in Hnd.
    cbn in Hnd. apply NoDup_cons in Hnd as [Hnd _]. by rewrite plug_perm. }
  unfold K in H1, Hb1. rewrite plug_app in Hb1. apply holds_app in H1. cbn [plug] in Hb1.
  apply holds_up in H1. cbn [mk] in H1, Hb1.
  destruct (take_over_ok S h0 k c l a _ b w1 H1 Hl HbS Hb1) as (w2 & E2 & H2).
  apply (holds_down _ _ _ DR), holds_app in H2.
  exists kr, cb, b, rb, w1, w2, c1, n1, K'. split; try done.
  - exact (focus_get _ _ _ DL _ _ _ _ _ HK).
  - eapply rbk_rename, HkK.
  - assert (length K' = length K) as -> by (unfold K, K'; by rewrite !length_app). done.
Qed.

Lemma remove_two_ok S h0 fuel k c l a r c' n w :
  holds S h0 k (Node c l a r) w → l ≠ Leaf → r ≠ Leaf →
  rbt c' n (Node c l a r) → rbk c' n k →
  (height (plug k (Node c l a r)) < fuel)%nat → removes S h0 fuel k l a r w.
Proof.
  intros Hw Hl Hr Hc Hk Hf.
  destruct (successor_ok _ _ _ _ _ _ _ _ _ _ _ Hw Hl Hr Hc Hk Hf)
    as (kr & cb & b & rb & w1 & w2 & c1 & n1 & K' & Hsu).
  pose proof (focus_get _ _ _ DL _ _ _ _ _ Hw) as Ea. cbn [links] in Ea.
  destruct Hsu as [Er Hbef EK Eleft Eb E1 Eb1 E2 H2 Hcb HK' HlenK]. rewrite Eb in Eb1.
  assert (Hne : K' ≠ []) by (rewrite EK; by destruct kr).
  assert (Habove : above K' = if bool_decide (above (kr ++ Frame DR c a l :: k) = Some a)
    then Some b else above (kr ++ Frame DR c a l :: k)).
  { rewrite EK. eapply above_rename. rewrite <-Er. exact (ho_nodup _ _ _ _ _ Hw). }
  pose proof (augment_ok S h0 fuel K' rb w2 H2 Hne ltac:(lia)) as Eaug.
  destruct (remove_color_step S h0 fuel K' DL cb b rb c1 n1 (Some a) w2 H2 Hcb HK' ltac:(lia))
    as (t' & w' & E3 & H3 & Hrb & Ho).
  exists t', w'. split_and!; [|done|done|].
  - unfold RB_REMOVE, RB_LEFT, RB_RIGHT, RB_PARENT, RB_COLOR.
    rewrite !(st_bind_ok _ _ _ _ _ (rd_ok _ a _ w Ea)). cbn [rbe_left rbe_right].
    destruct l as [|? ? y ?]; [done|]. cbn [root]. rewrite is_null_some.
    destruct r as [|? ? z ?]; [done|]. cbn [root] in *.
    rewrite is_null_some, !(st_bind_ok _ _ _ _ _ (rd_ok _ a _ w Ea)). cbn [rbe_right].
    rewrite (st_bind_ok _ _ _ _ _ Eleft).
    rewrite !(st_bind_ok _ _ _ _ _ (rd_ok _ b _ w Eb)). cbn [rbe_right rbe_parent rbe_color].
    rewrite (st_bind_ok _ _ _ _ _ E1).
    rewrite (st_bind_ok _ _ _ _ _ (rd_ok _ b _ w1 Eb1)). cbn [rbe_parent].
    rewrite (st_bind_ok _ _ _ _ _ E2), <-Habove.
    rewrite (st_bind_ok _ _ _ tt w2); [exact E3|].
    destruct K' as [|f K'']; [done|]. cbn [above] in *. by rewrite is_null_some.
  - rewrite Ho, Er, EK, plug_app. cbn [plug mk]. rewrite inorder_plug. cbn.
    rewrite !inorder_plug, Hbef. by app_norm.
Qed.

Lemma remove_at S h0 fuel k c l elm r w :
  holds S h0 k (Node c l elm r) w → redblack (plug k (Node c l elm r)) →
  (height (plug k (Node c l elm r)) < fuel)%nat → removes S h0 fuel k l elm r w.
Proof.
  intros Hw Hrb Hf. destruct (plug_rbt _ _ Hrb) as (c' & n & Hc & Hk).
  pose proof (height_plug k (Node c l elm r)) as Hlen. cbn [height] in Hlen.
  destruct l as [|cl ll x lr].
  - by apply (remove_one_ok _ _ _ k DL c elm r c' n); [| | |lia].
  - destruct r as [|cr rl y rr].
    + by apply (remove_one_ok _ _ _ k DR c elm (Node cl ll x lr) c' n); [| | |lia].
    + by apply (remove_two_ok _ _ _ _ c _ _ _ c' n); [| | | | |lia].
Qed.

(** Removal by position. *)
Lemma remove_ok fuel elm t w l1 l2 :
  rep t w → redblack t → inorder t = l1 ++ elm :: l2 → (height t < fuel)%nat →
  ∃ t' w', RB_REMOVE fuel (Some elm) w = Ok (Some elm, w') ∧ rep t' w' ∧ redblack t' ∧
    inorder t' = l1 ++ l2 ∧ off (inorder t) (rb_nodes w) (rb_nodes w').
Proof.
  intros Hrep Hrb E Hf. pose proof (rep_holds t w (inorder t) Hrep ltac:(done)) as Hw.
  destruct (in_plug elm t) as (k & c & l & r & ->); [rewrite E; set_solver|].
  pose proof (proj2 (proj2 Hrep)) as Hnd. rewrite E in Hnd.
  rewrite <-holds_plug in Hw. destruct (remove_at _ _ _ _ _ _ _ _ _ Hw Hrb Hf) as (t' & w' & E' & H' & Hrb' & Ho).
  rewrite inorder_plug in E. cbn in E. rewrite <-app_assoc, (assoc_L (++)) in E.
  destruct (nodup_pivot _ _ _ _ _ Hnd E) as [<- <-].
  exists t', w'. split_and!; [done|by apply holds_rep in H'|done| |exact (ho_off _ _ _ _ _ H')].
  rewrite Ho. by app_norm.
Qed.

(** C10. Removal from a red-black tree of n elements, with loops of at most
    2 log2 (n+1) + 1 turns: the element is taken out and returned, the others
    stay in their order, the colors are those of a red-black tree again, and
    no element of memory outside of the tree is written. *)
Theorem RB_REMOVE_correct fuel elm t w :
  rep t w → redblack t → elm ∈ inorder t →
  (2 * Nat.log2 (S (length (inorder t))) < fuel)%nat →
  ∃ t' w' l1 l2, RB_REMOVE fuel (Some elm) w = Ok (Some elm, w') ∧ rep t' w' ∧ redblack t' ∧
    inorder t = l1 ++ elm :: l2 ∧ inorder t' = l1 ++ l2 ∧
    off (inorder t) (rb_nodes w) (rb_nodes w').
Proof.
  intros Hrep Hrb (l1 & l2 & E)%list_elem_of_split Hf. pose proof (redblack_height t Hrb) as Hh.
  destruct (remove_ok fuel elm t w l1 l2 Hrep Hrb E) as (t' & w' & ?); [lia|].
  exists t', w', l1, l2. tauto.
Qed.

Lemma RB_REMOVE_correct_witness :
  ∃ t' w' l1 l2, RB_REMOVE 8 (Some 20%nat) rb_demo = Ok (Some 20%nat, w') ∧ rep t' w' ∧ redblack t' ∧
    inorder demo_tree = l1 ++ 20%nat :: l2 ∧ inorder t' = l1 ++ l2 ∧
    off (inorder demo_tree) (rb_nodes rb_demo) (rb_nodes w').
Proof.
  apply (RB_REMOVE_correct 8 20 demo_tree rb_demo rb_demo_rep demo_redblack); [set_solver|cbn; lia].
Defined.
