(* ===== verification/RbSearch.v ===== *)
(** * Red-black trees: searching

    [RB_FIND], [RB_NFIND] and [RB_MINMAX] of tree.h, and that they agree with
    a search of the list of the elements in order.  They only read. *)

From S2P Require Import Prelude RbTree RbShape TreeDemo.

Section search.
Context (cmp : nat → nat → Z).

Definition find_body (elm : nat) (tmp : option nat) : RB (option nat + option nat) :=
  match tmp with
  | None => mret (inr None)
  | Some t =>
      let comp := cmp elm t in
      if decide (comp < 0) then l ← RB_LEFT tmp; mret (inl l)
      else if decide (comp > 0) then r ← RB_RIGHT tmp; mret (inl r)
      else mret (inr tmp)
  end.

Definition RB_FIND (fuel : nat) (elm : nat) : RB (option nat) :=
  tmp ← RB_ROOT;
  loop fuel (find_body elm) tmp.

Definition nfind_body (elm : nat) (s : option nat * option nat) :
    RB (option nat * option nat + option nat) :=
  let '(tmp, res) := s in
  match tmp with
  | None => mret (inr res)
  | Some t =>
      let comp := cmp elm t in
      if decide (comp < 0) then l ← RB_LEFT tmp; mret (inl (l, tmp))
      else if decide (comp > 0) then r ← RB_RIGHT tmp; mret (inl (r, res))
      else mret (inr tmp)
  end.

Definition RB_NFIND (fuel : nat) (elm : nat) : RB (option nat) :=
  tmp ← RB_ROOT;
  loop fuel (nfind_body elm) (tmp, None).
End search.

Definition minmax_body (val : Z) (s : option nat * option nat) :
    RB (option nat * option nat + option nat) :=
  let '(tmp, parent) := s in
  match tmp with
  | None => mret (inr parent)
  | Some _ =>
      if decide (val < 0) then l ← RB_LEFT tmp; mret (inl (l, tmp))
      else r ← RB_RIGHT tmp; mret (inl (r, tmp))
  end.

Definition RB_MINMAX (fuel : nat) (val : Z) : RB (option nat) :=
  tmp ← RB_ROOT;
  loop fuel (minmax_body val) (tmp, None).

Definition RB_NEGINF : Z := -1.
Definition RB_INF : Z := 1.
Definition RB_MIN (fuel : nat) : RB (option nat) := RB_MINMAX fuel RB_NEGINF.
Definition RB_MAX (fuel : nat) : RB (option nat) := RB_MINMAX fuel RB_INF.

(** ** The ends *)

(** The first and the last of a list. *)
Definition outer (d : dir) (l : list nat) : option nat :=
  match d with DL => head l | DR => last l end.

Lemma outer_node d c l a r :
  outer d (inorder (Node c l a r)) =
  match side d l r with Leaf => Some a | s => outer d (inorder s) end.
Proof.
  destruct d; cbn [side inorder outer].
  - destruct l as [|cl ll x lr]; [done|]. cbn. by destruct (inorder ll).
  - destruct r as [|cr rl x rr]; [by rewrite last_app|]. by rewrite last_app, last_cons; cbn;
      rewrite last_app, last_cons; destruct (last (inorder rr)).
Qed.

Lemma own_get h p c l a r d :
  own h p (Node c l a r) →
  ∃ n, h !! a = Some n ∧ rbe_child d n = root (side d l r) ∧ own h (Some a) (side d l r).
Proof. intros (E & Hl & Hr). eexists. split; [exact E|]. by destruct d. Qed.

Lemma height_side d c l a r : (height (side d l r) < height (Node c l a r))%nat.
Proof. destruct d; cbn; lia. Qed.

Lemma minmax_loop d val fuel w : ∀ t p parent,
  own (rb_nodes w) p t → (height t < fuel)%nat → (val < 0 ↔ d = DL) →
  loop fuel (minmax_body val) (root t, parent) w =
    Ok (match t with Leaf => parent | _ => outer d (inorder t) end, w).
Proof.
  induction fuel as [|fuel IH]; intros t p parent Ho Hf Hd; [lia|].
  destruct t as [|c l a r]; [by apply loop_last|].
  destruct (own_get _ _ _ _ _ _ d Ho) as (n & Ea & Ec & Hs).
  rewrite (loop_next _ _ _ (root (side d l r), Some a) _ w).
  - rewrite (IH _ _ _ Hs); [|pose proof (height_side d c l a r); lia|done].
    rewrite outer_node. by destruct (side d l r).
  - unfold minmax_body, RB_LEFT, RB_RIGHT. cbn [root]. rewrite <-Ec.
    destruct d; [rewrite decide_True by tauto|rewrite decide_False by naive_solver];
      by rewrite (st_bind_ok _ _ _ _ _ (rd_ok _ a _ w Ea)).
Qed.

Lemma minmax_ok d val fuel t w :
  rep t w → (height t < fuel)%nat → (val < 0 ↔ d = DL) →
  RB_MINMAX fuel val w = Ok (outer d (inorder t), w).
Proof.
  intros (Ho & Hr & _) Hf Hd. unfold RB_MINMAX, RB_ROOT.
  rewrite (st_bind_ok _ _ _ _ _ (gets_ok _ w)), Hr, (minmax_loop d _ _ _ t _ _ Ho Hf Hd).
  by destruct t, d.
Qed.

(** ** Finding *)
Section find.
Context (cmp : nat → nat → Z) `{!KeyOrder cmp} (elm : nat).

(** The reference: a search of the elements one by one. *)
Definition same_key (x : nat) : bool := cmp elm x =? 0.
Definition key_le (x : nat) : bool := cmp elm x <=? 0.

Lemma cmp_zero a x : cmp elm a = 0 → cmp a x < 0 → cmp elm x < 0.
Proof.
  intros E H. destruct (cmp_total a x elm H) as [H'|H']; [|done].
  apply (cmp_gt cmp) in H'. lia.
Qed.
Lemma cmp_zero' a x : cmp elm a = 0 → cmp x a < 0 → 0 < cmp elm x.
Proof.
  intros E H. apply (cmp_gt cmp). destruct (cmp_total x a elm H) as [H'|H']; [done|lia].
Qed.

(** Where the search can skip a part of the list. *)
Lemma find_skip (f : nat → bool) l l' : Forall (λ x, f x = false) l → List.find f (l ++ l') = List.find f l'.
Proof. induction 1 as [|x l Hx _ IH]; [done|]. cbn. by rewrite Hx. Qed.
Lemma find_none (f : nat → bool) l : Forall (λ x, f x = false) l → List.find f l = None.
Proof. intros H. rewrite <-(app_nil_r l), find_skip; done. Qed.
Lemma find_app (f : nat → bool) l l' :
  List.find f (l ++ l') = match List.find f l with Some x => Some x | None => List.find f l' end.
Proof. induction l as [|x l IH]; [done|]. cbn. by destruct (f x). Qed.

(** The elements on the wrong side of [a] have another key. *)
Lemma before_key l a r :
  sorted cmp (l ++ a :: r) → 0 ≤ cmp elm a → Forall (λ x, 0 < cmp elm x) l.
Proof.
  intros (_ & _ & Hl & _)%sorted_app H. eapply Forall_impl; [exact Hl|]. cbn. intros x Hx.
  destruct (decide (cmp elm a = 0)) as [E|E]; [by apply (cmp_zero' a)|].
  apply (cmp_gt cmp), (cmp_trans x a elm); [done|]. apply (cmp_gt cmp). lia.
Qed.
Lemma after_key l a r :
  sorted cmp (l ++ a :: r) → cmp elm a < 0 → Forall (λ x, cmp elm x < 0) r.
Proof.
  intros (_ & _ & _ & Hr & _)%sorted_app H. eapply Forall_impl; [exact Hr|].
  cbn. intros x Hx. by apply (cmp_trans elm a x).
Qed.

Lemma sorted_side d c l a r : sorted cmp (inorder (Node c l a r)) → sorted cmp (inorder (side d l r)).
Proof. intros (? & ? & _)%sorted_app. by destruct d. Qed.

(** A list with the comparison at [a] known. *)
Lemma find_same l a r : sorted cmp (l ++ a :: r) →
  List.find same_key (l ++ a :: r) =
  if decide (cmp elm a < 0) then List.find same_key l
  else if decide (cmp elm a > 0) then List.find same_key r else Some a.
Proof.
  intros Hs. rewrite find_app. cbn [List.find]. unfold same_key at 2. case_decide.
  - rewrite (proj2 (Z.eqb_neq _ _)) by lia. rewrite (find_none _ r); [by destruct (List.find _ _)|].
    eapply Forall_impl; [by apply (after_key l a)|]. intros x. unfold same_key. cbn. lia.
  - rewrite (find_none _ l).
    2: { eapply Forall_impl; [apply (before_key l a r Hs); lia|]. intros x. unfold same_key. cbn. lia. }
    case_decide; [by rewrite (proj2 (Z.eqb_neq _ _)) by lia|by rewrite (proj2 (Z.eqb_eq _ _)) by lia].
Qed.

Lemma find_le l a r : sorted cmp (l ++ a :: r) →
  List.find key_le (l ++ a :: r) =
  if decide (cmp elm a < 0)
  then match List.find key_le l with Some x => Some x | None => Some a end
  else if decide (cmp elm a > 0) then List.find key_le r else Some a.
Proof.
  intros Hs. rewrite find_app. cbn [List.find]. unfold key_le at 2. case_decide.
  - by rewrite (proj2 (Z.leb_le _ _)) by lia.
  - rewrite (find_none _ l).
    2: { eapply Forall_impl; [apply (before_key l a r Hs); lia|]. intros x. unfold key_le. cbn. lia. }
    case_decide; [by rewrite (proj2 (Z.leb_gt _ _)) by lia|by rewrite (proj2 (Z.leb_le _ _)) by lia].
Qed.

Lemma find_turn p c l a r w : own (rb_nodes w) p (Node c l a r) →
  find_body cmp elm (Some a) w =
  Ok (if decide (cmp elm a < 0) then inl (root l)
      else if decide (cmp elm a > 0) then inl (root r) else inr (Some a), w).
Proof.
  intros (Ea & _). unfold find_body, RB_LEFT, RB_RIGHT.
  repeat case_decide; rewrite ?(st_bind_ok _ _ _ _ _ (rd_ok _ a _ w Ea)); done.
Qed.

Lemma nfind_turn res p c l a r w : own (rb_nodes w) p (Node c l a r) →
  nfind_body cmp elm (Some a, res) w =
  Ok (if decide (cmp elm a < 0) then inl (root l, Some a)
      else if decide (cmp elm a > 0) then inl (root r, res) else inr (Some a), w).
Proof.
  intros (Ea & _). unfold nfind_body, RB_LEFT, RB_RIGHT.
  repeat case_decide; rewrite ?(st_bind_ok _ _ _ _ _ (rd_ok _ a _ w Ea)); done.
Qed.

Lemma find_loop fuel w : ∀ t p,
  own (rb_nodes w) p t → sorted cmp (inorder t) → (height t < fuel)%nat →
  loop fuel (find_body cmp elm) (root t) w = Ok (List.find same_key (inorder t), w).
Proof.
  induction fuel as [|fuel IH]; intros t p Ho Hs Hf; [lia|].
  destruct t as [|c l a r]; [by apply loop_last|]. pose proof (find_turn _ _ _ _ _ w Ho) as E.
  cbn [inorder root] in *. rewrite (find_same _ _ _ Hs). apply sorted_app in Hs as (Hl & Hr & _).
  destruct Ho as (_ & Hol & Hor). cbn [height] in Hf. repeat case_decide.
  - rewrite (loop_next _ _ _ _ _ _ E). apply (IH _ _ Hol Hl). lia.
  - rewrite (loop_next _ _ _ _ _ _ E). apply (IH _ _ Hor Hr). lia.
  - by apply loop_last.
Qed.

Lemma nfind_loop fuel w : ∀ t p res,
  own (rb_nodes w) p t → sorted cmp (inorder t) → (height t < fuel)%nat →
  loop fuel (nfind_body cmp elm) (root t, res) w =
  Ok (match List.find key_le (inorder t) with Some x => Some x | None => res end, w).
Proof.
  induction fuel as [|fuel IH]; intros t p res Ho Hs Hf; [lia|].
  destruct t as [|c l a r]; [by apply loop_last|]. pose proof (nfind_turn res _ _ _ _ _ w Ho) as E.
  cbn [inorder root] in *. rewrite (find_le _ _ _ Hs). apply sorted_app in Hs as (Hl & Hr & _).
  destruct Ho as (_ & Hol & Hor). cbn [height] in Hf. repeat case_decide.
  - rewrite (loop_next _ _ _ _ _ _ E), (IH _ _ _ Hol Hl) by lia. by destruct (List.find _ _).
  - rewrite (loop_next _ _ _ _ _ _ E). apply (IH _ _ _ Hor Hr). lia.
  - by apply loop_last.
Qed.
End find.

(** C24. Searching a red-black tree of n elements takes at most
    2 log2 (n+1) turns and changes nothing.  [RB_FIND] gives the element with
    the key of [elm], [RB_NFIND] the first one whose key is not smaller, [RB_MIN]
    and [RB_MAX] the first and the last, and each gives NULL when there is none. *)
Theorem search_correct cmp `{!KeyOrder cmp} fuel elm t w :
  rep t w → redblack t → sorted cmp (inorder t) →
  (2 * Nat.log2 (S (length (inorder t))) < fuel)%nat →
  RB_FIND cmp fuel elm w = Ok (List.find (same_key cmp elm) (inorder t), w) ∧
  RB_NFIND cmp fuel elm w = Ok (List.find (key_le cmp elm) (inorder t), w) ∧
  RB_MIN fuel w = Ok (head (inorder t), w) ∧ RB_MAX fuel w = Ok (last (inorder t), w).
Proof.
  intros Hrep Hrb Hs Hf. pose proof (redblack_height t Hrb) as Hh.
  split_and!; [..|by apply (minmax_ok DL); [|lia|]|by apply (minmax_ok DR); [|lia|]];
    destruct Hrep as (Ho & Hr & _); unfold RB_FIND, RB_NFIND, RB_ROOT;
    rewrite (st_bind_ok _ _ _ _ _ (gets_ok _ w)), Hr.
  - apply (find_loop _ _ _ _ _ _ Ho Hs). lia.
  - rewrite (nfind_loop _ _ _ _ _ _ _ Ho Hs) by lia. by destruct (List.find _ _).
Qed.

Lemma search_correct_witness :
  RB_FIND demo_cmp 8 30 rb_demo = Ok (Some 30%nat, rb_demo) ∧
  RB_NFIND demo_cmp 8 30 rb_demo = Ok (Some 30%nat, rb_demo) ∧
  RB_MIN 8 rb_demo = Ok (Some 10%nat, rb_demo) ∧ RB_MAX 8 rb_demo = Ok (Some 30%nat, rb_demo).
Proof.
  apply (search_correct demo_cmp 8 30 demo_tree rb_demo rb_demo_rep demo_redblack demo_sorted).
  cbn. lia.
Defined.
