(* ===== verification/RbIter.v ===== *)
(** * Red-black trees: iteration

    [RB_NEXT], [RB_PREV] and the [RB_FOREACH] loops of tree.h: the neighbours in
    the order, and loops that visit every element, also when their body takes
    the element it is called on out of the tree and frees it. *)

From S2P Require Import Prelude RbTree RbShape RbRemove RbSearch TreeDemo.

(** [RB_PARENT(elm) && (elm == RB_LEFT(RB_PARENT(elm)))], and for the right. *)
Definition is_child (side : option nat → RB (option nat)) (elm : option nat) : RB bool :=
  p ← RB_PARENT elm;
  if is_null p then mret false else
    p ← RB_PARENT elm;
    c ← side p;
    mret (bool_decide (elm = c)).

(** [while (RB_PARENT(elm) && elm is the child on that side) elm = RB_PARENT(elm)] *)
Definition climb_body (side : option nat → RB (option nat)) (elm : option nat) :
    RB (option nat + option nat) :=
  up ← is_child side elm;
  if up : bool then p ← RB_PARENT elm; mret (inl p) else mret (inr elm).

Definition rightmost_body (elm : option nat) : RB (option nat + option nat) :=
  right ← RB_RIGHT elm;
  mret (if is_null right then inr elm else inl right).

Definition RB_NEXT (fuel : nat) (elm : option nat) : RB (option nat) :=
  r ← RB_RIGHT elm;
  if is_null r then
    up ← is_child RB_LEFT elm;
    if up : bool then RB_PARENT elm
    else
      elm ← loop fuel (climb_body RB_RIGHT) elm;
      RB_PARENT elm
  else
    elm ← RB_RIGHT elm;
    loop fuel leftmost_body elm.

Definition RB_PREV (fuel : nat) (elm : option nat) : RB (option nat) :=
  l ← RB_LEFT elm;
  if is_null l then
    up ← is_child RB_RIGHT elm;
    if up : bool then RB_PARENT elm
    else
      elm ← loop fuel (climb_body RB_LEFT) elm;
      RB_PARENT elm
  else
    elm ← RB_LEFT elm;
    loop fuel rightmost_body elm.

(** The loops, over a body that is given the element and threads a value [A]
    of the user's.  The ones that are safe ask for the next element before the
    body runs. *)
Section foreach.
Context {A : Type} (fuel : nat) (body : nat → A → RB A).

Definition foreach_body (next : option nat → RB (option nat)) (s : option nat * A) :
    RB (option nat * A + A) :=
  let '(x, u) := s in
  match x with
  | None => mret (inr u)
  | Some e => u ← body e u; x ← next x; mret (inl (x, u))
  end.

Definition foreach_safe_body (next : option nat → RB (option nat)) (s : option nat * A) :
    RB (option nat * A + A) :=
  let '(x, u) := s in
  match x with
  | None => mret (inr u)
  | Some e => y ← next x; u ← body e u; mret (inl (y, u))
  end.

Definition RB_FOREACH (u : A) : RB A :=
  x ← RB_MIN fuel; loop fuel (foreach_body (RB_NEXT fuel)) (x, u).
Definition RB_FOREACH_FROM (y : option nat) (u : A) : RB A :=
  loop fuel (foreach_safe_body (RB_NEXT fuel)) (y, u).
Definition RB_FOREACH_SAFE (u : A) : RB A :=
  x ← RB_MIN fuel; loop fuel (foreach_safe_body (RB_NEXT fuel)) (x, u).
Definition RB_FOREACH_REVERSE (u : A) : RB A :=
  x ← RB_MAX fuel; loop fuel (foreach_body (RB_PREV fuel)) (x, u).
Definition RB_FOREACH_REVERSE_FROM (y : option nat) (u : A) : RB A :=
  loop fuel (foreach_safe_body (RB_PREV fuel)) (y, u).
Definition RB_FOREACH_REVERSE_SAFE (u : A) : RB A :=
  x ← RB_MAX fuel; loop fuel (foreach_safe_body (RB_PREV fuel)) (x, u).
End foreach.

(** ** The neighbours *)

(** The two are mirror images: the neighbour in direction [d]. *)
Definition toward (d : dir) (elm : option nat) : RB (option nat + option nat) :=
  n ← rd (rbe_child d) elm;
  mret (if is_null n then inr elm else inl n).

Definition neighbour (d : dir) (fuel : nat) (elm : option nat) : RB (option nat) :=
  r ← rd (rbe_child d) elm;
  if is_null r then
    up ← is_child (rd (rbe_child (flip d))) elm;
    if up : bool then RB_PARENT elm
    else
      elm ← loop fuel (climb_body (rd (rbe_child d))) elm;
      RB_PARENT elm
  else
    elm ← rd (rbe_child d) elm;
    loop fuel (toward (flip d)) elm.

Lemma next_neighbour : RB_NEXT = neighbour DR.
Proof. reflexivity. Qed.
Lemma prev_neighbour : RB_PREV = neighbour DL.
Proof. reflexivity. Qed.

Lemma toward_ok d fuel w : ∀ t p,
  own (rb_nodes w) p t → t ≠ Leaf → (height t ≤ fuel)%nat →
  loop fuel (toward d) (root t) w = Ok (outer d (inorder t), w).
Proof.
  induction fuel as [|fuel IH]; intros t p Ho Hne Hf; (destruct t as [|c l a r]; [done|]);
    [cbn in Hf; lia|].
  destruct (own_get _ _ _ _ _ _ d Ho) as (n & Ea & Ec & Hs).
  assert (E : toward d (Some a) w =
    Ok (if is_null (root (side d l r)) then inr (Some a) else inl (root (side d l r)), w)).
  { unfold toward. by rewrite (st_bind_ok _ _ _ _ _ (rd_ok _ a _ w Ea)), Ec. }
  pose proof (height_side d c l a r). rewrite outer_node. cbn [root].
  destruct (side d l r) as [|c' l' a' r'] eqn:Es; [by apply loop_last|].
  rewrite (loop_next _ _ _ _ _ _ E), <-Es. apply (IH _ (Some a)); rewrite Es; [done..|lia].
Qed.

(** The neighbour outside of the focus. *)
Definition beyond (d : dir) (k : zipper) : option nat :=
  match d with DL => last (before k) | DR => head (after k) end.

Lemma beyond_frame d d' c a s k :
  beyond d (Frame d' c a s :: k) = if decide (d' = d) then beyond d k else Some a.
Proof.
  destruct d, d'; cbn; try done. by rewrite (assoc_L (++)), last_app.
Qed.

Section neighbour.
Context (S : list nat) (h0 : nodes).

Lemma is_child_ok d k c l a r w :
  holds S h0 k (Node c l a r) w →
  is_child (rd (rbe_child d)) (Some a) w =
    Ok (match k with [] => false | Frame d' _ _ _ :: _ => bool_decide (d' = d) end, w).
Proof.
  intros Hw. pose proof (focus_get _ _ _ DL _ _ _ _ _ Hw) as Ea. cbn [links] in Ea.
  unfold is_child, RB_PARENT. rewrite (st_bind_ok _ _ _ _ _ (rd_ok _ a _ w Ea)).
  destruct k as [|[d' c' p s] k]; [done|]. cbn [rbe_parent above f_addr] in *.
  rewrite is_null_some. pose proof (above_get _ _ _ _ _ _ _ _ _ Hw) as Ep.
  rewrite !(st_bind_ok _ _ _ _ _ (rd_ok _ a _ w Ea)). cbn [rbe_parent].
  rewrite (st_bind_ok _ _ _ _ _ (rd_ok _ p _ w Ep)). apply holds_up in Hw.
  pose proof (other_child _ _ _ _ _ _ _ _ a _ Hw eq_refl) as Hne.
  unfold mret, st_ret. repeat f_equal. apply bool_decide_ext.
  destruct d, d'; cbn; (split; [congruence|done]).
Qed.

Lemma climb_ok d fuel : ∀ k c l a r w,
  holds S h0 k (Node c l a r) w → (length k < fuel)%nat →
  (elm ← loop fuel (climb_body (rd (rbe_child d))) (Some a); RB_PARENT elm) w = Ok (beyond d k, w).
Proof.
  induction fuel as [|fuel IH]; intros k c l a r w Hw Hf; [lia|].
  pose proof (is_child_ok d _ _ _ _ _ _ Hw) as Ec.
  pose proof (focus_get _ _ _ DL _ _ _ _ _ Hw) as Ea. cbn [links] in Ea.
  destruct k as [|[d' c' p s] k].
  { rewrite (st_bind_ok _ _ _ (Some a) w).
    - unfold RB_PARENT. rewrite (rd_ok _ a _ w Ea). by destruct d.
    - apply loop_last. unfold climb_body. by rewrite (st_bind_ok _ _ _ _ _ Ec). }
  rewrite beyond_frame. destruct (decide (d' = d)) as [->|Hd].
  - rewrite bool_decide_eq_true_2 in Ec by done.
    assert (E : climb_body (rd (rbe_child d)) (Some a) w = Ok (inl (Some p), w)).
    { unfold climb_body, RB_PARENT. rewrite (st_bind_ok _ _ _ _ _ Ec).
      by rewrite (st_bind_ok _ _ _ _ _ (rd_ok _ a _ w Ea)). }
    unfold mbind, st_bind. rewrite (loop_next _ _ _ _ _ _ E).
    apply holds_up in Hw. rewrite mk_node in Hw. eapply IH; [exact Hw|cbn in Hf; lia].
  - rewrite bool_decide_eq_false_2 in Ec by done.
    rewrite (st_bind_ok _ _ _ (Some a) w).
    + unfold RB_PARENT. by rewrite (rd_ok _ a _ w Ea).
    + apply loop_last. unfold climb_body. by rewrite (st_bind_ok _ _ _ _ _ Ec).
Qed.

Lemma neighbour_ok d fuel k c l a r w :
  holds S h0 k (Node c l a r) w → (height (plug k (Node c l a r)) < fuel)%nat →
  neighbour d fuel (Some a) w =
    Ok (match side d l r with Leaf => beyond d k | s => outer (flip d) (inorder s) end, w).
Proof.
  intros Hw Hf. pose proof (height_plug k (Node c l a r)) as Hh.
  pose proof (height_side d c l a r) as Hs.
  destruct (own_get _ _ _ _ _ _ d (ho_tree _ _ _ _ _ Hw)) as (n & Ea & Ec & Ho).
  unfold neighbour. rewrite !(st_bind_ok _ _ _ _ _ (rd_ok _ a _ w Ea)), Ec.
  destruct (side d l r) as [|c' l' a' r'] eqn:Es; cbn [root].
  - rewrite is_null_none, (st_bind_ok _ _ _ _ _ (is_child_ok _ _ _ _ _ _ _ Hw)).
    destruct k as [|[d' c2 p s] k].
    { eapply climb_ok; [exact Hw|cbn; lia]. }
    rewrite beyond_frame. destruct (decide (d' = flip d)) as [->|Hd].
    + rewrite bool_decide_eq_true_2, decide_False by (try done; by destruct d).
      pose proof (focus_get _ _ _ DL _ _ _ _ _ Hw) as Ea'. unfold RB_PARENT.
      by rewrite (rd_ok _ a _ w Ea').
    + rewrite bool_decide_eq_false_2 by done. rewrite <-beyond_frame with (c := c2) (s := s).
      eapply climb_ok; [exact Hw|cbn in *; lia].
  - rewrite is_null_some, (st_bind_ok _ _ _ _ _ (rd_ok _ a _ w Ea)), Ec.
    change (Some a') with (root (Node c' l' a' r')).
    apply (toward_ok _ _ _ _ _ Ho); [done|lia].
Qed.
End neighbour.

(** By position in the list. *)
Lemma neighbours_at fuel t w l1 a l2 :
  rep t w → (height t < fuel)%nat → inorder t = l1 ++ a :: l2 →
  RB_NEXT fuel (Some a) w = Ok (head l2, w) ∧ RB_PREV fuel (Some a) w = Ok (last l1, w).
Proof.
  intros Hrep Hf E. pose proof (rep_holds t w (inorder t) Hrep ltac:(done)) as Hw.
  destruct (in_plug a t) as (k & c & l & r & ->); [rewrite E; set_solver|].
  pose proof (ho_nodup _ _ _ _ _ Hw) as Hnd. cbn [plug] in Hnd. rewrite <-holds_plug in Hw.
  rewrite E in Hnd. rewrite inorder_plug in E. cbn in E. rewrite <-app_assoc, (assoc_L (++)) in E.
  destruct (nodup_pivot _ _ _ _ _ Hnd E) as [<- <-].
  rewrite next_neighbour, prev_neighbour, !(neighbour_ok _ _ _ _ _ _ _ _ _ _ Hw Hf).
  split; cbn [side].
  - destruct r as [|cr rl x rr]; [done|]. cbn. by destruct (inorder rl).
  - destruct l as [|cl ll x lr]; cbn; [by rewrite app_nil_r|].
    by rewrite !last_app, !last_cons; destruct (last (inorder lr)).
Qed.

(** ** The loops *)

(** Both ways of going through a list: its elements, and what comes next. *)
Definition along (d : dir) (l : list nat) : list nat := match d with DR => l | DL => reverse l end.

Lemma along_flip d l l' : along d l = l' → l = along d l'.
Proof. destruct d; cbn; [|done]. intros <-. by rewrite reverse_involutive. Qed.
Lemma along_pivot d l1 e l2 :
  along d (l1 ++ e :: l2) =
  match d with DR => l1 ++ e :: l2 | DL => reverse l2 ++ e :: reverse l1 end.
Proof. destruct d; cbn; [|done]. by rewrite reverse_app, reverse_cons, <-app_assoc. Qed.
Lemma elem_of_along d x l : x ∈ along d l ↔ x ∈ l.
Proof. destruct d; cbn; [apply elem_of_reverse|done]. Qed.
Lemma outer_along d l : outer (flip d) l = head (along d l).
Proof. destruct d; cbn; [by rewrite head_reverse|done]. Qed.

Lemma neighbour_along d fuel t w l1 e l2 :
  rep t w → (height t < fuel)%nat → along d (inorder t) = l1 ++ e :: l2 →
  neighbour d fuel (Some e) w = Ok (head l2, w).
Proof.
  intros Hrep Hf E%along_flip. rewrite along_pivot in E. destruct d.
  - rewrite <-prev_neighbour, (proj2 (neighbours_at _ _ _ _ _ _ Hrep Hf E)). by rewrite last_reverse.
  - rewrite <-next_neighbour. exact (proj1 (neighbours_at _ _ _ _ _ _ Hrep Hf E)).
Qed.

Section loops.
Context {A : Type} (f : nat → A → A) (fuel : nat) (body : nat → A → RB A).

(** The body of a loop that is not safe may change anything but the tree. *)
Definition keeps_tree (t : tree) : Prop :=
  ∀ e u w, rep t w → e ∈ inorder t → ∃ w', body e u w = Ok (f e u, w') ∧ rep t w'.

Lemma foreach_loop d t : keeps_tree t → (height t < fuel)%nat →
  ∀ l2 l1 n u w, rep t w → along d (inorder t) = l1 ++ l2 → (length l2 < n)%nat →
  ∃ w', loop n (foreach_body body (neighbour d fuel)) (head l2, u) w =
    Ok (foldl (λ u e, f e u) u l2, w') ∧ rep t w'.
Proof.
  intros Hbody Hh. induction l2 as [|e l2 IH]; intros l1 [|n] u w Hrep E Hn; cbn in Hn; try lia.
  { exists w. split; [by apply loop_last|done]. }
  destruct (Hbody e u w Hrep) as (w1 & E1 & Hrep1).
  { rewrite <-(elem_of_along d), E. set_solver. }
  pose proof (neighbour_along d fuel t w1 l1 e l2 Hrep1 Hh E) as E2.
  destruct (IH (l1 ++ [e]) n (f e u) w1 Hrep1) as (w' & E' & Hrep');
    [by rewrite <-app_assoc|lia|].
  exists w'. split; [|done]. cbn [head].
  rewrite (loop_next _ _ _ (head l2, f e u) _ w1); [exact E'|]. cbn.
  by rewrite (st_bind_ok _ _ _ _ _ E1), (st_bind_ok _ _ _ _ _ E2).
Qed.

(** That of a safe one may also take the element it is called on out of the
    tree: it leaves those that [keep] selects. *)
Context (keep : nat → bool).
Definition kept (e : nat) : list nat := if keep e then [e] else [].
Definition may_remove (n : nat) : Prop :=
  ∀ e u t w l1 l2, rep t w → redblack t → (length (inorder t) ≤ n)%nat →
  inorder t = l1 ++ e :: l2 →
  ∃ t' w', body e u w = Ok (f e u, w') ∧ rep t' w' ∧ redblack t' ∧
    inorder t' = l1 ++ kept e ++ l2.

Lemma may_remove_along n d : may_remove n →
  ∀ e u t w l1 l2, rep t w → redblack t → (length (inorder t) ≤ n)%nat →
  along d (inorder t) = l1 ++ e :: l2 →
  ∃ t' w', body e u w = Ok (f e u, w') ∧ rep t' w' ∧ redblack t' ∧
    along d (inorder t') = l1 ++ kept e ++ l2.
Proof.
  intros Hb e u t w l1 l2 Hrep Hrb Hn E%along_flip. rewrite along_pivot in E.
  destruct d; (destruct (Hb e u t w _ _ Hrep Hrb Hn E) as (t' & w' & E' & Hrep' & Hrb' & Ei)).
  all: exists t', w'; split_and!; try done.
  all: cbn [along]; rewrite Ei.
  rewrite !reverse_app, !reverse_involutive, <-app_assoc. do 2 f_equal. unfold kept. by destruct (keep e).
Qed.

Lemma foreach_safe_loop N d :
  may_remove N → (2 * Nat.log2 (S N) < fuel)%nat →
  ∀ l2 l1 t n u w, rep t w → redblack t → (length (inorder t) ≤ N)%nat →
  along d (inorder t) = l1 ++ l2 → (length l2 < n)%nat →
  ∃ t' w', loop n (foreach_safe_body body (neighbour d fuel)) (head l2, u) w =
      Ok (foldl (λ u e, f e u) u l2, w') ∧ rep t' w' ∧ redblack t' ∧
    along d (inorder t') = l1 ++ List.filter keep l2.
Proof.
  intros Hbody Hfuel. induction l2 as [|e l2 IH]; intros l1 t [|n] u w Hrep Hrb HN E Hn;
    cbn in Hn; try lia.
  { exists t, w. split_and!; [by apply loop_last|done..]. }
  assert (Hh : (height t < fuel)%nat).
  { pose proof (redblack_height t Hrb) as Hh.
    pose proof (Nat.log2_le_mono (S (length (inorder t))) (S N)). lia. }
  pose proof (neighbour_along d fuel t w l1 e l2 Hrep Hh E) as E1.
  destruct (may_remove_along N d Hbody e u t w l1 l2 Hrep Hrb HN E)
    as (t1 & w1 & E2 & Hrep1 & Hrb1 & Ei).
  destruct (IH (l1 ++ kept e) t1 n (f e u) w1) as (t' & w' & E' & Hrep' & Hrb' & Ei');
    [done|done| |by rewrite <-app_assoc|lia|].
  { assert (∀ l, length (along d l) = length l) as Hlen.
    { intros l. destruct d; cbn; [apply length_reverse|done]. }
    rewrite <-Hlen, Ei. rewrite <-Hlen, E in HN. rewrite !length_app in *. cbn in HN.
    unfold kept. destruct (keep e); cbn; lia. }
  exists t', w'. split_and!; [|done|done|].
  - cbn [head]. rewrite (loop_next _ _ _ (head l2, f e u) _ w1); [exact E'|]. cbn.
    by rewrite (st_bind_ok _ _ _ _ _ E1), (st_bind_ok _ _ _ _ _ E2).
  - rewrite Ei'. unfold kept. cbn [List.filter]. rewrite <-app_assoc. by destruct (keep e).
Qed.

(** With enough fuel for every element, the loops call their body once on
    every element of the tree, [RB_FOREACH] in the order of the keys and
    [RB_FOREACH_REVERSE] against it, if the body leaves the tree alone; it may
    write other memory. *)
Lemma RB_FOREACH_correct t u w :
  keeps_tree t → rep t w → (height t < fuel)%nat → (length (inorder t) < fuel)%nat →
  (∃ w', RB_FOREACH fuel body u w = Ok (foldl (λ u e, f e u) u (inorder t), w') ∧ rep t w') ∧
  (∃ w', RB_FOREACH_REVERSE fuel body u w =
     Ok (foldl (λ u e, f e u) u (reverse (inorder t)), w') ∧ rep t w').
Proof.
  intros Hb Hrep Hh Hf.
  assert (∀ d val, (val < 0 ↔ flip d = DL) →
    ∃ w', (x ← RB_MINMAX fuel val; loop fuel (foreach_body body (neighbour d fuel)) (x, u)) w =
      Ok (foldl (λ u e, f e u) u (along d (inorder t)), w') ∧ rep t w') as H.
  { intros d val Hv. rewrite (st_bind_ok _ _ _ _ _ (minmax_ok (flip d) val fuel t w Hrep Hh Hv)).
    rewrite outer_along. apply (foreach_loop d t Hb Hh _ []); [done|done|].
    destruct d; cbn; [by rewrite length_reverse|done]. }
  split; [by apply (H DR)|by apply (H DL)].
Qed.

(** C23. The safe loops also call their body once on every element of the
    tree, in order or against it, when the body takes elements out (and frees
    them): the tree that remains is red-black and has the others, in order. *)
Theorem RB_FOREACH_SAFE_correct t u w :
  may_remove (length (inorder t)) → rep t w → redblack t → (length (inorder t) < fuel)%nat →
  (2 * Nat.log2 (S (length (inorder t))) < fuel)%nat →
  (∃ t' w', RB_FOREACH_SAFE fuel body u w = Ok (foldl (λ u e, f e u) u (inorder t), w') ∧
     rep t' w' ∧ redblack t' ∧ inorder t' = List.filter keep (inorder t)) ∧
  (∃ t' w', RB_FOREACH_REVERSE_SAFE fuel body u w =
       Ok (foldl (λ u e, f e u) u (reverse (inorder t)), w') ∧
     rep t' w' ∧ redblack t' ∧ inorder t' = List.filter keep (inorder t)).
Proof.
  intros Hb Hrep Hrb Hf Hf'. pose proof (redblack_height t Hrb) as Hh.
  assert (∀ d val, (val < 0 ↔ flip d = DL) → ∃ t' w',
    (x ← RB_MINMAX fuel val; loop fuel (foreach_safe_body body (neighbour d fuel)) (x, u)) w =
      Ok (foldl (λ u e, f e u) u (along d (inorder t)), w') ∧
    rep t' w' ∧ redblack t' ∧ along d (inorder t') = List.filter keep (along d (inorder t))) as H.
  { intros d val Hv.
    rewrite (st_bind_ok _ _ _ _ _ (minmax_ok (flip d) val fuel t w Hrep ltac:(lia) Hv)).
    rewrite outer_along. apply (foreach_safe_loop _ d Hb Hf' _ [] t); [done..|].
    destruct d; cbn; [by rewrite length_reverse|done]. }
  split; [by apply (H DR)|].
  destruct (H DL 1) as (t' & w' & E & Hrep' & Hrb' & Ei); [done|].
  exists t', w'. split_and!; [exact E|done..|]. cbn in Ei.
  apply (f_equal reverse) in Ei. unfold reverse in Ei.
  by rewrite <-!List.rev_alt, List.filter_rev, !List.rev_involutive in Ei.
Qed.
End loops.

(** A body that lists the elements and takes [20] out. *)
Definition sweep_keep (e : nat) : bool := negb (e =? 20)%nat.
Definition sweep (e : nat) (u : list nat) : RB (list nat) :=
  if sweep_keep e then mret (e :: u) else RB_REMOVE 8 (Some e);; mret (e :: u).

Lemma sweep_may_remove : may_remove (λ e u, e :: u) sweep sweep_keep 3.
Proof.
  intros e u t w l1 l2 Hrep Hrb Hn E. unfold sweep, kept. destruct (sweep_keep e).
  - exists t, w. by split_and!.
  - pose proof (redblack_height t Hrb). pose proof (Nat.log2_le_mono (S (length (inorder t))) 4).
    destruct (remove_ok 8 e t w l1 l2 Hrep Hrb E) as (t' & w' & E' & ? & ? & ? & _).
    { change (Nat.log2 4) with 2%nat in *. lia. }
    exists t', w'. split_and!; [|done..]. by rewrite (st_bind_ok _ _ _ _ _ E').
Qed.

Lemma RB_FOREACH_SAFE_correct_witness :
  ∃ t' w', RB_FOREACH_SAFE 8 sweep [] rb_demo = Ok ([30; 20; 10]%nat, w') ∧ rep t' w' ∧
    redblack t' ∧ inorder t' = [10; 30]%nat.
Proof.
  apply (RB_FOREACH_SAFE_correct (λ e u, e :: u) 8 sweep sweep_keep demo_tree [] rb_demo
    sweep_may_remove rb_demo_rep demo_redblack); cbn; lia.
Defined.
