(* ===== verification/Splay.v ===== *)
(** * Splay trees: the operations

    Finding, inserting, removing and going through the elements, on top of
    splaying: each changes the shape of the tree, and the list of its elements
    only as it should. *)

From S2P Require Import Prelude RbTree RbShape RbSearch SplayTree SplayShape TreeDemo.

(** ** The code *)
Section code.
Context (cmp : nat → nat → Z) (fuel : nat).
#[local] Abbreviation SPLAY := (SPLAY cmp fuel).

Definition SPLAY_INSERT (elm : nat) : SP (option nat) :=
  let e := Some elm in
  empty ← SPLAY_EMPTY;
  if empty : bool then
    set_SPLAY_RIGHT e None;; set_SPLAY_LEFT e None;;
    set_SPLAY_ROOT e;; mret None
  else
    SPLAY elm;;
    r ← SPLAY_ROOT;
    comp ← compare_at cmp elm r;
    if decide (comp < 0) then
      r ← SPLAY_ROOT; x ← SPLAY_LEFT r; set_SPLAY_LEFT e x;;
      r ← SPLAY_ROOT; set_SPLAY_RIGHT e r;;
      r ← SPLAY_ROOT; set_SPLAY_LEFT r None;;
      set_SPLAY_ROOT e;; mret None
    else if decide (comp > 0) then
      r ← SPLAY_ROOT; x ← SPLAY_RIGHT r; set_SPLAY_RIGHT e x;;
      r ← SPLAY_ROOT; set_SPLAY_LEFT e r;;
      r ← SPLAY_ROOT; set_SPLAY_RIGHT r None;;
      set_SPLAY_ROOT e;; mret None
    else SPLAY_ROOT.

Definition SPLAY_REMOVE (elm : nat) : SP (option nat) :=
  empty ← SPLAY_EMPTY;
  if empty : bool then mret None else
  SPLAY elm;;
  r ← SPLAY_ROOT;
  comp ← compare_at cmp elm r;
  if decide (comp = 0) then
    r ← SPLAY_ROOT;
    l ← SPLAY_LEFT r;
    (if is_null l then
      r ← SPLAY_ROOT; x ← SPLAY_RIGHT r; set_SPLAY_ROOT x
    else
      r ← SPLAY_ROOT; tmp ← SPLAY_RIGHT r;
      r ← SPLAY_ROOT; x ← SPLAY_LEFT r; set_SPLAY_ROOT x;;
      SPLAY elm;;
      r ← SPLAY_ROOT; set_SPLAY_RIGHT r tmp);;
    mret (Some elm)
  else mret None.

Definition SPLAY_FIND (elm : nat) : SP (option nat) :=
  empty ← SPLAY_EMPTY;
  if empty : bool then mret None else
  SPLAY elm;;
  r ← SPLAY_ROOT;
  comp ← compare_at cmp elm r;
  if decide (comp = 0) then SPLAY_ROOT else mret None.

(** [while (SPLAY_LEFT(elm) != NULL) elm = SPLAY_LEFT(elm)] *)
Definition splay_leftmost_body (elm : option nat) : SP (option nat + option nat) :=
  l ← SPLAY_LEFT elm;
  if is_null l then mret (inr elm) else l ← SPLAY_LEFT elm; mret (inl l).

Definition SPLAY_NEXT (elm : nat) : SP (option nat) :=
  SPLAY elm;;
  r ← SPLAY_RIGHT (Some elm);
  if is_null r then mret None
  else r ← SPLAY_RIGHT (Some elm); loop fuel splay_leftmost_body r.

Definition SPLAY_MIN_MAX (val : Z) : SP (option nat) :=
  SPLAY_MINMAX fuel val;; SPLAY_ROOT.

Definition SPLAY_NEGINF : Z := -1.
Definition SPLAY_INF : Z := 1.
Definition SPLAY_MIN : SP (option nat) :=
  empty ← SPLAY_EMPTY; if empty : bool then mret None else SPLAY_MIN_MAX SPLAY_NEGINF.
Definition SPLAY_MAX : SP (option nat) :=
  empty ← SPLAY_EMPTY; if empty : bool then mret None else SPLAY_MIN_MAX SPLAY_INF.

(** The loop over all elements, its body threading a value of the user's. *)
Definition splay_foreach_body {A} (body : nat → A → SP A) (s : option nat * A) :
    SP (option nat * A + A) :=
  let '(x, u) := s in
  match x with
  | None => mret (inr u)
  | Some e => u ← body e u; x ← SPLAY_NEXT e; mret (inl (x, u))
  end.
Definition SPLAY_FOREACH {A} (body : nat → A → SP A) (u : A) : SP A :=
  x ← SPLAY_MIN; loop fuel (splay_foreach_body body) (x, u).
End code.

(** ** What the operations do *)
Section operations.
Context (cmp : nat → nat → Z) `{!KeyOrder cmp}.

(** In increasing order, the comparisons with a key change sign once. *)
Lemma sorted_cut elm l : sorted cmp l → cut (cmp elm) l.
Proof.
  induction 1 as [|x l _ IH Hx]; constructor; [done|].
  eapply Forall_impl; [exact Hx|]. cbn. intros y Hxy Hle. destruct (decide (cmp elm x = 0)) as [E|E]; [by apply (cmp_zero cmp elm x)|].
  apply (cmp_trans elm x y); [lia|done].
Qed.

(** Splaying with the key of [elm], in the words of the order. *)
Lemma splay_key fuel elm t w :
  srep t w → t ≠ Leaf → sorted cmp (inorder t) → (height t < fuel)%nat →
  ∃ c l a r w', SPLAY cmp fuel elm w = Ok (tt, w') ∧ srep (Node c l a r) w' ∧
    inorder t = inorder l ++ a :: inorder r ∧
    Forall (λ x, 0 < cmp elm x) (inorder l) ∧ Forall (λ x, cmp elm x < 0) (inorder r) ∧
    off (inorder t) (sp_nodes w) (sp_nodes w').
Proof.
  intros Hw Hne Hs Hf.
  destruct (splay_ok cmp elm fuel t w Hw Hne (sorted_cut _ _ Hs) Hf) as (t' & w' & E & Hw' & Ei & Hd & Ho).
  destruct t' as [|c l a r]; [done|]. destruct Hd as [Hl Hr]. exists c, l, a, r, w'.
  split_and!; [done..| | |done]; (eapply Forall_impl; [eassumption|]); cbn; lia.
Qed.

(** The head after splaying decides. *)
Lemma find_divided elm l a r :
  Forall (λ x, 0 < cmp elm x) l → Forall (λ x, cmp elm x < 0) r →
  List.find (same_key cmp elm) (l ++ a :: r) = if decide (cmp elm a = 0) then Some a else None.
Proof.
  intros Hl Hr. rewrite find_skip; [cbn|].
  - unfold same_key at 1. case_decide as E; [by rewrite E|].
    rewrite (proj2 (Z.eqb_neq _ _)) by done. apply find_none.
    eapply Forall_impl; [exact Hr|]. intros x. unfold same_key. cbn. lia.
  - eapply Forall_impl; [exact Hl|]. intros x. unfold same_key. cbn. lia.
Qed.

Lemma empty_ok t w : srep t w → SPLAY_EMPTY w = Ok (is_null (root t), w).
Proof. intros (_ & Hr & _). unfold SPLAY_EMPTY. by rewrite (st_bind_ok _ _ _ _ _ (root_ok w)), Hr. Qed.

Lemma srep_leaf w : srep Leaf w ↔ sph_root w = None.
Proof. split; [by intros (_ & ? & _)|]. intros E. split_and!; [done|done|constructor]. Qed.

(** [SPLAY_FIND] gives the element with the key of [elm], if there is one,
    and brings it to the root; the elements stay the same, in the same order,
    and no memory outside of the tree changes.  The loop is left after at most
    as many turns as there are elements. *)
Lemma SPLAY_FIND_correct fuel elm t w :
  srep t w → sorted cmp (inorder t) → (length (inorder t) < fuel)%nat →
  ∃ t' w', SPLAY_FIND cmp fuel elm w = Ok (List.find (same_key cmp elm) (inorder t), w') ∧
    srep t' w' ∧ inorder t' = inorder t ∧ off (inorder t) (sp_nodes w) (sp_nodes w') ∧
    ∀ x, List.find (same_key cmp elm) (inorder t) = Some x → root t' = Some x.
Proof.
  intros Hw Hs Hf. pose proof (height_le t). unfold SPLAY_FIND.
  rewrite (st_bind_ok _ _ _ _ _ (empty_ok _ _ Hw)). destruct t as [|c0 l0 a0 r0] eqn:Et.
  { exists Leaf, w. split_and!; [done|done|done|apply off_refl|done]. }
  cbn [root]. rewrite is_null_some, <-Et in *.
  destruct (splay_key fuel elm t w Hw) as (c & l & a & r & w' & E & Hw' & Ei & Hl & Hr & Ho);
    [by rewrite Et|done|lia|].
  rewrite (st_bind_ok _ _ _ _ _ E), (st_bind_ok _ _ _ _ _ (root_ok w')), Ei, (find_divided _ _ _ _ Hl Hr).
  exists (Node c l a r), w'. rewrite (proj1 (proj2 Hw')). cbn [root].
  rewrite (st_bind_ok (compare_at cmp elm (Some a)) _ w' (cmp elm a) w' eq_refl).
  rewrite <-Ei. split_and!; [|done|by rewrite Ei|done|by case_decide].
  case_decide; [|done]. by rewrite root_ok, (proj1 (proj2 Hw')).
Qed.

(** ** Insertion *)

(** The two mirrored cases: the new element becomes the root, above the old
    one. *)
Definition put_above (d : dir) (elm : nat) : SP (option nat) :=
  let e := Some elm in
  r ← SPLAY_ROOT; x ← sp_rd (sp_child d) r; sp_wr (with_sp_child d x) e;;
  r ← SPLAY_ROOT; sp_wr (with_sp_child (flip d) r) e;;
  r ← SPLAY_ROOT; sp_wr (with_sp_child d None) r;;
  set_SPLAY_ROOT e;; mret None.

Lemma put_above_ok d elm c t a s w :
  srep (mk d c t a s) w → is_Some (sp_nodes w !! elm) → elm ∉ a :: inorder t ++ inorder s →
  ∃ w', put_above d elm w = Ok (None, w') ∧ srep (mk d c t elm (mk d c Leaf a s)) w' ∧
    off (elm :: inorder (mk d c t a s)) (sp_nodes w) (sp_nodes w').
Proof.
  intros (Ht & Hr & Hnd) [n En] Hn. apply sown_mk in Ht as (Ea & Ht & Hs).
  rewrite inorder_mk in Hnd. rewrite root_mk in Hr.
  set (h1 := <[elm := with_sp_child d (root t) n]> (sp_nodes w)).
  set (h2 := <[elm := slinks d (root t) (Some a)]> h1).
  set (h3 := <[a := slinks d None (root s)]> h2).
  assert (E1 : h1 !! elm = Some (with_sp_child d (root t) n)) by apply lookup_insert_eq.
  assert (E2 : h2 !! a = Some (slinks d (root t) (root s))).
  { unfold h2, h1. by rewrite !lookup_insert_ne by set_solver. }
  exists (SpState (Some elm) h3). split_and!.
  - unfold put_above. rewrite (st_bind_ok _ _ _ _ _ (root_ok w)), Hr.
    rewrite (st_bind_ok _ _ _ _ _ (sp_rd_ok _ a _ w Ea)), slinks_child.
    rewrite (st_bind_ok _ _ _ _ _ (sp_wr_ok _ elm _ w En)). fold h1.
    rewrite (st_bind_ok _ _ _ _ _ (root_ok _)). cbn [sph_root set_sp_nodes]. rewrite Hr.
    rewrite (st_bind_ok _ _ _ _ _ (sp_wr_ok _ elm _ (set_sp_nodes h1 w) E1)).
    replace (with_sp_child (flip d) (Some a) (with_sp_child d (root t) n))
      with (slinks d (root t) (Some a)) by (by destruct d, n).
    cbn [sp_nodes set_sp_nodes]. fold h2.
    rewrite (st_bind_ok _ _ _ _ _ (root_ok _)). cbn [sph_root set_sp_nodes]. rewrite Hr.
    rewrite (st_bind_ok _ _ _ _ _ (sp_wr_ok _ a _ (set_sp_nodes h2 (set_sp_nodes h1 w)) E2)).
    by rewrite slinks_with_child.
  - nodup_in Hnd. split_and!; cbn [sp_nodes sph_root].
    + apply sown_mk. rewrite root_mk. split_and!.
      * unfold h3. rewrite lookup_insert_ne by set_solver. apply lookup_insert_eq.
      * apply sown_insert; [nd|]. apply sown_insert; [nd|]. apply sown_insert; [nd|done].
      * apply sown_mk. split_and!; [apply lookup_insert_eq|done|].
        apply sown_insert; [nd|]. apply sown_insert; [nd|]. apply sown_insert; [nd|done].
    + by rewrite root_mk.
    + rewrite !inorder_mk. cbn. rewrite <-Permutation_middle. nodup_in Hn.
      rewrite !NoDup_cons, !NoDup_app, !not_elem_of_cons, !not_elem_of_app. tauto.
  - intros x Hx. rewrite inorder_mk in Hx. cbn. unfold h3, h2, h1.
    by rewrite !lookup_insert_ne by set_solver.
Qed.

Lemma sorted_insert elm l a r : sorted cmp (l ++ a :: r) →
  Forall (λ x, 0 < cmp elm x) l → Forall (λ x, cmp elm x < 0) r →
  (cmp elm a < 0 → sorted cmp (l ++ elm :: a :: r)) ∧
  (cmp elm a > 0 → sorted cmp (l ++ a :: elm :: r)).
Proof.
  intros (Hsl & Hsr & Hla & Har & Hlr)%sorted_app Hl Hr.
  assert (Hl' : Forall (λ x, cmp x elm < 0) l).
  { eapply Forall_impl; [exact Hl|]. cbn. intros x. apply cmp_gt; apply _. }
  assert (Hcross : ∀ b x y, Forall (λ x, cmp x b < 0) l → x ∈ l → y ∈ b :: r → cmp x y < 0).
  { intros b x y Hb Hx [->|Hy]%elem_of_cons; [|by apply Hlr].
    rewrite Forall_forall in Hb. by apply Hb. }
  split; intros Ha; apply sorted_app; split_and!; try done.
  - by constructor.
  - by constructor.
  - intros x y. by apply Hcross.
  - by constructor.
  - constructor; [|done]. by apply (cmp_gt cmp), Z.gt_lt.
  - intros x y. by apply Hcross.
Qed.

Lemma insert_first fuel elm w :
  sph_root w = None → is_Some (sp_nodes w !! elm) →
  ∃ w', SPLAY_INSERT cmp fuel elm w = Ok (None, w') ∧ srep (Node RB_BLACK Leaf elm Leaf) w' ∧
    off [elm] (sp_nodes w) (sp_nodes w').
Proof.
  intros Er [n En]. set (h1 := <[elm := with_spe_right None n]> (sp_nodes w)).
  assert (E1 : h1 !! elm = Some (with_spe_right None n)) by apply lookup_insert_eq.
  exists (SpState (Some elm) (<[elm := SpNode None None]> h1)). split_and!.
  - unfold SPLAY_INSERT. rewrite (st_bind_ok _ _ _ _ _ (empty_ok Leaf w (proj2 (srep_leaf w) Er))).
    cbn [root]. rewrite is_null_none. unfold set_SPLAY_RIGHT, set_SPLAY_LEFT.
    rewrite (st_bind_ok _ _ _ _ _ (sp_wr_ok _ elm _ w En)). fold h1.
    by rewrite (st_bind_ok _ _ _ _ _ (sp_wr_ok _ elm _ (set_sp_nodes h1 w) E1)).
  - split_and!; [by split_and!; [apply lookup_insert_eq|..]|done|apply NoDup_singleton].
  - intros x Hx. cbn. unfold h1. by rewrite !lookup_insert_ne by set_solver.
Qed.

(** C25. Insertion of an element that is not in it into a splay tree: if there is an element with the same
    key, it is returned and the elements stay as they are (in a tree of another
    shape); otherwise the element becomes the root, at its place in the order,
    and NULL is returned.  No other element of memory is written. *)
Theorem SPLAY_INSERT_correct fuel elm t w :
  srep t w → sorted cmp (inorder t) → (length (inorder t) < fuel)%nat →
  is_Some (sp_nodes w !! elm) → elm ∉ inorder t →
  (∃ x t' w', SPLAY_INSERT cmp fuel elm w = Ok (Some x, w') ∧ x ∈ inorder t ∧ cmp elm x = 0 ∧
     srep t' w' ∧ inorder t' = inorder t ∧ off (inorder t) (sp_nodes w) (sp_nodes w')) ∨
  (∃ t' w' l1 l2, SPLAY_INSERT cmp fuel elm w = Ok (None, w') ∧
     (∀ x, x ∈ inorder t → cmp elm x ≠ 0) ∧ srep t' w' ∧ root t' = Some elm ∧
     inorder t = l1 ++ l2 ∧ inorder t' = l1 ++ elm :: l2 ∧ sorted cmp (inorder t') ∧
     off (elm :: inorder t) (sp_nodes w) (sp_nodes w')).
Proof.
  intros Hw Hs Hf Helm Hnot. pose proof (height_le t). destruct t as [|c0 l0 a0 r0] eqn:Et.
  { right. destruct (insert_first fuel elm w) as (w' & E & Hw' & Ho); [exact (proj1 (srep_leaf w) Hw)|done|].
    exists (Node RB_BLACK Leaf elm Leaf), w', [], []. split_and!; try done; [set_solver|].
    by repeat constructor. }
  rewrite <-Et in *.
  destruct (splay_key fuel elm t w Hw) as (c & l & a & r & w1 & E & Hw1 & Ei & Hl & Hr & Ho);
    [by rewrite Et|done|lia|].
  assert (Helm1 : is_Some (sp_nodes w1 !! elm)) by (by rewrite Ho).
  assert (EI : SPLAY_INSERT cmp fuel elm w =
    (if decide (cmp elm a < 0) then put_above DL elm else
     if decide (cmp elm a > 0) then put_above DR elm else SPLAY_ROOT) w1).
  { unfold SPLAY_INSERT. rewrite (st_bind_ok _ _ _ _ _ (empty_ok _ _ Hw)), Et. cbn [root].
    rewrite is_null_some, (st_bind_ok _ _ _ _ _ E), (st_bind_ok _ _ _ _ _ (root_ok w1)).
    by rewrite (proj1 (proj2 Hw1)). }
  rewrite EI, Ei in *. destruct (sorted_insert elm _ _ _ Hs Hl Hr) as [Hlt Hgt].
  assert (Hkey : cmp elm a ≠ 0 → ∀ x, x ∈ inorder l ++ a :: inorder r → cmp elm x ≠ 0).
  { intros Ha x. rewrite Forall_forall in Hl. rewrite Forall_forall in Hr.
    intros [Hx%Hl|[->|Hx%Hr]%elem_of_cons]%elem_of_app; lia. }
  destruct (decide (cmp elm a < 0)) as [H1|H1].
  { right. destruct (put_above_ok DL elm c l a r w1 Hw1 Helm1) as (w' & E' & Hw' & Ho'); [set_solver|].
    exists (mk DL c l elm (mk DL c Leaf a r)), w', (inorder l), (a :: inorder r).
    split_and!; try done; [apply Hkey; lia|by apply Hlt|].
    eapply off_trans; [|exact Ho']. apply (off_sub (inorder l ++ a :: inorder r)); [done|set_solver]. }
  destruct (decide (cmp elm a > 0)) as [H2|H2].
  { right. destruct (put_above_ok DR elm c r a l w1 Hw1 Helm1) as (w' & E' & Hw' & Ho'); [set_solver|].
    exists (mk DR c r elm (mk DR c Leaf a l)), w', (inorder l ++ [a]), (inorder r).
    split_and!; try done; [apply Hkey; lia|by rewrite <-app_assoc|app_norm; exact (Hgt H2)|].
    eapply off_trans; [|exact Ho']. apply (off_sub (inorder l ++ a :: inorder r)); [done|set_solver]. }
  left. exists a, (Node c l a r), w1. rewrite root_ok, (proj1 (proj2 Hw1)).
  split_and!; try done; [set_solver|lia].
Qed.

(** ** Removal *)

(** The left subtree, splayed, gets the right one below its root, which has
    nothing to its right. *)
Definition join (fuel elm : nat) : SP unit :=
  r ← SPLAY_ROOT; tmp ← SPLAY_RIGHT r;
  r ← SPLAY_ROOT; x ← SPLAY_LEFT r; set_SPLAY_ROOT x;;
  SPLAY cmp fuel elm;;
  r ← SPLAY_ROOT; set_SPLAY_RIGHT r tmp.

Lemma join_ok fuel elm c l a r w :
  srep (Node c l a r) w → l ≠ Leaf → sorted cmp (inorder l) →
  Forall (λ x, 0 < cmp elm x) (inorder l) → (height l < fuel)%nat →
  ∃ t' w', join fuel elm w = Ok (tt, w') ∧ srep t' w' ∧ inorder t' = inorder l ++ inorder r ∧
    off (inorder (Node c l a r)) (sp_nodes w) (sp_nodes w').
Proof.
  intros ((Ea & Hl & Hr) & Hrt & Hnd) Hne Hs Hk Hf. cbn in Hrt, Hnd.
  apply NoDup_app in Hnd as (Hnl & Hsep & Hnr). apply NoDup_cons in Hnr as [Har Hnr].
  destruct (splay_key fuel elm l (with_sph_root (root l) w))
    as (c2 & l2 & b & r2 & w1 & E & ((Eb & Hl2 & _) & Hrt1 & Hnd1) & Ei & _ & Hr2 & Ho); [done..|].
  destruct r2 as [|c3 l3 e r3].
  2: { rewrite Ei in Hk. cbn in Hk, Hr2. rewrite Forall_forall in Hk. rewrite Forall_forall in Hr2.
       assert (0 < cmp elm e) by (apply Hk; set_solver). assert (cmp elm e < 0) by (apply Hr2; set_solver).
       lia. }
  cbn [root] in *. assert (Hin2 : b ∈ inorder l ∧ inorder l2 ⊆ inorder l) by (rewrite Ei; set_solver).
  assert (Hb2 : b ∉ inorder l2).
  { cbn in Hnd1. apply NoDup_app in Hnd1 as (_ & Hd & _). intros Hb. apply (Hd b); [done|left]. }
  set (w2 := set_sp_nodes (<[b := SpNode (root l2) (root r)]> (sp_nodes w1)) w1).
  exists (Node c2 l2 b r), w2. split_and!.
  - unfold join. rewrite (st_bind_ok _ _ _ _ _ (root_ok w)), Hrt.
    unfold SPLAY_RIGHT, SPLAY_LEFT, set_SPLAY_RIGHT.
    rewrite (st_bind_ok _ _ _ _ _ (sp_rd_ok _ a _ w Ea)), (st_bind_ok _ _ _ _ _ (root_ok w)), Hrt.
    rewrite (st_bind_ok _ _ _ _ _ (sp_rd_ok _ a _ w Ea)). cbn [spe_left spe_right].
    rewrite (st_bind_ok (set_SPLAY_ROOT (root l)) _ w tt (with_sph_root (root l) w)) by done.
    rewrite (st_bind_ok _ _ _ _ _ E), (st_bind_ok _ _ _ _ _ (root_ok w1)), Hrt1.
    exact (sp_wr_ok _ b _ w1 Eb).
  - split_and!; [split_and!|done|].
    + apply lookup_insert_eq.
    + by apply sown_insert.
    + apply sown_insert; [intros Hb; destruct (Hsep b (proj1 Hin2)); by right|].
      apply (sown_agree (sp_nodes w)); [|done]. apply (off_agree _ _ _ _ Ho).
      intros x Hx Hx'. destruct (Hsep x Hx'). by right.
    + cbn. rewrite Ei in Hnl, Hsep. cbn in Hnl.
      apply NoDup_app in Hnl as (Hn1 & Hn2 & _). apply NoDup_app. split_and!; [done| |].
      * intros x Hx Hx'. apply (Hsep x); [set_solver|]. apply elem_of_cons in Hx' as [->|?]; [|by right].
        by destruct Hb2.
      * apply NoDup_cons. split; [|done]. intros Hb. apply (Hsep b); [set_solver|by right].
  - rewrite Ei. cbn. by app_norm.
  - intros x Hx. cbn in Hx |- *. rewrite lookup_insert_ne by set_solver. apply Ho. set_solver.
Qed.

(** C26. Removal from a splay tree: if there is an element with the key of
    [elm], that element is taken out, the others stay in order, and [elm] is
    returned; otherwise the elements stay as they are and NULL is returned. *)
Theorem SPLAY_REMOVE_correct fuel elm t w :
  srep t w → sorted cmp (inorder t) → (length (inorder t) < fuel)%nat →
  (∃ t' w' l1 x l2, SPLAY_REMOVE cmp fuel elm w = Ok (Some elm, w') ∧ srep t' w' ∧
     inorder t = l1 ++ x :: l2 ∧ cmp elm x = 0 ∧ inorder t' = l1 ++ l2 ∧
     off (inorder t) (sp_nodes w) (sp_nodes w')) ∨
  (∃ t' w', SPLAY_REMOVE cmp fuel elm w = Ok (None, w') ∧ srep t' w' ∧
     (∀ x, x ∈ inorder t → cmp elm x ≠ 0) ∧ inorder t' = inorder t ∧
     off (inorder t) (sp_nodes w) (sp_nodes w')).
Proof.
  intros Hw Hs Hf. pose proof (height_le t). unfold SPLAY_REMOVE.
  rewrite (st_bind_ok _ _ _ _ _ (empty_ok _ _ Hw)). destruct t as [|c0 l0 a0 r0] eqn:Et.
  { right. exists Leaf, w. split_and!; try done. intros x ?%elem_of_nil. done. }
  cbn [root]. rewrite is_null_some, <-Et in *.
  destruct (splay_key fuel elm t w Hw) as (c & l & a & r & w1 & E & Hw1 & Ei & Hl & Hr & Ho);
    [by rewrite Et|done|lia|].
  pose proof Hw1 as ((Ea & Hol & Hor) & Hrt & Hnd). cbn in Hrt, Hnd.
  rewrite (st_bind_ok _ _ _ _ _ E), (st_bind_ok _ _ _ _ _ (root_ok w1)), Hrt.
  rewrite (st_bind_ok (compare_at cmp elm (Some a)) _ w1 (cmp elm a) w1 eq_refl). case_decide as Hz.
  2: { right. exists (Node c l a r), w1. split_and!; try done. rewrite Ei.
       rewrite Forall_forall in Hl. rewrite Forall_forall in Hr.
       intros x [Hx%Hl|[->|Hx%Hr]%elem_of_cons]%elem_of_app; lia. }
  left. rewrite !(st_bind_ok _ _ _ _ _ (root_ok w1)), Hrt.
  rewrite (st_bind_ok (SPLAY_LEFT (Some a)) _ w1 (root l) w1 (sp_rd_ok _ a _ w1 Ea)).
  destruct l as [|cl ll x lr] eqn:El.
  - cbn [root]. rewrite is_null_none. exists r, (with_sph_root (root r) w1), [], a, (inorder r).
    unfold SPLAY_RIGHT, mbind, st_bind. cbn [root_ok SPLAY_ROOT gets]. rewrite Hrt.
    rewrite (sp_rd_ok _ a _ w1 Ea).
    split_and!; try done. split_and!; try done. by apply NoDup_cons in Hnd as [_ ?].
  - cbn [root]. rewrite is_null_some, <-El in *.
    rewrite Ei in Hs. apply sorted_app in Hs as (Hsl & _).
    assert (Hh : (height l < fuel)%nat).
    { pose proof (height_le l). rewrite Ei, length_app in Hf. lia. }
    destruct (join_ok fuel elm c l a r w1 Hw1) as (t' & w' & E' & Hw' & Ei' & Ho');
      [by rewrite El|done..|].
    exists t', w', (inorder l), a, (inorder r). split_and!; try done.
    + by rewrite (st_bind_ok (join fuel elm) _ w1 tt w' E').
    + eapply off_trans; [exact Ho|]. rewrite Ei. exact Ho'.
Qed.

(** ** Going through the elements *)

Lemma splay_leftmost_ok fuel : ∀ t w,
  sown (sp_nodes w) t → t ≠ Leaf → (height t ≤ fuel)%nat →
  loop fuel splay_leftmost_body (root t) w = Ok (head (inorder t), w).
Proof.
  induction fuel as [|fuel IH]; intros t w Ht Hne Hf; (destruct t as [|c l a r]; [done|]);
    [cbn in Hf; lia|]. destruct Ht as (Ea & Hl & _). cbn [root inorder height] in *.
  assert (E : splay_leftmost_body (Some a) w =
    Ok (if is_null (root l) then inr (Some a) else inl (root l), w)).
  { unfold splay_leftmost_body, SPLAY_LEFT.
    rewrite (st_bind_ok _ _ _ _ _ (sp_rd_ok _ a _ w Ea)). cbn [spe_left]. destruct (is_null _); [done|].
    by rewrite (st_bind_ok _ _ _ _ _ (sp_rd_ok _ a _ w Ea)). }
  destruct l as [|cl ll x lr] eqn:El; [by apply loop_last|].
  rewrite (loop_next _ _ _ _ _ _ E), <-El in *. rewrite IH; [|done|by rewrite El|lia].
  rewrite El. cbn. by destruct (inorder ll).
Qed.

Lemma next_ok fuel elm t w l1 l2 :
  srep t w → sorted cmp (inorder t) → (length (inorder t) < fuel)%nat → inorder t = l1 ++ elm :: l2 →
  ∃ t' w', SPLAY_NEXT cmp fuel elm w = Ok (head l2, w') ∧ srep t' w' ∧ inorder t' = inorder t.
Proof.
  intros Hw Hs Hf Eelm. pose proof (height_le t).
  destruct (splay_key fuel elm t w Hw) as (c & l & a & r & w1 & E & Hw1 & Ei & Hl & Hr & Ho);
    [intros ->; by destruct l1|done|lia|].
  assert (a = elm) as ->.
  { assert (Hin : elm ∈ inorder l ++ a :: inorder r) by (rewrite <-Ei, Eelm; set_solver).
    rewrite Forall_forall in Hl. rewrite Forall_forall in Hr.
    pose proof (cmp_irrefl cmp elm). pose proof (cmp_gt cmp elm elm).
    apply elem_of_app in Hin as [?%Hl|[->|?%Hr]%elem_of_cons]; [tauto|done|tauto]. }
  pose proof Hw1 as ((Ea & _ & Hor) & _ & Hnd). cbn [inorder] in Hnd. rewrite <-Ei, Eelm in Hnd.
  rewrite Ei in Eelm. destruct (nodup_pivot _ _ _ _ _ Hnd Eelm) as [<- <-].
  exists (Node c l elm r), w1. split_and!; [|done|done].
  unfold SPLAY_NEXT, SPLAY_RIGHT. rewrite (st_bind_ok _ _ _ _ _ E).
  rewrite (st_bind_ok _ _ _ _ _ (sp_rd_ok _ elm _ w1 Ea)). cbn [spe_right].
  destruct (is_null (root r)) eqn:En; [by destruct r|].
  rewrite (st_bind_ok _ _ _ _ _ (sp_rd_ok _ elm _ w1 Ea)). cbn [spe_right].
  apply splay_leftmost_ok; [done|by intros ->|]. pose proof (height_le r).
  rewrite Ei, length_app in Hf. cbn in Hf. lia.
Qed.

Lemma min_max_ok d val fuel t w :
  srep t w → t ≠ Leaf → to d val → (height t < fuel)%nat →
  ∃ t' w', SPLAY_MIN_MAX fuel val w = Ok (outer d (inorder t), w') ∧ srep t' w' ∧
    inorder t' = inorder t ∧ off (inorder t) (sp_nodes w) (sp_nodes w').
Proof.
  intros Hw Hne Hd Hf. destruct (splay_minmax_ok d val fuel t w Hw Hne Hd Hf)
    as (t' & w' & E & Hw' & Ei & Hdiv & Ho).
  exists t', w'. split_and!; [|done..]. unfold SPLAY_MIN_MAX.
  rewrite (st_bind_ok _ _ _ _ _ E), root_ok, <-Ei, (proj1 (proj2 Hw')).
  destruct t' as [|c l a r]; [done|]. destruct Hdiv as [Hl Hr]. destruct d; cbn in *.
  - destruct Hl as [|x l' Hx]; [done|lia].
  - destruct Hr as [|x r' Hx]; [by rewrite last_app|lia].
Qed.

(** [SPLAY_MIN] and [SPLAY_MAX] give the first and the last element, NULL
    from an empty tree, and [SPLAY_NEXT] the element that follows one of the
    tree, NULL after the last; the elements stay as they are. *)
Lemma splay_neighbours fuel t w :
  srep t w → sorted cmp (inorder t) → (length (inorder t) < fuel)%nat →
  (∃ t' w', SPLAY_MIN fuel w = Ok (head (inorder t), w') ∧ srep t' w' ∧ inorder t' = inorder t) ∧
  (∃ t' w', SPLAY_MAX fuel w = Ok (last (inorder t), w') ∧ srep t' w' ∧ inorder t' = inorder t) ∧
  (∀ l1 elm l2, inorder t = l1 ++ elm :: l2 →
     ∃ t' w', SPLAY_NEXT cmp fuel elm w = Ok (head l2, w') ∧ srep t' w' ∧ inorder t' = inorder t).
Proof.
  intros Hw Hs Hf. pose proof (height_le t).
  split_and!; [| |by intros; eapply next_ok].
  all: unfold SPLAY_MIN, SPLAY_MAX; rewrite (st_bind_ok _ _ _ _ _ (empty_ok _ _ Hw)).
  all: destruct t as [|c l a r] eqn:Et; [by exists Leaf, w|]; cbn [root]; rewrite is_null_some, <-Et in *.
  - destruct (min_max_ok DL SPLAY_NEGINF fuel t w Hw) as (t' & w' & E & Hw' & Ei & _);
      [by rewrite Et|done|lia|by exists t', w'].
  - destruct (min_max_ok DR SPLAY_INF fuel t w Hw) as (t' & w' & E & Hw' & Ei & _);
      [by rewrite Et|done|lia|by exists t', w'].
Qed.

Section foreach.
Context {A : Type} (f : nat → A → A) (fuel : nat) (body : nat → A → SP A) (L : list nat).

(** A body that may splay, and change other memory, but keeps the elements. *)
Definition keeps_elements : Prop :=
  ∀ e u t w, srep t w → inorder t = L → e ∈ L →
  ∃ t' w', body e u w = Ok (f e u, w') ∧ srep t' w' ∧ inorder t' = L.

Lemma splay_foreach_loop : keeps_elements → sorted cmp L → (length L < fuel)%nat →
  ∀ l2 l1 t w u n, srep t w → inorder t = L → L = l1 ++ l2 → (length l2 < n)%nat →
  ∃ t' w', loop n (splay_foreach_body cmp fuel body) (head l2, u) w =
    Ok (foldl (λ u e, f e u) u l2, w') ∧ srep t' w' ∧ inorder t' = L.
Proof.
  intros Hbody Hs Hf. induction l2 as [|e l2 IH]; intros l1 t w u [|n] Hw Ei EL Hn; cbn in Hn; try lia.
  { exists t, w. split_and!; [by apply loop_last|done..]. }
  destruct (Hbody e u t w Hw Ei) as (t1 & w1 & E1 & Hw1 & Ei1); [rewrite EL; set_solver|].
  destruct (next_ok fuel e t1 w1 l1 l2 Hw1) as (t2 & w2 & E2 & Hw2 & Ei2); [by rewrite Ei1..|].
  destruct (IH (l1 ++ [e]) t2 w2 (f e u) n Hw2) as (t' & w' & E' & Hw' & Ei');
    [congruence|by rewrite <-app_assoc|lia|].
  exists t', w'. split_and!; [|done..]. cbn [head].
  rewrite (loop_next _ _ _ (head l2, f e u) _ w2); [exact E'|]. cbn.
  by rewrite (st_bind_ok _ _ _ _ _ E1), (st_bind_ok _ _ _ _ _ E2).
Qed.

(** [SPLAY_FOREACH] calls its body once on every element, in order, though
    every step to the next one changes the shape of the tree, and so may the
    body. *)
Lemma SPLAY_FOREACH_correct t u w :
  keeps_elements → srep t w → inorder t = L → sorted cmp L → (length L < fuel)%nat →
  ∃ t' w', SPLAY_FOREACH cmp fuel body u w = Ok (foldl (λ u e, f e u) u L, w') ∧
    srep t' w' ∧ inorder t' = L.
Proof.
  intros Hb Hw Ei Hs Hf. unfold SPLAY_FOREACH, SPLAY_MIN. pose proof (height_le t).
  unfold mbind at 1, st_bind at 1. rewrite (st_bind_ok _ _ _ _ _ (empty_ok _ _ Hw)).
  destruct t as [|c l a r] eqn:Et; cbn [root].
  { rewrite is_null_none. 
    destruct (splay_foreach_loop Hb Hs Hf L [] Leaf w u fuel Hw Ei eq_refl Hf) as (t' & w' & E & Hr).
    exists t', w'. split; [|done]. rewrite <-E. by rewrite <-Ei. }
  rewrite is_null_some, <-Et in *.
  destruct (min_max_ok DL SPLAY_NEGINF fuel t w Hw) as (t1 & w1 & E & Hw1 & Ei1 & _);
    [by rewrite Et|done|rewrite Ei in *; lia|].
  rewrite E, Ei. apply (splay_foreach_loop Hb Hs Hf L [] t1); [done|congruence|done|done].
Qed.
End foreach.
End operations.

(** ** On a small tree *)
Lemma SPLAY_FIND_correct_witness :
  ∃ t' w', SPLAY_FIND demo_cmp 4 30 sp_demo = Ok (Some 30%nat, w') ∧ srep t' w' ∧
    inorder t' = [10; 20; 30]%nat ∧ root t' = Some 30%nat.
Proof.
  destruct (SPLAY_FIND_correct demo_cmp 4 30 demo_tree sp_demo sp_demo_rep demo_sorted ltac:(cbn; lia))
    as (t' & w' & E & Hw & Ei & _ & Hr).
  exists t', w'. split_and!; [exact E|done|done|by apply Hr].
Defined.

Lemma SPLAY_INSERT_correct_witness :
  ∃ t' w', SPLAY_INSERT demo_cmp 4 25 sp_demo = Ok (None, w') ∧ srep t' w' ∧ root t' = Some 25%nat ∧
    sorted demo_cmp (inorder t').
Proof.
  destruct (SPLAY_INSERT_correct demo_cmp 4 25 demo_tree sp_demo sp_demo_rep demo_sorted ltac:(cbn; lia))
    as [(x & t' & w' & E & _)|(t' & w' & l1 & l2 & E & _ & Hw & Hr & _ & _ & Hs & _)].
  - by eexists.
  - set_solver.
  - exfalso. vm_compute in E. discriminate E.
  - by exists t', w'.
Defined.

Lemma SPLAY_REMOVE_correct_witness :
  ∃ t' w' l1 x l2, SPLAY_REMOVE demo_cmp 4 20 sp_demo = Ok (Some 20%nat, w') ∧ srep t' w' ∧
    inorder demo_tree = l1 ++ x :: l2 ∧ demo_cmp 20 x = 0 ∧ inorder t' = l1 ++ l2.
Proof.
  destruct (SPLAY_REMOVE_correct demo_cmp 4 20 demo_tree sp_demo sp_demo_rep demo_sorted ltac:(cbn; lia))
    as [(t' & w' & l1 & x & l2 & E & Hw & Ei & Hx & Ei' & _)|(t' & w' & E & _)].
  - by exists t', w', l1, x, l2.
  - exfalso. vm_compute in E. discriminate E.
Defined.

Lemma SPLAY_FOREACH_correct_witness :
  ∃ t' w', SPLAY_FOREACH demo_cmp 4 (λ e u, mret (e :: u)) [] sp_demo = Ok ([30; 20; 10]%nat, w') ∧
    srep t' w' ∧ inorder t' = [10; 20; 30]%nat.
Proof.
  apply (SPLAY_FOREACH_correct demo_cmp (λ e u, e :: u) 4 (λ e u, mret (e :: u)) [10; 20; 30]%nat demo_tree).
  - intros e u t w Hw Ei _. by exists t, w.
  - exact sp_demo_rep.
  - done.
  - exact demo_sorted.
  - cbn. lia.
Defined.
