(* ===== verification/Endian.v ===== *)
(** * Byte order

    The representation of a 32-bit integer in memory, the promise of the
    byte-order functions [ctb_htonl] and [ctb_ntohl] as an interface, and the
    implementation test/tools/endian.h has of the same functions, which
    discharges that interface. *)

From S2P Require Import Prelude.

(** Network (big-endian) order, the order of the wire. *)
Definition be_bytes (z : Z) : list byte :=
  [z2b (Z.shiftr z 24); z2b (Z.shiftr z 16); z2b (Z.shiftr z 8); z2b z].

Definition be_value (bs : list byte) : Z :=
  foldl (λ acc b, acc * 256 + b2z b) 0 bs.

(** What a [uint32_t] object of value [z] holds, and the value it has when it
    holds [bs], on a little-endian machine or on a big-endian one. *)
Definition store32 (little : bool) (z : Z) : list byte :=
  if little then reverse (be_bytes z) else be_bytes z.
Definition load32 (little : bool) (bs : list byte) : Z :=
  if little then be_value (reverse bs) else be_value bs.

(** The machine and its conversion functions.  [ctb_htonl] and [ctb_ntohl]
    are documented to convert between host and network order: the object that
    holds [ctb_htonl z] has the bytes of [z] in network order, and
    [ctb_ntohl] takes the value of such an object back. *)
Class Endian := {
  little : bool;
  ctb_htonl : Z → Z;
  ctb_ntohl : Z → Z;
  ctb_htonl_spec z : 0 ≤ z < 2 ^ 32 →
    store32 little (ctb_htonl z) = be_bytes z;
  ctb_ntohl_spec bs : length bs = 4%nat →
    ctb_ntohl (load32 little bs) = be_value bs
}.

(** test/tools/endian.h *)
Definition musl_bswap32 (x : Z) : Z :=
  Z.lor (Z.lor (Z.lor (Z.shiftr x 24)
                      (Z.land (Z.shiftr x 8) 0xff00))
               (Z.land (u32 (Z.shiftl x 8)) 0xff0000))
        (u32 (Z.shiftl x 24)).

(** [union { int i; char c } u = {1}]: [u.c] is the first byte of the integer
    one, which is non-zero exactly on a little-endian machine. *)
Definition musl_htonl (little : bool) (n : Z) : Z :=
  let u_c := b2z (default x00 (head (store32 little 1))) in
  if decide (u_c = 0) then n else musl_bswap32 n.
Definition musl_ntohl (little : bool) (n : Z) : Z :=
  let u_c := b2z (default x00 (head (store32 little 1))) in
  if decide (u_c = 0) then n else musl_bswap32 n.

(** ** Big-endian bytes *)
Section be_lemmas.

Lemma be_bytes_length z : length (be_bytes z) = 4%nat.
Proof. done. Qed.

Lemma store32_length l z : length (store32 l z) = 4%nat.
Proof. by destruct l. Qed.

Lemma length_4_inv (bs : list byte) :
  length bs = 4%nat → ∃ a b c d, bs = [a; b; c; d].
Proof.
  destruct bs as [|a [|b [|c [|d [|]]]]]; try done. intros _. by eauto.
Qed.

Lemma be_value_4 a b c d :
  be_value [a; b; c; d] =
    b2z a * 2 ^ 24 + b2z b * 2 ^ 16 + b2z c * 2 ^ 8 + b2z d.
Proof. unfold be_value. simpl. lia. Qed.

Lemma be_value_snoc bs b : be_value (bs ++ [b]) = be_value bs * 256 + b2z b.
Proof. unfold be_value. by rewrite foldl_app. Qed.

Lemma be_value_range bs : 0 ≤ be_value bs < 256 ^ Z.of_nat (length bs).
Proof.
  induction bs as [|b bs IH] using rev_ind; [done|].
  rewrite be_value_snoc, length_app. simpl.
  rewrite Nat2Z.inj_add, Z.pow_add_r by lia. change (256 ^ Z.of_nat 1) with 256.
  pose proof (b2z_range b). nia.
Qed.

(** The value is zero exactly when every byte is. *)
Lemma be_value_zero bs : be_value bs = 0 ↔ Forall (λ b, b = x00) bs.
Proof.
  induction bs as [|b bs IH] using rev_ind.
  { split; [constructor|done]. }
  rewrite be_value_snoc, Forall_app, Forall_singleton.
  pose proof (b2z_range b). pose proof (be_value_range bs).
  split.
  - intros H'. assert (be_value bs = 0) by lia.
    split; [by apply IH|]. apply b2z_inj. change (b2z x00) with 0. lia.
  - intros [H1 ->]. apply IH in H1. change (b2z x00) with 0. lia.
Qed.

Lemma be_value_bytes z : 0 ≤ z < 2 ^ 32 → be_value (be_bytes z) = z.
Proof.
  intros Hz. unfold be_bytes. rewrite be_value_4, !b2z_z2b, !Z.shiftr_div_pow2 by lia.
  dlia.
Qed.

Lemma be_bytes_value bs : length bs = 4%nat → be_bytes (be_value bs) = bs.
Proof.
  intros (a & b & c & d & ->)%length_4_inv. rewrite be_value_4. unfold be_bytes.
  pose proof (b2z_range a). pose proof (b2z_range b).
  pose proof (b2z_range c). pose proof (b2z_range d).
  rewrite !Z.shiftr_div_pow2 by lia.
  repeat f_equal; apply b2z_inj; rewrite b2z_z2b; dlia.
Qed.

Lemma be_bytes_inj z z' :
  0 ≤ z < 2 ^ 32 → 0 ≤ z' < 2 ^ 32 → be_bytes z = be_bytes z' → z = z'.
Proof. intros Hz Hz' H. by rewrite <-(be_value_bytes z), H, be_value_bytes. Qed.

Lemma load32_store32 l z : 0 ≤ z < 2 ^ 32 → load32 l (store32 l z) = z.
Proof.
  intros. destruct l; unfold load32, store32;
    rewrite ?reverse_involutive; by apply be_value_bytes.
Qed.
End be_lemmas.

(** ** The implementation of endian.h *)
Section bswap.

Lemma bswap_testbit x i : 0 ≤ x < 2 ^ 32 → 0 ≤ i →
  Z.testbit (musl_bswap32 x) i =
    if decide (i < 8) then Z.testbit x (i + 24)
    else if decide (i < 16) then Z.testbit x (i + 8)
    else if decide (i < 24) then Z.testbit x (i - 8)
    else if decide (i < 32) then Z.testbit x (i - 24) else false.
Proof.
  intros Hx Hi. unfold musl_bswap32, u32.
  assert (Hhi : ∀ j, 32 ≤ j → Z.testbit x j = false).
  { intros j Hj. destruct (decide (x = 0)) as [->|]; [apply Z.testbit_0_l|].
    apply Z.bits_above_log2; [lia|].
    apply Z.lt_le_trans with 32; [|done]. apply Z.log2_lt_pow2; lia. }
  change 0xff00 with (Z.shiftl (Z.ones 8) 8).
  change 0xff0000 with (Z.shiftl (Z.ones 8) 16).
  rewrite !Z.lor_spec, !Z.land_spec, !Z.shiftr_spec by lia.
  repeat case_decide; repeat first
    [ rewrite Z.mod_pow2_bits_low by lia | rewrite Z.mod_pow2_bits_high by lia
    | rewrite Z.shiftl_spec by lia
    | match goal with
      | |- context [Z.testbit (Z.ones ?n) ?j] =>
          first [ rewrite (Z.ones_spec_low n j) by lia
                | rewrite (Z.ones_spec_high n j) by lia
                | rewrite (Z.testbit_neg_r (Z.ones n) j) by lia ]
      | |- context [Z.testbit x ?j] =>
          first [ rewrite (Hhi j) by lia | rewrite (Z.testbit_neg_r x j) by lia ]
      end ];
  rewrite ?andb_false_r, ?andb_true_r, ?orb_false_r, ?orb_false_l; done.
Qed.

Lemma bswap_range x : 0 ≤ x < 2 ^ 32 → 0 ≤ musl_bswap32 x < 2 ^ 32.
Proof.
  intros Hx.
  assert (Hpos : 0 ≤ musl_bswap32 x).
  { unfold musl_bswap32. pose proof (u32_range (Z.shiftl x 8)).
    pose proof (u32_range (Z.shiftl x 24)).
    repeat (apply Z.lor_nonneg; split);
      rewrite ?Z.shiftr_nonneg, ?Z.land_nonneg, ?Z.shiftr_nonneg; lia. }
  split; [done|].
  destruct (decide (musl_bswap32 x = 0)) as [->|]; [done|].
  apply Z.log2_lt_cancel. rewrite Z.log2_pow2 by lia.
  destruct (Z.lt_ge_cases (Z.log2 (musl_bswap32 x)) 32) as [|Hge]; [done|].
  pose proof (Z.bit_log2 (musl_bswap32 x) ltac:(lia)) as Hb.
  rewrite bswap_testbit in Hb by lia. by repeat case_decide; try lia.
Qed.

(** Reversing the bytes reverses the network representation. *)
Lemma be_bytes_bswap x : 0 ≤ x < 2 ^ 32 →
  be_bytes (musl_bswap32 x) = reverse (be_bytes x).
Proof.
  intros Hx. unfold be_bytes. cbn.
  assert (Hbyte : ∀ k m, 0 ≤ k → 0 ≤ m → k + m = 24 → k mod 8 = 0 →
    z2b (Z.shiftr (musl_bswap32 x) k) = z2b (Z.shiftr x m)).
  { intros k m Hk Hm Hkm H8. apply z2b_mod. change 256 with (2 ^ 8).
    apply Z.bits_inj'. intros i Hi.
    destruct (Z.lt_ge_cases i 8).
    - rewrite !Z.mod_pow2_bits_low, !Z.shiftr_spec, bswap_testbit by lia.
      assert (k = 0 ∨ k = 8 ∨ k = 16 ∨ k = 24) as Hc by dlia.
      repeat case_decide; try lia; f_equal; lia.
    - by rewrite !Z.mod_pow2_bits_high by lia. }
  pose proof (Hbyte 0 24) as H0. rewrite !Z.shiftr_0_r in H0.
  pose proof (Hbyte 24 0) as H24. rewrite !Z.shiftr_0_r in H24.
  rewrite (Hbyte 16 8), (Hbyte 8 16), H0, H24 by done. done.
Qed.

Lemma musl_bswap32_involutive x :
  0 ≤ x < 2 ^ 32 → musl_bswap32 (musl_bswap32 x) = x.
Proof.
  intros Hx. apply be_bytes_inj; [by repeat apply bswap_range|done|].
  by rewrite !be_bytes_bswap, reverse_involutive by (try apply bswap_range; done).
Qed.

Lemma musl_htonl_eq l n : musl_htonl l n = if l then musl_bswap32 n else n.
Proof. by destruct l. Qed.
Lemma musl_ntohl_eq l n : musl_ntohl l n = if l then musl_bswap32 n else n.
Proof. by destruct l. Qed.

Lemma musl_htonl_store l z : 0 ≤ z < 2 ^ 32 →
  store32 l (musl_htonl l z) = be_bytes z.
Proof.
  intros Hz. rewrite musl_htonl_eq. destruct l; [|done].
  unfold store32. by rewrite be_bytes_bswap, reverse_involutive.
Qed.

Lemma musl_ntohl_load l bs : length bs = 4%nat →
  musl_ntohl l (load32 l bs) = be_value bs.
Proof.
  intros Hl. rewrite musl_ntohl_eq. destruct l; [|done]. unfold load32.
  pose proof (be_value_range (reverse bs)) as Hr.
  pose proof (be_value_range bs) as Hr'.
  rewrite length_reverse, Hl in Hr. rewrite Hl in Hr'.
  change (256 ^ Z.of_nat 4) with (2 ^ 32) in *.
  apply be_bytes_inj; [by apply bswap_range|done|].
  rewrite be_bytes_bswap, !be_bytes_value, reverse_involutive by
    (rewrite ?length_reverse; done).
  done.
Qed.
End bswap.

(** The functions of endian.h keep the promise on both kinds of machine. *)
Definition musl_endian (l : bool) : Endian := {|
  little := l;
  ctb_htonl := musl_htonl l;
  ctb_ntohl := musl_ntohl l;
  ctb_htonl_spec := musl_htonl_store l;
  ctb_ntohl_spec := musl_ntohl_load l
|}.

(** ** Properties *)

Section endian_facts.
Context `{Endian}.

Lemma ctb_ntohl_htonl z : 0 ≤ z < 2 ^ 32 → ctb_ntohl (load32 little (store32 little (ctb_htonl z))) = z.
Proof.
  intros Hz. rewrite ctb_htonl_spec by done.
  rewrite ctb_ntohl_spec by done. by apply be_value_bytes.
Qed.
End endian_facts.

(** The conversions of endian.h, on both kinds of machine: the object that
    holds [musl_htonl] of a number has its bytes in network order,
    [musl_ntohl] takes the number back, and the shifts and masks of
    [musl_bswap32] reverse the four bytes exactly. *)
Lemma musl_conversions l z :
  0 ≤ z < 2 ^ 32 →
  store32 l (musl_htonl l z) = be_bytes z ∧
  musl_ntohl l (musl_htonl l z) = z ∧
  be_bytes (musl_bswap32 z) = reverse (be_bytes z).
Proof.
  intros Hz. split_and!.
  - by apply musl_htonl_store.
  - rewrite musl_ntohl_eq, musl_htonl_eq. destruct l; [|done]. by apply musl_bswap32_involutive.
  - by apply be_bytes_bswap.
Qed.

Lemma musl_conversions_witness :
  store32 true (musl_htonl true 0x01020304) = [x01; x02; x03; x04] ∧
  musl_ntohl true (musl_htonl true 0x01020304) = 0x01020304 ∧
  be_bytes (musl_bswap32 0x01020304) = reverse (be_bytes 0x01020304).
Proof. apply (musl_conversions true 0x01020304). lia. Defined.
