(* ===== verification/CString.v ===== *)
(** * C strings

    Zero-terminated strings inside a buffer, the functions of <string.h>,
    <ctype.h> and <stdlib.h> the sources use on them, and the promise of the
    tokenizer [ctb_strtok_s] as an interface. *)

From S2P Require Import Prelude.
From Stdlib Require Import Ascii.
From Stdlib Require String.
#[global] Open Scope char_scope.
#[global] Open Scope Z_scope.

Abbreviation cbuf := (list ascii).
Definition NUL : ascii := Ascii.zero.
Definition str (s : string) : cbuf := String.list_ascii_of_string s.

#[export] Instance ascii_eq_dec : EqDecision ascii := Ascii.ascii_dec.

(** The characters up to the terminator; running out of the buffer is an
    access out of bounds. *)
Fixpoint c_str (l : cbuf) : outcome cbuf :=
  match l with
  | [] => Fault OutOfBounds
  | c :: l => if decide (c = NUL) then mret [] else s ← c_str l; mret (c :: s)
  end.

(** A [char const *] into a buffer: an offset, or null. *)
Definition cstr_at (buf : cbuf) (p : option nat) : outcome cbuf :=
  match p with None => Fault NullDeref | Some p => c_str (drop p buf) end.

Definition char_at (buf : cbuf) (p : nat) : outcome ascii :=
  match buf !! p with Some c => mret c | None => Fault OutOfBounds end.

Definition strlen (buf : cbuf) (p : nat) : outcome nat :=
  s ← cstr_at buf (Some p); mret (length s).

(** [!strcmp(p, lit)] *)
Definition streq (buf : cbuf) (p : option nat) (lit : string) : outcome bool :=
  s ← cstr_at buf p; mret (bool_decide (s = str lit)).

(** ** Numbers *)
Definition isspace (c : ascii) : bool :=
  let n := nat_of_ascii c in (n =? 32)%nat || ((9 <=? n)%nat && (n <=? 13)%nat).

(** [strchr("0123456789", c) - digits], for [c] other than the terminator. *)
Definition digit (c : ascii) : option Z :=
  let n := Z.of_nat (nat_of_ascii c) in
  if decide (48 ≤ n ≤ 57) then Some (n - 48) else None.

Fixpoint spaces (l : cbuf) : nat :=
  match l with c :: l => if isspace c then S (spaces l) else 0%nat | [] => 0%nat end.

Fixpoint lead_digits (l : cbuf) : list Z :=
  match l with
  | c :: l => match digit c with Some d => d :: lead_digits l | None => [] end
  | [] => []
  end.

Definition dec_value (acc : Z) (ds : list Z) : Z := foldl (λ a d, a * 10 + d) acc ds.

Definition LONG_MAX : Z := 2 ^ 63 - 1.
Definition LONG_MIN : Z := - 2 ^ 63.

Definition clamp_long (z : Z) : Z := Z.max LONG_MIN (Z.min LONG_MAX z).

(** The sign [strtol] accepts: whether it is a minus, and its length. *)
Definition lead_sign (l : cbuf) : bool * nat :=
  match l with
  | "-" :: _ => (true, 1%nat)
  | "+" :: _ => (false, 1%nat)
  | _ => (false, 0%nat)
  end.

(** [strtol(l, &end, 10)], with [long] of 64 bits: the value, saturated, and
    [end - l], which is zero when there is no number. *)
Definition strtol (l : cbuf) : Z * nat :=
  let n := spaces l in
  let '(neg, k) := lead_sign (drop n l) in
  let ds := lead_digits (drop (n + k) l) in
  match ds with
  | [] => (0, 0%nat)
  | _ =>
      let v := dec_value 0 ds in
      (clamp_long (if neg then - v else v), (n + k + length ds)%nat)
  end.

(** ** The tokenizer

    [ctb_strtok_s(s, &max, delim, &ctx)] follows C11 K.3.7.3.1.  On the string
    [t] at the start of the search it skips the delimiters in front, makes the
    maximal run without delimiters the token, and ends it in place.  What the
    standard leaves open about [ctx] when no delimiter follows the token (null
    or the terminator) stays open here. *)
Record strtok_res := StrtokRes {
  sr_tok : option nat;
  sr_buf : cbuf;
  sr_ctx : option nat
}.

Class CtbStr := {
  ctb_strtok_s : cbuf → nat → nat → cbuf → strtok_res;
  strtok_split pre ds tok c rest post delim :
    NUL ∉ ds ++ tok ++ c :: rest →
    Forall (.∈ delim) ds → tok ≠ [] → Forall (.∉ delim) tok → c ∈ delim →
    ctb_strtok_s (pre ++ ds ++ tok ++ c :: rest ++ NUL :: post) (length pre)
                 (S (length (ds ++ tok ++ c :: rest))) delim =
      StrtokRes (Some (length pre + length ds)%nat)
                (pre ++ ds ++ tok ++ NUL :: rest ++ NUL :: post)
                (Some (length pre + length ds + length tok + 1)%nat);
  strtok_last pre ds tok post delim :
    NUL ∉ ds ++ tok →
    Forall (.∈ delim) ds → tok ≠ [] → Forall (.∉ delim) tok →
    let r := ctb_strtok_s (pre ++ ds ++ tok ++ NUL :: post) (length pre)
                          (S (length (ds ++ tok))) delim in
    sr_tok r = Some (length pre + length ds)%nat ∧
    sr_buf r = pre ++ ds ++ tok ++ NUL :: post ∧
    (sr_ctx r = None ∨
     sr_ctx r = Some (length pre + length ds + length tok)%nat);
  strtok_none pre ds post delim :
    NUL ∉ ds → Forall (.∈ delim) ds →
    let r := ctb_strtok_s (pre ++ ds ++ NUL :: post) (length pre)
                          (S (length ds)) delim in
    sr_tok r = None ∧ sr_buf r = pre ++ ds ++ NUL :: post
}.

(** ** Lemmas *)

Lemma c_str_app s post : NUL ∉ s → c_str (s ++ NUL :: post) = Ok s.
Proof.
  induction s as [|c s IH]; intros Hs; simpl.
  - done.
  - rewrite decide_False by set_solver. by rewrite IH by set_solver.
Qed.

Lemma cstr_at_app pre s post :
  NUL ∉ s → cstr_at (pre ++ s ++ NUL :: post) (Some (length pre)) = Ok s.
Proof. intros. unfold cstr_at. rewrite drop_app_length. by apply c_str_app. Qed.

Lemma cstr_at_eq buf p pre s post :
  buf = pre ++ s ++ NUL :: post → p = length pre → NUL ∉ s →
  cstr_at buf (Some p) = Ok s.
Proof. intros -> ->. apply cstr_at_app. Qed.

Lemma char_at_eq buf p pre c post :
  buf = pre ++ c :: post → p = length pre → char_at buf p = Ok c.
Proof. intros -> ->. unfold char_at. by rewrite list_lookup_middle. Qed.

Lemma digit_range c d : digit c = Some d → 0 ≤ d ≤ 9.
Proof. unfold digit. case_decide; [|done]. intros [= <-]. lia. Qed.

Lemma dec_value_snoc acc ds d : dec_value acc (ds ++ [d]) = dec_value acc ds * 10 + d.
Proof. unfold dec_value. by rewrite foldl_app. Qed.

Lemma dec_value_cons acc d ds : dec_value acc (d :: ds) = dec_value (acc * 10 + d) ds.
Proof. done. Qed.

Lemma dec_value_ge acc ds : 0 ≤ acc → Forall (λ d, 0 ≤ d ≤ 9) ds → acc ≤ dec_value acc ds.
Proof.
  revert acc. induction ds as [|d ds IH]; intros acc Ha Hd; [done|].
  inversion_clear Hd. rewrite dec_value_cons.
  transitivity (acc * 10 + d); [lia|]. apply IH; [lia|done].
Qed.

Lemma lead_digits_range l : Forall (λ d, 0 ≤ d ≤ 9) (lead_digits l).
Proof.
  induction l as [|c l IH]; simpl; [done|].
  destruct (digit c) eqn:E; [|done]. constructor; [by eapply digit_range|done].
Qed.

(** ** The interface can be met

    A tokenizer written from the text of the standard, for concrete runs. *)
Fixpoint run_length (P : ascii → bool) (l : cbuf) : nat :=
  match l with c :: l => if P c then S (run_length P l) else 0%nat | [] => 0%nat end.

Definition std_strtok_s (buf : cbuf) (p max : nat) (delim : cbuf) : strtok_res :=
  let is_delim c := bool_decide (c ∈ delim) in
  let t := take (pred max) (drop p buf) in
  let n := run_length is_delim t in
  let t := drop n t in
  let k := run_length (λ c, negb (is_delim c)) t in
  match t with
  | [] => StrtokRes None buf None
  | _ =>
      match drop k t with
      | [] => StrtokRes (Some (p + n)%nat) buf (Some (p + n + k)%nat)
      | _ => StrtokRes (Some (p + n)%nat) (<[(p + n + k)%nat := NUL]> buf)
                       (Some (p + n + k + 1)%nat)
      end
  end.

Lemma run_length_app P l k :
  Forall (λ c, P c = true) l → (match k with c :: _ => P c = false | [] => True end) →
  run_length P (l ++ k) = length l.
Proof.
  intros Hl Hk. induction Hl as [|c l Hc _ IH]; simpl.
  - destruct k as [|c k]; [done|]. simpl. by rewrite Hk.
  - by rewrite Hc, IH.
Qed.

Section std_strtok.
Context (delim : cbuf).
Let is_delim c := bool_decide (c ∈ delim).

(** The runs the tokenizer finds in [ds ++ tok ++ tl]. *)
Lemma std_runs ds tok tl :
  Forall (.∈ delim) ds → Forall (.∉ delim) tok →
  (tok = [] → tl = []) → (match tl with c :: _ => c ∈ delim | [] => True end) →
  run_length is_delim (ds ++ tok ++ tl) = length ds ∧
  run_length (λ c, negb (is_delim c)) (tok ++ tl) = length tok.
Proof.
  intros Hds Htok Hnil Htl. unfold is_delim. split.
  - apply run_length_app.
    + eapply Forall_impl; [exact Hds|]. intros c Hc. by apply bool_decide_eq_true.
    + destruct tok as [|c tok]; [by rewrite (Hnil eq_refl)|].
      inversion_clear Htok. by apply bool_decide_eq_false.
  - apply run_length_app.
    + eapply Forall_impl; [exact Htok|]. intros c Hc. by rewrite bool_decide_eq_false_2.
    + destruct tl as [|c tl]; [done|]. by rewrite bool_decide_eq_true_2.
Qed.
End std_strtok.

Lemma std_string pre (t : cbuf) post :
  take (pred (S (length t))) (drop (length pre) (pre ++ t ++ NUL :: post)) = t.
Proof. rewrite drop_app_length. simpl. by rewrite take_app_length. Qed.

Lemma std_strtok_split pre ds tok c rest post delim :
  NUL ∉ ds ++ tok ++ c :: rest →
  Forall (.∈ delim) ds → tok ≠ [] → Forall (.∉ delim) tok → c ∈ delim →
  std_strtok_s (pre ++ ds ++ tok ++ c :: rest ++ NUL :: post) (length pre)
               (S (length (ds ++ tok ++ c :: rest))) delim =
    StrtokRes (Some (length pre + length ds)%nat)
              (pre ++ ds ++ tok ++ NUL :: rest ++ NUL :: post)
              (Some (length pre + length ds + length tok + 1)%nat).
Proof.
  intros _ Hds Hne Htok Hc. unfold std_strtok_s.
  replace (pre ++ ds ++ tok ++ c :: rest ++ NUL :: post) with
    (pre ++ (ds ++ tok ++ c :: rest) ++ NUL :: post) by (by rewrite <-!app_assoc).
  rewrite std_string.
  destruct (std_runs delim ds tok (c :: rest)) as [-> Hk]; [done..|].
  rewrite drop_app_length, Hk, drop_app_length.
  destruct (tok ++ c :: rest) as [|x y] eqn:E; [by destruct tok|]. rewrite <-E. f_equal.
  replace (pre ++ (ds ++ tok ++ c :: rest) ++ NUL :: post) with
    ((pre ++ ds ++ tok) ++ c :: rest ++ NUL :: post) by (by rewrite <-!app_assoc).
  rewrite insert_app_r_alt by (rewrite !length_app; lia).
  replace (_ - _)%nat with 0%nat by (rewrite !length_app; lia).
  simpl. by rewrite <-!app_assoc.
Qed.

Lemma std_strtok_last pre ds tok post delim :
  NUL ∉ ds ++ tok →
  Forall (.∈ delim) ds → tok ≠ [] → Forall (.∉ delim) tok →
  let r := std_strtok_s (pre ++ ds ++ tok ++ NUL :: post) (length pre)
                        (S (length (ds ++ tok))) delim in
  sr_tok r = Some (length pre + length ds)%nat ∧
  sr_buf r = pre ++ ds ++ tok ++ NUL :: post ∧
  (sr_ctx r = None ∨ sr_ctx r = Some (length pre + length ds + length tok)%nat).
Proof.
  intros _ Hds Hne Htok. unfold std_strtok_s.
  rewrite (app_assoc ds tok), std_string.
  destruct (std_runs delim ds tok []) as [Hn Hk]; [done..|].
  rewrite app_nil_r in Hn, Hk. rewrite Hn, drop_app_length, Hk, drop_all.
  destruct tok; [done|]. rewrite <-app_assoc. cbn. auto.
Qed.

Lemma std_strtok_none pre ds post delim :
  NUL ∉ ds → Forall (.∈ delim) ds →
  let r := std_strtok_s (pre ++ ds ++ NUL :: post) (length pre) (S (length ds)) delim in
  sr_tok r = None ∧ sr_buf r = pre ++ ds ++ NUL :: post.
Proof.
  intros _ Hds. unfold std_strtok_s. rewrite std_string.
  destruct (std_runs delim ds [] []) as [Hn _]; [done..|].
  simpl in Hn. rewrite app_nil_r in Hn. by rewrite Hn, drop_all.
Qed.

Definition std_ctb_str : CtbStr := {|
  ctb_strtok_s := std_strtok_s;
  strtok_split := std_strtok_split;
  strtok_last := std_strtok_last;
  strtok_none := std_strtok_none
|}.
