(* ===== verification/Strerror.v ===== *)
(** * Error codes and their texts

    The error codes of include/sc/errcode.h, libuv's codes as errno.h and
    uv.h define them (the host's own <errno.h> is a parameter), and
    [buv_strerror] of src/backend_uv.c. *)

From S2P Require Import Prelude.

(** include/sc/errcode.h *)
Definition SC_ENOMEM : Z := 3193.
Definition SC_EURIPARSE : Z := 3194.
Definition SC_EINVPROTO : Z := 3195.

(** The names of uv.h's [UV_ERRNO_MAP], which [uv_errno_t] enumerates. *)
Inductive errname :=
  | E2BIG | EACCES | EADDRINUSE | EADDRNOTAVAIL | EAFNOSUPPORT | EAGAIN
  | EAI_ADDRFAMILY | EAI_AGAIN | EAI_BADFLAGS | EAI_BADHINTS | EAI_CANCELED
  | EAI_FAIL | EAI_FAMILY | EAI_MEMORY | EAI_NODATA | EAI_NONAME
  | EAI_OVERFLOW | EAI_PROTOCOL | EAI_SERVICE | EAI_SOCKTYPE | EALREADY
  | EBADF | EBUSY | ECANCELED | ECHARSET | ECONNABORTED | ECONNREFUSED
  | ECONNRESET | EDESTADDRREQ | EEXIST | EFAULT | EFBIG | EHOSTUNREACH
  | EINTR | EINVAL | EIO | EISCONN | EISDIR | ELOOP | EMFILE | EMSGSIZE
  | ENAMETOOLONG | ENETDOWN | ENETUNREACH | ENFILE | ENOBUFS | ENODEV
  | ENOENT | ENOMEM | ENONET | ENOPROTOOPT | ENOSPC | ENOSYS | ENOTCONN
  | ENOTDIR | ENOTEMPTY | ENOTSOCK | ENOTSUP | EOVERFLOW | EPERM | EPIPE
  | EPROTO | EPROTONOSUPPORT | EPROTOTYPE | ERANGE | EROFS | ESHUTDOWN
  | ESPIPE | ESRCH | ETIMEDOUT | ETXTBSY | EXDEV | UNKNOWN | EOF | ENXIO
  | EMLINK | EHOSTDOWN | EREMOTEIO | ENOTTY | EFTYPE | EILSEQ
  | ESOCKTNOSUPPORT.

#[export] Instance errname_eq_dec : EqDecision errname.
Proof. solve_decision. Defined.

(** The host: the value of each errno macro its <errno.h> defines, and the
    preprocessor symbols the header asks about. *)
Class Host := {
  host_errno : errname → option Z;
  EDOM : Z;
  win32 : bool;
  bsd_like : bool  (** one of the BSD-like systems listed at EHOSTDOWN *)
}.

(** The codes errno.h fixes for every host. *)
Definition uv__fixed (n : errname) : option Z :=
  match n with
  | EOF => Some (-4095)
  | UNKNOWN => Some (-4094)
  | EAI_ADDRFAMILY => Some (-3000)
  | EAI_AGAIN => Some (-3001)
  | EAI_BADFLAGS => Some (-3002)
  | EAI_CANCELED => Some (-3003)
  | EAI_FAIL => Some (-3004)
  | EAI_FAMILY => Some (-3005)
  | EAI_MEMORY => Some (-3006)
  | EAI_NODATA => Some (-3007)
  | EAI_NONAME => Some (-3008)
  | EAI_OVERFLOW => Some (-3009)
  | EAI_SERVICE => Some (-3010)
  | EAI_SOCKTYPE => Some (-3011)
  | EAI_BADHINTS => Some (-3013)
  | EAI_PROTOCOL => Some (-3014)
  | _ => None
  end.

(** The codes errno.h falls back to, in its order. *)
Definition uv__fallback_1 (n : errname) : option Z :=
  match n with
  | E2BIG => Some (-4093)
  | EACCES => Some (-4092)
  | EADDRINUSE => Some (-4091)
  | EADDRNOTAVAIL => Some (-4090)
  | EAFNOSUPPORT => Some (-4089)
  | EAGAIN => Some (-4088)
  | EALREADY => Some (-4084)
  | EBADF => Some (-4083)
  | EBUSY => Some (-4082)
  | ECANCELED => Some (-4081)
  | ECHARSET => Some (-4080)
  | ECONNABORTED => Some (-4079)
  | ECONNREFUSED => Some (-4078)
  | ECONNRESET => Some (-4077)
  | EDESTADDRREQ => Some (-4076)
  | EEXIST => Some (-4075)
  | EFAULT => Some (-4074)
  | EHOSTUNREACH => Some (-4073)
  | EINTR => Some (-4072)
  | EINVAL => Some (-4071)
  | EIO => Some (-4070)
  | EISCONN => Some (-4069)
  | EISDIR => Some (-4068)
  | ELOOP => Some (-4067)
  | _ => None
  end.

Definition uv__fallback_2 (n : errname) : option Z :=
  match n with
  | EMFILE => Some (-4066)
  | EMSGSIZE => Some (-4065)
  | ENAMETOOLONG => Some (-4064)
  | ENETDOWN => Some (-4063)
  | ENETUNREACH => Some (-4062)
  | ENFILE => Some (-4061)
  | ENOBUFS => Some (-4060)
  | ENODEV => Some (-4059)
  | ENOENT => Some (-4058)
  | ENOMEM => Some (-4057)
  | ENONET => Some (-4056)
  | ENOSPC => Some (-4055)
  | ENOSYS => Some (-4054)
  | ENOTCONN => Some (-4053)
  | ENOTDIR => Some (-4052)
  | ENOTEMPTY => Some (-4051)
  | ENOTSOCK => Some (-4050)
  | ENOTSUP => Some (-4049)
  | EPERM => Some (-4048)
  | EPIPE => Some (-4047)
  | EPROTO => Some (-4046)
  | EPROTONOSUPPORT => Some (-4045)
  | EPROTOTYPE => Some (-4044)
  | EROFS => Some (-4043)
  | _ => None
  end.

Definition uv__fallback_3 (n : errname) : option Z :=
  match n with
  | ESHUTDOWN => Some (-4042)
  | ESPIPE => Some (-4041)
  | ESRCH => Some (-4040)
  | ETIMEDOUT => Some (-4039)
  | ETXTBSY => Some (-4038)
  | EXDEV => Some (-4037)
  | EFBIG => Some (-4036)
  | ENOPROTOOPT => Some (-4035)
  | ERANGE => Some (-4034)
  | ENXIO => Some (-4033)
  | EMLINK => Some (-4032)
  | EHOSTDOWN => Some (-4031)
  | EREMOTEIO => Some (-4030)
  | ENOTTY => Some (-4029)
  | EFTYPE => Some (-4028)
  | EILSEQ => Some (-4027)
  | EOVERFLOW => Some (-4026)
  | ESOCKTNOSUPPORT => Some (-4025)
  | _ => None
  end.

Definition uv__fallback (n : errname) : Z :=
  match uv__fallback_1 n, uv__fallback_2 n, uv__fallback_3 n with
  | Some c, _, _ | None, Some c, _ | None, None, Some c => c
  | None, None, None => 0
  end.

Definition UV__ERR `{Host} (x : Z) : Z := if decide (0 < EDOM) then - x else x.

(** [UV_##name] *)
Definition uv_code `{Host} (n : errname) : Z :=
  match uv__fixed n with
  | Some c => c
  | None =>
      match host_errno n with
      | Some e =>
          if negb win32 then UV__ERR e
          else if decide (n = EHOSTDOWN ∧ bsd_like = true) then -64
          else uv__fallback n
      | None =>
          if decide (n = EHOSTDOWN ∧ bsd_like = true) then -64
          else uv__fallback n
      end
  end.

(** uv.h *)
Definition UV_ERRNO_MAP : list (errname * string) := [
    (E2BIG, "argument list too long");
    (EACCES, "permission denied");
    (EADDRINUSE, "address already in use");
    (EADDRNOTAVAIL, "address not available");
    (EAFNOSUPPORT, "address family not supported");
    (EAGAIN, "resource temporarily unavailable");
    (EAI_ADDRFAMILY, "address family not supported");
    (EAI_AGAIN, "temporary failure");
    (EAI_BADFLAGS, "bad ai_flags value");
    (EAI_BADHINTS, "invalid value for hints");
    (EAI_CANCELED, "request canceled");
    (EAI_FAIL, "permanent failure");
    (EAI_FAMILY, "ai_family not supported");
    (EAI_MEMORY, "out of memory");
    (EAI_NODATA, "no address");
    (EAI_NONAME, "unknown node or service");
    (EAI_OVERFLOW, "argument buffer overflow");
    (EAI_PROTOCOL, "resolved protocol is unknown");
    (EAI_SERVICE, "service not available for socket type");
    (EAI_SOCKTYPE, "socket type not supported");
    (EALREADY, "connection already in progress");
    (EBADF, "bad file descriptor");
    (EBUSY, "resource busy or locked");
    (ECANCELED, "operation canceled");
    (ECHARSET, "invalid Unicode character");
    (ECONNABORTED, "software caused connection abort");
    (ECONNREFUSED, "connection refused");
    (ECONNRESET, "connection reset by peer");
    (EDESTADDRREQ, "destination address required");
    (EEXIST, "file already exists");
    (EFAULT, "bad address in system call argument");
    (EFBIG, "file too large");
    (EHOSTUNREACH, "host is unreachable");
    (EINTR, "interrupted system call");
    (EINVAL, "invalid argument");
    (EIO, "i/o error");
    (EISCONN, "socket is already connected");
    (EISDIR, "illegal operation on a directory");
    (ELOOP, "too many symbolic links encountered");
    (EMFILE, "too many open files");
    (EMSGSIZE, "message too long");
    (ENAMETOOLONG, "name too long");
    (ENETDOWN, "network is down");
    (ENETUNREACH, "network is unreachable");
    (ENFILE, "file table overflow");
    (ENOBUFS, "no buffer space available");
    (ENODEV, "no such device");
    (ENOENT, "no such file or directory");
    (ENOMEM, "not enough memory");
    (ENONET, "machine is not on the network");
    (ENOPROTOOPT, "protocol not available");
    (ENOSPC, "no space left on device");
    (ENOSYS, "function not implemented");
    (ENOTCONN, "socket is not connected");
    (ENOTDIR, "not a directory");
    (ENOTEMPTY, "directory not empty");
    (ENOTSOCK, "socket operation on non-socket");
    (ENOTSUP, "operation not supported on socket");
    (EOVERFLOW, "value too large for defined data type");
    (EPERM, "operation not permitted");
    (EPIPE, "broken pipe");
    (EPROTO, "protocol error");
    (EPROTONOSUPPORT, "protocol not supported");
    (EPROTOTYPE, "protocol wrong type for socket");
    (ERANGE, "result too large");
    (EROFS, "read-only file system");
    (ESHUTDOWN, "cannot send after transport endpoint shutdown");
    (ESPIPE, "invalid seek");
    (ESRCH, "no such process");
    (ETIMEDOUT, "connection timed out");
    (ETXTBSY, "text file is busy");
    (EXDEV, "cross-device link not permitted");
    (UNKNOWN, "unknown error");
    (EOF, "end of file");
    (ENXIO, "no such device or address");
    (EMLINK, "too many links");
    (EHOSTDOWN, "host is down");
    (EREMOTEIO, "remote I/O error");
    (ENOTTY, "inappropriate ioctl for device");
    (EFTYPE, "inappropriate file type or format");
    (EILSEQ, "illegal byte sequence");
    (ESOCKTNOSUPPORT, "socket type not supported")].

(** The copy in src/backend_uv.c. *)
Definition BUV_ERRNO_MAP : list (errname * string) := [
    (E2BIG, "argument list too long");
    (EACCES, "permission denied");
    (EADDRINUSE, "address already in use");
    (EADDRNOTAVAIL, "address not available");
    (EAFNOSUPPORT, "address family not supported");
    (EAGAIN, "resource temporarily unavailable");
    (EAI_ADDRFAMILY, "address family not supported");
    (EAI_AGAIN, "temporary failure");
    (EAI_BADFLAGS, "bad ai_flags value");
    (EAI_BADHINTS, "invalid value for hints");
    (EAI_CANCELED, "request canceled");
    (EAI_FAIL, "permanent failure");
    (EAI_FAMILY, "ai_family not supported");
    (EAI_MEMORY, "out of memory");
    (EAI_NODATA, "no address");
    (EAI_NONAME, "unknown node or service");
    (EAI_OVERFLOW, "argument buffer overflow");
    (EAI_PROTOCOL, "resolved protocol is unknown");
    (EAI_SERVICE, "service not available for socket type");
    (EAI_SOCKTYPE, "socket type not supported");
    (EALREADY, "connection already in progress");
    (EBADF, "bad file descriptor");
    (EBUSY, "resource busy or locked");
    (ECANCELED, "operation canceled");
    (ECHARSET, "invalid Unicode character");
    (ECONNABORTED, "software caused connection abort");
    (ECONNREFUSED, "connection refused");
    (ECONNRESET, "connection reset by peer");
    (EDESTADDRREQ, "destination address required");
    (EEXIST, "file already exists");
    (EFAULT, "bad address in system call argument");
    (EFBIG, "file too large");
    (EHOSTUNREACH, "host is unreachable");
    (EINTR, "interrupted system call");
    (EINVAL, "invalid argument");
    (EIO, "i/o error");
    (EISCONN, "socket is already connected");
    (EISDIR, "illegal operation on a directory");
    (ELOOP, "too many symbolic links encountered");
    (EMFILE, "too many open files");
    (EMSGSIZE, "message too long");
    (ENAMETOOLONG, "name too long");
    (ENETDOWN, "network is down");
    (ENETUNREACH, "network is unreachable");
    (ENFILE, "file table overflow");
    (ENOBUFS, "no buffer space available");
    (ENODEV, "no such device");
    (ENOENT, "no such file or directory");
    (ENOMEM, "not enough memory");
    (ENONET, "machine is not on the network");
    (ENOPROTOOPT, "protocol not available");
    (ENOSPC, "no space left on device");
    (ENOSYS, "function not implemented");
    (ENOTCONN, "socket is not connected");
    (ENOTDIR, "not a directory");
    (ENOTEMPTY, "directory not empty");
    (ENOTSOCK, "socket operation on non-socket");
    (ENOTSUP, "operation not supported on socket");
    (EOVERFLOW, "value too large for defined data type");
    (EPERM, "operation not permitted");
    (EPIPE, "broken pipe");
    (EPROTO, "protocol error");
    (EPROTONOSUPPORT, "protocol not supported");
    (EPROTOTYPE, "protocol wrong type for socket");
    (ERANGE, "result too large");
    (EROFS, "read-only file system");
    (ESHUTDOWN, "cannot send after transport endpoint shutdown");
    (ESPIPE, "invalid seek");
    (ESRCH, "no such process");
    (ETIMEDOUT, "connection timed out");
    (ETXTBSY, "text file is busy");
    (EXDEV, "cross-device link not permitted");
    (UNKNOWN, "unknown error");
    (EOF, "end of file");
    (ENXIO, "no such device or address");
    (EMLINK, "too many links");
    (EHOSTDOWN, "host is down");
    (EREMOTEIO, "remote I/O error");
    (ENOTTY, "inappropriate ioctl for device");
    (EFTYPE, "inappropriate file type or format");
    (EILSEQ, "illegal byte sequence");
    (ESOCKTNOSUPPORT, "socket type not supported")].

(** The switch: one case per entry of the map, in order. *)
Definition buv_strerror `{Host} (errcode : Z) : string :=
  match list_find (λ c, uv_code (fst c) = errcode) BUV_ERRNO_MAP with
  | Some (_, (_, msg)) => msg
  | None => "unknown error code"
  end.

(** ** Facts *)

(** Every name, and the text libuv gives to it. *)
Definition all_errnames : list errname := fst <$> UV_ERRNO_MAP.
Definition uv_text (n : errname) : option string :=
  snd <$> (snd <$> list_find (λ c, fst c = n) UV_ERRNO_MAP).

Lemma all_errnames_spec n : n ∈ all_errnames.
Proof. destruct n; apply (bool_decide_unpack _); vm_compute; exact I. Qed.

Lemma all_errnames_nodup : NoDup all_errnames.
Proof. apply (bool_decide_unpack _). vm_compute. exact I. Qed.

(** What a host must satisfy for the switch to compile: C refuses two equal
    case labels. *)
Definition codes_distinct `{Host} : Prop := NoDup (uv_code <$> all_errnames).

(** Conditions on <errno.h> that every supported host meets: POSIX asks for
    positive and distinct values, and they are small. *)
Definition errno_posix `{Host} : Prop :=
  0 < EDOM ∧
  (∀ n e, host_errno n = Some e → 0 < e < 3000) ∧
  (∀ n m e, host_errno n = Some e → host_errno m = Some e → n = m) ∧
  (bsd_like = true → ∀ n, host_errno n = Some 64 → n = EHOSTDOWN).

Definition supported_host `{Host} : Prop := win32 = true ∨ errno_posix.

(** A Linux host, for concrete runs. *)
Definition linux_errno (n : errname) : option Z :=
  match n with
  | E2BIG => Some 7
  | EACCES => Some 13
  | EADDRINUSE => Some 98
  | EADDRNOTAVAIL => Some 99
  | EAFNOSUPPORT => Some 97
  | EAGAIN => Some 11
  | EALREADY => Some 114
  | EBADF => Some 9
  | EBUSY => Some 16
  | ECANCELED => Some 125
  | ECONNABORTED => Some 103
  | ECONNREFUSED => Some 111
  | ECONNRESET => Some 104
  | EDESTADDRREQ => Some 89
  | EEXIST => Some 17
  | EFAULT => Some 14
  | EHOSTUNREACH => Some 113
  | EINTR => Some 4
  | EINVAL => Some 22
  | EIO => Some 5
  | EISCONN => Some 106
  | EISDIR => Some 21
  | ELOOP => Some 40
  | EMFILE => Some 24
  | EMSGSIZE => Some 90
  | ENAMETOOLONG => Some 36
  | ENETDOWN => Some 100
  | ENETUNREACH => Some 101
  | ENFILE => Some 23
  | ENOBUFS => Some 105
  | ENODEV => Some 19
  | ENOENT => Some 2
  | ENOMEM => Some 12
  | ENONET => Some 64
  | ENOSPC => Some 28
  | ENOSYS => Some 38
  | ENOTCONN => Some 107
  | ENOTDIR => Some 20
  | ENOTEMPTY => Some 39
  | ENOTSOCK => Some 88
  | ENOTSUP => Some 95
  | EPERM => Some 1
  | EPIPE => Some 32
  | EPROTO => Some 71
  | EPROTONOSUPPORT => Some 93
  | EPROTOTYPE => Some 91
  | EROFS => Some 30
  | ESHUTDOWN => Some 108
  | ESPIPE => Some 29
  | ESRCH => Some 3
  | ETIMEDOUT => Some 110
  | ETXTBSY => Some 26
  | EXDEV => Some 18
  | EFBIG => Some 27
  | ENOPROTOOPT => Some 92
  | ERANGE => Some 34
  | ENXIO => Some 6
  | EMLINK => Some 31
  | EHOSTDOWN => Some 112
  | EREMOTEIO => Some 121
  | ENOTTY => Some 25
  | EILSEQ => Some 84
  | EOVERFLOW => Some 75
  | ESOCKTNOSUPPORT => Some 94
  | _ => None
  end.

#[local] Instance linux_host : Host := {|
  host_errno := linux_errno; EDOM := 33; win32 := false; bsd_like := false |}.

(** *** The numbering *)

Lemma uv__fixed_inj n m c :
  uv__fixed n = Some c → uv__fixed m = Some c → n = m.
Proof.
  intros Hn Hm.
  assert (Forall (λ n, Forall (λ m, is_Some (uv__fixed n) →
    uv__fixed n = uv__fixed m → n = m) all_errnames) all_errnames) as HF
    by (apply (bool_decide_unpack _); vm_compute; exact I).
  rewrite Forall_forall in HF. pose proof (HF n (all_errnames_spec n)) as HF'.
  rewrite Forall_forall in HF'. apply (HF' m (all_errnames_spec m)); [eauto|congruence].
Qed.

Lemma uv__fallback_inj n m :
  uv__fixed n = None → uv__fixed m = None → uv__fallback n = uv__fallback m → n = m.
Proof.
  intros Hn Hm E.
  assert (Forall (λ n, Forall (λ m, uv__fixed n = None → uv__fixed m = None →
    uv__fallback n = uv__fallback m → n = m) all_errnames) all_errnames) as HF
    by (apply (bool_decide_unpack _); vm_compute; exact I).
  rewrite Forall_forall in HF. pose proof (HF n (all_errnames_spec n)) as HF'.
  rewrite Forall_forall in HF'. by apply (HF' m (all_errnames_spec m)).
Qed.

Lemma uv__fixed_range n c :
  uv__fixed n = Some c → -4095 ≤ c ≤ -4094 ∨ -3014 ≤ c ≤ -3000.
Proof. destruct n; simpl; intros ?; first [done|simplify_eq; lia]. Qed.

Lemma uv__fallback_range n :
  uv__fixed n = None → -4093 ≤ uv__fallback n ≤ -4025.
Proof. destruct n; simpl; intros ?; first [done|lia]. Qed.

(** The four ways a code is determined. *)
Lemma uv_code_cases `{Host} n : supported_host →
  (uv__fixed n = Some (uv_code n)) ∨
  (uv__fixed n = None ∧ uv_code n = uv__fallback n) ∨
  (uv__fixed n = None ∧ n = EHOSTDOWN ∧ bsd_like = true ∧ uv_code n = -64) ∨
  (uv__fixed n = None ∧ win32 = false ∧ ∃ e, host_errno n = Some e ∧ uv_code n = - e).
Proof.
  intros Hs. unfold uv_code. destruct (uv__fixed n) as [c|] eqn:Ef; [by left|right].
  destruct (host_errno n) as [e|] eqn:Eh; [|case_decide; naive_solver].
  destruct win32 eqn:Ew; simpl; [case_decide; naive_solver|].
  right; right. repeat split; [done..|]. exists e. split; [done|].
  destruct Hs as [|(HE & _)]; [congruence|]. unfold UV__ERR. by rewrite decide_True.
Qed.

Lemma uv_code_negative `{Host} n : supported_host → uv_code n < 0.
Proof.
  intros Hs.
  destruct (uv_code_cases n Hs) as
    [Hf|[[Hn ->]|[(_ & _ & _ & ->)|(_ & Hw & e & He & ->)]]].
  - apply uv__fixed_range in Hf. lia.
  - pose proof (uv__fallback_range n Hn). lia.
  - lia.
  - destruct Hs as [|(_ & Hr & _)]; [congruence|]. apply Hr in He. lia.
Qed.

Lemma uv_code_inj `{Host} n m : supported_host → uv_code n = uv_code m → n = m.
Proof.
  intros Hs E.
  assert (Hpos : ∀ k e, win32 = false → host_errno k = Some e → 0 < e < 3000).
  { intros k e Hw. destruct Hs as [|(_ & Hr & _)]; [congruence|]. apply Hr. }
  assert (H64 : ∀ k, win32 = false → bsd_like = true → host_errno k = Some 64 →
    k = EHOSTDOWN).
  { intros k Hw. destruct Hs as [|(_ & _ & _ & Hb)]; [congruence|].
    intros Hbsd. by apply Hb. }
  destruct (uv_code_cases n Hs) as
    [Hf|[[Hn En]|[(Hn & -> & Hb & En)|(Hn & Hw & e & He & En)]]],
    (uv_code_cases m Hs) as
    [Hf'|[[Hm Em]|[(Hm & -> & Hb' & Em)|(Hm & Hw' & e' & He' & Em)]]];
    repeat match goal with
    | Hx : uv__fixed _ = Some _ |- _ => pose proof (uv__fixed_range _ _ Hx); revert Hx
    | Hx : uv__fixed ?k = None |- _ => pose proof (uv__fallback_range k Hx); revert Hx
    | Hx : host_errno ?k = Some ?x, Hy : win32 = false |- _ =>
        pose proof (Hpos k x Hy Hx); revert Hx
    end; intros; try lia; try done.
  - eapply uv__fixed_inj; [done|congruence].
  - apply uv__fallback_inj; congruence.
  - symmetry. apply H64; [done..|]. replace 64 with e' by lia. done.
  - apply H64; [done..|]. replace 64 with e by lia. done.
  - destruct Hs as [|(_ & _ & Hinj & _)]; [congruence|].
    apply (Hinj n m e); [done|]. replace e with e' by lia. done.
Qed.

(** On every supported host (Windows, or a system whose errno values are
    positive, distinct and small) the codes of [uv_errno_t] are pairwise
    distinct, so that the cases of [buv_strerror]'s switch never clash. *)
Lemma uv_codes_distinct `{Host} : supported_host → codes_distinct.
Proof.
  intros Hs. apply NoDup_fmap_2_strong; [|apply all_errnames_nodup].
  intros n m _ _. by apply uv_code_inj.
Qed.

(** *** The texts *)

Lemma buv_map_lookup `{Host} n i msg : supported_host →
  BUV_ERRNO_MAP !! i = Some (n, msg) → buv_strerror (uv_code n) = msg.
Proof.
  intros Hs Hi. unfold buv_strerror.
  destruct (list_find_elem_of (λ c, uv_code (fst c) = uv_code n) BUV_ERRNO_MAP (n, msg))
    as [[j [m msg']] Hf]; [by eapply list_elem_of_lookup_2|done|].
  rewrite Hf. apply list_find_Some in Hf as (Hj & E & _). simpl in E.
  apply uv_code_inj in E as ->; [|done].
  enough (i = j) as -> by congruence.
  eapply (NoDup_lookup all_errnames i j n all_errnames_nodup);
    unfold all_errnames; rewrite list_lookup_fmap.
  - change UV_ERRNO_MAP with BUV_ERRNO_MAP. by rewrite Hi.
  - change UV_ERRNO_MAP with BUV_ERRNO_MAP. by rewrite Hj.
Qed.

Lemma linux_supported : supported_host.
Proof.
  right. split_and!; [done| | |done].
  - intros [] e; simpl; intros ?; simplify_eq; lia.
  - intros n m e Hn Hm.
    assert (Forall (λ n, Forall (λ m, is_Some (linux_errno n) →
      linux_errno n = linux_errno m → n = m) all_errnames) all_errnames) as HF
      by (apply (bool_decide_unpack _); vm_compute; exact I).
    rewrite Forall_forall in HF. pose proof (HF n (all_errnames_spec n)) as HF'.
    rewrite Forall_forall in HF'.
    apply (HF' m (all_errnames_spec m)); [by exists e|exact (eq_trans Hn (eq_sym Hm))].
Qed.

