(* ===== verification/Msg.v ===== *)
(** * Messages (src/msg.c, include/sc/msg.h)

    The message object, the pointers into it, and the operations of msg.c
    that only touch one message.  The allocator hooks of msg.c need the whole
    state and are in World.v. *)

From S2P Require Import Prelude Endian.

Definition SC_MSG_SIZE_BYTES : Z := 4.

(** [struct sc_msg] with the memory its [data] member points to.  A byte is
    [None] while it is indeterminate; the length of [data] is the capacity the
    allocator gave. *)
Record sc_msg := Msg {
  size_be : list (option byte);
  data : list (option byte)
}.

(** The messages in memory, by address. *)
Abbreviation msg_heap := (gmap nat sc_msg).

(** A pointer into a message: to a byte of [size_be] or of [data]. *)
Inductive field := FSize | FData.
Record ptr := Ptr { p_msg : nat; p_field : field; p_off : Z }.

#[export] Instance field_eq_dec : EqDecision field.
Proof. solve_decision. Defined.
#[export] Instance sc_msg_eq_dec : EqDecision sc_msg.
Proof. solve_decision. Defined.
#[export] Instance ptr_eq_dec : EqDecision ptr.
Proof. solve_decision. Defined.

Definition ptr_add (p : ptr) (n : Z) : ptr :=
  Ptr (p_msg p) (p_field p) (p_off p + n).

(** The difference of two pointers has a meaning within one object only. *)
Definition ptr_diff (p q : ptr) : outcome Z :=
  if decide (p_msg p = p_msg q ∧ p_field p = p_field q)
  then Ok (p_off p - p_off q) else Fault OutOfBounds.

(** Dereferencing a message pointer. *)
Definition deref_msg (h : msg_heap) (m : option nat) : outcome sc_msg :=
  match m with
  | None => Fault NullDeref
  | Some m => match h !! m with Some v => Ok v | None => Fault UseAfterFree end
  end.

(** Bytes read from memory: all of them must have been written. *)
Definition init_bytes (l : list (option byte)) : option (list byte) := mapM id l.

Definition field_of (v : sc_msg) (f : field) : list (option byte) :=
  match f with FSize => size_be v | FData => data v end.
Definition set_field (v : sc_msg) (f : field) (l : list (option byte)) : sc_msg :=
  match f with FSize => Msg l (data v) | FData => Msg (size_be v) l end.

(** Writing [bs] at offset [off] of an object [l]. *)
Definition mem_write (l : list (option byte)) (off : Z) (bs : list byte) :
    outcome (list (option byte)) :=
  if decide (0 ≤ off ∧ off + Z.of_nat (length bs) ≤ Z.of_nat (length l))
  then Ok (take (Z.to_nat off) l ++ (Some <$> bs) ++
           drop (Z.to_nat off + length bs) l)
  else Fault OutOfBounds.

Section msg.
Context `{Endian}.

(** [msg->size_be = ctb_htonl(size)] *)
Definition sc_msg_set_size (v : sc_msg) (size : Z) : sc_msg :=
  Msg (Some <$> store32 little (ctb_htonl (u32 size))) (data v).

(** [ctb_ntohl(msg->size_be)] *)
Definition sc_msg_get_size (v : sc_msg) : outcome Z :=
  match init_bytes (size_be v) with
  | Some bs => Ok (ctb_ntohl (load32 little bs))
  | None => Fault Indeterminate
  end.

Definition sc_msg_init (v : sc_msg) : outcome sc_msg :=
  d ← mem_write (data v) 0 [x00];
  mret (Msg (Some <$> store32 little 0) d).

(** What [malloc(sizeof(struct sc_msg) + size)] and the assignment of [data]
    make of the new block. *)
Definition fresh_msg (size : Z) : sc_msg :=
  Msg (replicate 4 None) (replicate (Z.to_nat size) None).

(** [SC_MSG_INIT(sz, x)], for a literal [x]. *)
Definition SC_MSG_INIT (sz : Z) (x : list byte) : sc_msg :=
  Msg (Some <$> store32 little (ctb_htonl (u32 sz))) (Some <$> x).

(** The bytes a reader of the message sees: [size] bytes at [data], which must
    be there. *)
Definition payload (v : sc_msg) : outcome (list (option byte)) :=
  n ← sc_msg_get_size v;
  if decide (0 ≤ n ≤ Z.of_nat (length (data v))) then mret (take (Z.to_nat n) (data v))
  else Fault OutOfBounds.
End msg.

(** ** Memory *)

Lemma init_bytes_some bs : init_bytes (Some <$> bs) = Some bs.
Proof.
  unfold init_bytes. apply mapM_Some. induction bs; constructor; done.
Qed.

Lemma init_bytes_Some_inv l bs : init_bytes l = Some bs → l = Some <$> bs.
Proof.
  unfold init_bytes. rewrite mapM_Some. induction 1; [done|].
  cbn in *. by subst.
Qed.

Lemma mem_write_ok l off bs :
  0 ≤ off → off + Z.of_nat (length bs) ≤ Z.of_nat (length l) →
  mem_write l off bs =
    Ok (take (Z.to_nat off) l ++ (Some <$> bs) ++ drop (Z.to_nat off + length bs) l).
Proof. intros. unfold mem_write. by rewrite decide_True. Qed.

Lemma mem_write_oob l off bs :
  Z.of_nat (length l) < off + Z.of_nat (length bs) →
  mem_write l off bs = Fault OutOfBounds.
Proof. intros. unfold mem_write. rewrite decide_False; [done|lia]. Qed.

Lemma mem_write_length l off bs l' :
  mem_write l off bs = Ok l' → length l' = length l.
Proof.
  unfold mem_write. case_decide; [|done]. intros [= <-].
  rewrite !length_app, length_fmap, length_take, length_drop. lia.
Qed.

(** Appending to an initialised prefix. *)
Lemma mem_write_append pre rest bs :
  (length bs ≤ length rest)%nat →
  mem_write ((Some <$> pre) ++ rest) (Z.of_nat (length pre)) bs =
    Ok ((Some <$> (pre ++ bs)) ++ drop (length bs) rest).
Proof.
  intros Hl. rewrite mem_write_ok by (rewrite ?length_app, ?length_fmap; lia).
  rewrite Nat2Z.id, fmap_app, <-app_assoc.
  rewrite take_app_length' by (by rewrite length_fmap).
  rewrite <-drop_drop, drop_app_length' by (by rewrite length_fmap). done.
Qed.

(** ** Sizes *)
Section msg_lemmas.
Context `{Endian}.

Lemma get_size_bytes v bs :
  length bs = 4%nat → size_be v = Some <$> bs → sc_msg_get_size v = Ok (be_value bs).
Proof.
  intros Hl Hv. unfold sc_msg_get_size.
  by rewrite Hv, init_bytes_some, ctb_ntohl_spec.
Qed.

Lemma set_size_wire v size :
  size_be (sc_msg_set_size v size) = Some <$> be_bytes (u32 size).
Proof. unfold sc_msg_set_size. simpl. by rewrite ctb_htonl_spec by apply u32_range. Qed.

(** A size written by [sc_msg_set_size] is read back by
    [sc_msg_get_size] modulo 2^32, the width of [unsigned], whatever the byte
    order of the machine. *)
Lemma get_set_size v size :
  sc_msg_get_size (sc_msg_set_size v size) = Ok (u32 size).
Proof.
  rewrite (get_size_bytes _ (be_bytes (u32 size))) by (done || apply set_size_wire).
  by rewrite be_value_bytes by apply u32_range.
Qed.

Lemma store32_zero l : store32 l 0 = replicate 4 x00.
Proof. by destruct l. Qed.

(** A message fresh from the allocator has no size that may be read, until
    [sc_msg_init] makes it the empty message; that takes one byte of data. *)
Lemma fresh_msg_size size : sc_msg_get_size (fresh_msg size) = Fault Indeterminate.
Proof. done. Qed.

Lemma sc_msg_init_fresh size : 1 ≤ size →
  sc_msg_init (fresh_msg size) =
    Ok (Msg (Some <$> replicate 4 x00)
            (Some x00 :: replicate (Z.to_nat size - 1) None)).
Proof.
  intros Hs. unfold sc_msg_init, fresh_msg. simpl data.
  rewrite mem_write_ok by (rewrite ?length_replicate; simpl; lia).
  rewrite store32_zero. cbn. repeat f_equal.
  destruct (Z.to_nat size) as [|n] eqn:E; [lia|]. simpl. by rewrite Nat.sub_0_r.
Qed.

Lemma sc_msg_init_empty : sc_msg_init (fresh_msg 0) = Fault OutOfBounds.
Proof. done. Qed.

Lemma SC_MSG_INIT_payload x :
  Z.of_nat (length x) < 2 ^ 32 →
  payload (SC_MSG_INIT (Z.of_nat (length x)) x) = Ok (Some <$> x).
Proof.
  intros Hx. unfold payload, SC_MSG_INIT.
  rewrite ctb_htonl_spec by apply u32_range. rewrite u32_small by lia.
  rewrite (get_size_bytes _ (be_bytes (Z.of_nat (length x)))) by done.
  rewrite be_value_bytes by lia. cbn [mbind outcome_bind].
  simpl data. rewrite decide_True by (rewrite length_fmap; lia).
  rewrite Nat2Z.id. by rewrite take_ge by (rewrite length_fmap; lia).
Qed.
End msg_lemmas.
