(* ===== verification/MsgReader.v ===== *)
(** * The message reader (src/msg_reader.c)

    A reader walks over the size field and then over the data of one message
    while bytes arrive.  Its counters are [unsigned], with their wrap-around;
    the invariant [reader_at] is what keeps them from wrapping. *)

From S2P Require Import Prelude Endian Msg.

Record msg_reader := MsgReader {
  r_msg : nat;
  head_pos : ptr;
  body_pos : ptr
}.

#[export] Instance msg_reader_eq_dec : EqDecision msg_reader.
Proof. solve_decision. Defined.

(** [(unsigned char * )&msg->size_be] and [msg->data] *)
Definition size_ptr (m : nat) : ptr := Ptr m FSize 0.
Definition data_ptr (m : nat) : ptr := Ptr m FData 0.

Definition msg_reader_init (m : nat) : msg_reader :=
  MsgReader m (size_ptr m) (data_ptr m).

(** The new position and the bytes left over. *)
Definition skip_pos (pos : ptr) (avail size : Z) : ptr * Z :=
  let skip := if decide (avail < size) then avail else size in
  (ptr_add pos skip, u32 (size - skip)).

Definition msg_reader_avail_head_size (r : msg_reader) : outcome Z :=
  d ← ptr_diff (head_pos r) (size_ptr (r_msg r));
  let used := u32 d in
  mret (u32 (SC_MSG_SIZE_BYTES - used)).

Section reader.
Context `{Endian}.

Definition msg_reader_avail_body_size (h : msg_heap) (r : msg_reader) : outcome Z :=
  msg ← deref_msg h (Some (r_msg r));
  d ← ptr_diff (body_pos r) (data_ptr (r_msg r));
  let used := u32 d in
  size ← sc_msg_get_size msg;
  mret (u32 (size - used)).

Definition msg_reader_parse_head (r : msg_reader) (size : Z) : outcome (msg_reader * Z) :=
  avail ← msg_reader_avail_head_size r;
  let '(pos, rest) := skip_pos (head_pos r) avail size in
  mret (MsgReader (r_msg r) pos (body_pos r), rest).

Definition msg_reader_parse_body (h : msg_heap) (r : msg_reader) (size : Z) :
    outcome (msg_reader * Z) :=
  avail ← msg_reader_avail_body_size h r;
  let '(pos, rest) := skip_pos (body_pos r) avail size in
  mret (MsgReader (r_msg r) (head_pos r) pos, rest).

Definition msg_reader_head_pos (r : msg_reader) : ptr := head_pos r.
Definition msg_reader_body_pos (r : msg_reader) : ptr := body_pos r.

Definition msg_reader_finished (h : msg_heap) (r : msg_reader) : outcome bool :=
  avail ← msg_reader_avail_body_size h r;
  mret (bool_decide (avail = 0)).
End reader.

(** ** The invariant

    [reader_at m v hdr body r]: the reader [r] is in message [m], whose memory
    is [v]; it has taken the header bytes [hdr] and the body bytes [body], and
    the header bytes still to come are as [sc_msg_init] left them. *)
Definition pad_header (hdr : list byte) : list byte :=
  hdr ++ replicate (4 - length hdr) x00.

(** The size the header announces so far. *)
Definition announced (hdr : list byte) : Z := be_value (pad_header hdr).

Record reader_at (m : nat) (v : sc_msg) (hdr body : list byte) (r : msg_reader) : Prop := {
  ra_reader : r = MsgReader m (Ptr m FSize (Z.of_nat (length hdr)))
                              (Ptr m FData (Z.of_nat (length body)));
  ra_hdr : (length hdr ≤ 4)%nat;
  ra_size : size_be v = Some <$> pad_header hdr;
  ra_body : take (length body) (data v) = Some <$> body;
  ra_order : (0 < length body → length hdr = 4)%nat;
  ra_fits : Z.of_nat (length body) ≤ announced hdr
}.

Lemma pad_header_length hdr : (length hdr ≤ 4)%nat → length (pad_header hdr) = 4%nat.
Proof. intros. unfold pad_header. rewrite length_app, length_replicate. lia. Qed.

Lemma pad_header_full hdr : length hdr = 4%nat → pad_header hdr = hdr.
Proof. intros E. unfold pad_header. by rewrite E, app_nil_r. Qed.

Lemma announced_range hdr : (length hdr ≤ 4)%nat → 0 ≤ announced hdr < 2 ^ 32.
Proof.
  intros Hl. pose proof (be_value_range (pad_header hdr)) as Hr.
  by rewrite pad_header_length in Hr by done.
Qed.

(** A header announces zero as long as only zero bytes have come. *)
Lemma announced_zero hdr : announced hdr = 0 ↔ Forall (λ b, b = x00) hdr.
Proof.
  unfold announced, pad_header. rewrite be_value_zero, Forall_app.
  split; [tauto|]. intros Hf. split; [done|].
  by apply Forall_replicate.
Qed.

Section reader_lemmas.
Context `{Endian}.
Implicit Types (h : msg_heap) (r : msg_reader).

(** The bytes missing, in the header and in the body. *)
Lemma avail_head m v hdr body r : reader_at m v hdr body r →
  msg_reader_avail_head_size r = Ok (4 - Z.of_nat (length hdr)).
Proof.
  intros [-> Hl _ _ _ _]. unfold msg_reader_avail_head_size, ptr_diff. cbn.
  rewrite decide_True by done. osimpl. unfold SC_MSG_SIZE_BYTES.
  rewrite Z.sub_0_r, !u32_small; rewrite ?u32_small; by try lia.
Qed.

Lemma get_size_at m v hdr body r : reader_at m v hdr body r →
  sc_msg_get_size v = Ok (announced hdr).
Proof.
  intros [_ Hl Hs _ _ _]. apply get_size_bytes; [by apply pad_header_length|done].
Qed.

Lemma avail_body h m v hdr body r :
  h !! m = Some v → reader_at m v hdr body r →
  msg_reader_avail_body_size h r = Ok (announced hdr - Z.of_nat (length body)).
Proof.
  intros Hm Hr. pose proof (get_size_at _ _ _ _ _ Hr) as Hs.
  pose proof (announced_range hdr (ra_hdr _ _ _ _ _ Hr)) as Hrange.
  destruct Hr as [-> Hl _ _ _ Hfit].
  unfold msg_reader_avail_body_size. cbn. rewrite Hm. cbn.
  unfold ptr_diff. cbn. rewrite decide_True by done. osimpl. rewrite Hs. osimpl.
  rewrite Z.sub_0_r, !u32_small; rewrite ?u32_small; by try lia.
Qed.

Lemma finished h m v hdr body r :
  h !! m = Some v → reader_at m v hdr body r →
  msg_reader_finished h r =
    Ok (bool_decide (announced hdr = Z.of_nat (length body))).
Proof.
  intros Hm Hr. unfold msg_reader_finished. rewrite (avail_body h m v hdr body r) by done.
  osimpl. f_equal. apply bool_decide_ext. lia.
Qed.

(** A reader starts on an initialised message with nothing read. *)
Lemma reader_init_at m v :
  size_be v = Some <$> replicate 4 x00 → reader_at m v [] [] (msg_reader_init m).
Proof. intros Hv. split; simpl; done || lia. Qed.

(** Header bytes move the reader forward. *)
Lemma parse_head_at m v hdr bs r :
  reader_at m v hdr [] r → (length hdr + length bs ≤ 4)%nat →
  ∃ r', msg_reader_parse_head r (Z.of_nat (length bs)) = Ok (r', 0) ∧
    ∀ v', size_be v' = Some <$> pad_header (hdr ++ bs) →
          reader_at m v' (hdr ++ bs) [] r'.
Proof.
  intros Hr Hl. pose proof (avail_head _ _ _ _ _ Hr) as Ha.
  destruct Hr as [-> _ Hs Hb Ho Hf].
  unfold msg_reader_parse_head. rewrite Ha. cbn [mbind outcome_bind]. unfold skip_pos.
  replace (if decide (4 - Z.of_nat (length hdr) < Z.of_nat (length bs))
           then 4 - Z.of_nat (length hdr) else Z.of_nat (length bs))
    with (Z.of_nat (length bs)) by (case_decide; lia).
  eexists. split; [by rewrite Z.sub_diag|].
  intros v' Hv'. split; [|rewrite length_app; lia|done|done|simpl; lia|].
  - unfold ptr_add. cbn. by rewrite length_app, Nat2Z.inj_add.
  - simpl. apply announced_range. rewrite length_app. lia.
Qed.

(** Body bytes move it forward in the data. *)
Lemma parse_body_at h m v hdr body bs r :
  h !! m = Some v → reader_at m v hdr body r → length hdr = 4%nat →
  Z.of_nat (length body + length bs) ≤ announced hdr →
  ∃ r', msg_reader_parse_body h r (Z.of_nat (length bs)) = Ok (r', 0) ∧
    ∀ v', size_be v' = size_be v →
          take (length (body ++ bs)) (data v') = Some <$> (body ++ bs) →
          reader_at m v' hdr (body ++ bs) r'.
Proof.
  intros Hm Hr H4 Hl. pose proof (avail_body h _ _ _ _ _ Hm Hr) as Ha.
  destruct Hr as [-> _ Hs Hb Ho Hf].
  unfold msg_reader_parse_body. rewrite Ha. cbn [mbind outcome_bind]. unfold skip_pos.
  set (n := announced hdr) in *.
  replace (if decide (n - Z.of_nat (length body) < Z.of_nat (length bs))
           then n - Z.of_nat (length body) else Z.of_nat (length bs))
    with (Z.of_nat (length bs)) by (case_decide; lia).
  eexists. split; [by rewrite Z.sub_diag|].
  intros v' Hv' Hd'. split; [|lia|congruence|done|done|rewrite length_app; lia].
  unfold ptr_add. cbn. by rewrite length_app, Nat2Z.inj_add.
Qed.
End reader_lemmas.

Lemma skip_pos_clamps p avail size :
  0 ≤ avail → 0 ≤ size < 2 ^ 32 →
  skip_pos p avail size = (ptr_add p (Z.min avail size), size - Z.min avail size).
Proof.
  intros Ha Hs. unfold skip_pos. case_decide.
  - rewrite Z.min_l, u32_small by lia. done.
  - rewrite Z.min_r, Z.sub_diag by lia. done.
Qed.

Section reader_bounds.
Context `{Endian}.

(** C39. Whatever byte count a parse function is given, the header position
    stays within the 4 bytes of the size field, the body position within the
    announced size, and the value returned is exactly the part of the count
    that was not consumed: no [unsigned] subtraction of the reader wraps. *)
Theorem reader_parse_bounds (h : msg_heap) m v hdr body r size :
  h !! m = Some v → reader_at m v hdr body r → 0 ≤ size < 2 ^ 32 →
  let nh := Z.of_nat (length hdr) in
  let nb := Z.of_nat (length body) in
  msg_reader_parse_head r size =
    Ok (MsgReader m (Ptr m FSize (Z.min 4 (nh + size))) (body_pos r),
        size - (Z.min 4 (nh + size) - nh)) ∧
  msg_reader_parse_body h r size =
    Ok (MsgReader m (head_pos r) (Ptr m FData (Z.min (announced hdr) (nb + size))),
        size - (Z.min (announced hdr) (nb + size) - nb)).
Proof.
  intros Hm Hr Hs nh nb.
  pose proof (avail_head _ _ _ _ _ Hr) as Hah.
  pose proof (avail_body h _ _ _ _ _ Hm Hr) as Hab.
  destruct Hr as [-> Hl _ _ _ Hfit].
  unfold msg_reader_parse_head, msg_reader_parse_body. rewrite Hah, Hab.
  cbn [mbind outcome_bind].
  rewrite !skip_pos_clamps by lia. subst nh nb.
  split; cbn; unfold ptr_add; cbn; repeat f_equal; lia.
Qed.
End reader_bounds.

(** ** Reading a message of five bytes *)
Section reader_demo.
#[local] Instance reader_endian : Endian := musl_endian true.

Definition reader_msg : sc_msg :=
  Msg (Some <$> [x00; x00; x00; x05]) (replicate 8 None).

Lemma reader_parse_bounds_witness :
  msg_reader_parse_head (MsgReader 0 (Ptr 0 FSize 4) (Ptr 0 FData 0)) 9 =
    Ok (MsgReader 0 (Ptr 0 FSize 4) (Ptr 0 FData 0), 9) ∧
  msg_reader_parse_body {[0%nat := reader_msg]}
    (MsgReader 0 (Ptr 0 FSize 4) (Ptr 0 FData 0)) 9 =
    Ok (MsgReader 0 (Ptr 0 FSize 4) (Ptr 0 FData 5), 4).
Proof.
  apply (reader_parse_bounds {[0%nat := reader_msg]} 0 reader_msg
    [x00; x00; x00; x05] [] (MsgReader 0 (Ptr 0 FSize 4) (Ptr 0 FData 0)) 9);
    [reflexivity|split; simpl; first [done | lia]|lia].
Defined.
End reader_demo.
