(* ===== verification/Uri.v ===== *)
(** * URIs (src/uri.c, src/proto.h)

    The parser of [pipe://PATH] and [tcp://IP4:PORT], translated with its
    in-place tokenization, its two validators, a reference grammar for each,
    and the proofs that they agree. *)

From S2P Require Import Prelude CString Strerror.
From Stdlib Require Import Ascii.

(** src/proto.h *)
Inductive proto := PROTO_NOSET | PROTO_PIPE | PROTO_TCP.

#[export] Instance proto_eq_dec : EqDecision proto.
Proof. solve_decision. Defined.

(** The union of [struct uri]; [LNone] before a member has been written. *)
Inductive uri_loc :=
  | LNone
  | LPipe (filepath : nat)
  | LTcp (ip4 : option nat) (port : option nat).

(** [struct uri]: the pointers are offsets into [u_str]. *)
Record uri := Uri {
  u_str : cbuf;
  u_proto : option nat;
  u_loc : uri_loc
}.

Definition slash : ascii := "/"%char.

(** ** Validators *)

(** The loop of [check_ip4]; [tmp] is the array of octets and [tp] the index
    of the current one. *)
Fixpoint check_ip4_loop (src : cbuf) (tmp : list Z) (tp : nat)
    (saw_digit : bool) (octets : Z) : outcome bool :=
  match src with
  | [] => mret (negb (bool_decide (octets < 4)))
  | ch :: src =>
      match digit ch with
      | Some d =>
          match tmp !! tp with
          | None => Fault OutOfBounds
          | Some cur =>
              let new := u32 (cur * 10 + d) in
              if decide (255 < new) then mret false
              else
                let tmp := <[tp := new mod 256]> tmp in
                if saw_digit then check_ip4_loop src tmp tp true octets
                else
                  let octets := octets + 1 in
                  if decide (4 < octets) then mret false
                  else check_ip4_loop src tmp tp true octets
          end
      | None =>
          if decide (ch = "."%char ∧ saw_digit = true) then
            if decide (octets = 4) then mret false
            else if decide (S tp < length tmp)%nat
            then check_ip4_loop src (<[S tp := 0]> tmp) (S tp) false octets
            else Fault OutOfBounds
          else mret false
      end
  end.

Definition check_ip4 (buf : cbuf) (p : option nat) : outcome bool :=
  src ← cstr_at buf p;
  check_ip4_loop src (replicate 4 0) 0 false 0.

Definition check_port (buf : cbuf) (p : option nat) : outcome bool :=
  s ← cstr_at buf p;
  let '(num, stop) := strtol s in
  if decide (stop = 0%nat) then mret false
  else if decide (num < 1 ∨ 65535 < num) then mret false
  else mret true.

Definition is_protocol_known (buf : cbuf) (p : option nat) : outcome bool :=
  b ← streq buf p "pipe";
  if b : bool then mret true else streq buf p "tcp".

(** ** The parser

    [ok1] and [ok2] say whether the two allocations succeed.  The error code
    is what the function leaves in [*errcode], on success too. *)
Section parser.
Context `{CtbStr}.

Definition colon : cbuf := [":"%char].

Definition sc_uri_tcp_tail (errcode : Z) (sbuf : cbuf) (proto : option nat) (path : nat) :
    outcome (option uri * Z) :=
  n ← strlen sbuf path;
  let r := ctb_strtok_s sbuf path (S n) colon in
  let sbuf := sr_buf r in
  okip ← check_ip4 sbuf (sr_tok r);
  if negb okip then mret (None, errcode) else
  match sr_ctx r with
  | None => mret (None, errcode)
  | Some port =>
      okport ← check_port sbuf (Some port);
      if negb okport then mret (None, errcode)
      else mret (Some (Uri sbuf proto (LTcp (sr_tok r) (Some port))), errcode)
  end.

Definition sc_uri_new (ok1 ok2 : bool) (instr : cbuf) : outcome (option uri * Z) :=
  let errcode := SC_EURIPARSE in
  if negb ok1 then mret (None, SC_ENOMEM) else
  if negb ok2 then mret (None, SC_ENOMEM) else
  let sbuf := instr ++ [NUL] in
  len ← strlen sbuf 0;
  let r := ctb_strtok_s sbuf 0 (S len) colon in
  let sbuf := sr_buf r in
  let proto := sr_tok r in
  match sr_ctx r with
  | None => mret (None, errcode)
  | Some path =>
      known ← is_protocol_known sbuf proto;
      if negb known then mret (None, SC_EINVPROTO) else
      plen ← strlen sbuf path;
      if decide (plen ≤ 2)%nat then mret (None, errcode) else
      c1 ← char_at sbuf path;
      if decide (c1 ≠ slash) then mret (None, errcode) else
      c2 ← char_at sbuf (path + 1);
      if decide (c2 ≠ slash) then mret (None, errcode) else
      let path := (path + 2)%nat in
      pipe ← streq sbuf proto "pipe";
      if pipe : bool then mret (Some (Uri sbuf proto (LPipe path)), errcode)
      else sc_uri_tcp_tail errcode sbuf proto path
  end.
End parser.

(** ** Accessors *)

(** [ndebug] says whether assertions are compiled out. *)
Definition sc_uri_protocol (ndebug : bool) (u : uri) : outcome proto :=
  known ← (if ndebug then mret true else is_protocol_known (u_str u) (u_proto u));
  if negb known then Fault AssertFailed else
  pipe ← streq (u_str u) (u_proto u) "pipe";
  if pipe : bool then mret PROTO_PIPE else
  tcp ← streq (u_str u) (u_proto u) "tcp";
  if tcp : bool then mret PROTO_TCP else mret PROTO_NOSET.

(** The two union members start with a pointer, so each of the first two
    accessors reads that pointer whichever member was written. *)
Definition sc_uri_pipe_filepath (u : uri) : outcome (option nat) :=
  match u_loc u with
  | LNone => Fault Indeterminate
  | LPipe p => mret (Some p)
  | LTcp ip4 _ => mret ip4
  end.
Definition sc_uri_tcp_ip4 (u : uri) : outcome (option nat) :=
  sc_uri_pipe_filepath u.

Definition sc_uri_tcp_port (u : uri) : outcome Z :=
  match u_loc u with
  | LTcp _ port => s ← cstr_at (u_str u) port; mret (u32 (fst (strtol s)))
  | _ => Fault Indeterminate
  end.

(** ** Reference grammar *)

Fixpoint split_on (c : ascii) (s : cbuf) : list cbuf :=
  match s with
  | [] => [[]]
  | x :: s =>
      if decide (x = c) then [] :: split_on c s
      else match split_on c s with
           | [] => [[x]]
           | p :: ps => (x :: p) :: ps
           end
  end.

(** A decimal octet: one digit or more, of value at most 255. *)
Definition parse_octet (p : cbuf) : option Z :=
  match p with
  | [] => None
  | _ => ds ← mapM digit p;
         let v := dec_value 0 ds in
         if decide (v ≤ 255) then Some v else None
  end.

Definition parse_ip4 (s : cbuf) : option (list Z) :=
  vs ← mapM parse_octet (split_on "." s);
  if decide (length vs = 4%nat) then Some vs else None.

(** What the parser makes of the text behind the protocol's colon. *)
Inductive uri_view :=
  | VPipe (path : cbuf)
  | VTcp (ip4 : cbuf) (port : cbuf).

Inductive uri_ref :=
  | RFault
  | RErr (errcode : Z)
  | ROk (v : uri_view).

Definition port_ok (s : cbuf) : bool :=
  let '(num, stop) := strtol s in
  bool_decide (stop ≠ 0%nat ∧ 1 ≤ num ≤ 65535).

Fixpoint skip_colons (s : cbuf) : cbuf :=
  match s with
  | c :: s' => if decide (c = ":"%char) then skip_colons s' else s
  | [] => []
  end.

(** The text in front of the first colon, and the text behind it, if any. *)
Fixpoint break_colon (s : cbuf) : cbuf * option cbuf :=
  match s with
  | [] => ([], None)
  | c :: s' =>
      if decide (c = ":"%char) then ([], Some s')
      else let '(a, b) := break_colon s' in (c :: a, b)
  end.

Definition tcp_ref (path : cbuf) : uri_ref :=
  match break_colon (skip_colons path) with
  | ([], _) => RFault
  | (ip, tl) =>
      if negb (bool_decide (is_Some (parse_ip4 ip))) then RErr SC_EURIPARSE
      else match tl with
           | None => RErr SC_EURIPARSE
           | Some port => if port_ok port then ROk (VTcp ip port) else RErr SC_EURIPARSE
           end
  end.

Definition uri_reference (proto rest : cbuf) : uri_ref :=
  if bool_decide (proto ≠ str "pipe" ∧ proto ≠ str "tcp") then RErr SC_EINVPROTO
  else match rest with
  | c1 :: c2 :: c :: path =>
      if decide (c1 = slash ∧ c2 = slash) then
        if bool_decide (proto = str "pipe") then ROk (VPipe (c :: path))
        else tcp_ref (c :: path)
      else RErr SC_EURIPARSE
  | _ => RErr SC_EURIPARSE
  end.

(** The strings a parsed URI gives to its users. *)
Definition uri_shows (u : uri) (v : uri_view) : Prop :=
  match v with
  | VPipe path =>
      cstr_at (u_str u) (u_proto u) = Ok (str "pipe") ∧
      (p ← sc_uri_pipe_filepath u; cstr_at (u_str u) p) = Ok path
  | VTcp ip port =>
      cstr_at (u_str u) (u_proto u) = Ok (str "tcp") ∧
      (p ← sc_uri_tcp_ip4 u; cstr_at (u_str u) p) = Ok ip ∧
      (∃ p, u_loc u = LTcp p.1 p.2 ∧ cstr_at (u_str u) p.2 = Ok port)
  end.

Definition agrees (r : outcome (option uri * Z)) (ref : uri_ref) : Prop :=
  match ref with
  | RFault => r = Fault NullDeref
  | RErr e => r = Ok (None, e)
  | ROk v => ∃ u, r = Ok (Some u, SC_EURIPARSE) ∧ uri_shows u v
  end.

(** ** The IPv4 validator agrees with the reference grammar *)

Lemma split_on_cons c s : ∃ p ps, split_on c s = p :: ps.
Proof.
  destruct s as [|x s]; simpl; [by eauto|].
  case_decide; [by eauto|]. destruct (split_on c s); by eauto.
Qed.

(** An octet of which digits of value [cur] have been seen already. *)
Definition octet_tail (cur : Z) (p : cbuf) : option Z :=
  ds ← mapM digit p;
  let v := dec_value cur ds in
  if decide (v ≤ 255) then Some v else None.

Lemma parse_octet_tail c p : parse_octet (c :: p) = octet_tail 0 (c :: p).
Proof. done. Qed.

Lemma octet_tail_cons cur c d p :
  digit c = Some d → octet_tail cur (c :: p) = octet_tail (cur * 10 + d) p.
Proof. intros E. unfold octet_tail. simpl. rewrite E. simpl. by destruct (mapM digit p). Qed.

Lemma octet_tail_nondigit cur c p : digit c = None → octet_tail cur (c :: p) = None.
Proof. intros E. unfold octet_tail. simpl. by rewrite E. Qed.

Lemma mapM_digit_range p ds : mapM digit p = Some ds → Forall (λ d, 0 ≤ d ≤ 9) ds.
Proof.
  rewrite mapM_Some. induction 1; constructor; [by eapply digit_range|done].
Qed.

(** Once over 255, more digits do not help. *)
Lemma octet_tail_big cur p : 0 ≤ cur → 255 < cur → octet_tail cur p = None.
Proof.
  intros Ha Hb. unfold octet_tail. destruct (mapM digit p) as [ds|] eqn:E; [|done].
  apply mapM_digit_range in E. simpl.
  pose proof (dec_value_ge cur ds Ha E). rewrite decide_False; [done|lia].
Qed.

Lemma digit_not_dot c d : digit c = Some d → c ≠ "."%char.
Proof. intros E ->. vm_compute in E. done. Qed.

(** What the loop decides from a state with [cur] in the current octet. *)
Definition ip4_tail (cur : Z) (saw : bool) (octets : Z) (src : cbuf) : Prop :=
  match split_on "." src with
  | [] => False
  | p :: ps =>
      is_Some (octet_tail cur p) ∧ (saw = true ∨ p ≠ []) ∧
      is_Some (mapM parse_octet ps) ∧
      octets + (if saw then 0 else 1) + Z.of_nat (length ps) = 4
  end.

Lemma ip4_tail_nil cur (saw : bool) octets :
  0 ≤ cur ≤ 255 → (if saw then octets ≤ 4 else octets ≤ 3) →
  ip4_tail cur saw octets [] ↔ ¬ octets < 4.
Proof.
  intros Hc Ho. unfold ip4_tail. simpl. split.
  - intros (_ & Hs & _ & E). destruct Hs as [->|?]; [lia|done].
  - intros Hn. destruct saw; [|lia]. split_and!; [|by left|by eexists|lia].
    unfold octet_tail. simpl. rewrite decide_True by lia. by eexists.
Qed.

Lemma ip4_tail_digit cur (saw : bool) octets c d src :
  digit c = Some d →
  ip4_tail cur saw octets (c :: src) ↔
  ip4_tail (cur * 10 + d) true (octets + if saw then 0 else 1) src.
Proof.
  intros E. unfold ip4_tail. simpl.
  rewrite decide_False by (by eapply digit_not_dot).
  destruct (split_on_cons "." src) as (p & ps & ->).
  rewrite (octet_tail_cons _ _ _ _ E). destruct saw; naive_solver lia.
Qed.

Lemma ip4_tail_dot cur octets src :
  0 ≤ cur ≤ 255 →
  ip4_tail cur true octets ("."%char :: src) ↔ ip4_tail 0 false octets src.
Proof.
  intros Hc. unfold ip4_tail. simpl. destruct (split_on_cons "." src) as (p & ps & ->).
  assert (is_Some (octet_tail cur [])) as Ho.
  { unfold octet_tail. simpl. rewrite decide_True by lia. by eexists. }
  assert (is_Some (mapM parse_octet (p :: ps)) ↔
    is_Some (octet_tail 0 p) ∧ p ≠ [] ∧ is_Some (mapM parse_octet ps)) as ->.
  { simpl. destruct p as [|c p].
    - split; [by intros [? ?]|naive_solver].
    - rewrite parse_octet_tail. destruct (octet_tail 0 (c :: p)); simpl.
      + destruct (mapM parse_octet ps); simpl;
          (split; [intros [? ?]; simplify_eq; naive_solver|naive_solver]).
      + split; [by intros [? ?]|by intros [[? ?] _]]. }
  simpl length. rewrite Nat2Z.inj_succ. naive_solver lia.
Qed.

Lemma ip4_tail_bad cur saw octets c src :
  digit c = None → ¬ (c = "."%char ∧ saw = true) → ¬ ip4_tail cur saw octets (c :: src).
Proof.
  intros E Hn. unfold ip4_tail. simpl. case_decide as Hc.
  - intros (_ & [?|?] & _); naive_solver.
  - destruct (split_on_cons "." src) as (p & ps & ->).
    rewrite octet_tail_nondigit by done. intros ([? ?] & _). done.
Qed.

(** The state of the loop: the current octet is [cur], the index follows the
    count of octets. *)
Definition ip4_inv (tmp : list Z) (tp : nat) (saw : bool) (octets : Z) (cur : Z) : Prop :=
  length tmp = 4%nat ∧ tmp !! tp = Some cur ∧ 0 ≤ cur ≤ 255 ∧
  Z.of_nat tp = octets - (if saw then 1 else 0) ∧
  (saw = false → cur = 0) ∧ octets ≤ (if saw then 4 else 3).

Lemma check_ip4_loop_spec src tmp tp saw octets cur b :
  ip4_inv tmp tp saw octets cur →
  (b = true ↔ ip4_tail cur saw octets src) →
  check_ip4_loop src tmp tp saw octets = Ok b.
Proof.
  revert tmp tp saw octets cur b.
  induction src as [|c src IH]; intros tmp tp saw octets cur b
    (Hlen & Htp & Hcur & Hidx & Hz & Hoct) Hb; simpl.
  { rewrite ip4_tail_nil in Hb by (try destruct saw; lia). osimpl. f_equal.
    case_bool_decide; destruct b; naive_solver. }
  destruct (digit c) as [d|] eqn:Ed.
  - rewrite Htp. pose proof (digit_range _ _ Ed) as Hd.
    rewrite (ip4_tail_digit _ _ _ _ _ _ Ed) in Hb.
    rewrite !u32_small by lia. case_decide as Hbig.
    { destruct b; [|done]. exfalso. destruct Hb as [Hb _]. specialize (Hb eq_refl).
      unfold ip4_tail in Hb. destruct (split_on_cons "." src) as (p & ps & E).
      rewrite E, octet_tail_big in Hb by lia. by destruct Hb as [[? ?] _]. }
    rewrite Z.mod_small by lia. assert (tp < length tmp)%nat by (by eapply lookup_lt_Some).
    destruct saw.
    + rewrite Z.add_0_r in Hb. eapply IH; [|exact Hb].
      split_and!; rewrite ?length_insert, ?list_lookup_insert_eq by lia; done || lia.
    + rewrite decide_False by lia. eapply IH; [|exact Hb].
      split_and!; rewrite ?length_insert, ?list_lookup_insert_eq by lia; done || lia.
  - case_decide as Hdot.
    + destruct Hdot as [-> ->]. rewrite ip4_tail_dot in Hb by done.
      case_decide as H4.
      { subst octets. destruct b; [|done]. exfalso. destruct Hb as [Hb _].
        specialize (Hb eq_refl). unfold ip4_tail in Hb.
        destruct (split_on "." src); [done|]. lia. }
      rewrite decide_True by lia. eapply IH; [|exact Hb].
      split_and!; rewrite ?length_insert, ?list_lookup_insert_eq by lia; done || lia.
    + destruct b; [|done]. exfalso.
      by eapply (ip4_tail_bad cur saw octets c src Ed Hdot), Hb.
Qed.

Lemma ip4_tail_parse s : ip4_tail 0 false 0 s ↔ is_Some (parse_ip4 s).
Proof.
  unfold ip4_tail, parse_ip4. destruct (split_on_cons "." s) as (p & ps & ->).
  destruct p as [|c p]; [split; [naive_solver|by intros [? ?]]|].
  change (mapM parse_octet ((c :: p) :: ps)) with
    (v ← octet_tail 0 (c :: p); vs ← mapM parse_octet ps; mret (v :: vs)).
  destruct (octet_tail 0 (c :: p)) as [v|]; simpl; [|split; [naive_solver|by intros [? ?]]].
  destruct (mapM parse_octet ps) as [vs|] eqn:E; simpl;
    [|split; [naive_solver|by intros [? ?]]].
  apply mapM_Some in E. apply Forall2_length in E. split.
  - intros (_ & _ & _ & Hn). rewrite decide_True by (simpl; lia). by eexists.
  - intros [x Hx]. case_decide as Hv; [|done]. simpl in Hv.
    split_and!; [by eexists|by right|by eexists|lia].
Qed.

Lemma check_ip4_eq buf p s : cstr_at buf p = Ok s →
  check_ip4 buf p = Ok (bool_decide (is_Some (parse_ip4 s))).
Proof.
  intros E. unfold check_ip4. rewrite E. osimpl.
  apply check_ip4_loop_spec with 0.
  - split_and!; done.
  - by rewrite bool_decide_eq_true, ip4_tail_parse.
Qed.

Lemma check_port_eq buf p s : cstr_at buf p = Ok s →
  check_port buf p = Ok (port_ok s).
Proof.
  intros E. unfold check_port, port_ok. rewrite E. osimpl.
  destruct (strtol s) as [num stop]. repeat case_decide; f_equal; symmetry;
    case_bool_decide; naive_solver lia.
Qed.

(** C34. [check_ip4] computes, without ever leaving its array of four octets,
    exactly the reference grammar: four parts separated by dots, each a
    non-empty run of digits of value at most 255 (leading zeros allowed). *)
Theorem check_ip4_correct pre s post :
  NUL ∉ s →
  check_ip4 (pre ++ s ++ NUL :: post) (Some (length pre)) =
    Ok (bool_decide (is_Some (parse_ip4 s))).
Proof. intros Hs. apply check_ip4_eq, cstr_at_app, Hs. Qed.

(** ** The parser agrees with the reference *)

Lemma strlen_eq buf p s : cstr_at buf (Some p) = Ok s → strlen buf p = Ok (length s).
Proof. intros E. unfold strlen. by rewrite E. Qed.

Lemma streq_eq buf p s lit : cstr_at buf p = Ok s →
  streq buf p lit = Ok (bool_decide (s = str lit)).
Proof. intros E. unfold streq. by rewrite E. Qed.

Lemma is_protocol_known_eq buf p s : cstr_at buf p = Ok s →
  is_protocol_known buf p = Ok (bool_decide (s = str "pipe" ∨ s = str "tcp")).
Proof.
  intros E. unfold is_protocol_known. rewrite !(streq_eq _ _ _ _ E). osimpl.
  case_bool_decide as E1; [rewrite bool_decide_eq_true_2 by auto; done|].
  f_equal. apply bool_decide_ext. tauto.
Qed.

(** Cutting a string at its colons. *)
Lemma skip_colons_split s : ∃ ds, s = ds ++ skip_colons s ∧ Forall (.∈ colon) ds.
Proof.
  induction s as [|c s (ds & E & Hd)]; simpl; [by exists []|]. case_decide as Hc.
  - exists (c :: ds). simpl. rewrite <-E. split; [done|]. constructor; [|done].
    subst c. unfold colon. set_solver.
  - by exists [].
Qed.

Lemma skip_colons_head s c p : skip_colons s = c :: p → c ≠ ":"%char.
Proof.
  induction s as [|x s IH]; simpl; [done|]. case_decide; [done|]. by intros [= -> ->].
Qed.

Definition rejoin (tl : option cbuf) : cbuf :=
  match tl with None => [] | Some q => ":"%char :: q end.

Lemma break_colon_split s ip tl :
  break_colon s = (ip, tl) → s = ip ++ rejoin tl ∧ Forall (.∉ colon) ip.
Proof.
  revert ip. induction s as [|c s IH]; intros ip; simpl; [by intros [= <- <-]|].
  case_decide as Hc.
  - intros [= <- <-]. by subst c.
  - destruct (break_colon s) as [a b]. intros [= <- <-].
    destruct (IH a) as [-> Ha]; [done|]. split; [done|]. constructor; [|done].
    unfold colon. set_solver.
Qed.

Section parser_lemmas.
Context `{CtbStr}.

(** Where the authority of a tcp URI starts once its protocol has been
    tokenized. *)
Definition tcp_pre : cbuf := str "tcp" ++ NUL :: str "//".

Lemma tcp_proto_at rest : cstr_at (tcp_pre ++ rest) (Some 0%nat) = Ok (str "tcp").
Proof. done. Qed.

(** The second tokenization: an address with a port behind it. *)
Lemma tcp_tail_port ds ip port :
  NUL ∉ ds ++ ip ++ ":"%char :: port → Forall (.∈ colon) ds →
  ip ≠ [] → Forall (.∉ colon) ip →
  agrees (sc_uri_tcp_tail SC_EURIPARSE
            (tcp_pre ++ (ds ++ ip ++ ":"%char :: port) ++ [NUL])
            (Some 0%nat) (length tcp_pre))
    (if bool_decide (is_Some (parse_ip4 ip)) then
       if port_ok port then ROk (VTcp ip port) else RErr SC_EURIPARSE
     else RErr SC_EURIPARSE).
Proof.
  intros Hn Hds Hne Hip. unfold sc_uri_tcp_tail.
  rewrite (strlen_eq _ _ (ds ++ ip ++ ":"%char :: port)) by by apply cstr_at_app.
  osimpl. rewrite <-!app_assoc. cbn [app].
  rewrite (strtok_split tcp_pre ds ip ":" port [] colon) by (done || by left).
  cbn [sr_buf sr_tok sr_ctx].
  assert (Eip : cstr_at (tcp_pre ++ ds ++ ip ++ NUL :: port ++ [NUL])
                  (Some (length tcp_pre + length ds)%nat) = Ok ip).
  { apply cstr_at_eq with (tcp_pre ++ ds) (port ++ [NUL]);
      [by rewrite <-app_assoc|by rewrite length_app|set_solver]. }
  assert (Eport : cstr_at (tcp_pre ++ ds ++ ip ++ NUL :: port ++ [NUL])
      (Some (length tcp_pre + length ds + length ip + 1)%nat) = Ok port).
  { apply cstr_at_eq with (tcp_pre ++ ds ++ ip ++ [NUL]) [];
      [by rewrite <-!app_assoc|rewrite !length_app; simpl; lia|set_solver]. }
  rewrite (check_ip4_eq _ _ _ Eip). osimpl.
  case_bool_decide; cbn [negb]; [|done].
  rewrite (check_port_eq _ _ _ Eport). osimpl. destruct (port_ok port); [|done].
  cbn [negb]. eexists. split; [done|]. cbn [uri_shows u_str u_proto u_loc].
  split_and!; [apply tcp_proto_at|done|]. by eexists (_, _).
Qed.

(** An address with no colon behind it. *)
Lemma tcp_tail_bare ds ip :
  NUL ∉ ds ++ ip → Forall (.∈ colon) ds → ip ≠ [] → Forall (.∉ colon) ip →
  sc_uri_tcp_tail SC_EURIPARSE (tcp_pre ++ (ds ++ ip) ++ [NUL])
    (Some 0%nat) (length tcp_pre) = Ok (None, SC_EURIPARSE).
Proof.
  intros Hn Hds Hne Hip. unfold sc_uri_tcp_tail.
  rewrite (strlen_eq _ _ (ds ++ ip)) by by apply cstr_at_app.
  osimpl. rewrite <-app_assoc.
  destruct (strtok_last tcp_pre ds ip [] colon Hn Hds Hne Hip) as (-> & -> & Hctx).
  rewrite (check_ip4_eq _ _ ip).
  2: { apply cstr_at_eq with (tcp_pre ++ ds) [];
         [by rewrite <-app_assoc|by rewrite length_app|set_solver]. }
  osimpl. destruct (negb _); [done|].
  destruct Hctx as [->| ->]; [done|].
  rewrite (check_port_eq _ _ []); [done|].
  apply cstr_at_eq with (tcp_pre ++ ds ++ ip) [];
    [by rewrite <-!app_assoc|rewrite !length_app; simpl; lia|set_solver].
Qed.

(** Nothing but colons: the tokenizer finds no token. *)
Lemma tcp_tail_colons ds :
  NUL ∉ ds → Forall (.∈ colon) ds →
  sc_uri_tcp_tail SC_EURIPARSE (tcp_pre ++ ds ++ [NUL])
    (Some 0%nat) (length tcp_pre) = Fault NullDeref.
Proof.
  intros Hn Hds. unfold sc_uri_tcp_tail.
  rewrite (strlen_eq _ _ ds) by by apply cstr_at_app. osimpl.
  by destruct (strtok_none tcp_pre ds [] colon Hn Hds) as (-> & ->).
Qed.

Lemma tcp_tail_agrees path : NUL ∉ path →
  agrees (sc_uri_tcp_tail SC_EURIPARSE (tcp_pre ++ path ++ [NUL])
            (Some 0%nat) (length tcp_pre)) (tcp_ref path).
Proof.
  intros Hn. destruct (skip_colons_split path) as (ds & Hpath & Hds).
  unfold tcp_ref. destruct (break_colon (skip_colons path)) as [ip tl] eqn:Eb.
  apply break_colon_split in Eb as [Hp Hip].
  rewrite Hp in Hpath.
  destruct ip as [|c ip].
  - destruct tl as [q|].
    { exfalso. by apply (skip_colons_head path ":" q). }
    simpl in Hpath. rewrite app_nil_r in Hpath. subst ds. by apply tcp_tail_colons.
  - destruct tl as [port|]; cbn [rejoin] in Hpath.
    + rewrite Hpath in Hn |- * .
      pose proof (tcp_tail_port ds (c :: ip) port Hn Hds ltac:(done) Hip) as Ht.
      by destruct (bool_decide (is_Some (parse_ip4 (c :: ip)))).
    + rewrite app_nil_r in Hpath. rewrite Hpath in Hn |- * .
      rewrite tcp_tail_bare by done. by destruct (bool_decide _).
Qed.
End parser_lemmas.

Section parser_correct.
Context `{CtbStr}.

(** The buffer after the first tokenization. *)
Lemma first_token tok rest :
  NUL ∉ tok ++ ":"%char :: rest → tok ≠ [] → Forall (.∉ colon) tok →
  ctb_strtok_s ((tok ++ ":"%char :: rest) ++ [NUL]) 0
               (S (length (tok ++ ":"%char :: rest))) colon =
    StrtokRes (Some 0%nat) (tok ++ NUL :: rest ++ [NUL]) (Some (length tok + 1)%nat).
Proof.
  intros Hn Hne Htok.
  pose proof (strtok_split [] [] tok ":" rest [] colon) as E. simpl in E.
  rewrite <-app_assoc. simpl. apply E; try done. by left.
Qed.

Lemma sc_uri_new_agrees tok rest :
  NUL ∉ tok ++ ":"%char :: rest → tok ≠ [] → ":"%char ∉ tok →
  agrees (sc_uri_new true true (tok ++ ":"%char :: rest)) (uri_reference tok rest).
Proof.
  intros Hn Hne Hcol.
  assert (Htok : Forall (.∉ colon) tok).
  { apply Forall_forall. intros x Hx Hin. unfold colon in Hin. set_solver. }
  unfold sc_uri_new. cbn [negb].
  rewrite (strlen_eq _ _ (tok ++ ":"%char :: rest)).
  2: { by apply (cstr_at_eq _ _ [] _ []). }
  osimpl. rewrite first_token by done. cbn [sr_buf sr_tok sr_ctx].
  set (buf := tok ++ NUL :: rest ++ [NUL]).
  assert (Etok : cstr_at buf (Some 0%nat) = Ok tok).
  { apply (cstr_at_eq _ _ [] _ (rest ++ [NUL])); [done|done|set_solver]. }
  assert (Erest : cstr_at buf (Some (length tok + 1)%nat) = Ok rest).
  { apply cstr_at_eq with (tok ++ [NUL]) [];
      [by rewrite <-app_assoc|by rewrite length_app|set_solver]. }
  rewrite (is_protocol_known_eq _ _ _ Etok). osimpl. unfold uri_reference.
  case_bool_decide as Hknown; cbn [negb].
  2: { rewrite bool_decide_eq_true_2 by tauto. done. }
  rewrite bool_decide_eq_false_2 by tauto.
  rewrite (strlen_eq _ _ _ Erest). osimpl.
  case_decide as Hlen.
  { by destruct rest as [|c1 [|c2 [|]]]; simpl in Hlen; try lia. }
  destruct rest as [|c1 [|c2 [|c3 path]]]; simpl in Hlen; try lia.
  rewrite (char_at_eq buf (length tok + 1) (tok ++ [NUL]) c1 (c2 :: c3 :: path ++ [NUL]))
    by first [by rewrite length_app | unfold buf; by rewrite <-app_assoc].
  osimpl. case_decide as Hc1; [rewrite decide_False by tauto; done|].
  rewrite (char_at_eq buf (length tok + 1 + 1) (tok ++ [NUL; c1]) c2 (c3 :: path ++ [NUL]))
    by first [rewrite length_app; simpl; lia | unfold buf; by rewrite <-app_assoc].
  osimpl. case_decide as Hc2; [rewrite decide_False by tauto; done|].
  subst c1 c2. rewrite decide_True by done.
  rewrite (streq_eq _ _ _ _ Etok). osimpl. case_bool_decide as Hpipe.
  - eexists. split; [done|]. cbn [uri_shows u_str u_proto u_loc].
    split; [by rewrite Etok, Hpipe|]. cbn.
    apply cstr_at_eq with (tok ++ NUL :: str "//") []; [|rewrite length_app; simpl; lia|set_solver].
    unfold buf. by rewrite <-app_assoc.
  - destruct Hknown as [?| ->]; [done|]. apply tcp_tail_agrees. set_solver.
Qed.

(** C13. The parser is correct on every URI with a protocol part: for a
    C string [proto:rest] whose protocol part is non-empty, [sc_uri_new]
    returns what the reference grammar says, in every case, the error codes
    and the crash included; a parsed URI shows its users the very protocol,
    path, address and port text of the input. *)
Theorem sc_uri_new_correct tok rest :
  NUL ∉ tok ++ ":"%char :: rest → tok ≠ [] → ":"%char ∉ tok →
  agrees (sc_uri_new true true (tok ++ ":"%char :: rest)) (uri_reference tok rest).
Proof. apply sc_uri_new_agrees. Qed.
End parser_correct.

(** ** Consequences for users of the parser *)

(** Decimal notation. *)
Definition digit_char (d : Z) : ascii := ascii_of_nat (Z.to_nat (48 + d)).

Fixpoint print_dec_fuel (fuel : nat) (n : Z) : cbuf :=
  match fuel with
  | O => [digit_char (n mod 10)]
  | S fuel =>
      if decide (n < 10) then [digit_char n]
      else print_dec_fuel fuel (n / 10) ++ [digit_char (n mod 10)]
  end.
(** Five digits are enough for 16 bits. *)
Definition print_dec (n : Z) : cbuf := print_dec_fuel 4 n.

Definition print_ip4 (a b c d : Z) : cbuf :=
  print_dec a ++ "."%char :: print_dec b ++ "."%char :: print_dec c ++
  "."%char :: print_dec d.

Lemma digit_digit_char d : 0 ≤ d ≤ 9 → digit (digit_char d) = Some d.
Proof.
  intros Hd. assert (∃ n, d = Z.of_nat n ∧ (n ≤ 9)%nat) as (n & -> & Hn)
    by (exists (Z.to_nat d); lia).
  do 10 (destruct n as [|n]; [done|]). lia.
Qed.

Lemma print_dec_fuel_digits fuel n :
  0 ≤ n < 10 ^ Z.of_nat (S fuel) →
  ∃ d ds, mapM digit (print_dec_fuel fuel n) = Some (d :: ds) ∧ dec_value 0 (d :: ds) = n.
Proof.
  revert n. induction fuel as [|fuel IH]; intros n Hn.
  - change (10 ^ Z.of_nat 1) with 10 in Hn. cbn [print_dec_fuel].
    rewrite Z.mod_small by lia. exists n, []. cbn.
    rewrite digit_digit_char by lia. cbn. by split.
  - rewrite Nat2Z.inj_succ, Z.pow_succ_r in Hn by lia. cbn [print_dec_fuel].
    case_decide.
    + exists n, []. cbn. rewrite digit_digit_char by lia. cbn. by split.
    + destruct (IH (n / 10)) as (d & ds & E & Hv); [split; [dlia|];
        apply Z.div_lt_upper_bound; lia|].
      exists d, (ds ++ [n mod 10]).
      rewrite app_comm_cons, dec_value_snoc, Hv. split; [|dlia].
      apply mapM_Some. apply mapM_Some in E. apply Forall2_app; [done|].
      constructor; [|done]. apply digit_digit_char. dlia.
Qed.

Lemma print_dec_digits n : 0 ≤ n ≤ 65535 →
  ∃ d ds, mapM digit (print_dec n) = Some (d :: ds) ∧ dec_value 0 (d :: ds) = n.
Proof. intros Hn. apply print_dec_fuel_digits. simpl. lia. Qed.

(** Digits are neither spaces, signs, separators nor terminators. *)
(** The characters of a URI that delimit. *)
Definition separators : cbuf := [NUL; "."%char; ":"%char; "+"%char; "-"%char].

Lemma digit_not c d : digit c = Some d → (c ∉ separators) ∧
  isspace c = false.
Proof.
  intros E. split.
  - intros Hc. repeat (apply elem_of_cons in Hc as [->|Hc]; [by vm_compute in E|]).
    by apply elem_of_nil in Hc.
  - unfold digit in E. case_decide; [|done]. unfold isspace.
    apply orb_false_intro; [apply Nat.eqb_neq; lia|].
    apply andb_false_intro2, Nat.leb_gt. lia.
Qed.

Lemma mapM_digit_not p ds x : mapM digit p = Some ds →
  x ∈ separators → x ∉ p.
Proof.
  intros E Hx Hin. apply mapM_Some in E.
  apply list_elem_of_lookup in Hin as [i Hi].
  destruct (Forall2_lookup_l _ _ _ _ _ E Hi) as (d & _ & Hd).
  by apply (digit_not x d).
Qed.

Definition no_digit_head (q : cbuf) : Prop :=
  match q with c :: _ => digit c = None | [] => True end.

Lemma lead_digits_app p ds q :
  mapM digit p = Some ds → no_digit_head q → lead_digits (p ++ q) = ds.
Proof.
  intros E%mapM_Some Hq. induction E as [|c d p ds Hc _ IH]; simpl.
  - destruct q as [|c q]; [done|]. simpl in *. by rewrite Hq.
  - by rewrite Hc, IH.
Qed.

(** [strtol] reads the digits and stops at the first character that is not
    one, whatever follows it. *)
Lemma strtol_digits p d ds q :
  mapM digit p = Some (d :: ds) → no_digit_head q → dec_value 0 (d :: ds) ≤ LONG_MAX →
  strtol (p ++ q) = (dec_value 0 (d :: ds), length p).
Proof.
  intros E Hq Hmax. pose proof (lead_digits_app _ _ _ E Hq) as Hl.
  pose proof (mapM_digit_range _ _ E) as Hr.
  pose proof (length_mapM _ _ _ E) as Hlen.
  destruct p as [|c p]; [done|].
  assert (∃ d, digit c = Some d) as [d' Hc].
  { apply mapM_Some in E. inversion E; subst. by eexists. }
  destruct (digit_not _ _ Hc) as [Hsep Hsp].
  unfold strtol. rewrite <-app_comm_cons in *. cbn [spaces]. rewrite Hsp. cbn [drop].
  assert (lead_sign (c :: p ++ q) = (false, 0%nat)) as ->.
  { unfold lead_sign. repeat case_match; set_solver. }
  cbn [Nat.add drop]. rewrite Hl, Hlen. f_equal.
  pose proof (dec_value_ge 0 (d :: ds) ltac:(lia) Hr).
  unfold clamp_long, LONG_MIN. lia.
Qed.

Lemma port_ok_print n q : 1 ≤ n ≤ 65535 → no_digit_head q →
  strtol (print_dec n ++ q) = (n, length (print_dec n)) ∧ port_ok (print_dec n ++ q) = true.
Proof.
  intros Hn Hq. destruct (print_dec_digits n ltac:(lia)) as (d & ds & E & Hv).
  assert (strtol (print_dec n ++ q) = (n, length (print_dec n))) as Hs.
  { rewrite (strtol_digits _ _ _ _ E Hq), Hv; [done|]. unfold LONG_MAX. lia. }
  split; [done|]. unfold port_ok. rewrite Hs. apply bool_decide_eq_true.
  apply length_mapM in E. rewrite E. simpl. lia.
Qed.

Lemma split_on_app p s : "."%char ∉ p → split_on "." (p ++ "."%char :: s) = p :: split_on "." s.
Proof.
  induction p as [|c p IH]; intros Hp; simpl; [done|].
  rewrite decide_False by set_solver. by rewrite IH by set_solver.
Qed.

Lemma split_on_last p : "."%char ∉ p → split_on "." p = [p].
Proof.
  induction p as [|c p IH]; intros Hp; simpl; [done|].
  rewrite decide_False by set_solver. by rewrite IH by set_solver.
Qed.

Lemma parse_octet_print n : 0 ≤ n ≤ 255 → parse_octet (print_dec n) = Some n.
Proof.
  intros Hn. destruct (print_dec_digits n ltac:(lia)) as (d & ds & E & Hv).
  destruct (print_dec n) as [|c p]; [done|].
  rewrite parse_octet_tail. unfold octet_tail. rewrite E. cbn [mbind option_bind].
  rewrite Hv. by rewrite decide_True by lia.
Qed.

Lemma print_dec_not n x : 0 ≤ n ≤ 65535 →
  x ∈ separators → x ∉ print_dec n.
Proof.
  intros Hn Hx. destruct (print_dec_digits n Hn) as (d & ds & E & _).
  by eapply mapM_digit_not.
Qed.

Lemma parse_ip4_dotted a b c d :
  Forall (λ o, 0 ≤ o ≤ 255) [a; b; c; d] →
  parse_ip4 (print_ip4 a b c d) = Some [a; b; c; d].
Proof.
  intros HF. repeat (apply Forall_cons in HF as [? HF]).
  unfold parse_ip4, print_ip4.
  rewrite !split_on_app by (apply print_dec_not; [lia|set_solver]).
  rewrite split_on_last by (apply print_dec_not; [lia|set_solver]).
  simpl. by rewrite !parse_octet_print by lia.
Qed.

(** Every printed address is accepted: [check_ip4] answers true on the
    dotted decimal form of any four octets. *)
Lemma check_ip4_print pre a b c d post :
  Forall (λ o, 0 ≤ o ≤ 255) [a; b; c; d] →
  check_ip4 (pre ++ print_ip4 a b c d ++ NUL :: post) (Some (length pre)) = Ok true.
Proof.
  intros HF. rewrite (check_ip4_eq _ _ (print_ip4 a b c d)).
  - by rewrite parse_ip4_dotted.
  - apply cstr_at_app. repeat (apply Forall_cons in HF as [? HF]).
    assert (Hp : ∀ n, 0 ≤ n ≤ 255 → NUL ∉ print_dec n).
    { intros n Hn. apply print_dec_not; [lia|set_solver]. }
    unfold print_ip4. rewrite !not_elem_of_app, !not_elem_of_cons, !not_elem_of_app,
      !not_elem_of_cons, !not_elem_of_app, !not_elem_of_cons.
    split_and!; auto.
Qed.

Section round_trip.
Context `{CtbStr}.

Lemma break_colon_app p s :
  ":"%char ∉ p → break_colon (p ++ ":"%char :: s) = (p, Some s).
Proof.
  induction p as [|c p IH]; intros Hp; simpl; [done|].
  rewrite decide_False by set_solver. by rewrite IH by set_solver.
Qed.

Lemma skip_colons_id c s : c ≠ ":"%char → skip_colons (c :: s) = c :: s.
Proof. intros. simpl. by rewrite decide_False. Qed.

Lemma print_ip4_not x a b c d :
  Forall (λ o, 0 ≤ o ≤ 255) [a; b; c; d] → x ∈ [NUL; ":"%char] → x ∉ print_ip4 a b c d.
Proof.
  intros HF Hx. repeat (apply Forall_cons in HF as [? HF]).
  assert (Hp : ∀ n, 0 ≤ n ≤ 255 → x ∉ print_dec n).
  { intros n Hn. apply print_dec_not; [lia|set_solver]. }
  assert (x ≠ "."%char) by (intros ->; vm_compute in Hx; set_solver).
  unfold print_ip4. rewrite !not_elem_of_app, !not_elem_of_cons, !not_elem_of_app,
    !not_elem_of_cons, !not_elem_of_app, !not_elem_of_cons.
  split_and!; auto with lia.
Qed.

(** C33. Round trip for tcp URIs: [tcp://a.b.c.d:port] is accepted for all
    octets and ports; the accessors give back the protocol, the very address
    text and the very port number.  A port may be followed by any text that
    does not start with a digit, which is ignored. *)
Theorem tcp_uri_round_trip nd a b c d port junk :
  Forall (λ o, 0 ≤ o ≤ 255) [a; b; c; d] → 1 ≤ port ≤ 65535 →
  NUL ∉ junk → no_digit_head junk →
  ∃ u, sc_uri_new true true
         (str "tcp" ++ ":"%char :: str "//" ++ print_ip4 a b c d ++
          ":"%char :: print_dec port ++ junk) = Ok (Some u, SC_EURIPARSE) ∧
    sc_uri_protocol nd u = Ok PROTO_TCP ∧
    (p ← sc_uri_tcp_ip4 u; cstr_at (u_str u) p) = Ok (print_ip4 a b c d) ∧
    sc_uri_tcp_port u = Ok port.
Proof.
  intros HF Hport Hj Hjd.
  destruct (port_ok_print port junk Hport Hjd) as [Hs Hok].
  assert (NUL ∉ print_dec port) by (apply print_dec_not; [lia|set_solver]).
  assert (NUL ∉ print_ip4 a b c d) by (apply print_ip4_not; [done|set_solver]).
  assert (Hc : ":"%char ∉ print_ip4 a b c d) by (apply print_ip4_not; [done|set_solver]).
  pose proof (sc_uri_new_agrees (str "tcp")
    (str "//" ++ print_ip4 a b c d ++ ":"%char :: print_dec port ++ junk)) as Hnew.
  destruct (print_ip4 a b c d) as [|x s] eqn:Eip.
  { by pose proof (parse_ip4_dotted a b c d HF) as E; rewrite Eip in E. }
  assert (Href : uri_reference (str "tcp") (str "//" ++ (x :: s) ++
            ":"%char :: print_dec port ++ junk) = ROk (VTcp (x :: s) (print_dec port ++ junk))).
  { unfold uri_reference. rewrite bool_decide_eq_false_2 by naive_solver.
    cbn [str String.list_ascii_of_string app]. rewrite decide_True by done.
    rewrite bool_decide_eq_false_2 by done. unfold tcp_ref.
    rewrite skip_colons_id by set_solver.
    change (x :: s ++ ":"%char :: print_dec port ++ junk) with
      ((x :: s) ++ ":"%char :: print_dec port ++ junk).
    rewrite break_colon_app by done.
    rewrite <-Eip, parse_ip4_dotted, Hok by done. by rewrite Eip. }
  rewrite Href in Hnew. destruct Hnew as (u & Hu & Hproto & Hip & (p & Hloc & Hp));
    [|done|by apply (bool_decide_unpack _)|].
  { unfold str; simpl. set_solver. }
  exists u. split; [exact Hu|]. split_and!; [|exact Hip|].
  - unfold sc_uri_protocol. rewrite (is_protocol_known_eq _ _ _ Hproto).
    rewrite !(streq_eq _ _ _ _ Hproto). by destruct nd.
  - unfold sc_uri_tcp_port. rewrite Hloc, Hp. osimpl. rewrite Hs. cbn [fst].
    by rewrite u32_small by lia.
Qed.
End round_trip.

Section other_inputs.
Context `{CtbStr}.

(** Round trip for pipe URIs: whatever follows [pipe://], colons and
    slashes included, is the path. *)
Lemma pipe_uri_round_trip nd path :
  NUL ∉ path → path ≠ [] →
  ∃ u, sc_uri_new true true (str "pipe" ++ ":"%char :: str "//" ++ path) =
         Ok (Some u, SC_EURIPARSE) ∧
    sc_uri_protocol nd u = Ok PROTO_PIPE ∧
    (p ← sc_uri_pipe_filepath u; cstr_at (u_str u) p) = Ok path.
Proof.
  intros Hn Hne. destruct path as [|c path]; [done|].
  destruct (sc_uri_new_agrees (str "pipe") (str "//" ++ c :: path)) as (u & Hu & Hproto & Hp);
    [unfold str; simpl; set_solver|done|by apply (bool_decide_unpack _)|].
  exists u. split; [exact Hu|]. split; [|exact Hp].
  unfold sc_uri_protocol. rewrite (is_protocol_known_eq _ _ _ Hproto).
  rewrite !(streq_eq _ _ _ _ Hproto). by destruct nd.
Qed.

(** The error codes: a failed allocation gives [SC_ENOMEM], another
    protocol gives [SC_EINVPROTO] whatever follows, and a known protocol not
    followed by two slashes and at least one more character gives
    [SC_EURIPARSE]. *)
Lemma sc_uri_new_errors tok rest ok1 ok2 :
  NUL ∉ tok ++ ":"%char :: rest → tok ≠ [] → ":"%char ∉ tok →
  (ok1 && ok2 = false →
     sc_uri_new ok1 ok2 (tok ++ ":"%char :: rest) = Ok (None, SC_ENOMEM)) ∧
  (tok ≠ str "pipe" → tok ≠ str "tcp" →
     sc_uri_new true true (tok ++ ":"%char :: rest) = Ok (None, SC_EINVPROTO)) ∧
  (tok = str "pipe" ∨ tok = str "tcp" → ¬ (∃ c path, rest = str "//" ++ c :: path) →
     sc_uri_new true true (tok ++ ":"%char :: rest) = Ok (None, SC_EURIPARSE)).
Proof.
  intros Hn Hne Hc. pose proof (sc_uri_new_agrees tok rest Hn Hne Hc) as Hag.
  split_and!.
  - destruct ok1, ok2; done.
  - intros H1 H2. unfold uri_reference in Hag.
    by rewrite bool_decide_eq_true_2 in Hag by done.
  - intros Hk Hr. unfold uri_reference in Hag.
    rewrite bool_decide_eq_false_2 in Hag by tauto.
    destruct rest as [|c1 [|c2 [|c3 path]]]; [exact Hag..|].
    rewrite decide_False in Hag; [exact Hag|].
    intros [-> ->]. apply Hr. by exists c3, path.
Qed.

(** C35. A tcp URI whose authority is nothing but colons crashes the parser:
    the tokenizer finds no address, and the null pointer it returns goes to
    [check_ip4] unchecked. *)
Theorem tcp_uri_colons_null_deref ds :
  ds ≠ [] → Forall (λ c, c = ":"%char) ds →
  sc_uri_new true true (str "tcp" ++ ":"%char :: str "//" ++ ds) = Fault NullDeref.
Proof.
  intros Hne Hds.
  assert (NUL ∉ ds).
  { intros Hin. rewrite Forall_forall in Hds. by apply Hds in Hin. }
  pose proof (sc_uri_new_agrees (str "tcp") (str "//" ++ ds)) as Hag.
  assert (uri_reference (str "tcp") (str "//" ++ ds) = RFault) as E.
  { unfold uri_reference. rewrite bool_decide_eq_false_2 by naive_solver.
    destruct ds as [|c ds]; [done|]. cbn [str String.list_ascii_of_string app].
    rewrite decide_True by done. rewrite bool_decide_eq_false_2 by done.
    unfold tcp_ref. assert (skip_colons (c :: ds) = []) as ->; [|done].
    clear -Hds. induction Hds as [|x l -> _ IH]; [done|]. exact IH. }
  rewrite E in Hag. apply Hag; [|done|by apply (bool_decide_unpack _)].
  unfold str; simpl; set_solver.
Qed.

(** Without a protocol part the parser refuses the string. *)
Lemma sc_uri_new_no_protocol s :
  NUL ∉ s → s ≠ [] → ":"%char ∉ s →
  ∃ e, sc_uri_new true true s = Ok (None, e) ∧ (e = SC_EURIPARSE ∨ e = SC_EINVPROTO).
Proof.
  intros Hn Hne Hc. unfold sc_uri_new. cbn [negb].
  assert (Htok : Forall (.∉ colon) s).
  { apply Forall_forall. intros x Hx Hin. unfold colon in Hin. set_solver. }
  rewrite (strlen_eq _ _ s) by by apply (cstr_at_eq _ _ [] _ []). osimpl.
  destruct (strtok_last [] [] s [] colon) as (Et & Eb & Ectx); [done..|].
  cbn [app length Nat.add] in Et, Eb, Ectx. rewrite Et, Eb.
  destruct Ectx as [->| ->]; [by eauto|].
  rewrite (is_protocol_known_eq _ _ s) by by apply (cstr_at_eq _ _ [] _ []). osimpl.
  case_bool_decide; cbn [negb]; [|by eauto].
  rewrite (strlen_eq _ _ []).
  - osimpl. rewrite decide_True by (simpl; lia). by eauto.
  - apply cstr_at_eq with s []; [done|done|apply not_elem_of_nil].
Qed.

Lemma check_port_true buf p : check_port buf p = Ok true →
  ∃ s, cstr_at buf p = Ok s ∧ port_ok s = true.
Proof.
  intros E. unfold check_port in E. destruct (cstr_at buf p) as [s|] eqn:Es; [|done].
  exists s. split; [done|]. pose proof (check_port_eq _ _ _ Es) as E'.
  unfold check_port in E'. rewrite Es in E'. congruence.
Qed.

(** The port of an accepted URI, as [sc_uri_tcp_port] gives it to the
    backend, is a valid port: the conversion to [unsigned] loses nothing. *)
Lemma accepted_port_bounds ok1 ok2 instr u e :
  sc_uri_new ok1 ok2 instr = Ok (Some u, e) →
  (∃ p, u_loc u = LPipe p) ∨ (∃ port, sc_uri_tcp_port u = Ok port ∧ 1 ≤ port ≤ 65535).
Proof.
  unfold sc_uri_new. destruct ok1; [|done]. destruct ok2; [|done]. cbn [negb].
  destruct (strlen _ _) as [len|]; [|done]. osimpl.
  set (r := ctb_strtok_s _ _ _ _). destruct (sr_ctx r) as [path|]; [|done].
  destruct (is_protocol_known _ _) as [known|]; [|done]. osimpl.
  destruct (negb known); [done|].
  destruct (strlen _ path) as [plen|]; [|done]. osimpl. case_decide; [done|].
  destruct (char_at _ path) as [c1|]; [|done]. osimpl. case_decide; [done|].
  destruct (char_at _ (path + 1)) as [c2|]; [|done]. osimpl. case_decide; [done|].
  destruct (streq _ _ _) as [[]|]; [|clearbody r|done]; osimpl.
  - intros [= <- <-]. left. by eexists.
  - unfold sc_uri_tcp_tail. destruct (strlen _ _) as [n|]; [|done]. osimpl.
    destruct (check_ip4 _ _) as [[]|]; [|done..]. cbn [negb mbind outcome_bind].
    destruct (sr_ctx _) as [port|]; [|done].
    destruct (check_port _ _) as [[]|] eqn:Ep; [|done..]. osimpl. cbn [negb].
    intros [= <- <-]. right. apply check_port_true in Ep as (s & Hs & Hok).
    unfold sc_uri_tcp_port. cbn [u_loc u_str]. rewrite Hs. osimpl.
    unfold port_ok in Hok. destruct (strtol s) as [num stop]. cbn [fst].
    apply bool_decide_eq_true in Hok as [_ Hnum]. exists num.
    by rewrite u32_small by lia.
Qed.
End other_inputs.

(** ** Concrete runs *)

#[local] Existing Instance std_ctb_str.

Lemma check_ip4_correct_witness :
  check_ip4 (str "x" ++ str "192.168.000.1" ++ [NUL]) (Some 1%nat) = Ok true ∧
  check_ip4 (str "x" ++ str "192.168.1" ++ [NUL]) (Some 1%nat) = Ok false.
Proof.
  split.
  - exact (check_ip4_correct (str "x") (str "192.168.000.1") [] ltac:(decide_by_run)).
  - exact (check_ip4_correct (str "x") (str "192.168.1") [] ltac:(decide_by_run)).
Defined.

Lemma sc_uri_new_correct_witness :
  agrees (sc_uri_new true true (str "tcp://127.0.0.1:8777"))
         (ROk (VTcp (str "127.0.0.1") (str "8777"))).
Proof.
  exact (sc_uri_new_correct (str "tcp") (str "//127.0.0.1:8777")
    ltac:(decide_by_run) ltac:(done) ltac:(decide_by_run)).
Defined.

Lemma tcp_uri_round_trip_witness :
  ∃ u, sc_uri_new true true
         (str "tcp" ++ ":"%char :: str "//" ++ print_ip4 127 0 0 1 ++
          ":"%char :: print_dec 80 ++ str "/index") = Ok (Some u, SC_EURIPARSE) ∧
    sc_uri_protocol false u = Ok PROTO_TCP ∧
    (p ← sc_uri_tcp_ip4 u; cstr_at (u_str u) p) = Ok (print_ip4 127 0 0 1) ∧
    sc_uri_tcp_port u = Ok 80.
Proof.
  apply (tcp_uri_round_trip false 127 0 0 1 80 (str "/index")); [| |decide_by_run|done].
  - decide_by_run.
  - lia.
Defined.

Lemma tcp_uri_colons_null_deref_witness :
  sc_uri_new true true (str "tcp://:") = Fault NullDeref.
Proof.
  exact (tcp_uri_colons_null_deref (str ":") ltac:(done) ltac:(decide_by_run)).
Defined.
