(* ===== verification/AppData.v ===== *)
(** * The data of the test programs (test/server.c, test/client.c, test/echo_server.c)

    The structures the test programs keep, and their files.  They are part of
    the state because the callbacks the library makes read and write them.  A
    member is [None] until it is assigned. *)

From S2P Require Import Prelude.

(** test/server.c *)
Inductive terminate := NOTSET | CLIENT | SERVER.

#[export] Instance terminate_eq_dec : EqDecision terminate.
Proof. solve_decision. Defined.

(** [struct server], with its embedded [struct client]; a pointer to the
    latter is the address of the server. *)
Record server := Server {
  srv_loop : Z;
  srv_socket : option nat;
  srv_clt_server : option nat;
  srv_clt_socket : option nat;
  srv_clt_active : option bool;
  srv_terminate : option terminate
}.

(** [struct client] of test/client.c *)
Record client := Client {
  clt_loop : option Z;
  clt_msg : option nat;
  clt_socket : option nat;
  clt_terminate : option bool;
  clt_input_eof : option bool;
  clt_ready_send : option bool
}.

(** The two globals of test/echo_server.c, null pointers at first. *)
Record echo_globals := EchoGlobals {
  echo_server : option nat;
  echo_client : option nat
}.

Inductive app_obj :=
  | AServer (v : server)
  | AClient (v : client)
  | AEcho (v : echo_globals).

(** The handles the test programs register with libuv themselves, by the
    address of the structure they are embedded in. *)
Inductive app_handle := HAsync (a : nat) | HSigterm (a : nat) | HSigint (a : nat) | HIdle (a : nat).

#[export] Instance app_handle_eq_dec : EqDecision app_handle.
Proof. solve_decision. Defined.

(** The objects of the program, what is left of its input file, with the end
    of file indicator, and what it has written to its output file. *)
Record app_state := AppState {
  a_objs : gmap nat app_obj;
  a_in : list byte;
  a_eof : bool;
  a_out : list byte
}.

Definition app_state0 : app_state := AppState ∅ [] false [].

Definition set_objs o s := AppState o (a_in s) (a_eof s) (a_out s).
Definition set_input i e s := AppState (a_objs s) i e (a_out s).
Definition add_out o s := AppState (a_objs s) (a_in s) (a_eof s) (a_out s ++ o).
