(* ===== verification/World.v ===== *)
(** * The state of the library and its surroundings

    The objects the library allocates, its global variables, the calls it
    makes to libuv, and the callbacks it makes to the application.  Handlers
    are computations over this state; libuv, the memory allocator and the
    application are parameters. *)

From S2P Require Import Prelude Endian CString Strerror Msg MsgReader Uri AppData.

(** ** Callbacks (include/sc/callbacks.h)

    Sockets and backend sockets are named by their address.  A function
    pointer of a watcher is null, one of the no-op functions of watcher.c, or
    a function of the application. *)
Inductive cbfn := CbNull | CbNoop | CbUser (f : nat).

Inductive cb_event :=
  | OnConnect (s : nat) (errcode : Z)
  | OnConnection (s : nat) (errcode : Z)
  | OnAccept (s : nat) (errcode : Z)
  | OnRecv (s : nat) (m : option nat) (errcode : Z)
  | OnSend (s : nat) (errcode : Z)
  | OnClose (s : nat).

(** src/watcher.h *)
Record watcher := Watcher {
  w_socket : nat;
  on_connect : cbfn;
  on_connection : cbfn;
  on_accept : cbfn;
  on_recv : cbfn;
  on_send : cbfn;
  on_close : cbfn
}.

(** [struct sc_socket] of src/socket.c.  A member is [None] while it is
    indeterminate; [Some None] is a null pointer. *)
Record sc_socket := Socket {
  s_userdata : option Z;
  s_backend : option (option nat);
  s_uri : option (option nat);
  s_watcher : option watcher
}.

(** [uv_buf_t], over the memory of messages. *)
Record uv_buf := UvBuf { base : option ptr; len : Z }.

(** [struct socket_uv] of src/backend_uv.c.  [stream_data], [connect_data] and
    [write_data] are the [data] members of the handle and of the two requests;
    the watcher is named by the socket it is embedded in; [tcp_addr] is the
    memory of a [sockaddr_in]. *)
Record socket_uv := SocketUv {
  uv_watcher : nat;
  stream_data : nat;
  connect_data : nat;
  write_data : nat;
  write_buffers : list uv_buf;
  uv_msg : option nat;
  uv_reader : option msg_reader;
  uv_proto : proto;
  tcp_addr : list byte
}.

(** Calls to libuv, with the objects they are about. *)
Inductive uv_call :=
  | UvPipeInit (loop : Z) (b : nat)
  | UvTcpInit (loop : Z) (b : nat)
  | UvPipeConnect (b : nat) (path : cbuf)
  | UvTcpConnect (b : nat) (addr : list byte)
  | UvPipeBind (b : nat) (path : cbuf)
  | UvTcpBind (b : nat) (addr : list byte)
  | UvListen (b : nat) (backlog : Z)
  | UvAccept (srv clt : nat)
  | UvReadStart (b : nat)
  | UvWrite (b : nat) (bufs : list uv_buf)
  | UvClose (b : nat)
  | UvHandleInit (h : app_handle)          (** uv_async_init, uv_signal_init, uv_idle_init *)
  | UvHandleStart (h : app_handle) (arg : Z)  (** uv_signal_start, uv_idle_start *)
  | UvAsyncSend (h : app_handle)
  | UvHandleClose (h : app_handle).

(** What the application observes at a callback: the event, and for a message
    its bytes at that moment. *)
Record observation := Observed {
  obs_event : cb_event;
  obs_payload : option (list (option byte))
}.

(** The allocator hooks of msg.c. *)
Inductive alloc_fn := DefaultAlloc | UserAlloc (f : nat).
Inductive free_fn := DefaultFree | UserFree (f : nat).

(** ** The state *)
Record world := World {
  w_mallocs : nat;                       (** allocations attempted so far *)
  w_next : nat;                          (** the next fresh address *)
  w_msgs : gmap nat sc_msg;
  w_uris : gmap nat uri;
  w_socks : gmap nat sc_socket;
  w_buvs : gmap nat (option socket_uv);  (** [None] until [buv_init] *)
  w_backend : bool;                      (** the global [backend] is set *)
  w_buv_data : option Z;                 (** [buv_data], by its loop *)
  w_msg_alloc : alloc_fn;
  w_msg_free : free_fn;
  w_stderr : list string;
  w_uv : list uv_call;                   (** the calls made, oldest first *)
  w_obs : list observation;              (** the callbacks made, oldest first *)
  w_app : app_state                      (** what belongs to the program *)
}.

(** The state at program start. *)
Definition world0 : world :=
  World 0 1 ∅ ∅ ∅ ∅ false None DefaultAlloc DefaultFree [] [] [] app_state0.

Definition set_mallocs n w := World n (w_next w) (w_msgs w) (w_uris w) (w_socks w)
  (w_buvs w) (w_backend w) (w_buv_data w) (w_msg_alloc w) (w_msg_free w)
  (w_stderr w) (w_uv w) (w_obs w) (w_app w).
Definition set_next n w := World (w_mallocs w) n (w_msgs w) (w_uris w) (w_socks w)
  (w_buvs w) (w_backend w) (w_buv_data w) (w_msg_alloc w) (w_msg_free w)
  (w_stderr w) (w_uv w) (w_obs w) (w_app w).
Definition set_msgs h w := World (w_mallocs w) (w_next w) h (w_uris w) (w_socks w)
  (w_buvs w) (w_backend w) (w_buv_data w) (w_msg_alloc w) (w_msg_free w)
  (w_stderr w) (w_uv w) (w_obs w) (w_app w).
Definition set_uris h w := World (w_mallocs w) (w_next w) (w_msgs w) h (w_socks w)
  (w_buvs w) (w_backend w) (w_buv_data w) (w_msg_alloc w) (w_msg_free w)
  (w_stderr w) (w_uv w) (w_obs w) (w_app w).
Definition set_socks h w := World (w_mallocs w) (w_next w) (w_msgs w) (w_uris w) h
  (w_buvs w) (w_backend w) (w_buv_data w) (w_msg_alloc w) (w_msg_free w)
  (w_stderr w) (w_uv w) (w_obs w) (w_app w).
Definition set_buvs h w := World (w_mallocs w) (w_next w) (w_msgs w) (w_uris w)
  (w_socks w) h (w_backend w) (w_buv_data w) (w_msg_alloc w) (w_msg_free w)
  (w_stderr w) (w_uv w) (w_obs w) (w_app w).
Definition set_backend b w := World (w_mallocs w) (w_next w) (w_msgs w) (w_uris w)
  (w_socks w) (w_buvs w) b (w_buv_data w) (w_msg_alloc w) (w_msg_free w)
  (w_stderr w) (w_uv w) (w_obs w) (w_app w).
Definition set_buv_data d w := World (w_mallocs w) (w_next w) (w_msgs w) (w_uris w)
  (w_socks w) (w_buvs w) (w_backend w) d (w_msg_alloc w) (w_msg_free w)
  (w_stderr w) (w_uv w) (w_obs w) (w_app w).
Definition set_hooks a f w := World (w_mallocs w) (w_next w) (w_msgs w) (w_uris w)
  (w_socks w) (w_buvs w) (w_backend w) (w_buv_data w) a f
  (w_stderr w) (w_uv w) (w_obs w) (w_app w).
Definition add_stderr s w := World (w_mallocs w) (w_next w) (w_msgs w) (w_uris w)
  (w_socks w) (w_buvs w) (w_backend w) (w_buv_data w) (w_msg_alloc w) (w_msg_free w)
  (w_stderr w ++ s) (w_uv w) (w_obs w) (w_app w).
Definition add_uv c w := World (w_mallocs w) (w_next w) (w_msgs w) (w_uris w)
  (w_socks w) (w_buvs w) (w_backend w) (w_buv_data w) (w_msg_alloc w) (w_msg_free w)
  (w_stderr w) (w_uv w ++ [c]) (w_obs w) (w_app w).
Definition add_obs o w := World (w_mallocs w) (w_next w) (w_msgs w) (w_uris w)
  (w_socks w) (w_buvs w) (w_backend w) (w_buv_data w) (w_msg_alloc w) (w_msg_free w)
  (w_stderr w) (w_uv w) (w_obs w ++ [o]) (w_app w).

Definition set_app a w := World (w_mallocs w) (w_next w) (w_msgs w) (w_uris w)
  (w_socks w) (w_buvs w) (w_backend w) (w_buv_data w) (w_msg_alloc w) (w_msg_free w)
  (w_stderr w) (w_uv w) (w_obs w) a.

Abbreviation M := (st world).

(** ** The surroundings *)

(** The platform: the build, the outcome of each allocation, and libuv.  The
    value a call of libuv returns may depend on all the calls before it. *)
Class Env := {
  env_endian :: Endian;
  env_str :: CtbStr;
  env_host :: Host;
  ndebug : bool;
  malloc_ok : nat → bool;
  sizeof_sockaddr_in : nat;
  uv_result : list uv_call → uv_call → Z;
  uv_ip4_addr : cbuf → Z → Z * list byte
}.

(** The application: its callbacks and its allocator hooks, which may do
    anything to the state. *)
Class App := {
  app_cb : nat → cb_event → M unit;
  app_alloc : nat → Z → M (option nat);
  app_free : nat → option nat → M unit
}.

(** ** Memory *)

Definition get_sock (s : nat) : M sc_socket :=
  w ← gets w_socks; demand UseAfterFree (w !! s).
Definition put_sock (s : nat) (v : sc_socket) : M unit :=
  modify (λ w, set_socks (<[s := v]> (w_socks w)) w).

Definition get_buv (b : nat) : M socket_uv :=
  bs ← gets w_buvs;
  o ← demand UseAfterFree (bs !! b);
  demand Indeterminate o.
Definition put_buv (b : nat) (v : socket_uv) : M unit :=
  modify (λ w, set_buvs (<[b := Some v]> (w_buvs w)) w).

Definition get_msg (m : option nat) : M sc_msg :=
  h ← gets w_msgs; lift (deref_msg h m).
Definition put_msg (m : nat) (v : sc_msg) : M unit :=
  modify (λ w, set_msgs (<[m := v]> (w_msgs w)) w).

Section world_ops.
Context `{Env} `{App}.

(** [malloc], for the object [build] puts at the new address. *)
Definition malloc (build : nat → world → world) : M (option nat) :=
  n ← gets w_mallocs;
  modify (set_mallocs (S n));;
  if malloc_ok n then
    a ← gets w_next;
    modify (set_next (S a));;
    modify (build a);;
    mret (Some a)
  else mret None.

(** A message pointer handed to [free]. *)
Definition free_msg (m : option nat) : M unit :=
  match m with
  | None => mret tt
  | Some m =>
      h ← gets w_msgs;
      _ ← demand UseAfterFree (h !! m);
      modify (set_msgs (delete m h))
  end.

(** A call of libuv. *)
Definition uv_do (c : uv_call) : M Z :=
  past ← gets w_uv;
  modify (add_uv c);;
  mret (uv_result past c).

(** src/warn.c *)
Definition sc_warn (msg : string) : M unit :=
  if ndebug then mret tt else modify (add_stderr [msg; "
"%string]).

(** *** The allocator of src/msg.c *)
Definition default_heap_alloc (size : Z) : M (option nat) :=
  p ← malloc (λ a w, set_msgs (<[a := fresh_msg size]> (w_msgs w)) w);
  match p with
  | None => fail_with NullDeref   (* msg->data = ... *)
  | Some a => mret (Some a)
  end.

Definition default_heap_free (m : option nat) : M unit := free_msg m.

Definition sc_msg_alloc (size : Z) : M (option nat) :=
  f ← gets w_msg_alloc;
  match f with
  | DefaultAlloc => default_heap_alloc size
  | UserAlloc n => app_alloc n size
  end.

Definition sc_msg_free (m : option nat) : M unit :=
  f ← gets w_msg_free;
  match f with
  | DefaultFree => default_heap_free m
  | UserFree n => app_free n m
  end.

Definition sc_msg_init_at (m : option nat) : M unit :=
  v ← get_msg m;
  v' ← lift (sc_msg_init v);
  match m with Some a => put_msg a v' | None => fail_with NullDeref end.

Definition sc_msg_init_allocator (rec_alloc : option alloc_fn)
    (rec_free : option free_fn) : M unit :=
  a ← gets w_msg_alloc;
  f ← gets w_msg_free;
  modify (set_hooks (default a rec_alloc) (default f rec_free)).
End world_ops.

(** ** Evaluating accesses *)
Section accesses.
Context `{Env} `{App}.

Lemma get_sock_ok s v w : w_socks w !! s = Some v → get_sock s w = Ok (v, w).
Proof. intros E. unfold get_sock, mbind, st_bind, gets. cbn. by rewrite E. Qed.

Lemma get_buv_ok b v w : w_buvs w !! b = Some (Some v) → get_buv b w = Ok (v, w).
Proof. intros E. unfold get_buv, mbind, st_bind, gets. cbn. by rewrite E. Qed.

Lemma get_msg_ok m v w : w_msgs w !! m = Some v → get_msg (Some m) w = Ok (v, w).
Proof. intros E. unfold get_msg, mbind, st_bind, gets, lift. cbn. by rewrite E. Qed.

Lemma lift_ok {A} (o : outcome A) a (w : world) : o = Ok a → lift o w = Ok (a, w).
Proof. by intros ->. Qed.

(** An allocation that succeeds. *)
Lemma malloc_success build w :
  malloc_ok (w_mallocs w) = true →
  malloc build w =
    Ok (Some (w_next w),
        build (w_next w) (set_next (S (w_next w)) (set_mallocs (S (w_mallocs w)) w))).
Proof.
  intros E. unfold malloc, mbind, st_bind, gets, modify. cbn. by rewrite E.
Qed.

Lemma malloc_failure build w :
  malloc_ok (w_mallocs w) = false →
  malloc build w = Ok (None, set_mallocs (S (w_mallocs w)) w).
Proof.
  intros E. unfold malloc, mbind, st_bind, gets, modify. cbn. by rewrite E.
Qed.

Lemma free_msg_ok m v w :
  w_msgs w !! m = Some v →
  free_msg (Some m) w = Ok (tt, set_msgs (delete m (w_msgs w)) w).
Proof.
  intros E. unfold free_msg, mbind, st_bind, gets, demand. cbn. by rewrite E.
Qed.
End accesses.

#[export] Hint Resolve get_sock_ok get_buv_ok get_msg_ok lift_ok : sc.

(** ** What the basic operations do to the state *)
Section world_moves.
Context `{Env} `{App} (R : relation world) `{!PreOrder R}.

Lemma moves_warn s : (∀ t w, R w (add_stderr t w)) → moves R (sc_warn s).
Proof. intros. unfold sc_warn. destruct ndebug; go_moves. Qed.

Lemma moves_uv_do c : (∀ w, R w (add_uv c w)) → moves R (uv_do c).
Proof. intros. unfold uv_do. go_moves. Qed.

Lemma moves_malloc build :
  (∀ n w, R w (set_mallocs n w)) → (∀ w, R w (set_next (S (w_next w)) w)) →
  (∀ a w, R w (build a w)) → moves R (malloc build).
Proof.
  intros Hn Ha Hb w r w' E. destruct (malloc_ok (w_mallocs w)) eqn:Eok.
  - rewrite malloc_success in E by done. simplify_eq.
    etrans; [apply Hn|]. etrans; [|apply Hb]. apply (Ha (set_mallocs _ w)).
  - rewrite malloc_failure in E by done. simplify_eq. apply Hn.
Qed.

Lemma moves_free_msg m : (∀ h w, R w (set_msgs h w)) → moves R (free_msg m).
Proof. intros. unfold free_msg. destruct m; go_moves. Qed.
End world_moves.

#[export] Hint Resolve moves_warn moves_uv_do moves_malloc moves_free_msg : moves.
