(* ===== verification/Watcher.v ===== *)
(** * Watchers (src/watcher.c) and calls to the application

    The table of callbacks of a socket, its initial no-op callbacks, and the
    call through one of its entries. *)

From S2P Require Import Prelude Endian CString Msg MsgReader Uri World.

Definition sc_watcher_init (s : nat) : watcher :=
  Watcher s CbNoop CbNoop CbNoop CbNoop CbNoop CbNoop.

(** The name the no-op function of an event warns with. *)
Definition event_name (ev : cb_event) : string :=
  match ev with
  | OnConnect _ _ => "on_connect"
  | OnConnection _ _ => "on_connection"
  | OnAccept _ _ => "on_accept"
  | OnRecv _ _ _ => "on_recv"
  | OnSend _ _ => "on_send"
  | OnClose _ => "on_close"
  end.

Definition NOTSET_WARNING (cb : string) : string :=
  (cb +:+ " callback called but not set")%string.

Section watcher.
Context `{Env} `{App}.

(** [on_connect_noop] to [on_close_noop] *)
Definition noop (ev : cb_event) : M unit := sc_warn (NOTSET_WARNING (event_name ev)).

(** The message bytes an observer of the event sees. *)
Definition event_payload (ev : cb_event) (w : world) : option (list (option byte)) :=
  match ev with
  | OnRecv _ (Some m) _ =>
      match (v ← deref_msg (w_msgs w) (Some m); payload v) with
      | Ok bs => Some bs
      | Fault _ => None
      end
  | _ => None
  end.

(** A call through a function pointer of a watcher. *)
Definition fire (fn : cbfn) (ev : cb_event) : M unit :=
  match fn with
  | CbNull => fail_with NullDeref
  | CbNoop => noop ev
  | CbUser f =>
      p ← gets (event_payload ev);
      modify (add_obs (Observed ev p));;
      app_cb f ev
  end.

(** [( *uv->watcher->CB)(uv->watcher->socket, ...)] for the watcher embedded
    in socket [s]. *)
Definition watcher_call (s : nat) (sel : watcher → cbfn) (mk : nat → cb_event) : M unit :=
  v ← get_sock s;
  wt ← demand Indeterminate (s_watcher v);
  fire (sel wt) (mk (w_socket wt)).
End watcher.
