(* ===== verification/Demo.v ===== *)
(** * Concrete surroundings

    One instance of each parameter of the model, so that theorems can be
    applied to, and evaluated on, concrete runs: a little-endian Linux host, a
    libuv whose calls all succeed, a [malloc] that never fails, and an
    application whose callbacks return at once. *)

From S2P Require Import AppData.
From S2P Require Import Prelude Endian CString Strerror Msg MsgReader Uri World Watcher.

#[local] Existing Instance linux_host.

Definition demo_env : Env := {|
  env_endian := musl_endian true;
  env_str := std_ctb_str;
  env_host := linux_host;
  ndebug := false;
  malloc_ok := λ _, true;
  sizeof_sockaddr_in := 16;
  uv_result := λ _ _, 0;
  uv_ip4_addr := λ _ _, (0, replicate 16 x00)
|}.

(** The same with memory for [n] allocations only. *)
Definition lean_env (n : nat) : Env := {|
  env_endian := musl_endian true;
  env_str := std_ctb_str;
  env_host := linux_host;
  ndebug := false;
  malloc_ok := λ k, (k <? n)%nat;
  sizeof_sockaddr_in := 16;
  uv_result := λ _ _, 0;
  uv_ip4_addr := λ _ _, (0, replicate 16 x00)
|}.

(** The same on a big-endian machine. *)
Definition big_endian_env : Env := {|
  env_endian := musl_endian false;
  env_str := std_ctb_str;
  env_host := linux_host;
  ndebug := false;
  malloc_ok := λ _, true;
  sizeof_sockaddr_in := 16;
  uv_result := λ _ _, 0;
  uv_ip4_addr := λ _ _, (0, replicate 16 x00)
|}.

(** The same, with the [n]th allocation failing. *)
Definition starving_env (n : nat) : Env := {|
  env_endian := musl_endian true;
  env_str := std_ctb_str;
  env_host := linux_host;
  ndebug := false;
  malloc_ok := λ k, negb (bool_decide (k = n));
  sizeof_sockaddr_in := 16;
  uv_result := λ _ _, 0;
  uv_ip4_addr := λ _ _, (0, replicate 16 x00)
|}.

Definition demo_app : App := {|
  app_cb := λ _ _, mret tt;
  app_alloc := λ _ _, mret None;
  app_free := λ _ _, mret tt
|}.

(** A socket at address 1 over a backend socket at address 2, reading, with
    [on_recv] set to the application's function 0. *)
Definition demo_buv : socket_uv :=
  SocketUv 1 2 2 2 [UvBuf None 0; UvBuf None 0] None None PROTO_TCP [].
Definition demo_watcher : watcher :=
  Watcher 1 CbNoop CbNoop CbNoop (CbUser 0) CbNoop CbNoop.
Definition demo_world : world :=
  World 0 3 ∅ ∅ {[1%nat := Socket (Some 0) (Some (Some 2%nat)) (Some None) (Some demo_watcher)]}
    {[2%nat := Some demo_buv]} true (Some 0) DefaultAlloc DefaultFree [] [] [] app_state0.

Definition bytes_of (s : string) : list byte := String.list_byte_of_string s.
