(* ===== verification/Backend.v ===== *)
(** * The backend interface (src/backend.c, src/backend.h)

    The table of operations a backend gives to the sockets, and the global
    that points to it. *)

From S2P Require Import Prelude CString Msg Uri World.

(** [struct backend]; a URI is given by its address. *)
Record backend := Backend {
  be_alloc : M (option nat);
  be_init : nat → nat → M unit;
  be_free : option nat → M unit;
  be_connect : nat → nat → M Z;
  be_accept : nat → nat → M unit;
  be_bind : nat → nat → M Z;
  be_listen : nat → Z → M Z;
  be_send : nat → option nat → M Z;
  be_close : nat → M Z;
  be_strerror : Z → string
}.

Definition backend_init : M unit := modify (set_backend true).

(** Dereferencing the global [backend], which is null until [backend_init]. *)
Definition the_backend (be : backend) : M backend :=
  set ← gets w_backend;
  if set : bool then mret be else fail_with NullDeref.
