(* ===== verification/BackendUv.v ===== *)
(** * The libuv backend (src/backend_uv.c)

    One computation per function of the file, in its order: the operations of
    the backend table, and the callbacks libuv runs.  A pointer to a
    [struct socket_uv], to its handle or to one of its requests is the address
    of the structure; the callbacks find the socket back through [data]. *)

From S2P Require Import Prelude Endian CString Strerror Msg MsgReader Uri World Watcher.
From S2P Require Import Backend.

Definition UV_EOF `{Host} : Z := uv_code EOF.
Definition UV_ENOBUFS `{Host} : Z := uv_code ENOBUFS.

Definition with_msg (m : option nat) (v : socket_uv) : socket_uv :=
  SocketUv (uv_watcher v) (stream_data v) (connect_data v) (write_data v)
    (write_buffers v) m (uv_reader v) (uv_proto v) (tcp_addr v).
Definition with_reader (r : option msg_reader) (v : socket_uv) : socket_uv :=
  SocketUv (uv_watcher v) (stream_data v) (connect_data v) (write_data v)
    (write_buffers v) (uv_msg v) r (uv_proto v) (tcp_addr v).
Definition with_proto (p : proto) (v : socket_uv) : socket_uv :=
  SocketUv (uv_watcher v) (stream_data v) (connect_data v) (write_data v)
    (write_buffers v) (uv_msg v) (uv_reader v) p (tcp_addr v).
Definition with_addr (a : list byte) (v : socket_uv) : socket_uv :=
  SocketUv (uv_watcher v) (stream_data v) (connect_data v) (write_data v)
    (write_buffers v) (uv_msg v) (uv_reader v) (uv_proto v) a.
Definition with_buffers (bs : list uv_buf) (v : socket_uv) : socket_uv :=
  SocketUv (uv_watcher v) (stream_data v) (connect_data v) (write_data v)
    bs (uv_msg v) (uv_reader v) (uv_proto v) (tcp_addr v).

(** An assignment to a member. *)
Definition update_buv (b : nat) (f : socket_uv → socket_uv) : M unit :=
  v ← get_buv b; put_buv b (f v).

Section backend_uv.
Context `{Env} `{App}.

Definition assert_that (c : bool) : M unit :=
  if ndebug then mret tt else if c then mret tt else fail_with AssertFailed.

Definition backend_uv_init (loop : option Z) : M unit := modify (set_buv_data loop).

(** [buv_data->loop] *)
Definition buv_loop : M Z :=
  d ← gets w_buv_data; demand NullDeref d.

Definition buv_alloc : M (option nat) :=
  malloc (λ a w, set_buvs (<[a := None]> (w_buvs w)) w).

Definition buv_init (b : nat) (watcher : nat) : M unit :=
  bs ← gets w_buvs;
  _ ← demand UseAfterFree (bs !! b);
  put_buv b {|
    uv_watcher := watcher;
    stream_data := b;
    connect_data := b;
    write_data := b;
    write_buffers := [UvBuf None 0; UvBuf None 0];
    uv_msg := None;
    uv_reader := None;
    uv_proto := PROTO_NOSET;
    tcp_addr := replicate sizeof_sockaddr_in x00
  |}.

Definition buv_free (b : option nat) : M unit :=
  match b with
  | None => mret tt
  | Some b =>
      bs ← gets w_buvs;
      _ ← demand UseAfterFree (bs !! b);
      modify (set_buvs (delete b bs))
  end.

Definition on_connect_wrap (request : nat) (errcode : Z) : M unit :=
  v ← get_buv request;
  uv ← get_buv (connect_data v);
  watcher_call (uv_watcher uv) on_connect (λ s, OnConnect s errcode).

Definition connect_pipe (clt : nat) (filepath : cbuf) : M Z :=
  loop ← buv_loop;
  errcode ← uv_do (UvPipeInit loop clt);
  if decide (errcode ≠ 0) then mret errcode else
  uv_do (UvPipeConnect clt filepath);;
  mret errcode.

(** The common part of [connect_tcp] and [bind_tcp]: the handle and the
    address; the code it stopped with, or zero and the address. *)
Definition tcp_setup (b : nat) (ip4 : cbuf) (port : Z) : M (Z * list byte) :=
  loop ← buv_loop;
  errcode ← uv_do (UvTcpInit loop b);
  if decide (errcode ≠ 0) then mret (errcode, []) else
  let '(errcode, addr) := uv_ip4_addr ip4 port in
  update_buv b (with_addr addr);;
  mret (errcode, addr).

Definition connect_tcp (clt : nat) (ip4 : cbuf) (port : Z) : M Z :=
  r ← tcp_setup clt ip4 port;
  if decide (fst r ≠ 0) then mret (fst r) else
  uv_do (UvTcpConnect clt (snd r)).

(** The URI at an address, and the strings its accessors return. *)
Definition get_uri (u : nat) : M uri :=
  us ← gets w_uris; demand UseAfterFree (us !! u).
Definition uri_string (u : uri) (p : option nat) : M cbuf :=
  lift (cstr_at (u_str u) p).

Definition buv_connect (clt : nat) (u : nat) : M Z :=
  v ← get_uri u;
  proto ← lift (sc_uri_protocol ndebug v);
  match proto with
  | PROTO_PIPE =>
      p ← lift (sc_uri_pipe_filepath v);
      path ← uri_string v p;
      connect_pipe clt path
  | PROTO_TCP =>
      p ← lift (sc_uri_tcp_ip4 v);
      ip4 ← uri_string v p;
      port ← lift (sc_uri_tcp_port v);
      connect_tcp clt ip4 port
  | PROTO_NOSET =>
      sc_warn "invalid protocol";;
      mret SC_EINVPROTO
  end.

Definition alloc_wrap (handle : nat) (suggested_size : Z) : M uv_buf :=
  h ← get_buv handle;
  let uv := stream_data h in
  let sz := u32 suggested_size in
  v ← get_buv uv;
  match uv_msg v with
  | Some _ => mret tt
  | None =>
      m ← sc_msg_alloc sz;
      update_buv uv (with_msg m);;
      sc_msg_init_at m;;
      a ← demand NullDeref m;
      update_buv uv (with_reader (Some (msg_reader_init a)))
  end;;
  v ← get_buv uv;
  reader ← demand Indeterminate (uv_reader v);
  hsize ← lift (msg_reader_avail_head_size reader);
  if decide (0 < hsize) then
    let avail := hsize in
    mret (UvBuf (Some (msg_reader_head_pos reader)) (if decide (avail < sz) then avail else sz))
  else
    heap ← gets w_msgs;
    avail ← lift (msg_reader_avail_body_size heap reader);
    mret (UvBuf (Some (msg_reader_body_pos reader)) (if decide (avail < sz) then avail else sz)).

(** [( *uv->watcher->on_recv)(uv->watcher->socket, msg, errcode)] *)
Definition call_on_recv (uv : nat) (msg : option nat) (errcode : Z) : M unit :=
  v ← get_buv uv;
  watcher_call (uv_watcher v) on_recv (λ s, OnRecv s msg errcode).

(** [sc_msg_free(uv->msg); uv->msg = 0;] *)
Definition drop_msg (uv : nat) : M unit :=
  v ← get_buv uv;
  sc_msg_free (uv_msg v);;
  update_buv uv (with_msg None).

Definition read_wrap (stream : nat) (nread : Z) : M unit :=
  h ← get_buv stream;
  let uv := stream_data h in
  let errcode := if decide (0 ≤ nread ∨ nread = UV_EOF) then 0 else nread in
  if decide (nread < 0) then
    (if decide (nread = UV_EOF) then
       assert_that (bool_decide (errcode = 0));;
       call_on_recv uv None errcode
     else
       assert_that (bool_decide (errcode ≠ 0));;
       call_on_recv uv None errcode);;
    drop_msg uv
  else if decide (0 < nread) then
    v ← get_buv uv;
    reader ← demand Indeterminate (uv_reader v);
    hsize ← lift (msg_reader_avail_head_size reader);
    heap ← gets w_msgs;
    r ← (if decide (0 < hsize) then lift (msg_reader_parse_head reader (u32 nread))
         else lift (msg_reader_parse_body heap reader (u32 nread)));
    update_buv uv (with_reader (Some (fst r)));;
    done ← lift (msg_reader_finished heap (fst r));
    if done : bool then
      assert_that (bool_decide (errcode = 0));;
      call_on_recv uv (uv_msg v) errcode;;
      drop_msg uv
    else mret tt
  else mret tt.

Definition is_bound (p : proto) : bool :=
  bool_decide (p = PROTO_PIPE ∨ p = PROTO_TCP).

(** [( *clt->watcher->on_accept)(clt->watcher->socket, errcode)] *)
Definition call_on_accept (clt : nat) (errcode : Z) : M unit :=
  v ← get_buv clt;
  watcher_call (uv_watcher v) on_accept (λ s, OnAccept s errcode).

Definition buv_accept (srv clt : nat) : M unit :=
  vs ← get_buv srv;
  assert_that (is_bound (uv_proto vs));;
  loop ← buv_loop;
  errcode ← (if decide (uv_proto vs = PROTO_PIPE) then uv_do (UvPipeInit loop clt)
             else uv_do (UvTcpInit loop clt));
  if decide (errcode ≠ 0) then call_on_accept clt errcode else
  update_buv clt (with_proto (uv_proto vs));;
  errcode ← uv_do (UvAccept srv clt);
  if decide (errcode ≠ 0) then call_on_accept clt errcode else
  errcode ← uv_do (UvReadStart clt);
  if decide (errcode ≠ 0) then call_on_accept clt errcode else
  assert_that (bool_decide (errcode = 0));;
  call_on_accept clt errcode.

Definition bind_pipe (srv : nat) (filepath : cbuf) : M Z :=
  loop ← buv_loop;
  errcode ← uv_do (UvPipeInit loop srv);
  if decide (errcode ≠ 0) then mret errcode else
  uv_do (UvPipeBind srv filepath).

Definition bind_tcp (srv : nat) (ip4 : cbuf) (port : Z) : M Z :=
  r ← tcp_setup srv ip4 port;
  if decide (fst r ≠ 0) then mret (fst r) else
  uv_do (UvTcpBind srv (snd r)).

Definition buv_bind (srv : nat) (u : nat) : M Z :=
  v ← get_uri u;
  proto ← lift (sc_uri_protocol ndebug v);
  update_buv srv (with_proto proto);;
  assert_that (is_bound proto);;
  if decide (proto = PROTO_PIPE) then
    p ← lift (sc_uri_pipe_filepath v);
    path ← uri_string v p;
    bind_pipe srv path
  else
    p ← lift (sc_uri_tcp_ip4 v);
    ip4 ← uri_string v p;
    port ← lift (sc_uri_tcp_port v);
    bind_tcp srv ip4 port.

Definition on_connection_wrap (stream : nat) (errcode : Z) : M unit :=
  h ← get_buv stream;
  uv ← get_buv (stream_data h);
  watcher_call (uv_watcher uv) on_connection (λ s, OnConnection s errcode).

Definition buv_listen (srv : nat) (backlog : Z) : M Z := uv_do (UvListen srv backlog).

Definition write_wrap (request : nat) (errcode : Z) : M unit :=
  v ← get_buv request;
  uv ← get_buv (write_data v);
  watcher_call (uv_watcher uv) on_send (λ s, OnSend s errcode).

Definition buv_send (b : nat) (m : option nat) : M Z :=
  msg ← get_msg m;
  a ← demand NullDeref m;
  size ← lift (sc_msg_get_size msg);
  let bufs := [UvBuf (Some (size_ptr a)) SC_MSG_SIZE_BYTES; UvBuf (Some (data_ptr a)) size] in
  update_buv b (with_buffers bufs);;
  uv_do (UvWrite b bufs).

Definition close_wrap (handle : nat) : M unit :=
  h ← get_buv handle;
  uv ← get_buv (stream_data h);
  watcher_call (uv_watcher uv) on_close (λ s, OnClose s).

Definition buv_close (b : nat) : M Z :=
  uv_do (UvClose b);;
  mret 0.

Definition buv_funcs : backend := {|
  be_alloc := buv_alloc;
  be_init := buv_init;
  be_free := buv_free;
  be_connect := buv_connect;
  be_accept := buv_accept;
  be_bind := buv_bind;
  be_listen := buv_listen;
  be_send := buv_send;
  be_close := buv_close;
  be_strerror := buv_strerror
|}.
End backend_uv.

(** ** Evaluating assignments *)
Section assignments.
Context `{Env}.

Lemma update_buv_ok b g v w :
  w_buvs w !! b = Some (Some v) →
  update_buv b g w = Ok (tt, set_buvs (<[b := Some (g v)]> (w_buvs w)) w).
Proof.
  intros E. unfold update_buv. by rewrite (st_bind_ok _ _ _ _ _ (get_buv_ok _ _ _ E)).
Qed.

Lemma assert_that_true w : assert_that true w = Ok (tt, w).
Proof. unfold assert_that. by destruct ndebug. Qed.
End assignments.

#[export] Hint Resolve update_buv_ok assert_that_true : sc.

(** ** What the helpers do to the state *)
Section helper_moves.
Context `{Env} `{App} (R : relation world) `{!PreOrder R}.

Lemma moves_assert c : moves R (assert_that c).
Proof. unfold assert_that. destruct ndebug, c; go_moves. Qed.

Lemma moves_put_buv b v : (∀ h w, R w (set_buvs h w)) → moves R (put_buv b v).
Proof. intros. unfold put_buv. go_moves. Qed.

Lemma moves_update_buv b g : (∀ h w, R w (set_buvs h w)) → moves R (update_buv b g).
Proof. intros. unfold update_buv, get_buv, put_buv. go_moves. Qed.
End helper_moves.

#[export] Hint Resolve moves_assert moves_put_buv moves_update_buv : moves.
