(* ===== verification/Conn.v ===== *)
(** * Connections: accepting, connecting, binding

    What the connection functions of backend_uv.c ask of libuv, up to the
    first failure, and how they report it. *)

From S2P Require Import Prelude Endian CString Strerror Msg MsgReader Uri World Watcher.
From S2P Require Import Demo Backend BackendUv.

Section calls.
Context `{Env}.

(** Calls of libuv made one after the other until one fails: those made, and
    the code of the last one, zero if all succeed. *)
Fixpoint try_calls (past cs : list uv_call) : list uv_call * Z :=
  match cs with
  | [] => ([], 0)
  | c :: cs =>
      let e := uv_result past c in
      if decide (e ≠ 0) then ([c], e)
      else let '(made, e) := try_calls (past ++ [c]) cs in (c :: made, e)
  end.

Definition accept_calls (p : proto) (loop : Z) (srv clt : nat) : list uv_call :=
  [if decide (p = PROTO_PIPE) then UvPipeInit loop clt else UvTcpInit loop clt;
   UvAccept srv clt; UvReadStart clt].
End calls.

(** The calls of libuv added to the log satisfy [P]. *)
Definition adds_calls (P : uv_call → Prop) (w w' : world) : Prop :=
  ∃ made, w_uv w' = w_uv w ++ made ∧ Forall P made.
Definition only_calls {A} (P : uv_call → Prop) (m : M A) : Prop :=
  moves (adds_calls P) m.

#[export] Instance adds_calls_preorder P : PreOrder (adds_calls P).
Proof.
  split.
  - intros w. exists []. by rewrite app_nil_r.
  - intros w1 w2 w3 (l1 & E1 & F1) (l2 & E2 & F2). exists (l1 ++ l2).
    rewrite E2, E1, app_assoc. split; [done|by apply Forall_app].
Qed.

Section adds_calls.
Context `{Env} (P : uv_call → Prop).

Lemma adds_no_call (w w' : world) : w_uv w' = w_uv w → adds_calls P w w'.
Proof. intros E. exists []. by rewrite app_nil_r. Qed.

Lemma adds_one_call c w : P c → adds_calls P w (add_uv c w).
Proof. intros Hc. exists [c]. auto. Qed.

Lemma only_calls_uv c : P c → moves (adds_calls P) (uv_do c).
Proof.
  intros Hc. unfold uv_do. apply moves_bind; [apply _|go_moves|intros ?].
  apply moves_bind; [apply _| |intros; go_moves].
  apply moves_modify. intros w. by apply adds_one_call.
Qed.
End adds_calls.

#[export] Hint Extern 0 (adds_calls _ _ _) => apply adds_no_call; reflexivity : moves.
#[export] Hint Resolve only_calls_uv : moves.

Definition not_read_start (c : uv_call) : Prop :=
  match c with UvReadStart _ => False | _ => True end.
#[export] Hint Extern 0 (not_read_start _) => exact I : moves.

Section conn.
Context `{Env} `{App}.

(** [buv_accept] past its checks. *)
Lemma buv_accept_ok srv clt vs loop w :
  w_buvs w !! srv = Some (Some vs) →
  is_bound (uv_proto vs) = true → w_buv_data w = Some loop →
  buv_accept srv clt w =
    (errcode ← uv_do (if decide (uv_proto vs = PROTO_PIPE) then UvPipeInit loop clt
                      else UvTcpInit loop clt);
     if decide (errcode ≠ 0) then call_on_accept clt errcode else
     update_buv clt (with_proto (uv_proto vs));;
     errcode ← uv_do (UvAccept srv clt);
     if decide (errcode ≠ 0) then call_on_accept clt errcode else
     errcode ← uv_do (UvReadStart clt);
     if decide (errcode ≠ 0) then call_on_accept clt errcode else
     assert_that (bool_decide (errcode = 0));;
     call_on_accept clt errcode) w.
Proof.
  intros Hs Hbound Hloop. unfold buv_accept. st_step. rewrite Hbound.
  rewrite (st_bind_ok _ _ _ _ _ (assert_that_true w)).
  assert (El : buv_loop w = Ok (loop, w)).
  { unfold buv_loop. st_step. by rewrite Hloop. }
  rewrite (st_bind_ok _ _ _ _ _ El). by destruct (decide (uv_proto vs = PROTO_PIPE)).
Qed.

Lemma uv_do_ok c w : uv_do c w = Ok (uv_result (w_uv w) c, add_uv c w).
Proof. done. Qed.

(** The report of an accepted, or not accepted, client. *)
Lemma call_on_accept_ok clt v k wt e w :
  w_buvs w !! clt = Some (Some v) →
  w_socks w !! uv_watcher v = Some k → s_watcher k = Some wt →
  call_on_accept clt e w = fire (on_accept wt) (OnAccept (w_socket wt) e) w.
Proof.
  intros Hb Hk Hwt. unfold call_on_accept. st_step.
  unfold watcher_call. st_step. rewrite Hwt.
  by rewrite (st_bind_ok _ _ _ _ _ (demand_some _ wt w)).
Qed.

(** C19. Accepting: [buv_accept] on a bound server initialises the client's
    handle for the server's protocol, accepts, and starts reading, stopping
    at the first call that fails; in every case it ends with exactly one
    call of the client's [on_accept], which gets the code of that failure,
    or zero.  The client takes over the protocol once its handle is
    initialised. *)
Theorem buv_accept_reports srv clt vs vc k wt loop w :
  w_buvs w !! srv = Some (Some vs) → w_buvs w !! clt = Some (Some vc) →
  is_bound (uv_proto vs) = true → w_buv_data w = Some loop →
  w_socks w !! uv_watcher vc = Some k → s_watcher k = Some wt →
  let calls := accept_calls (uv_proto vs) loop srv clt in
  let '(made, e) := try_calls (w_uv w) calls in
  ∃ w', buv_accept srv clt w = fire (on_accept wt) (OnAccept (w_socket wt) e) w' ∧
    w_uv w' = w_uv w ++ made ∧ w_obs w' = w_obs w ∧
    w_buvs w' = (if decide (length made ≤ 1)%nat then w_buvs w
                 else <[clt := Some (with_proto (uv_proto vs) vc)]> (w_buvs w)).
Proof.
  intros Hs Hc Hbound Hloop Hk Hwt calls.
  rewrite (buv_accept_ok _ _ _ _ _ Hs Hbound Hloop).
  unfold calls, accept_calls. cbn [try_calls]. set (c1 := if decide (uv_proto vs = PROTO_PIPE) then UvPipeInit loop clt else UvTcpInit loop clt).
  assert (Hcall : ∀ v e w', w_buvs w' !! clt = Some (Some v) →
    uv_watcher v = uv_watcher vc → w_socks w' = w_socks w →
    call_on_accept clt e w' = fire (on_accept wt) (OnAccept (w_socket wt) e) w').
  { intros v e w' Hb Hw Hsk. eapply call_on_accept_ok; [done| |done]. by rewrite Hw, Hsk. }
  rewrite (st_bind_ok _ _ _ _ _ (uv_do_ok c1 w)).
  case_decide as H1; [by eexists; split; [by eapply Hcall|]|].
  rewrite (st_bind_ok _ _ _ _ _ (update_buv_ok clt _ vc (add_uv c1 w) Hc)).
  rewrite (st_bind_ok _ _ _ _ _ (uv_do_ok (UvAccept srv clt) _)).
  change (w_uv (set_buvs _ (add_uv c1 w))) with (w_uv w ++ [c1]).
  destruct (decide (uv_result (w_uv w ++ [c1]) (UvAccept srv clt) ≠ 0)) as [H2|H2].
  { eexists; split; [by eapply Hcall; [apply lookup_insert_eq|..]|]. cbn. by rewrite <-app_assoc. }
  rewrite (st_bind_ok _ _ _ _ _ (uv_do_ok (UvReadStart clt) _)).
  change (w_uv (add_uv (UvAccept srv clt) _)) with ((w_uv w ++ [c1]) ++ [UvAccept srv clt]).
  destruct (decide (uv_result ((w_uv w ++ [c1]) ++ [UvAccept srv clt]) (UvReadStart clt) ≠ 0))
    as [H3|H3].
  - eexists; split; [by eapply Hcall; [apply lookup_insert_eq|..]|]. cbn. by rewrite <-!app_assoc.
  - apply dec_stable in H3. rewrite H3, bool_decide_eq_true_2 by done.
    rewrite (st_bind_ok _ _ _ _ _ (assert_that_true _)).
    eexists; split; [by eapply Hcall; [apply lookup_insert_eq|..]|]. cbn. by rewrite <-!app_assoc.
Qed.
End conn.

Section no_reading.
Context `{Env}.

(** Only accepted sockets read: neither connecting (over a pipe or tcp)
    nor binding, listening, sending or closing ever asks libuv to read, so
    that the [on_recv] of a socket that connects is never called. *)
Lemma connect_never_reads b u backlog m :
  only_calls not_read_start (buv_connect b u) ∧
  only_calls not_read_start (buv_bind b u) ∧
  only_calls not_read_start (buv_listen b backlog) ∧
  only_calls not_read_start (buv_send b m) ∧
  only_calls not_read_start (buv_close b).
Proof.
  split_and!; unfold only_calls.
  - unfold buv_connect, connect_pipe, connect_tcp, tcp_setup. go_moves.
  - unfold buv_bind, bind_pipe, bind_tcp, tcp_setup. go_moves.
  - go_moves.
  - unfold buv_send. go_moves.
  - unfold buv_close. go_moves.
Qed.
End no_reading.

(** ** A server at address 1, bound to a tcp address, and a fresh client at 3 *)
Section accept_demo.
Definition accept_world : world :=
  set_socks (<[3%nat := Socket (Some 0) (Some (Some 4%nat)) (Some None)
                (Some (Watcher 3 CbNoop CbNoop (CbUser 7) CbNoop CbNoop CbNoop))]> (w_socks demo_world))
  (set_buvs (<[4%nat := Some (SocketUv 3 4 4 4 [UvBuf None 0; UvBuf None 0] None None PROTO_NOSET [])]>
    (w_buvs demo_world)) demo_world).

#[local] Existing Instance demo_env.
#[local] Existing Instance demo_app.

Lemma buv_accept_reports_witness :
  ∃ w', buv_accept 2 4 accept_world = fire (CbUser 7) (OnAccept 3 0) w' ∧
    w_uv w' = [UvTcpInit 0 4; UvAccept 2 4; UvReadStart 4] ∧ w_obs w' = [] ∧
    uv_proto <$> (w_buvs w' !! 4%nat ≫= id) = Some PROTO_TCP.
Proof.
  destruct (buv_accept_reports 2 4 demo_buv
    (SocketUv 3 4 4 4 [UvBuf None 0; UvBuf None 0] None None PROTO_NOSET [])
    (Socket (Some 0) (Some (Some 4%nat)) (Some None)
      (Some (Watcher 3 CbNoop CbNoop (CbUser 7) CbNoop CbNoop CbNoop)))
    (Watcher 3 CbNoop CbNoop (CbUser 7) CbNoop CbNoop CbNoop) 0 accept_world)
    as (w' & E & Huv & Hobs & Hb); try reflexivity.
  exists w'. split; [exact E|]. split; [exact Huv|]. split; [exact Hobs|].
  rewrite Hb. reflexivity.
Defined.
End accept_demo.
