(* ===== verification/Frame.v ===== *)
(** * Framing: the wire format and the receiving automaton

    The specification the receive path of backend_uv.c is proved against (in
    Recv.v).  On the wire a message is its size in network order followed by
    its bytes.  The automaton [on_chunk] is what one read callback does to the
    message being received; it is exact, with the early end of a header that
    has only zero bytes so far. *)

From S2P Require Import Prelude Endian Msg MsgReader.

(** A message on the wire. *)
Definition encode (p : list byte) : list byte :=
  be_bytes (Z.of_nat (length p)) ++ p.

(** No message, or one of which header and body bytes have come. *)
Inductive rx := Idle | Rx (hdr body : list byte).

#[export] Instance rx_eq_dec : EqDecision rx.
Proof. solve_decision. Defined.

Definition rx_hdr (st : rx) : list byte := match st with Idle => [] | Rx h _ => h end.
Definition rx_body (st : rx) : list byte := match st with Idle => [] | Rx _ b => b end.

Definition in_header (st : rx) : bool := bool_decide (length (rx_hdr st) < 4)%nat.

(** The room the next read is given: what is missing, within [sz]. *)
Definition want (sz : Z) (st : rx) : Z :=
  Z.min (if in_header st then 4 - Z.of_nat (length (rx_hdr st))
         else announced (rx_hdr st) - Z.of_nat (length (rx_body st))) sz.

(** A message ends when its body has the announced length, which a header
    that is still incomplete also announces. *)
Definition close (hdr body : list byte) : rx * option (list byte) :=
  if decide (announced hdr = Z.of_nat (length body)) then (Idle, Some body)
  else (Rx hdr body, None).

Definition on_chunk (st : rx) (c : list byte) : rx * option (list byte) :=
  if in_header st then close (rx_hdr st ++ c) (rx_body st)
  else close (rx_hdr st) (rx_body st ++ c).

Fixpoint run (st : rx) (cs : list (list byte)) : rx * list (list byte) :=
  match cs with
  | [] => (st, [])
  | c :: cs =>
      let '(st, out) := on_chunk st c in
      let '(st, outs) := run st cs in
      (st, option_list out ++ outs)
  end.

(** The chunks a sequence of reads may deliver: each has at least one byte and
    at most what was asked for, and its bytes stay within a capacity of [sz]. *)
Definition chunk_fits (sz : Z) (st : rx) (c : list byte) : Prop :=
  (0 < length c)%nat ∧ Z.of_nat (length c) ≤ want sz st ∧
  (in_header st = false → Z.of_nat (length (rx_body st ++ c)) ≤ sz).

Fixpoint chunks_fit (sz : Z) (st : rx) (cs : list (list byte)) : Prop :=
  match cs with
  | [] => True
  | c :: cs => chunk_fits sz st c ∧ chunks_fit sz (fst (on_chunk st c)) cs
  end.

(** The chunks that bring the four bytes of a header in one piece. *)
Fixpoint headers_whole (st : rx) (cs : list (list byte)) : Prop :=
  match cs with
  | [] => True
  | c :: cs =>
      (in_header st = true → length c = 4%nat) ∧ headers_whole (fst (on_chunk st c)) cs
  end.

#[export] Instance chunk_fits_dec sz st c : Decision (chunk_fits sz st c).
Proof. unfold chunk_fits. apply _. Defined.
#[export] Instance chunks_fit_dec sz st cs : Decision (chunks_fit sz st cs).
Proof. revert st. induction cs; intros st; simpl; apply _. Defined.
#[export] Instance headers_whole_dec st cs : Decision (headers_whole st cs).
Proof. revert st. induction cs; intros st; simpl; apply _. Defined.

(** ** Facts *)

Lemma encode_length p : length (encode p) = (4 + length p)%nat.
Proof. unfold encode. by rewrite length_app. Qed.

Lemma announced_be z : 0 ≤ z < 2 ^ 32 → announced (be_bytes z) = z.
Proof.
  intros Hz. unfold announced. rewrite pad_header_full by done. by apply be_value_bytes.
Qed.

(** An invariant of the states the automaton goes through. *)
Definition rx_ok (st : rx) : Prop :=
  (length (rx_hdr st) ≤ 4)%nat ∧
  (0 < length (rx_body st) → length (rx_hdr st) = 4)%nat ∧
  Z.of_nat (length (rx_body st)) ≤ announced (rx_hdr st).

Lemma rx_ok_idle : rx_ok Idle.
Proof. by repeat split; simpl; try lia. Qed.

(** Reads keep the automaton within its bounds: never more than four
    header bytes, no body before the header is complete, never more body than
    announced. *)
Lemma on_chunk_ok sz st c :
  rx_ok st → chunk_fits sz st c → rx_ok (fst (on_chunk st c)).
Proof.
  intros (Hl & Ho & Hf) (Hne & Hw & _). unfold want, on_chunk, in_header in *.
  case_bool_decide as Hh; unfold close; case_decide; try apply rx_ok_idle;
    unfold rx_ok; cbn [fst rx_hdr rx_body]; rewrite ?length_app.
  - assert (rx_body st = []) as -> by (apply nil_length_inv; lia).
    split; [lia|]. split; [simpl; lia|]. apply announced_range. rewrite length_app. lia.
  - lia.
Qed.

Lemma run_app st cs ds :
  run st (cs ++ ds) =
    let '(st', out) := run st cs in
    let '(st'', out') := run st' ds in (st'', out ++ out').
Proof.
  revert st. induction cs as [|c cs IH]; intros st; simpl; [by destruct (run st ds)|].
  destruct (on_chunk st c) as [st1 o]. rewrite IH.
  destruct (run st1 cs) as [st2 os]. destruct (run st2 ds). by rewrite app_assoc.
Qed.

(** What is still to come: the messages [ps] not delivered yet, of which the
    first may be under way, are [rest] on the wire. *)
Inductive pending : rx → list (list byte) → list byte → Prop :=
  | pending_idle ps : pending Idle ps (concat (encode <$> ps))
  | pending_body body q ps :
      q ≠ [] →
      pending (Rx (be_bytes (Z.of_nat (length (body ++ q)))) body)
              ((body ++ q) :: ps) (q ++ concat (encode <$> ps)).

Definition sizes_ok (ps : list (list byte)) : Prop :=
  Forall (λ p, Z.of_nat (length p) < 2 ^ 32) ps.

Lemma pending_body_close body q ps :
  Z.of_nat (length (body ++ q)) < 2 ^ 32 →
  ∃ st o ps', close (be_bytes (Z.of_nat (length (body ++ q)))) body = (st, o) ∧
    (body ++ q) :: ps = option_list o ++ ps' ∧
    pending st ps' (q ++ concat (encode <$> ps)).
Proof.
  intros Hsz. unfold close. rewrite announced_be by lia. case_decide as Hd.
  - rewrite length_app in Hd. assert (q = []) as -> by (apply nil_length_inv; lia).
    exists Idle, (Some body), ps. rewrite app_nil_r. repeat split. constructor.
  - exists (Rx (be_bytes (Z.of_nat (length (body ++ q)))) body), None, ((body ++ q) :: ps).
    repeat split. constructor. intros ->. by rewrite app_nil_r in Hd.
Qed.

(** One read takes the pending messages forward. *)
Lemma on_chunk_pending sz st ps c rest :
  sizes_ok ps → pending st ps (c ++ rest) → chunk_fits sz st c →
  (in_header st = true → length c = 4%nat) →
  ∃ st' o ps', on_chunk st c = (st', o) ∧ ps = option_list o ++ ps' ∧
    pending st' ps' rest.
Proof.
  intros Hsz Hp (Hne & Hw & _) Hh. inversion Hp as [ps0 E1 E2 E3|body q ps0 Hq E1 E2 E3]; subst.
  - specialize (Hh eq_refl). destruct ps as [|p ps].
    { simpl in E3. by destruct c. }
    inversion_clear Hsz as [|? ? Hsp _].
    rewrite fmap_cons in E3. cbn [concat] in E3.
    unfold encode at 1 in E3. rewrite <-app_assoc in E3.
    apply app_inj_1 in E3 as [<- <-]; [|by rewrite Hh].
    unfold on_chunk. cbn [in_header rx_hdr rx_body bool_decide].
    destruct (pending_body_close [] p ps Hsp) as (st' & o & ps' & Hc & Ho & Hpend).
    by exists st', o, ps'.
  - inversion_clear Hsz as [|? ? Hsp _].
    unfold want, in_header in Hw. cbn [rx_hdr rx_body] in Hw.
    rewrite bool_decide_eq_false_2 in Hw by (simpl; lia).
    rewrite announced_be in Hw by lia. rewrite length_app in Hw.
    assert (∃ q', q = c ++ q') as [q' ->].
    { exists (drop (length c) q).
      assert (take (length c) (c ++ rest) = take (length c) q) as E.
      { rewrite <-E3. by rewrite take_app_le by lia. }
      rewrite take_app_length in E. rewrite E at 1. by rewrite take_drop. }
    rewrite <-app_assoc in E3. apply app_inv_head in E3 as <-.
    rewrite app_assoc in *.
    destruct (pending_body_close (body ++ c) q' ps0) as (st' & o & ps' & Hc & Ho & Hpend); [done|].
    exists st', o, ps'. split; [|done]. unfold on_chunk, in_header. cbn [rx_hdr rx_body].
    by rewrite bool_decide_eq_false_2 by (simpl; lia).
Qed.

Lemma run_pending sz cs : ∀ st ps rest,
  sizes_ok ps → pending st ps (concat cs ++ rest) → chunks_fit sz st cs → headers_whole st cs →
  ∃ ps', ps = snd (run st cs) ++ ps' ∧ pending (fst (run st cs)) ps' rest.
Proof.
  induction cs as [|c cs IH]; intros st ps rest Hsz Hp Hf Hh; simpl; [by exists ps|].
  destruct Hf as [Hf Hfs], Hh as [Hh Hhs]. cbn [concat] in Hp. rewrite <-app_assoc in Hp.
  destruct (on_chunk_pending sz st ps c _ Hsz Hp Hf Hh) as (st' & o & ps' & E & -> & Hp').
  rewrite E in *. cbn [fst] in *. apply Forall_app in Hsz as [_ Hsz].
  destruct (IH st' ps' rest Hsz Hp' Hfs Hhs) as (ps'' & -> & Hp'').
  exists ps''. destruct (run st' cs) as [st'' outs]. cbn [fst snd] in *.
  by rewrite app_assoc.
Qed.

(** What the reads are given room for, whatever the capacity. *)
Fixpoint chunks_asked (sz : Z) (st : rx) (cs : list (list byte)) : Prop :=
  match cs with
  | [] => True
  | c :: cs =>
      (0 < length c)%nat ∧ Z.of_nat (length c) ≤ want sz st ∧
      chunks_asked sz (fst (on_chunk st c)) cs
  end.

#[export] Instance chunks_asked_dec sz st cs : Decision (chunks_asked sz st cs).
Proof. revert st. induction cs; intros st; simpl; apply _. Defined.

Definition within (sz : Z) (ps : list (list byte)) : Prop :=
  Forall (λ p, Z.of_nat (length p) ≤ sz) ps.

Lemma within_sizes sz ps : sz < 2 ^ 32 → within sz ps → sizes_ok ps.
Proof. intros Hsz Hw. eapply Forall_impl; [exact Hw|]. simpl. lia. Qed.

(** Messages within the capacity keep every read within it. *)
Lemma asked_chunk_fits sz st ps c rest :
  within sz ps → sz < 2 ^ 32 → pending st ps (c ++ rest) → (0 < length c)%nat →
  Z.of_nat (length c) ≤ want sz st → chunk_fits sz st c.
Proof.
  intros Hw Hsz Hp Hne Hwant. split_and!; [done..|]. intros Hh.
  inversion Hp as [ps0 E1 E2 E3|body q ps0 Hq E1 E2 E3]; subst; [done|].
  inversion_clear Hw as [|? ? Hwp _].
  unfold want in Hwant. rewrite Hh in Hwant. cbn [rx_hdr rx_body] in *.
  rewrite announced_be in Hwant by lia. rewrite length_app in *. lia.
Qed.

Lemma asked_fits sz cs : ∀ st ps rest,
  within sz ps → sz < 2 ^ 32 → pending st ps (concat cs ++ rest) →
  chunks_asked sz st cs → headers_whole st cs → chunks_fit sz st cs.
Proof.
  induction cs as [|c cs IH]; intros st ps rest Hw Hsz Hp; simpl; [done|].
  intros (Hne & Hwant & Has) (Hh & Hhs). cbn [concat] in Hp. rewrite <-app_assoc in Hp.
  pose proof (asked_chunk_fits sz st ps c _ Hw Hsz Hp Hne Hwant) as Hf. split; [done|].
  destruct (on_chunk_pending sz st ps c _ (within_sizes _ _ Hsz Hw) Hp Hf Hh)
    as (st' & o & ps' & E & -> & Hp').
  rewrite E in *. apply Forall_app in Hw as [_ Hw]. by apply (IH st' ps' rest).
Qed.

Lemma pending_nil st ps : pending st ps [] → st = Idle ∧ ps = [].
Proof.
  intros Hp. inversion Hp as [ps0 E1 E2 E3|body q ps0 Hq E1 E2 E3]; subst.
  - split; [done|]. destruct ps as [|p ps]; [done|]. done.
  - by destruct q.
Qed.

(** Framing: when a stream of encoded messages arrives cut into reads in
    any way that does not cut a size field, the automaton delivers exactly the
    messages, in order, and ends with none under way. *)
Lemma framing sz ps cs :
  sizes_ok ps → concat cs = concat (encode <$> ps) →
  chunks_fit sz Idle cs → headers_whole Idle cs →
  run Idle cs = (Idle, ps).
Proof.
  intros Hsz Hcs Hf Hh.
  destruct (run_pending sz cs Idle ps [] Hsz) as (ps' & E & Hp); [|done..|].
  { rewrite app_nil_r, Hcs. constructor. }
  apply pending_nil in Hp as [Hst ->]. rewrite app_nil_r in E.
  destruct (run Idle cs). cbn in *. by subst.
Qed.

(** The delivered messages are a prefix at any moment before the end. *)
Lemma framing_prefix sz ps cs rest :
  sizes_ok ps → concat cs ++ rest = concat (encode <$> ps) →
  chunks_fit sz Idle cs → headers_whole Idle cs →
  snd (run Idle cs) `prefix_of` ps.
Proof.
  intros Hsz Hcs Hf Hh.
  destruct (run_pending sz cs Idle ps rest Hsz) as (ps' & E & _); [|done..|by exists ps'].
  rewrite Hcs. constructor.
Qed.

(** ** Cut headers *)

(** While a size field is incomplete, a read ends the message, as an empty
    one, exactly when all the bytes of the field seen so far are zero. *)
Lemma cut_header hdr c :
  (length (hdr ++ c) < 4)%nat →
  on_chunk (Rx hdr []) c =
    if decide (Forall (λ b, b = x00) (hdr ++ c)) then (Idle, Some [])
    else (Rx (hdr ++ c) [], None).
Proof.
  intros Hl. rewrite length_app in Hl. unfold on_chunk, in_header. cbn [rx_hdr rx_body].
  rewrite bool_decide_eq_true_2 by lia. unfold close. simpl length.
  case_decide as H1; rewrite announced_zero in H1; case_decide; done.
Qed.

Lemma be_bytes_high_zero z k :
  (1 ≤ k ≤ 3)%nat → 0 ≤ z < 256 ^ (4 - Z.of_nat k) →
  Forall (λ b, b = x00) (take k (be_bytes z)).
Proof.
  intros Hk Hz. unfold be_bytes. rewrite !Z.shiftr_div_pow2 by lia.
  assert (Hb : ∀ y, y mod 256 = 0 → z2b y = x00).
  { intros y Hy. apply b2z_inj. by rewrite b2z_z2b. }
  destruct k as [|[|[|[|]]]]; try lia; simpl;
    repeat apply Forall_cons_2; try done; apply Hb;
    change (256 ^ _) with (2 ^ 24) in Hz || change (256 ^ _) with (2 ^ 16) in Hz ||
    change (256 ^ _) with (2 ^ 8) in Hz; dlia.
Qed.

(** ** The reads of a stream that is already there: a header, then the body *)
Definition cut_message (p : list byte) : list (list byte) :=
  be_bytes (Z.of_nat (length p)) :: (if decide (p = []) then [] else [p]).
Definition cut_stream (ps : list (list byte)) : list (list byte) :=
  concat (cut_message <$> ps).

Lemma cut_stream_concat ps : concat (cut_stream ps) = concat (encode <$> ps).
Proof.
  induction ps as [|p ps IH]; [done|].
  unfold cut_stream. rewrite !fmap_cons. cbn [concat]. rewrite concat_app.
  fold (cut_stream ps). rewrite IH. f_equal. unfold cut_message, encode.
  case_decide; subst; cbn [concat]; by rewrite ?app_nil_r.
Qed.

Lemma cut_stream_ok sz ps :
  4 ≤ sz → sz < 2 ^ 32 → within sz ps →
  chunks_asked sz Idle (cut_stream ps) ∧ headers_whole Idle (cut_stream ps).
Proof.
  intros H4 Hsz. induction 1 as [|p ps Hp Hps IH]; [done|].
  unfold cut_stream. rewrite fmap_cons. cbn [concat]. fold (cut_stream ps).
  unfold cut_message. cbn [app chunks_asked headers_whole].
  assert (E : on_chunk Idle (be_bytes (Z.of_nat (length p))) =
    if decide (p = []) then (Idle, Some [])
    else (Rx (be_bytes (Z.of_nat (length p))) [], None)).
  { unfold on_chunk. cbn [in_header rx_hdr rx_body bool_decide]. unfold close.
    change ([] ++ ?x) with x. rewrite announced_be by lia.
    change (in_header Idle) with true. destruct p as [|x p]; [done|].
    rewrite (decide_False (P := Z.of_nat _ = _)) by (simpl; lia).
    by rewrite decide_False by done. }
  rewrite E. unfold want at 1. cbn [in_header rx_hdr rx_body].
  case_decide as Hnil; cbn [fst app chunks_asked headers_whole].
  - destruct IH. split_and!; try done; simpl; lia.
  - assert (E2 : on_chunk (Rx (be_bytes (Z.of_nat (length p))) []) p = (Idle, Some p)).
    { unfold on_chunk, in_header. cbn [rx_hdr rx_body]. rewrite bool_decide_eq_false_2
        by (simpl; lia). unfold close. rewrite announced_be by lia.
      change ([] ++ p) with p. by rewrite decide_True. }
    rewrite E2. destruct IH. destruct p; [done|].
    split_and!; try done; try (simpl; lia).
    unfold want, in_header. cbn [rx_hdr rx_body].
    rewrite bool_decide_eq_false_2 by (simpl; lia). rewrite announced_be by lia.
    simpl in *. lia.
Qed.
