(* ===== verification/Recv.v ===== *)
(** * Receiving: libuv's reads, and the proof that they implement the framing

    [uv_read] is the protocol libuv documents for a reading stream: the
    allocation callback, the bytes, the read callback.  [rx_rel] relates the
    state of the library to the automaton of Frame.v; the theorems say that a
    read makes the two move together, what the application observes, and what
    happens outside of the bounds the relation needs.  The class [Receiver] is
    the interface to a program: its invariant is part of the relation, and its
    [on_recv] is shown to keep it (TestRecv.v, TestEcho.v). *)

From S2P Require Import Prelude Endian CString Strerror Msg MsgReader Uri World Watcher.
From S2P Require Import Demo Backend BackendUv Frame.

(** What a read of the system gives. *)
Inductive uv_read_result :=
  | RData (bs : list byte)   (** some bytes *)
  | RAgain                   (** nothing yet *)
  | REof
  | RErr (errcode : Z).

(** The messages socket [s] has given to the application: for each call of
    its [on_recv], the bytes, if there was a message, and the error code. *)
Definition recv_of (s : nat) (o : observation) : option (option (list (option byte)) * Z) :=
  match obs_event o with
  | OnRecv s' _ e => if decide (s' = s) then Some (obs_payload o, e) else None
  | _ => None
  end.
Definition received (s : nat) (w : world) : list (option (list (option byte)) * Z) :=
  omap (recv_of s) (w_obs w).

Definition delivered (p : list byte) : option (list (option byte)) * Z :=
  (Some (Some <$> p), 0).

(** How the end of a stream shows. *)
Definition end_event `{Env} (r : uv_read_result) : option (list (option byte)) * Z :=
  (None, match r with RErr e => if decide (e = UV_EOF) then 0 else e | _ => 0 end).

Section uv_read.
Context `{Env} `{App}.

(** libuv, or the system for it, stores bytes. *)
Definition uv_fill (p : ptr) (bs : list byte) : M unit :=
  v ← get_msg (Some (p_msg p));
  l ← lift (mem_write (field_of v (p_field p)) (p_off p) bs);
  put_msg (p_msg p) (set_field v (p_field p) l).

(** One round of libuv's read loop on a stream, with the size libuv suggests. *)
Definition uv_read (b : nat) (suggested : Z) (r : uv_read_result) : M unit :=
  buf ← alloc_wrap b suggested;
  if decide (len buf = 0) then read_wrap b UV_ENOBUFS else
  match r with
  | RData bs =>
      p ← demand NullDeref (base buf);
      if decide (Z.of_nat (length bs) ≤ len buf) then
        uv_fill p bs;; read_wrap b (Z.of_nat (length bs))
      else fail_with OutOfBounds
  | RAgain => read_wrap b 0
  | REof => read_wrap b UV_EOF
  | RErr e => read_wrap b e
  end.

(** A sequence of reads. *)
Fixpoint uv_reads (b : nat) (suggested : Z) (cs : list (list byte)) : M unit :=
  match cs with
  | [] => mret tt
  | c :: cs => uv_read b suggested (RData c);; uv_reads b suggested cs
  end.
End uv_read.

(** ** The relation *)

(** What a program promises of its [on_recv]: an invariant of its own, which
    only depends on what the receive path of the library leaves alone, and the
    events it can be given.  Its callback is shown to keep the invariant; the
    theorems below then say that it holds whatever arrives. *)
Class Receiver := {
  rv_inv : world → Prop;
  rv_ok : option (list (option byte)) * Z → Prop;
  rv_stable w w' :
    w_app w' = w_app w → w_obs w' = w_obs w → w_socks w' = w_socks w →
    w_backend w' = w_backend w → w_uv w' = w_uv w → rv_inv w → rv_inv w'
}.

(** The receiver that promises nothing. *)
Definition any_receiver : Receiver :=
  {| rv_inv := λ _, True; rv_ok := λ _, True; rv_stable := λ _ _ _ _ _ _ _ _, I |}.

Section relation.
Context `{Receiver}.

Definition rx_view (v : socket_uv) :=
  (uv_watcher v, stream_data v, uv_msg v, uv_reader v).

(** The socket [s] over the backend socket [b], with [on_recv] set to the
    application's function [f], and the allocator of msg.c. *)
Record rx_base (b s f : nat) (v : socket_uv) (w : world) : Prop := {
  rb_buv : w_buvs w !! b = Some (Some v);
  rb_stream : stream_data v = b;
  rb_watcher : uv_watcher v = s;
  rb_sock : ∃ k wt, w_socks w !! s = Some k ∧ s_watcher k = Some wt ∧
              w_socket wt = s ∧ on_recv wt = CbUser f;
  rb_alloc : w_msg_alloc w = DefaultAlloc;
  rb_free : w_msg_free w = DefaultFree;
  rb_inv : rv_inv w
}.

(** The message under way, of capacity [sz]. *)
Definition rx_holds (sz : Z) (v : socket_uv) (w : world) (st : rx) : Prop :=
  match st with
  | Idle => uv_msg v = None
  | Rx hdr body => ∃ m msg r,
      uv_msg v = Some m ∧ w_msgs w !! m = Some msg ∧ uv_reader v = Some r ∧
      reader_at m msg hdr body r ∧ Z.of_nat (length (data msg)) = sz
  end.

Definition rx_rel (sz : Z) (b s f : nat) (w : world) (st : rx) : Prop :=
  ∃ v, rx_base b s f v w ∧ rx_holds sz v w st.

(** What a callback must leave alone. *)
Record rx_frame (b s : nat) (w w' : world) : Prop := {
  rf_buv v : w_buvs w !! b = Some (Some v) →
    ∃ v', w_buvs w' !! b = Some (Some v') ∧ rx_view v' = rx_view v;
  rf_sock k : w_socks w !! s = Some k →
    ∃ k', w_socks w' !! s = Some k' ∧ s_watcher k' = s_watcher k;
  rf_msgs m : is_Some (w_msgs w !! m) → is_Some (w_msgs w' !! m);
  rf_alloc : w_msg_alloc w' = w_msg_alloc w;
  rf_free : w_msg_free w' = w_msg_free w;
  rf_recv : received s w' = received s w
}.

(** An application whose [on_recv], on the events it can be given, returns,
    keeps its invariant and leaves the receiving state of the socket alone; it
    may do anything else, sending included. *)
Definition on_recv_ok `{Env} `{App} (b s f : nat) : Prop :=
  ∀ v m e w, rx_base b s f v w → rv_ok (event_payload (OnRecv s m e) w, e) →
    let w1 := add_obs (Observed (OnRecv s m e) (event_payload (OnRecv s m e) w)) w in
    ∃ w', app_cb f (OnRecv s m e) w1 = Ok (tt, w') ∧ rx_frame b s w1 w' ∧ rv_inv w'.

Lemma rx_base_frame b s f v o w w' :
  rx_base b s f v w → rx_frame b s (add_obs o w) w' → rv_inv w' →
  ∃ v', rx_base b s f v' w' ∧ rx_view v' = rx_view v.
Proof.
  intros [Hb Hst Hw (k & wt & Hk & Hwt & Hs & Hf) Ha Hfr _] [Fb Fs _ Fa Ff _] Hinv.
  cbn [add_obs w_buvs w_socks w_msg_alloc w_msg_free] in *. destruct (Fb _ Hb) as (v' & Hb' & Hv). destruct (Fs _ Hk) as (k' & Hk' & Hwk).
  exists v'. split; [|done]. unfold rx_view in Hv. simplify_eq.
  split; [done|congruence|congruence| |congruence|congruence|done].
  exists k', wt. split_and!; congruence.
Qed.
End relation.

Lemma received_add_obs s o w :
  received s (add_obs o w) = received s w ++ option_list (recv_of s o).
Proof. unfold received. cbn. rewrite omap_app. cbn. by destruct (recv_of s o). Qed.

Section steps.
Context `{Env} `{App} `{Receiver}.
Context (b s f : nat) (sz : Z).
Hypothesis Hcb : on_recv_ok b s f.
Implicit Types (w : world) (v : socket_uv).

(** The base survives changes to other parts of the state. *)
Lemma rx_base_msgs v w h : rx_base b s f v w → rx_base b s f v (set_msgs h w).
Proof. intros []. split; try done. by apply (rv_stable w). Qed.

Lemma rx_base_update v v' w :
  rx_base b s f v w → stream_data v' = b → uv_watcher v' = s →
  rx_base b s f v' (set_buvs (<[b := Some v']> (w_buvs w)) w).
Proof.
  intros [] ??. split; try done; [|by apply (rv_stable w)]. cbn. by rewrite lookup_insert_eq.
Qed.

(** Calling [on_recv]: what is observed, and what is kept. *)
Lemma call_on_recv_ok v w m e :
  rx_base b s f v w → rv_ok (event_payload (OnRecv s m e) w, e) →
  ∃ w', call_on_recv b m e w = Ok (tt, w') ∧
    (∃ v', rx_base b s f v' w' ∧ rx_view v' = rx_view v) ∧
    (∀ a, is_Some (w_msgs w !! a) → is_Some (w_msgs w' !! a)) ∧
    received s w' = received s w ++ [(event_payload (OnRecv s m e) w, e)].
Proof.
  intros Hbase Hok. pose proof Hbase as [Hb Hst Hw (k & wt & Hk & Hwt & Hs & Hf) Ha Hfr _].
  destruct (Hcb v m e w Hbase Hok) as (w' & Hcall & Hframe & Hinv).
  exists w'. split_and!.
  - unfold call_on_recv. st_step. rewrite Hw. unfold watcher_call. st_step.
    rewrite Hwt. cbn [demand]. rewrite (st_bind_ok _ _ _ _ _ (ret_ok wt w)).
    rewrite Hs, Hf. unfold fire. by st_steps.
  - by apply (rx_base_frame _ _ _ _ _ _ _ Hbase Hframe).
  - apply (rf_msgs _ _ _ _ Hframe).
  - rewrite (rf_recv _ _ _ _ Hframe). rewrite received_add_obs.
    unfold recv_of. cbn [obs_event obs_payload]. by rewrite decide_True by done.
Qed.

(** Freeing the message at the end of it. *)
Lemma drop_msg_ok v w :
  rx_base b s f v w → (∀ m, uv_msg v = Some m → is_Some (w_msgs w !! m)) →
  ∃ w', drop_msg b w = Ok (tt, w') ∧ rx_rel sz b s f w' Idle ∧
    received s w' = received s w ∧
    (∀ m, uv_msg v = Some m → w_msgs w' = delete m (w_msgs w)).
Proof.
  intros Hbase Hlive. pose proof Hbase as [Hb Hst Hw Hsock Ha Hfr Hinv].
  assert (∃ w1, sc_msg_free (uv_msg v) w = Ok (tt, w1) ∧ rx_base b s f v w1 ∧
    received s w1 = received s w ∧
    (∀ m, uv_msg v = Some m → w_msgs w1 = delete m (w_msgs w)))
    as (w1 & E1 & Hb1 & Hr1 & Hm1).
  { unfold sc_msg_free. rewrite (st_bind_ok _ _ _ _ _ (gets_ok w_msg_free w)), Hfr.
    unfold default_heap_free. destruct (uv_msg v) as [m|] eqn:Em.
    - destruct (Hlive m eq_refl) as [x Hx]. rewrite (free_msg_ok _ _ _ Hx).
      eexists. split_and!; [done|by apply rx_base_msgs|done|by intros ? [= <-]].
    - exists w. by split_and!. }
  pose proof Hb1 as [Hb1' _ _ _ _ _ _]. eexists. split_and!.
  - unfold drop_msg. st_steps. by eauto with sc.
  - exists (with_msg None v). split; [|done]. by apply (rx_base_update v).
  - done.
  - done.
Qed.

Context (Hmalloc : ∀ n, malloc_ok n = true) (Hsz : 1 ≤ sz < 2 ^ 32).

(** Where the next bytes go. *)
Definition rx_ptr (m : nat) (st : rx) : ptr :=
  if in_header st then Ptr m FSize (Z.of_nat (length (rx_hdr st)))
  else Ptr m FData (Z.of_nat (length (rx_body st))).

Definition opened (st : rx) : rx := Rx (rx_hdr st) (rx_body st).

(** The first half of [alloc_wrap]: a message is under way afterwards. *)
Lemma alloc_open v w :
  rx_base b s f v w → uv_msg v = None →
  ∃ w', (m ← sc_msg_alloc sz;
         update_buv b (with_msg m);;
         sc_msg_init_at m;;
         a ← demand NullDeref m;
         update_buv b (with_reader (Some (msg_reader_init a)))) w = Ok (tt, w') ∧
    rx_rel sz b s f w' (Rx [] []) ∧ received s w' = received s w.
Proof.
  intros Hbase Hv. pose proof Hbase as [Hb Hst Hw Hsock Ha Hfr Hinv].
  set (a := w_next w).
  set (w1 := set_msgs (<[a := fresh_msg sz]> (w_msgs w))
               (set_next (S a) (set_mallocs (S (w_mallocs w)) w))).
  assert (E1 : sc_msg_alloc sz w = Ok (Some a, w1)).
  { unfold sc_msg_alloc. rewrite (st_bind_ok _ _ _ _ _ (gets_ok w_msg_alloc w)), Ha.
    unfold default_heap_alloc.
    by rewrite (st_bind_ok _ _ _ _ _ (malloc_success _ w (Hmalloc _))). }
  pose proof (sc_msg_init_fresh sz ltac:(lia)) as E2.
  set (msg := Msg _ _) in E2.
  set (v1 := with_msg (Some a) v).
  set (w2 := set_buvs (<[b := Some v1]> (w_buvs w1)) w1).
  set (w3 := set_msgs (<[a := msg]> (w_msgs w2)) w2).
  assert (E3 : sc_msg_init_at (Some a) w2 = Ok (tt, w3)).
  { unfold sc_msg_init_at.
    rewrite (st_bind_ok _ _ _ _ _ (get_msg_ok a (fresh_msg sz) w2 (lookup_insert_eq _ _ _))).
    by rewrite (st_bind_ok _ _ _ _ _ (lift_ok _ _ w2 E2)). }
  assert (Hb1 : w_buvs w1 !! b = Some (Some v)) by done.
  assert (Hb3 : w_buvs w3 !! b = Some (Some v1)) by apply lookup_insert_eq.
  eexists. split_and!.
  - rewrite (st_bind_ok _ _ _ _ _ E1), (st_bind_ok _ _ _ _ _ (update_buv_ok b _ v w1 Hb1)),
      (st_bind_ok _ _ _ _ _ E3). st_step. by apply update_buv_ok.
  - eexists. split.
    + apply (rx_base_update v1); [|done|done]. split; [exact Hb3|done..|]. by apply (rv_stable w).
    + exists a, msg, (msg_reader_init a).
      split_and!; [done|apply lookup_insert_eq|done|by apply reader_init_at|].
      subst msg. cbn. rewrite length_replicate. lia.
  - done.
Qed.

(** [alloc_wrap] opens a message if there is none, and asks for exactly what
    the automaton wants. *)
Lemma alloc_wrap_ok w st :
  rx_rel sz b s f w st →
  ∃ w' v m, alloc_wrap b sz w = Ok (UvBuf (Some (rx_ptr m st)) (want sz st), w') ∧
    rx_base b s f v w' ∧ uv_msg v = Some m ∧ rx_holds sz v w' (opened st) ∧
    received s w' = received s w.
Proof.
  intros (v & Hbase & Hst). pose proof Hbase as [Hb Hstr Hw Hsock Ha Hfr Hinv].
  assert (∃ w1, (match uv_msg v with
                 | Some _ => mret tt
                 | None =>
                     m ← sc_msg_alloc sz;
                     update_buv b (with_msg m);;
                     sc_msg_init_at m;;
                     a ← demand NullDeref m;
                     update_buv b (with_reader (Some (msg_reader_init a)))
                 end) w = Ok (tt, w1) ∧ rx_rel sz b s f w1 (opened st) ∧
           received s w1 = received s w) as (w1 & E1 & Hrel1 & Hr1).
  { destruct st as [|hdr body]; cbn [rx_holds] in Hst.
    - rewrite Hst. by apply (alloc_open v).
    - destruct Hst as (m & msg & r & Em & Hm & Hr & Hra & Hl). rewrite Em.
      exists w. split_and!; [done| |done]. exists v. split; [done|].
      by exists m, msg, r. }
  destruct Hrel1 as (v1 & Hbase1 & Hst1). pose proof Hbase1 as [Hb1 _ _ _ _ _ _].
  pose proof Hst1 as (m & msg & r & Em & Hm & Hr & Hra & Hl).
  exists w1, v1, m. split_and!; [|done..].
  unfold alloc_wrap. st_step. rewrite Hstr, u32_small by lia. st_step.
  rewrite (st_bind_ok _ _ _ _ _ E1). st_step. rewrite Hr. st_step.
  rewrite (st_bind_ok _ _ _ _ _ (lift_ok _ _ w1 (avail_head _ _ _ _ _ Hra))).
  pose proof (ra_hdr _ _ _ _ _ Hra) as Hh. pose proof Hra as [-> _ _ _ _ _].
  unfold want, rx_ptr, in_header.
  destruct st as [|hdr body]; cbn [opened rx_hdr rx_body] in *; case_decide as Hd;
    [| simpl in Hd; lia | |].
  - rewrite bool_decide_eq_true_2 by (simpl; lia).
    unfold mret, st_ret, msg_reader_head_pos. cbn [head_pos].
    repeat f_equal. case_decide; simpl in *; lia.
  - rewrite bool_decide_eq_true_2 by lia.
    unfold mret, st_ret, msg_reader_head_pos. cbn [head_pos].
    repeat f_equal. case_decide; lia.
  - rewrite bool_decide_eq_false_2 by lia.
    rewrite (st_bind_ok _ _ _ _ _ (gets_ok w_msgs w1)).
    rewrite (st_bind_ok _ _ _ _ _ (lift_ok _ _ w1 (avail_body _ _ _ _ _ _ Hm Hra))).
    unfold mret, st_ret, msg_reader_body_pos. cbn [body_pos].
    repeat f_equal. case_decide; lia.
Qed.

(** The end of [read_wrap], once the reader has moved: the message is handed
    over and freed if it is complete. *)
Definition finish (v : socket_uv) (heap : msg_heap) (r : msg_reader) : M unit :=
  update_buv b (with_reader (Some r));;
  fin ← lift (msg_reader_finished heap r);
  if fin : bool then
    assert_that (bool_decide (0 = 0));;
    call_on_recv b (uv_msg v) 0;;
    drop_msg b
  else mret tt.

Lemma finish_ok v w m msg hdr body r :
  rx_base b s f v w → uv_msg v = Some m → w_msgs w !! m = Some msg →
  reader_at m msg hdr body r → Z.of_nat (length (data msg)) = sz →
  Forall rv_ok (delivered <$> option_list (snd (close hdr body))) →
  ∃ w', finish v (w_msgs w) r w = Ok (tt, w') ∧
    rx_rel sz b s f w' (fst (close hdr body)) ∧
    received s w' = received s w ++ (delivered <$> option_list (snd (close hdr body))).
Proof.
  intros Hbase Em Hm Hra Hl Hok. pose proof Hbase as [Hb Hstr Hw Hsock Ha Hfr Hinv].
  set (v1 := with_reader (Some r) v).
  set (w1 := set_buvs (<[b := Some v1]> (w_buvs w)) w).
  assert (Hbase1 : rx_base b s f v1 w1) by (by apply (rx_base_update v)).
  unfold finish. st_step. fold v1 w1.
  rewrite (st_bind_ok _ _ _ _ _ (lift_ok _ _ w1 (finished _ _ _ _ _ _ Hm Hra))).
  unfold close in Hok |- *. case_bool_decide as Hann.
  - rewrite decide_True in Hok |- * by done.
    rewrite (st_bind_ok _ _ _ _ _ (assert_that_true w1)), Em.
    assert (Hp : event_payload (OnRecv s (Some m) 0) w1 = Some (Some <$> body)).
    { unfold event_payload. cbn [deref_msg]. change (w_msgs w1) with (w_msgs w).
      rewrite Hm. unfold payload. osimpl. rewrite (get_size_at _ _ _ _ _ Hra). osimpl.
      pose proof (ra_body _ _ _ _ _ Hra) as Hbd.
      assert (length body ≤ length (data msg))%nat.
      { apply (f_equal length) in Hbd. rewrite length_take, length_fmap in Hbd. lia. }
      rewrite Hann, decide_True, Nat2Z.id by lia. osimpl. by rewrite Hbd. }
    destruct (call_on_recv_ok v1 w1 (Some m) 0 Hbase1)
      as (w2 & E2 & (v2 & Hbase2 & Hv2) & Hlive & Hr2).
    { rewrite Hp. by apply Forall_cons in Hok as [? _]. }
    rewrite (st_bind_ok _ _ _ _ _ E2).
    assert (Em2 : uv_msg v2 = Some m).
    { unfold rx_view in Hv2. cbn in Hv2. simplify_eq. congruence. }
    destruct (drop_msg_ok v2 w2 Hbase2) as (w3 & E3 & Hrel3 & Hr3 & _).
    { intros a E. rewrite Em2 in E. simplify_eq. apply Hlive. by exists msg. }
    exists w3. split_and!; [done|done|]. by rewrite Hr3, Hr2, Hp.
  - rewrite decide_False by done. exists w1.
    split_and!; [done| |by rewrite app_nil_r].
    exists v1. split; [done|]. by exists m, msg, r.
Qed.

(** [read_wrap] on bytes that are in place. *)
Lemma read_wrap_finish v w r r' n :
  rx_base b s f v w → uv_reader v = Some r → 0 < n < 2 ^ 32 →
  (hsize ← msg_reader_avail_head_size r;
   if decide (0 < hsize) then msg_reader_parse_head r n
   else msg_reader_parse_body (w_msgs w) r n) = Ok (r', 0) →
  read_wrap b n w = finish v (w_msgs w) r' w.
Proof.
  intros Hbase Hr Hn Hparse. pose proof Hbase as [Hb Hstr Hw Hsock Ha Hfr Hinv].
  unfold read_wrap, finish. st_step. rewrite Hstr.
  rewrite (decide_True (P := 0 ≤ n ∨ _)) by lia.
  rewrite (decide_False (P := n < 0)) by lia. rewrite (decide_True (P := 0 < n)) by lia.
  st_step. rewrite Hr. st_step. rewrite u32_small by lia.
  destruct (msg_reader_avail_head_size r) as [hsize|]; [|done].
  revert Hparse. osimpl. intros Hparse.
  rewrite (st_bind_ok (lift (Ok hsize)) _ w hsize w eq_refl).
  rewrite (st_bind_ok _ _ _ _ _ (gets_ok w_msgs w)).
  case_decide; by rewrite (st_bind_ok _ _ _ _ _ (lift_ok _ _ w Hparse)).
Qed.

(** What is true once the bytes [c] are stored where [alloc_wrap] said: the
    reader can move over them. *)
Definition filled (v : socket_uv) (m : nat) (st : rx) (c : list byte) (w w' : world) : Prop :=
  ∃ msg r r', rx_base b s f v w' ∧ w_msgs w' !! m = Some msg ∧ uv_reader v = Some r ∧
    Z.of_nat (length (data msg)) = sz ∧ received s w' = received s w ∧
    (hsize ← msg_reader_avail_head_size r;
     if decide (0 < hsize) then msg_reader_parse_head r (Z.of_nat (length c))
     else msg_reader_parse_body (w_msgs w') r (Z.of_nat (length c))) = Ok (r', 0) ∧
    (if in_header st then reader_at m msg (rx_hdr st ++ c) (rx_body st) r'
     else reader_at m msg (rx_hdr st) (rx_body st ++ c) r').

Lemma uv_fill_eq w m fld off c msg l :
  w_msgs w !! m = Some msg → mem_write (field_of msg fld) off c = Ok l →
  uv_fill (Ptr m fld off) c w =
    Ok (tt, set_msgs (<[m := set_field msg fld l]> (w_msgs w)) w).
Proof.
  intros Hm Hl. unfold uv_fill. cbn [p_msg p_field p_off].
  rewrite (st_bind_ok _ _ _ _ _ (get_msg_ok _ _ _ Hm)).
  by rewrite (st_bind_ok _ _ _ _ _ (lift_ok _ _ w Hl)).
Qed.

Lemma uv_fill_header v w m st c :
  rx_base b s f v w → uv_msg v = Some m → rx_holds sz v w (opened st) →
  chunk_fits sz st c → in_header st = true →
  ∃ w', uv_fill (rx_ptr m st) c w = Ok (tt, w') ∧ filled v m st c w w'.
Proof.
  intros Hbase Em (m' & msg & r & Em' & Hm & Hr & Hra & Hl) (Hne & Hwant & Hcap) Hh.
  assert (m' = m) as -> by congruence. unfold want in Hwant. unfold rx_ptr, filled.
  rewrite Hh in *. unfold in_header in Hh. apply bool_decide_eq_true in Hh.
  pose proof (avail_head _ _ _ _ _ Hra) as Hah.
  pose proof Hra as [Hrd Hhl Hsize Hbody Hord Hfit].
  assert (rx_body st = []) as Hb0 by (apply nil_length_inv; lia).
  assert (Hw : mem_write (field_of msg FSize) (Z.of_nat (length (rx_hdr st))) c =
            Ok (Some <$> pad_header (rx_hdr st ++ c))).
  { cbn [field_of]. rewrite Hsize. unfold pad_header. rewrite (fmap_app _ (rx_hdr st)).
    rewrite mem_write_append by (rewrite length_fmap, length_replicate; lia).
    rewrite (fmap_app _ (rx_hdr st ++ c)), !fmap_replicate, drop_replicate, length_app.
    do 3 f_equal. lia. }
  rewrite Hb0 in Hra |- *.
  destruct (parse_head_at m msg (rx_hdr st) c r Hra) as (r' & Hp & Hr'); [lia|].
  eexists. split; [by apply uv_fill_eq|].
  eexists _, r, r'. split_and!; [by apply rx_base_msgs|apply lookup_insert_eq|done..| |].
  - rewrite Hah. osimpl. by rewrite decide_True by lia.
  - by apply Hr'.
Qed.

Lemma uv_fill_body v w m st c :
  rx_base b s f v w → uv_msg v = Some m → rx_holds sz v w (opened st) →
  chunk_fits sz st c → in_header st = false →
  ∃ w', uv_fill (rx_ptr m st) c w = Ok (tt, w') ∧ filled v m st c w w'.
Proof.
  intros Hbase Em (m' & msg & r & Em' & Hm & Hr & Hra & Hl) (Hne & Hwant & Hcap) Hh.
  assert (m' = m) as -> by congruence. unfold want in Hwant. unfold rx_ptr, filled.
  specialize (Hcap Hh). rewrite Hh in *. unfold in_header in Hh.
  apply bool_decide_eq_false in Hh.
  pose proof (avail_head _ _ _ _ _ Hra) as Hah.
  pose proof Hra as [Hrd Hhl Hsize Hbody Hord Hfit].
  rewrite length_app in Hcap.
  set (rest := drop (length (rx_body st)) (data msg)).
  assert (Hdata : data msg = (Some <$> rx_body st) ++ rest).
  { unfold rest. by rewrite <-Hbody, take_drop. }
  assert (Hrest : (length c ≤ length rest)%nat) by (unfold rest; rewrite length_drop; lia).
  set (d := (Some <$> (rx_body st ++ c)) ++ drop (length c) rest).
  assert (Hw : mem_write (field_of msg FData) (Z.of_nat (length (rx_body st))) c = Ok d).
  { cbn [field_of]. rewrite Hdata. by apply mem_write_append. }
  set (msg' := set_field msg FData d).
  assert (Hra' : reader_at m msg' (rx_hdr st) (rx_body st) r).
  { split; [done|done|done| |done|done]. cbn. unfold d. rewrite fmap_app, <-app_assoc.
    by rewrite take_app_length' by (by rewrite length_fmap). }
  set (h' := <[m := msg']> (w_msgs w)).
  destruct (parse_body_at h' m msg' (rx_hdr st) (rx_body st) c r)
    as (r' & Hp & Hr'); [apply lookup_insert_eq|done|lia|lia|].
  exists (set_msgs h' w). split; [by apply uv_fill_eq|].
  exists msg', r, r'. split_and!; [by apply rx_base_msgs|apply lookup_insert_eq|done| |done| |].
  - cbn [msg' set_field data]. rewrite (mem_write_length _ _ _ _ Hw). done.
  - rewrite Hah. osimpl. by rewrite decide_False by lia.
  - apply Hr'; [done|]. cbn. unfold d. by rewrite take_app_length' by (by rewrite length_fmap).
Qed.

(** A read of data is a step of the automaton. *)
Lemma uv_read_data w st c :
  rx_rel sz b s f w st → chunk_fits sz st c →
  Forall rv_ok (delivered <$> option_list (snd (on_chunk st c))) →
  ∃ w', uv_read b sz (RData c) w = Ok (tt, w') ∧
    rx_rel sz b s f w' (fst (on_chunk st c)) ∧
    received s w' = received s w ++ (delivered <$> option_list (snd (on_chunk st c))).
Proof.
  intros Hrel Hfit Hok. pose proof Hfit as (Hne & Hwant & _).
  destruct (alloc_wrap_ok w st Hrel) as (w1 & v & m & E1 & Hbase1 & Em & Hst1 & Hr1).
  assert (∃ w2, uv_fill (rx_ptr m st) c w1 = Ok (tt, w2) ∧ filled v m st c w1 w2)
    as (w2 & E2 & msg & r & r' & Hbase2 & Hm2 & Hrd & Hl & Hr2 & Hparse & Hra).
  { destruct (in_header st) eqn:Eh; [by apply uv_fill_header|by apply uv_fill_body]. }
  assert (Hw32 : want sz st < 2 ^ 32) by (unfold want; lia).
  assert (E3 : read_wrap b (Z.of_nat (length c)) w2 = finish v (w_msgs w2) r' w2).
  { apply (read_wrap_finish v w2 r r'); [done|done|lia|done]. }
  assert (E : uv_read b sz (RData c) w = finish v (w_msgs w2) r' w2).
  { unfold uv_read. rewrite (st_bind_ok _ _ _ _ _ E1). cbn [len base].
    rewrite decide_False by lia.
    rewrite (st_bind_ok _ _ _ _ _ (demand_some _ _ w1)).
    rewrite decide_True by lia. by rewrite (st_bind_ok _ _ _ _ _ E2). }
  rewrite E, <-Hr1, <-Hr2. unfold on_chunk in Hok |- *. destruct (in_header st).
  - by apply (finish_ok v w2 m msg).
  - by apply (finish_ok v w2 m msg).
Qed.
(** Reads in a row run the automaton. *)
Lemma uv_reads_run w st cs :
  rx_rel sz b s f w st → chunks_fit sz st cs → Forall rv_ok (delivered <$> snd (run st cs)) →
  ∃ w', uv_reads b sz cs w = Ok (tt, w') ∧
    rx_rel sz b s f w' (fst (run st cs)) ∧
    received s w' = received s w ++ (delivered <$> snd (run st cs)).
Proof.
  revert w st. induction cs as [|c cs IH]; intros w st Hrel Hfits Hok.
  { exists w. simpl. by rewrite app_nil_r. }
  destruct Hfits as [Hfit Hfits].
  assert (Forall rv_ok (delivered <$> option_list (snd (on_chunk st c))) ∧
    Forall rv_ok (delivered <$> snd (run (fst (on_chunk st c)) cs))) as [Hok1 Hok2].
  { cbn [run] in Hok. destruct (on_chunk st c) as [st' o]. cbn [fst snd].
    destruct (run st' cs) as [st'' os]. cbn [snd] in *.
    by rewrite fmap_app, Forall_app in Hok. }
  destruct (uv_read_data w st c Hrel Hfit Hok1) as (w1 & E1 & Hrel1 & Hr1).
  destruct (IH w1 _ Hrel1 Hfits Hok2) as (w2 & E2 & Hrel2 & Hr2).
  clear Hok Hok1 Hok2. exists w2. cbn [uv_reads run]. rewrite (st_bind_ok _ _ _ _ _ E1).
  destruct (on_chunk st c) as [st' o]. cbn [fst snd] in *.
  destruct (run st' cs) as [st'' os]. cbn [fst snd] in *.
  split_and!; [done|done|]. by rewrite Hr2, Hr1, fmap_app, app_assoc.
Qed.

Lemma uv_reads_framing w ps cs :
  rx_rel sz b s f w Idle → within sz ps → Forall rv_ok (delivered <$> ps) →
  concat cs = concat (encode <$> ps) → chunks_asked sz Idle cs → headers_whole Idle cs →
  ∃ w', uv_reads b sz cs w = Ok (tt, w') ∧ rx_rel sz b s f w' Idle ∧
    received s w' = received s w ++ (delivered <$> ps).
Proof.
  intros Hrel Hps Hok Hcs Ha Hh. pose proof (within_sizes sz ps ltac:(lia) Hps) as Hs.
  assert (Hf : chunks_fit sz Idle cs).
  { apply (asked_fits sz cs Idle ps []); [done|lia| |done|done].
    rewrite app_nil_r, Hcs. constructor. }
  destruct (uv_reads_run w Idle cs Hrel Hf) as (w' & E & Hrel' & Hr').
  { by rewrite (framing sz ps cs Hs Hcs Hf Hh). }
  rewrite (framing sz ps cs Hs Hcs Hf Hh) in Hrel', Hr'. by exists w'.
Qed.

(** The write that leaves the message. *)
Lemma uv_read_overflow w st c :
  rx_rel sz b s f w st → in_header st = false → (0 < length c)%nat →
  Z.of_nat (length c) ≤ want sz st → sz < Z.of_nat (length (rx_body st ++ c)) →
  uv_read b sz (RData c) w = Fault OutOfBounds.
Proof.
  intros Hrel Hh Hne Hw Hover.
  destruct (alloc_wrap_ok w st Hrel)
    as (w1 & v & m & E1 & Hbase1 & Em & (m' & msg & r & Em' & Hm & Hr & Hra & Hl) & Hr1).
  assert (m' = m) as -> by congruence.
  unfold uv_read. rewrite (st_bind_ok _ _ _ _ _ E1). cbn [len base].
  rewrite decide_False by lia. rewrite (st_bind_ok _ _ _ _ _ (demand_some _ _ w1)).
  rewrite decide_True by lia. unfold rx_ptr. rewrite Hh.
  apply st_bind_fault. unfold uv_fill. cbn [p_msg p_field p_off field_of].
  rewrite (st_bind_ok _ _ _ _ _ (get_msg_ok _ _ _ Hm)). apply st_bind_fault.
  rewrite length_app in Hover. unfold lift. by rewrite mem_write_oob by lia.
Qed.

Lemma uv_reads_oversize w n body c :
  4 ≤ sz → rx_rel sz b s f w Idle → n < 2 ^ 32 → Z.of_nat (length body) = sz →
  (0 < length c)%nat → Z.of_nat (length c) ≤ sz → sz + Z.of_nat (length c) ≤ n →
  uv_reads b sz [be_bytes n; body; c] w = Fault OutOfBounds.
Proof.
  intros H4 Hrel Hn Hbody Hne Hc Hover.
  assert (E1 : on_chunk Idle (be_bytes n) = (Rx (be_bytes n) [], None)).
  { unfold on_chunk. cbn [in_header rx_hdr rx_body bool_decide]. unfold close.
    change (in_header Idle) with true. change ([] ++ ?x) with x.
    rewrite announced_be by lia. by rewrite decide_False by (simpl; lia). }
  assert (Hhd : ∀ d, in_header (Rx (be_bytes n) d) = false) by done.
  assert (E2 : on_chunk (Rx (be_bytes n) []) body = (Rx (be_bytes n) body, None)).
  { unfold on_chunk. rewrite Hhd. unfold close. cbn [rx_hdr rx_body].
    change ([] ++ ?x) with x. rewrite announced_be by lia. by rewrite decide_False by lia. }
  destruct (uv_reads_run w Idle [be_bytes n; body] Hrel) as (w2 & Er & Hrel2 & _).
  { cbn [chunks_fit]. rewrite E1. cbn [fst]. unfold chunk_fits, want. rewrite Hhd.
    cbn [rx_hdr rx_body]. rewrite announced_be by lia. change ([] ++ ?x) with x.
    change (in_header Idle) with true. split_and!; simpl; try done; lia. }
  { cbn [run]. rewrite E1, E2. constructor. }
  cbn [run] in Hrel2. rewrite E1, E2 in Hrel2. cbn [fst] in Hrel2.
  assert (E3 : uv_reads b sz [be_bytes n; body; c] w =
               (uv_read b sz (RData c);; mret tt) w2).
  { cbn [uv_reads] in *. st_inv Er. rewrite (st_bind_ok _ _ _ _ _ Hst).
    st_inv Hst0. rewrite (st_bind_ok _ _ _ _ _ Hst1).
    unfold mret, st_ret in Hst2. by simplify_eq. }
  rewrite E3. apply st_bind_fault. apply (uv_read_overflow w2 _ c Hrel2); [done|done| |].
  - unfold want. rewrite Hhd. cbn [rx_hdr rx_body]. rewrite announced_be by lia. lia.
  - cbn [rx_body]. rewrite length_app. lia.
Qed.

(** End of file and errors. *)
Lemma read_wrap_end w st e :
  rx_rel sz b s f w st → e < 0 → rv_ok (None, if decide (e = UV_EOF) then 0 else e) →
  ∃ w', read_wrap b e w = Ok (tt, w') ∧ rx_rel sz b s f w' Idle ∧
    received s w' = received s w ++ [(None, if decide (e = UV_EOF) then 0 else e)].
Proof.
  intros (v & Hbase & Hst) He Hok. pose proof Hbase as [Hb Hstr _ _ _ _ _].
  set (e' := if decide (e = UV_EOF) then 0 else e).
  destruct (call_on_recv_ok v w None e' Hbase Hok)
    as (w1 & E1 & (v1 & Hbase1 & Hv1) & Hlive & Hr1).
  destruct (drop_msg_ok v1 w1 Hbase1) as (w2 & E2 & Hrel2 & Hr2 & _).
  { intros m Em. apply Hlive. unfold rx_view in Hv1. simplify_eq.
    destruct st as [|hdr body]; cbn [rx_holds] in Hst; [congruence|].
    destruct Hst as (m' & msg & _ & Em' & Hm & _). exists msg.
    assert (m' = m) as <- by congruence. done. }
  exists w2. split_and!; [|done|by rewrite Hr2, Hr1].
  unfold read_wrap. st_step. rewrite Hstr.
  rewrite (decide_True (P := e < 0)) by done. unfold e' in E1. clear Hr1.
  case_decide as Heof; [rewrite decide_True by tauto|rewrite decide_False by lia].
  - erewrite st_bind_ok; [exact E2|]. rewrite bool_decide_eq_true_2 by done.
    by rewrite (st_bind_ok _ _ _ _ _ (assert_that_true w)).
  - erewrite st_bind_ok; [exact E2|]. rewrite bool_decide_eq_true_2 by lia.
    by rewrite (st_bind_ok _ _ _ _ _ (assert_that_true w)).
Qed.

Lemma uv_read_end w st r :
  rx_rel sz b s f w st → 0 < want sz st →
  r = REof ∨ (∃ e, r = RErr e ∧ e < 0) → rv_ok (end_event r) →
  ∃ w', uv_read b sz r w = Ok (tt, w') ∧ rx_rel sz b s f w' Idle ∧
    received s w' = received s w ++ [end_event r].
Proof.
  intros Hrel Hwant Hr Hok.
  destruct (alloc_wrap_ok w st Hrel) as (w1 & v & m & E1 & Hbase1 & Em & Hst1 & Hr1).
  assert (Hrel1 : rx_rel sz b s f w1 (opened st)) by (by exists v).
  unfold uv_read. rewrite (st_bind_ok _ _ _ _ _ E1). cbn [len base].
  rewrite decide_False by lia. rewrite <-Hr1. destruct Hr as [->|(e & -> & He)].
  - destruct (read_wrap_end w1 _ UV_EOF Hrel1) as (w2 & E2 & Hrel2 & Hr2);
      [done|by rewrite decide_True|].
    exists w2. by rewrite decide_True in Hr2.
  - by apply (read_wrap_end w1 (opened st)).
Qed.
End steps.

(** ** Properties of the receive path

    [rx_rel] contains the invariant of the receiver, so each of them also says
    that the invariant is kept. *)
Section receive.
Context `{Env} `{App} `{Receiver}.

(** C2. Refinement: as long as the callback keeps its promise and allocations
    succeed, every sequence of reads within the capacity is
    exactly a run of the framing automaton, without any fault: the library
    reaches the automaton's state, and the application is given the messages
    the automaton delivers, with their very bytes, in order, and no error. *)
Theorem uv_reads_refine b s f sz w st cs :
  on_recv_ok b s f → (∀ n, malloc_ok n = true) → 1 ≤ sz < 2 ^ 32 →
  rx_rel sz b s f w st → chunks_fit sz st cs → Forall rv_ok (delivered <$> snd (run st cs)) →
  ∃ w', uv_reads b sz cs w = Ok (tt, w') ∧
    rx_rel sz b s f w' (fst (run st cs)) ∧
    received s w' = received s w ++ (delivered <$> snd (run st cs)).
Proof. intros. by apply uv_reads_run. Qed.

(** Framing: when the encodings of messages that fit the buffers arrive,
    cut into reads in any way that leaves each size field in one piece, the
    application receives exactly those messages, in order, each with its
    bytes and error code 0, and the stream ends between two messages. *)
Lemma recv_framing b s f sz w ps cs :
  on_recv_ok b s f → (∀ n, malloc_ok n = true) → 1 ≤ sz < 2 ^ 32 →
  rx_rel sz b s f w Idle → within sz ps → Forall rv_ok (delivered <$> ps) →
  concat cs = concat (encode <$> ps) → chunks_asked sz Idle cs → headers_whole Idle cs →
  ∃ w', uv_reads b sz cs w = Ok (tt, w') ∧ rx_rel sz b s f w' Idle ∧
    received s w' = received s w ++ (delivered <$> ps).
Proof. intros. by apply (uv_reads_framing b s f). Qed.

(** C31. Progress: for a stream that is already there, the reads that take each
    size field and then each body are all that is needed: they are reads the
    library asks for, and every message is received, as long as there is
    memory for it, it fits the size libuv suggests, and the callback keeps its
    promise. *)
Theorem recv_available b s f sz w ps :
  on_recv_ok b s f → (∀ n, malloc_ok n = true) → 4 ≤ sz < 2 ^ 32 →
  rx_rel sz b s f w Idle → within sz ps → Forall rv_ok (delivered <$> ps) →
  ∃ w', uv_reads b sz (cut_stream ps) w = Ok (tt, w') ∧ rx_rel sz b s f w' Idle ∧
    received s w' = received s w ++ (delivered <$> ps).
Proof.
  intros Hcb Hm Hsz Hrel Hps Hok.
  destruct (cut_stream_ok sz ps) as [Ha Hh]; [lia..|done|].
  apply (uv_reads_framing b s f); auto with lia. by rewrite cut_stream_concat.
Qed.

(** C29. A size field that arrives in pieces is misread: if the first read of a
    message brings [k] bytes, one to three, of a size below 256^(4-k), which
    are then all zero, [read_wrap] takes the message for complete and gives
    the application an empty one. *)
Theorem cut_header_empty_message b s f sz w p k :
  on_recv_ok b s f → (∀ n, malloc_ok n = true) → 4 ≤ sz < 2 ^ 32 →
  rx_rel sz b s f w Idle → (1 ≤ k ≤ 3)%nat →
  Z.of_nat (length p) < 256 ^ (4 - Z.of_nat k) → rv_ok (delivered []) →
  ∃ w', uv_read b sz (RData (take k (encode p))) w = Ok (tt, w') ∧
    rx_rel sz b s f w' Idle ∧ received s w' = received s w ++ [delivered []].
Proof.
  intros Hcb Hm Hsz Hrel Hk Hp Hok.
  assert (take k (encode p) = take k (be_bytes (Z.of_nat (length p)))) as E.
  { unfold encode. by rewrite take_app_le by (simpl; lia). }
  pose proof (be_bytes_high_zero (Z.of_nat (length p)) k Hk ltac:(lia)) as Hz.
  rewrite <-E in Hz.
  assert (Hl : length (take k (encode p)) = k).
  { rewrite length_take, encode_length. lia. }
  assert (E1 : on_chunk Idle (take k (encode p)) = (Idle, Some [])).
  { change (on_chunk Idle ?c) with (on_chunk (Rx [] []) c).
    rewrite (cut_header [] (take k (encode p))) by (simpl app; lia). by rewrite decide_True. }
  destruct (uv_read_data b s f sz Hcb Hm ltac:(lia) w Idle (take k (encode p)) Hrel)
    as (w' & Hw' & Hrel' & Hr').
  { unfold chunk_fits, want. change (in_header Idle) with true.
      cbn [rx_hdr rx_body]. rewrite Hl. split_and!; [lia|simpl; lia|done]. }
  { rewrite E1. by repeat constructor. }
  rewrite E1 in Hrel', Hr'. by exists w'.
Qed.

(** C30. There is no check of the size against the buffer: once a peer announces
    more than the suggested size, the read after the first [sz] body bytes
    makes libuv write outside of the message. *)
Theorem oversize_overflow b s f sz w n body c :
  on_recv_ok b s f → (∀ n, malloc_ok n = true) → 4 ≤ sz < 2 ^ 32 →
  rx_rel sz b s f w Idle → n < 2 ^ 32 → Z.of_nat (length body) = sz →
  (0 < length c)%nat → Z.of_nat (length c) ≤ sz → sz + Z.of_nat (length c) ≤ n →
  uv_reads b sz [be_bytes n; body; c] w = Fault OutOfBounds.
Proof. intros. apply (uv_reads_oversize b s f); auto with lia. Qed.

(** C32. The end of a stream: at end of file or on an error the application is
    told so by one call without a message, with error code 0 for end of file
    and libuv's code otherwise; a message that was under way is dropped, and
    its truncation is not reported. *)
Theorem recv_end b s f sz w st r :
  on_recv_ok b s f → (∀ n, malloc_ok n = true) → 1 ≤ sz < 2 ^ 32 →
  rx_rel sz b s f w st → 0 < want sz st →
  r = REof ∨ (∃ e, r = RErr e ∧ e < 0) → rv_ok (end_event r) →
  ∃ w', uv_read b sz r w = Ok (tt, w') ∧ rx_rel sz b s f w' Idle ∧
    received s w' = received s w ++ [end_event r].
Proof. intros. by apply (uv_read_end b s f sz) with st. Qed.
End receive.

(** ** Concrete runs *)
#[local] Existing Instances demo_env demo_app any_receiver.

Lemma any_ok l : Forall rv_ok l.
Proof. by apply Forall_true. Qed.

Lemma rx_frame_refl b s w : rx_frame b s w w.
Proof. by split; eauto. Qed.

Lemma demo_on_recv_ok : on_recv_ok 2 1 0.
Proof. intros v m e w _ _ w1. exists w1. split_and!; [done|apply rx_frame_refl|done]. Qed.

Lemma demo_rx_rel : rx_rel 8 2 1 0 demo_world Idle.
Proof.
  exists demo_buv. split; [|done]. split; [done|done|done| |done..].
  eexists _, demo_watcher. by split_and!.
Qed.

(** Two messages, the second one empty, over reads that cut the first body. *)
Definition demo_chunks : list (list byte) :=
  [be_bytes 5; bytes_of "He"; bytes_of "llo"; be_bytes 0].

Lemma uv_reads_refine_witness :
  ∃ w', uv_reads 2 8 demo_chunks demo_world = Ok (tt, w') ∧
    rx_rel 8 2 1 0 w' Idle ∧ received 1 w' = [delivered (bytes_of "Hello"); delivered []].
Proof.
  exact (uv_reads_refine 2 1 0 8 demo_world Idle demo_chunks demo_on_recv_ok
    (λ _, eq_refl) ltac:(lia) demo_rx_rel ltac:(decide_by_run) (any_ok _)).
Defined.

Lemma recv_framing_witness :
  ∃ w', uv_reads 2 8 demo_chunks demo_world = Ok (tt, w') ∧ rx_rel 8 2 1 0 w' Idle ∧
    received 1 w' = [] ++ (delivered <$> [bytes_of "Hello"; []]).
Proof.
  exact (recv_framing 2 1 0 8 demo_world [bytes_of "Hello"; []] demo_chunks demo_on_recv_ok
    (λ _, eq_refl) ltac:(lia) demo_rx_rel ltac:(decide_by_run) (any_ok _) eq_refl
    ltac:(decide_by_run) ltac:(decide_by_run)).
Defined.

Lemma recv_available_witness :
  ∃ w', uv_reads 2 8 (cut_stream [bytes_of "Hello"; []]) demo_world = Ok (tt, w') ∧
    rx_rel 8 2 1 0 w' Idle ∧
    received 1 w' = [] ++ (delivered <$> [bytes_of "Hello"; []]).
Proof.
  exact (recv_available 2 1 0 8 demo_world [bytes_of "Hello"; []] demo_on_recv_ok
    (λ _, eq_refl) ltac:(lia) demo_rx_rel ltac:(decide_by_run) (any_ok _)).
Defined.

(** "Hello" is sent, and the first two bytes of its size arrive alone. *)
Lemma cut_header_empty_message_witness :
  ∃ w', uv_read 2 8 (RData (take 2 (encode (bytes_of "Hello")))) demo_world = Ok (tt, w') ∧
    rx_rel 8 2 1 0 w' Idle ∧ received 1 w' = [] ++ [delivered []].
Proof.
  exact (cut_header_empty_message 2 1 0 8 demo_world (bytes_of "Hello") 2 demo_on_recv_ok
    (λ _, eq_refl) ltac:(lia) demo_rx_rel ltac:(lia) ltac:(simpl; lia) I).
Defined.

Lemma oversize_overflow_witness :
  uv_reads 2 8 [be_bytes 9; bytes_of "12345678"; bytes_of "9"] demo_world = Fault OutOfBounds.
Proof.
  exact (oversize_overflow 2 1 0 8 demo_world 9 (bytes_of "12345678") (bytes_of "9")
    demo_on_recv_ok (λ _, eq_refl) ltac:(lia) demo_rx_rel ltac:(lia) eq_refl
    ltac:(simpl; lia) ltac:(simpl; lia) ltac:(simpl; lia)).
Defined.

Lemma recv_end_witness :
  ∃ w', uv_read 2 8 REof demo_world = Ok (tt, w') ∧ rx_rel 8 2 1 0 w' Idle ∧
    received 1 w' = [] ++ [(None, 0)].
Proof.
  exact (recv_end 2 1 0 8 demo_world Idle REof demo_on_recv_ok
    (λ _, eq_refl) ltac:(lia) demo_rx_rel ltac:(done) (or_introl eq_refl) I).
Defined.
