(* ===== verification/Send.v ===== *)
(** * Sending, and the way from one socket to another

    What [buv_send] hands to libuv, read back from memory, is the encoding of
    the message; with the receive path of Recv.v this gives the round trip of
    messages between two programs. *)

From S2P Require Import Prelude Endian CString Strerror Msg MsgReader Uri World Watcher.
From S2P Require Import Demo Backend BackendUv Frame Recv.

(** The bytes a libuv buffer covers: within an object, and all written. *)
Definition buf_bytes (h : msg_heap) (buf : uv_buf) : option (list byte) :=
  p ← base buf;
  v ← h !! p_msg p;
  let l := field_of v (p_field p) in
  if decide (0 ≤ p_off p ∧ 0 ≤ len buf ∧ p_off p + len buf ≤ Z.of_nat (length l))
  then init_bytes (take (Z.to_nat (len buf)) (drop (Z.to_nat (p_off p)) l)) else None.

Definition gather (h : msg_heap) (bufs : list uv_buf) : option (list byte) :=
  bss ← mapM (buf_bytes h) bufs; Some (concat bss).

(** The bytes libuv has been asked to write on a stream, in order. *)
Definition write_bytes (h : msg_heap) (b : nat) (c : uv_call) : option (list byte) :=
  match c with
  | UvWrite b' bufs => if decide (b' = b) then gather h bufs else Some []
  | _ => Some []
  end.
Definition written (h : msg_heap) (b : nat) (cs : list uv_call) : option (list byte) :=
  bss ← mapM (write_bytes h b) cs; Some (concat bss).

(** A message whose size field and data hold the payload [p]. *)
Definition msg_holds (v : sc_msg) (p : list byte) : Prop :=
  Z.of_nat (length p) < 2 ^ 32 ∧
  size_be v = Some <$> be_bytes (Z.of_nat (length p)) ∧
  take (length p) (data v) = Some <$> p.

Section send.
Context `{Env}.

(** Sending messages one after the other. *)
Fixpoint send_all (b : nat) (ms : list nat) : M (list Z) :=
  match ms with
  | [] => mret []
  | m :: ms => e ← buv_send b (Some m); es ← send_all b ms; mret (e :: es)
  end.

Definition send_bufs (m : nat) (size : Z) : list uv_buf :=
  [UvBuf (Some (size_ptr m)) SC_MSG_SIZE_BYTES; UvBuf (Some (data_ptr m)) size].

Lemma msg_holds_init x :
  Z.of_nat (length x) < 2 ^ 32 → msg_holds (SC_MSG_INIT (Z.of_nat (length x)) x) x.
Proof.
  intros Hx. split_and!; [done| |].
  - unfold SC_MSG_INIT. cbn [size_be].
    by rewrite ctb_htonl_spec, u32_small by (try apply u32_range; lia).
  - cbn [SC_MSG_INIT data]. by rewrite take_ge by (by rewrite length_fmap).
Qed.

Lemma buf_bytes_start h m fld n v l :
  h !! m = Some v → length l = n → take n (field_of v fld) = Some <$> l →
  buf_bytes h (UvBuf (Some (Ptr m fld 0)) (Z.of_nat n)) = Some l.
Proof.
  intros Hm Hn Hl. unfold buf_bytes. cbn [base mbind option_bind p_msg p_field p_off len].
  rewrite Hm. cbn [mbind option_bind].
  assert (length (take n (field_of v fld)) = n) as E by (by rewrite Hl, length_fmap).
  rewrite length_take in E. rewrite decide_True by lia.
  change (drop (Z.to_nat 0) ?x) with x. by rewrite Nat2Z.id, Hl, init_bytes_some.
Qed.

Lemma gather_send h m msg p :
  h !! m = Some msg → msg_holds msg p →
  gather h (send_bufs m (Z.of_nat (length p))) = Some (encode p).
Proof.
  intros Hm (Hl & Hs & Hd). unfold gather, send_bufs.
  change SC_MSG_SIZE_BYTES with (Z.of_nat 4). unfold size_ptr, data_ptr. cbn [mapM].
  rewrite (buf_bytes_start h m FSize 4 msg (be_bytes (Z.of_nat (length p))) Hm eq_refl).
  2: { cbn [field_of]. by rewrite Hs. }
  rewrite (buf_bytes_start h m FData (length p) msg p Hm eq_refl Hd).
  cbn [mbind option_bind mret option_ret concat]. by rewrite app_nil_r.
Qed.

(** One send: the return value, the one call to libuv, and its bytes. *)
Lemma buv_send_holds b v m msg p w :
  w_buvs w !! b = Some (Some v) → w_msgs w !! m = Some msg → msg_holds msg p →
  let bufs := send_bufs m (Z.of_nat (length p)) in
  buv_send b (Some m) w =
    Ok (uv_result (w_uv w) (UvWrite b bufs),
        add_uv (UvWrite b bufs)
          (set_buvs (<[b := Some (with_buffers bufs v)]> (w_buvs w)) w)).
Proof.
  intros Hb Hm (Hl & Hs & Hd) bufs. unfold buv_send.
  rewrite (st_bind_ok _ _ _ _ _ (get_msg_ok _ _ _ Hm)).
  rewrite (st_bind_ok _ _ _ _ _ (demand_some _ m w)).
  rewrite (st_bind_ok _ _ _ _ _ (lift_ok _ _ w
    (get_size_bytes msg _ (be_bytes_length (Z.of_nat (length p))) Hs))).
  rewrite be_value_bytes by lia. cbv zeta.
  by rewrite (st_bind_ok _ _ _ _ _ (update_buv_ok b _ v w Hb)).
Qed.

Lemma written_app h b cs ds bs bs' :
  written h b cs = Some bs → written h b ds = Some bs' →
  written h b (cs ++ ds) = Some (bs ++ bs').
Proof.
  unfold written. intros Hc Hd.
  destruct (mapM (write_bytes h b) cs) as [x|] eqn:Ec; [|done].
  destruct (mapM (write_bytes h b) ds) as [y|] eqn:Ed; [|done].
  assert (mapM (write_bytes h b) (cs ++ ds) = Some (x ++ y)) as ->.
  { apply mapM_Some. apply mapM_Some in Ec, Ed. by apply Forall2_app. }
  cbn [mbind option_bind mret option_ret] in *. simplify_eq. by rewrite concat_app.
Qed.

Lemma send_all_holds b ms ps : ∀ w v,
  w_buvs w !! b = Some (Some v) →
  Forall2 (λ m p, ∃ msg, w_msgs w !! m = Some msg ∧ msg_holds msg p) ms ps →
  ∃ es w' made, send_all b ms w = Ok (es, w') ∧
    w_uv w' = w_uv w ++ made ∧ w_msgs w' = w_msgs w ∧
    written (w_msgs w) b made = Some (concat (encode <$> ps)).
Proof.
  revert ps. induction ms as [|m ms IH]; intros ps w v Hb HF.
  { inversion HF. exists [], w, []. by rewrite app_nil_r. }
  inversion HF as [|? p ? ps' (msg & Hm & Hh) HF']; subst.
  pose proof (buv_send_holds b v m msg p w Hb Hm Hh) as E. cbv zeta in E.
  set (w1 := add_uv _ _) in E. set (c := UvWrite _ _) in E.
  destruct (IH ps' w1 (with_buffers (send_bufs m (Z.of_nat (length p))) v))
    as (es & w' & made & E' & Huv & Hms & Hw); [apply lookup_insert_eq|done|].
  eexists (_ :: es), w', (c :: made). split_and!.
  - cbn [send_all]. rewrite (st_bind_ok _ _ _ _ _ E). by rewrite (st_bind_ok _ _ _ _ _ E').
  - rewrite Huv. unfold w1. cbn. by rewrite <-app_assoc.
  - by rewrite Hms.
  - rewrite fmap_cons. cbn [concat]. apply (written_app _ _ [c]); [|done].
    unfold written. cbn [mapM mbind option_bind write_bytes c].
    rewrite decide_True by done. rewrite (gather_send _ _ _ _ Hm Hh).
    cbn [mbind option_bind mret option_ret concat]. by rewrite app_nil_r.
Qed.
End send.

Section round_trip.
Context `{Env}.

(** [buv_send] makes one call to libuv, returns its result, and the
    buffers it passes cover exactly the encoding of the message: the length
    of its payload in network order and then the payload. *)
Lemma buv_send_encodes b v m msg p w :
  w_buvs w !! b = Some (Some v) → w_msgs w !! m = Some msg → msg_holds msg p →
  ∃ bufs w', buv_send b (Some m) w = Ok (uv_result (w_uv w) (UvWrite b bufs), w') ∧
    w_uv w' = w_uv w ++ [UvWrite b bufs] ∧ gather (w_msgs w') bufs = Some (encode p).
Proof.
  intros Hb Hm Hh. eexists _, _. split; [by eapply buv_send_holds|].
  split; [done|]. by eapply gather_send.
Qed.

End round_trip.

(** C1. Round trip: messages sent one after the other on a socket of one
    program reach [on_recv] of a socket of another one, on a machine of either
    byte order, each exactly once, in order, with their bytes, when the bytes
    written arrive cut into any reads that leave the size fields in one piece,
    the messages fit the size libuv suggests to the receiver, and the receiver
    has memory for them and a callback that keeps its promise ([on_recv_ok]). *)
Theorem send_recv_round_trip (E1 E2 : Env) (A : App) (R : Receiver) bs vs ms ps ws b s f sz wr :
  (* the sender *)
  w_buvs ws !! bs = Some (Some vs) →
  Forall2 (λ m p, ∃ msg, w_msgs ws !! m = Some msg ∧ msg_holds msg p) ms ps →
  (* the receiver *)
  on_recv_ok (H0 := E2) b s f → (∀ n, malloc_ok (Env := E2) n = true) → 1 ≤ sz < 2 ^ 32 →
  rx_rel sz b s f wr Idle → within sz ps → Forall rv_ok (delivered <$> ps) →
  ∃ es ws' made bytes,
    send_all (H := E1) bs ms ws = Ok (es, ws') ∧ w_uv ws' = w_uv ws ++ made ∧
    written (w_msgs ws') bs made = Some bytes ∧
    ∀ cs, concat cs = bytes → chunks_asked sz Idle cs → headers_whole Idle cs →
      ∃ wr', uv_reads (H := E2) b sz cs wr = Ok (tt, wr') ∧
        received s wr' = received s wr ++ (delivered <$> ps).
Proof.
  intros Hb HF Hcb Hmal Hsz Hrel Hps Hok.
  destruct (send_all_holds (H := E1) bs ms ps ws vs Hb HF)
    as (es & ws' & made & E & Huv & Hms & Hw).
  exists es, ws', made, (concat (encode <$> ps)).
  split_and!; [done|done|by rewrite Hms|]. intros cs Hcs Ha Hh.
  destruct (uv_reads_framing (H := E2) b s f sz Hcb Hmal Hsz wr ps cs Hrel Hps Hok Hcs Ha Hh)
    as (wr' & Er & _ & Hr).
  by exists wr'.
Qed.

(** ** Concrete runs *)
#[local] Existing Instances demo_env demo_app.

Definition demo_sender : world :=
  set_msgs {[7%nat := SC_MSG_INIT 5 (bytes_of "Hello");
             8%nat := SC_MSG_INIT 2 (bytes_of "ok")]} demo_world.

Lemma demo_messages :
  Forall2 (λ m p, ∃ msg, w_msgs demo_sender !! m = Some msg ∧ msg_holds msg p)
    [7%nat; 8%nat] [bytes_of "Hello"; bytes_of "ok"].
Proof. repeat constructor; eexists; (split; [reflexivity|]); by split_and!. Qed.

Lemma buv_send_encodes_witness :
  ∃ bufs w', buv_send 2 (Some 7%nat) demo_sender = Ok (0, w') ∧
    w_uv w' = [UvWrite 2 bufs] ∧ gather (w_msgs w') bufs = Some (encode (bytes_of "Hello")).
Proof.
  exact (buv_send_encodes 2 demo_buv 7 (SC_MSG_INIT 5 (bytes_of "Hello")) (bytes_of "Hello")
    demo_sender eq_refl eq_refl ltac:(by split_and!)).
Defined.

(** From a big-endian machine to a little-endian one. *)
Lemma send_recv_round_trip_witness :
  ∃ es ws' made bytes,
    send_all (H := big_endian_env) 2 [7%nat; 8%nat] demo_sender = Ok (es, ws') ∧
    w_uv ws' = [] ++ made ∧ written (w_msgs ws') 2 made = Some bytes ∧
    ∀ cs, concat cs = bytes → chunks_asked 8 Idle cs → headers_whole Idle cs →
      ∃ wr', uv_reads (H := demo_env) 2 8 cs demo_world = Ok (tt, wr') ∧
        received 1 wr' = [] ++ (delivered <$> [bytes_of "Hello"; bytes_of "ok"]).
Proof.
  exact (send_recv_round_trip big_endian_env demo_env demo_app any_receiver 2 demo_buv [7%nat; 8%nat]
    [bytes_of "Hello"; bytes_of "ok"] demo_sender 2 1 0 8 demo_world eq_refl demo_messages
    demo_on_recv_ok (λ _, eq_refl) ltac:(lia) demo_rx_rel ltac:(decide_by_run)
    (any_ok _)).
Defined.
