(* ===== verification/Tools.v ===== *)
(** * The record tools (test/tools/genrec.c, test/tools/disrec.c)

    The generator and the printer of records the tests pipe into and out of
    sockets: whole programs, from their arguments and input to what they
    print.  A record is a message on the wire, in the sense of Frame.v. *)

From S2P Require Import Prelude Endian CString Uri Frame.
From Stdlib Require Import Ascii.

(** How a program ends: the code, what it has written to [stdout], and to
    [stderr]. *)
Inductive ending := Exited (code : Z) (out : list byte) (err : string).

(** fatal.h *)
Definition fatal (out : list byte) (msg : string) : ending :=
  Exited 1 out ("FATAL: " +:+ msg +:+ "
")%string.

Definition bytes_of_text (s : cbuf) : list byte := byte_of_ascii <$> s.

(** What a [%s] or [fputs] prints of an array: the bytes before the first
    null. *)
Fixpoint until_nul (bs : list byte) : list byte :=
  match bs with
  | [] => []
  | b :: bs => if decide (b = x00) then [] else b :: until_nul bs
  end.

(** ** genrec *)

Definition paragraph : list byte := String.list_byte_of_string
  ("Lorem ipsum dolor sit amet, consectetur adipiscing elit, sed do eiusmod " +:+
   "tempor incididunt ut labore et dolore magna aliqua. Ut enim ad minim " +:+
   "veniam, quis nostrud exercitation ullamco laboris nisi ut aliquip ex ea " +:+
   "commodo consequat. Duis aute irure dolor in reprehenderit in voluptate " +:+
   "velit esse cillum dolore eu fugiat nulla pariatur. Excepteur sint " +:+
   "occaecat cupidatat non proident, sunt in culpa qui officia deserunt " +:+
   "mollit anim id est laborum.").

(** The loop of [lorem_new], from index [i], and the terminator. *)
Fixpoint lorem_loop (todo i : nat) : list byte :=
  match todo with
  | O => []
  | S todo => default x00 (paragraph !! (i mod length paragraph)%nat) :: lorem_loop todo (S i)
  end.

(** [None] is the [exit(1)] without memory; [ok] says whether [malloc]
    succeeds. *)
Definition lorem_new (ok : bool) (size : Z) : option (list byte) :=
  if ok then Some (lorem_loop (Z.to_nat size) 0 ++ [x00]) else None.

Inductive cmd := PRINT_SIZE | PRINT_DATA | PRINT_BOTH | INVALID.

#[export] Instance cmd_eq_dec : EqDecision cmd.
Proof. solve_decision. Defined.

(** [!strncmp(a, b, n)] *)
Definition strncmp_eq (a b : cbuf) (n : Z) : bool :=
  bool_decide (take (Z.to_nat n) (a ++ [NUL]) = take (Z.to_nat n) (b ++ [NUL])).

Fixpoint parse_cmd_loop (names : list (cbuf * cmd)) (c : cbuf) : cmd :=
  match names with
  | [] => INVALID
  | (name, r) :: names =>
      let len := u32 (Z.of_nat (length c)) in
      if decide (Z.of_nat (length name) = len) then
        if strncmp_eq name c len then r else parse_cmd_loop names c
      else parse_cmd_loop names c
  end.

Definition parse_cmd (c : cbuf) : cmd :=
  parse_cmd_loop [(str "print-size", PRINT_SIZE); (str "print-data", PRINT_DATA);
                  (str "print-both", PRINT_BOTH)] c.

(** The size, or the message of a fatal error. *)
Definition parse_size (num : cbuf) : Z + string :=
  let '(size, stop) := strtol num in
  if decide (size < 0 ∨ LONG_MAX < size) then inr "size outside range"%string
  else if decide (stop = 0%nat) then inr "failed to parse integer"%string
  else inl size.

Section genrec.
(** The machine, and whether [malloc] succeeds. *)
Variables (little ok : bool).

Definition print_data (size : Z) (out : list byte) : option (list byte) :=
  data ← lorem_new ok size; Some (out ++ until_nul data).

Definition print_size (size : Z) (out : list byte) : option (list byte) :=
  Some (out ++ store32 little (musl_htonl little (u32 size))).

Definition print_both (size : Z) (out : list byte) : option (list byte) :=
  out ← print_size size out; print_data size out.

Definition genrec_main (argv : list cbuf) : ending :=
  match argv with
  | [_; c; num] =>
      let cmd := parse_cmd c in
      match parse_size num with
      | inr msg => fatal [] msg
      | inl size =>
          if decide (cmd = INVALID) then fatal [] "invalid command" else
          let r :=
            out ← (if decide (cmd = PRINT_SIZE) then print_size size [] else Some []);
            out ← (if decide (cmd = PRINT_DATA) then print_data size out else Some out);
            if decide (cmd = PRINT_BOTH) then print_both size out else Some out in
          match r with Some out => Exited 0 out "" | None => Exited 1 [] "" end
      end
  | _ => fatal [] "Usage: genrec print-size|print-data|print-both SIZE"
  end.
End genrec.

(** ** disrec *)
Definition MAXSIZE : nat := 1024.

(** Decimal digits of an [unsigned]: ten are enough. *)
Definition print_u32 (n : Z) : list byte := bytes_of_text (print_dec_fuel 9 n).

(** [printf("[%u] (%. *s)\n", size, (int)size, msg)], where [size] is at most
    [MAXSIZE], so that the precision is not negative. *)
Definition record_line (size : Z) (msg : list byte) : list byte :=
  bytes_of_text (str "[") ++ print_u32 size ++ bytes_of_text (str "] (") ++
  until_nul (take (Z.to_nat size) msg) ++ bytes_of_text (str ")
").

Section disrec.
Variable little : bool.

(** The loop, on what is left of the file; [None] without fuel.  [fread] of
    the size consumes a partial size and reports nothing read; [fread] of
    the bytes stores as many as there are, up to [size], into [msg]. *)
Fixpoint disrec_loop (fuel : nat) (msg fp out : list byte) : option (outcome ending) :=
  match fuel with
  | O => None
  | S fuel =>
      if decide (length fp < 4)%nat then Some (Ok (Exited 0 out ""))
      else
        let size := musl_ntohl little (load32 little (take 4 fp)) in
        let fp := drop 4 fp in
        let got := take (Z.to_nat size) fp in
        if decide (length msg < length got)%nat then Some (Fault OutOfBounds) else
        let msg := got ++ drop (length got) msg in
        if decide (Z.of_nat (length got) ≠ size) then Some (Ok (fatal out "fread"))
        else disrec_loop fuel msg (drop (length got) fp) (out ++ record_line size msg)
  end.

(** [file] is [None] if the file cannot be opened. *)
Definition disrec_main (argv : list cbuf) (file : cbuf → option (list byte)) :
    option (outcome ending) :=
  match argv with
  | [_; filepath] =>
      match file filepath with
      | None => Some (Ok (fatal [] "could not open file"))
      | Some fp => disrec_loop (S (length fp)) (replicate MAXSIZE x00) fp []
      end
  | _ => Some (Ok (fatal [] "Usage: disrec FILE"))
  end.
End disrec.

(** ** What the generator prints *)

(** The first [n] characters of the paragraph repeated forever. *)
Definition lorem (n : Z) : list byte :=
  (λ i, default x00 (paragraph !! (i mod length paragraph)%nat)) <$> seq 0 (Z.to_nat n).

Lemma lorem_loop_seq todo i :
  lorem_loop todo i =
    (λ i, default x00 (paragraph !! (i mod length paragraph)%nat)) <$> seq i todo.
Proof. revert i. induction todo as [|todo IH]; intros i; [done|]. cbn. by rewrite IH. Qed.

Lemma lorem_length n : 0 ≤ n → Z.of_nat (length (lorem n)) = n.
Proof. intros Hn. unfold lorem. rewrite length_fmap, length_seq. lia. Qed.

Lemma paragraph_no_nul i : default x00 (paragraph !! (i mod length paragraph)%nat) ≠ x00.
Proof.
  assert (HF : Forall (λ b, b ≠ x00) paragraph) by decide_by_run.
  assert (Hlt : (i mod length paragraph < length paragraph)%nat)
    by (apply Nat.mod_upper_bound; done).
  apply lookup_lt_is_Some in Hlt as [b Hb]. rewrite Hb. cbn.
  by eapply (Forall_lookup_1 _ _ _ _ HF).
Qed.

Lemma lorem_no_nul n : Forall (λ b, b ≠ x00) (lorem n).
Proof. apply Forall_fmap, Forall_true. intros i. apply paragraph_no_nul. Qed.

Lemma until_nul_app s t : Forall (λ b, b ≠ x00) s → until_nul (s ++ x00 :: t) = s.
Proof.
  induction 1 as [|b s Hb _ IH]; [done|]. cbn. rewrite decide_False by done. by rewrite IH.
Qed.

Lemma until_nul_id s : Forall (λ b, b ≠ x00) s → until_nul s = s.
Proof.
  induction 1 as [|b s Hb _ IH]; [done|]. cbn. rewrite decide_False by done. by rewrite IH.
Qed.

Lemma print_data_ok size out : print_data true size out = Some (out ++ lorem size).
Proof.
  unfold print_data, lorem_new. cbn [mbind option_bind]. rewrite lorem_loop_seq.
  fold (lorem size). by rewrite until_nul_app by apply lorem_no_nul.
Qed.

Lemma print_size_ok l size out : print_size l size out = Some (out ++ be_bytes (u32 size)).
Proof. unfold print_size. by rewrite musl_htonl_store by apply u32_range. Qed.

Lemma strtol_range s : LONG_MIN ≤ fst (strtol s) ≤ LONG_MAX.
Proof.
  unfold strtol. destruct (lead_sign _) as [neg k]. destruct (lead_digits _) as [|d ds].
  - unfold LONG_MIN, LONG_MAX. cbn. lia.
  - cbn [fst]. unfold clamp_long, LONG_MIN, LONG_MAX. lia.
Qed.

Lemma parse_size_ok num n k : strtol num = (n, S k) → 0 ≤ n → parse_size num = inl n.
Proof.
  intros E Hn. pose proof (strtol_range num) as Hr. unfold parse_size. rewrite E in Hr |- *.
  cbn in Hr. by rewrite decide_False, decide_False by lia.
Qed.

(** The end of [main], for a valid size. *)
Lemma genrec_main_ok l prog c num n k :
  strtol num = (n, S k) → 0 ≤ n → parse_cmd c ≠ INVALID →
  genrec_main l true [prog; c; num] =
    Exited 0 (match parse_cmd c with
              | PRINT_SIZE => be_bytes (u32 n)
              | PRINT_DATA => lorem n
              | _ => be_bytes (u32 n) ++ lorem n
              end) "".
Proof.
  intros E Hn Hc. unfold genrec_main. rewrite (parse_size_ok num n k E Hn), decide_False by done.
  unfold print_both. rewrite !print_size_ok. destruct (parse_cmd c); try done;
    repeat (first [rewrite decide_False by done | rewrite decide_True by done];
      cbn [mbind option_bind]); rewrite ?print_size_ok; cbn [mbind option_bind];
    rewrite ?print_data_ok; cbn [mbind option_bind]; done.
Qed.

Section genrec_correct.
Variables (little : bool) (prog num : cbuf) (n : Z) (k : nat).

(** C40. What genrec prints, for a size argument that is a number: the size
    field, 32 bits in network order on either kind of machine, the text, or
    both.  Below four gigabytes [print-both] is exactly a message on the
    wire; from there on the size field wraps and does not announce the
    length of the text. *)
Theorem genrec_prints :
  strtol num = (n, S k) → 0 ≤ n →
  genrec_main little true [prog; str "print-size"; num] = Exited 0 (be_bytes (u32 n)) "" ∧
  genrec_main little true [prog; str "print-data"; num] = Exited 0 (lorem n) "" ∧
  genrec_main little true [prog; str "print-both"; num] =
    Exited 0 (be_bytes (u32 n) ++ lorem n) "" ∧
  (n < 2 ^ 32 → be_bytes (u32 n) ++ lorem n = encode (lorem n)) ∧
  (be_value (be_bytes (u32 n)) = Z.of_nat (length (lorem n)) ↔ n < 2 ^ 32).
Proof.
  intros E Hn. pose proof (u32_range n). split_and!.
  - by rewrite (genrec_main_ok _ _ _ _ n k).
  - by rewrite (genrec_main_ok _ _ _ _ n k).
  - by rewrite (genrec_main_ok _ _ _ _ n k).
  - intros Hlt. unfold encode. by rewrite lorem_length, u32_small by lia.
  - rewrite be_value_bytes, lorem_length by done. split; [lia|]. intros. by apply u32_small.
Qed.
End genrec_correct.

Lemma genrec_prints_witness :
  genrec_main true true [str "genrec"; str "print-size"; str "22"] = Exited 0 [x00; x00; x00; x16] "" ∧
  genrec_main true true [str "genrec"; str "print-data"; str "22"] =
    Exited 0 (String.list_byte_of_string "Lorem ipsum dolor sit ") "" ∧
  genrec_main true true [str "genrec"; str "print-both"; str "22"] =
    Exited 0 ([x00; x00; x00; x16] ++ String.list_byte_of_string "Lorem ipsum dolor sit ") "" ∧
  (22 < 2 ^ 32 → be_bytes (u32 22) ++ lorem 22 = encode (lorem 22)) ∧
  (be_value (be_bytes (u32 22)) = Z.of_nat (length (lorem 22)) ↔ 22 < 2 ^ 32).
Proof. apply (genrec_prints true (str "genrec") (str "22") 22 1); [reflexivity|lia]. Defined.

Section genrec_errors.
Variables (little ok : bool).

(** A name is recognised exactly, for arguments of a sane length. *)
Lemma parse_cmd_name names c :
  Z.of_nat (length c) < 2 ^ 32 →
  parse_cmd_loop names c =
    match list_find (λ p, fst p = c) names with Some (_, (_, r)) => r | None => INVALID end.
Proof.
  intros Hc. induction names as [|[name r] names IH]; [done|].
  cbn [parse_cmd_loop list_find fst]. rewrite u32_small by lia.
  assert (Heq : name = c ↔ Z.of_nat (length name) = Z.of_nat (length c) ∧
    strncmp_eq name c (Z.of_nat (length c)) = true).
  { unfold strncmp_eq. rewrite bool_decide_eq_true, Nat2Z.id. split; [by intros ->|].
    intros [Hl E]. apply Nat2Z.inj in Hl. rewrite <-Hl in E at 1.
    by rewrite !take_app_length in E. }
  destruct (decide (name = c)) as [->|Hne].
  - destruct Heq as [Heq _]. destruct (Heq eq_refl) as [_ ->]. by rewrite decide_True.
  - rewrite IH. assert (E : (if decide (Z.of_nat (length name) = Z.of_nat (length c)) then
        if strncmp_eq name c (Z.of_nat (length c)) then r else
          match list_find (λ p, fst p = c) names with Some (_, (_, r)) => r | None => INVALID end
      else match list_find (λ p, fst p = c) names with Some (_, (_, r)) => r | None => INVALID end)
      = match list_find (λ p, fst p = c) names with Some (_, (_, r)) => r | None => INVALID end).
    { case_decide as Hl; [|done]. destruct (strncmp_eq _ _ _) eqn:Es; [|done]. tauto. }
    rewrite E. by destruct (list_find _ names) as [[i [nm r']]|].
Qed.

(** What genrec refuses: another number of arguments, a size that is not
    a number or is negative, and, once the size is parsed, a command that is
    none of the three names; nothing is printed and the exit code is one. *)
Lemma genrec_refuses argv prog c num :
  (length argv ≠ 3%nat → ∃ msg, genrec_main little ok argv = Exited 1 [] msg) ∧
  (fst (strtol num) < 0 ∨ snd (strtol num) = 0%nat →
     ∃ msg, genrec_main little ok [prog; c; num] = Exited 1 [] msg) ∧
  (Z.of_nat (length c) < 2 ^ 32 →
   c ∉ [str "print-size"; str "print-data"; str "print-both"] →
     ∃ msg, genrec_main little ok [prog; c; num] = Exited 1 [] msg).
Proof.
  split_and!.
  - intros Hl. destruct argv as [|a [|b [|d [|]]]]; first [done | by eexists].
  - intros Hs. unfold genrec_main, parse_size. destruct (strtol num) as [v stop]. cbn in Hs.
    case_decide; [by eexists|]. case_decide; [by eexists|]. lia.
  - intros Hc Hn. unfold genrec_main. destruct (parse_size num) as [v|]; [|by eexists].
    rewrite decide_True; [by eexists|]. unfold parse_cmd. rewrite parse_cmd_name by done.
    cbn [list_find fst]. rewrite !decide_False by set_solver. done.
Qed.
End genrec_errors.

(** ** What the printer prints *)

(** The line of a message: its length, and its bytes up to a null. *)
Definition record_text (p : list byte) : list byte :=
  bytes_of_text (str "[") ++ print_u32 (Z.of_nat (length p)) ++ bytes_of_text (str "] (") ++
  until_nul p ++ bytes_of_text (str ")
").

Section disrec_correct.
Variable l : bool.

(** The loop reads the size field. *)
Lemma disrec_loop_size fuel msg n fp out :
  0 ≤ n < 2 ^ 32 →
  disrec_loop l (S fuel) msg (be_bytes n ++ fp) out =
    (let got := take (Z.to_nat n) fp in
     if decide (length msg < length got)%nat then Some (Fault OutOfBounds) else
     let msg := got ++ drop (length got) msg in
     if decide (Z.of_nat (length got) ≠ n) then Some (Ok (fatal out "fread"))
     else disrec_loop l fuel msg (drop (length got) fp) (out ++ record_line n msg)).
Proof.
  intros Hn. cbn [disrec_loop]. rewrite decide_False by (rewrite length_app; cbn; lia).
  rewrite (take_app_length' (be_bytes n)), (drop_app_length' (be_bytes n)) by done.
  rewrite musl_ntohl_load by done. by rewrite be_value_bytes.
Qed.

(** A message that fits is printed. *)
Lemma disrec_loop_message fuel msg p fp out :
  length msg = MAXSIZE → (length p ≤ MAXSIZE)%nat →
  ∃ msg', length msg' = MAXSIZE ∧
    disrec_loop l (S fuel) msg (encode p ++ fp) out =
    disrec_loop l fuel msg' fp (out ++ record_text p).
Proof.
  intros Hm Hp. unfold encode. rewrite <-app_assoc.
  assert (0 ≤ Z.of_nat (length p) < 2 ^ 32) by (unfold MAXSIZE in Hp; lia).
  rewrite disrec_loop_size by done. rewrite Nat2Z.id, take_app_length. cbn zeta.
  rewrite decide_False by lia. rewrite decide_False by (intros []; done).
  exists (p ++ drop (length p) msg). split; [rewrite length_app, length_drop; lia|].
  rewrite drop_app_length. unfold record_line, record_text.
  by rewrite Nat2Z.id, take_app_length.
Qed.

Lemma disrec_loop_messages fuel ps : ∀ msg fp out,
  length msg = MAXSIZE → Forall (λ p, length p ≤ MAXSIZE)%nat ps →
  ∃ msg', length msg' = MAXSIZE ∧
    disrec_loop l (length ps + fuel) msg (concat (encode <$> ps) ++ fp) out =
    disrec_loop l fuel msg' fp (out ++ concat (record_text <$> ps)).
Proof.
  induction ps as [|p ps IH]; intros msg fp out Hm Hps.
  - exists msg. cbn. by rewrite app_nil_r.
  - apply Forall_cons in Hps as [Hp Hps]. cbn [length Nat.add fmap list_fmap concat].
    rewrite <-!app_assoc.
    destruct (disrec_loop_message (length ps + fuel) msg p (concat (encode <$> ps) ++ fp) out Hm Hp)
      as (m1 & Hm1 & ->).
    destruct (IH m1 fp (out ++ record_text p) Hm1 Hps) as (m2 & Hm2 & ->).
    exists m2. by rewrite <-app_assoc.
Qed.

(** The fuel of [disrec_main] is enough for the messages of the file. *)
Lemma disrec_fuel ps t :
  ∃ fuel, S (length (concat (encode <$> ps) ++ t)) = (length ps + S fuel)%nat.
Proof.
  exists (length (concat (encode <$> ps) ++ t) - length ps)%nat.
  assert (length ps ≤ length (concat (encode <$> ps)))%nat.
  { induction ps as [|p ps IH]; [done|].
    change (concat (encode <$> p :: ps)) with (encode p ++ concat (encode <$> ps)).
    rewrite length_app. change (length (encode p)) with (4 + length p)%nat. cbn [length]. lia. }
  rewrite length_app. lia.
Qed.

Variables (prog path : cbuf) (file : cbuf → option (list byte)) (ps : list (list byte)).

(** The run up to the first thing that is not a message that fits. *)
Lemma disrec_main_messages t :
  file path = Some (concat (encode <$> ps) ++ t) →
  Forall (λ p, length p ≤ MAXSIZE)%nat ps →
  ∃ fuel msg, length msg = MAXSIZE ∧
    disrec_main l [prog; path] file =
    disrec_loop l (S fuel) msg t (concat (record_text <$> ps)).
Proof.
  intros Hf Hps. unfold disrec_main. rewrite Hf.
  destruct (disrec_fuel ps t) as [fuel ->].
  destruct (disrec_loop_messages (S fuel) ps (replicate MAXSIZE x00) t [])
    as (msg & Hm & ->); [apply length_replicate|done|]. by exists fuel, msg.
Qed.

(** disrec prints the messages of a file: each with its length and its
    text (up to a null byte), in order; up to three bytes left over, which
    are the beginning of a size field, go unnoticed. *)
Lemma disrec_prints t :
  file path = Some (concat (encode <$> ps) ++ t) →
  Forall (λ p, length p ≤ MAXSIZE)%nat ps → (length t < 4)%nat →
  disrec_main l [prog; path] file =
    Some (Ok (Exited 0 (concat (record_text <$> ps)) "")).
Proof.
  intros Hf Hps Ht. destruct (disrec_main_messages t Hf Hps) as (fuel & msg & _ & ->).
  cbn [disrec_loop]. by rewrite decide_True.
Qed.

(** What disrec does with a message that is not whole or does not fit: a
    body that ends early is a fatal error, after the messages before it; one
    of more than 1024 bytes overflows the array [msg], as nothing compares
    the size with that of the array. *)
Lemma disrec_bad_message n bs :
  file path = Some (concat (encode <$> ps) ++ be_bytes n ++ bs) →
  Forall (λ p, length p ≤ MAXSIZE)%nat ps → 0 ≤ n < 2 ^ 32 →
  (Z.of_nat (length bs) < n → (length bs ≤ MAXSIZE)%nat →
     disrec_main l [prog; path] file = Some (Ok (fatal (concat (record_text <$> ps)) "fread"))) ∧
  (Z.of_nat MAXSIZE < n → (MAXSIZE < length bs)%nat →
     disrec_main l [prog; path] file = Some (Fault OutOfBounds)).
Proof.
  intros Hf Hps Hn. destruct (disrec_main_messages _ Hf Hps) as (fuel & msg & Hm & ->).
  rewrite disrec_loop_size by done. cbn zeta. split.
  - intros Hlt Hle. rewrite take_ge by lia. rewrite decide_False by lia.
    by rewrite decide_True by lia.
  - intros Hbig Hlen. rewrite decide_True; [done|]. rewrite length_take. lia.
Qed.
End disrec_correct.

(** disrec terminates on every file: each round takes at least the four
    bytes of a size field off the file, and the fuel is one more than its
    length. *)
Lemma disrec_terminates l argv file : is_Some (disrec_main l argv file).
Proof.
  assert (Hloop : ∀ fuel msg fp out, (length fp < fuel)%nat →
    is_Some (disrec_loop l fuel msg fp out)).
  { induction fuel as [|fuel IH]; intros msg fp out Hl; [lia|]. cbn [disrec_loop].
    case_decide; [by eexists|]. cbn zeta. case_decide; [by eexists|]. case_decide; [by eexists|].
    apply IH. rewrite !length_drop. lia. }
  unfold disrec_main. destruct argv as [|a [|b [|]]]; try by eexists.
  destruct (file b) as [fp|]; [|by eexists]. apply Hloop. lia.
Qed.

Definition two_records : list byte :=
  [x00; x00; x00; x03; x4c; x6f; x72] ++ [x00; x00; x00; x00] ++ [x00; x00].

Lemma disrec_prints_witness :
  disrec_main true [str "disrec"; str "f"] (λ _, Some two_records) =
    Some (Ok (Exited 0 (String.list_byte_of_string "[3] (Lor)
[0] ()
") "")).
Proof.
  exact (disrec_prints true (str "disrec") (str "f") (λ _, Some two_records)
    [[x4c; x6f; x72]; []] [x00; x00] eq_refl ltac:(decide_by_run) ltac:(simpl; lia)).
Defined.
