(* ===== verification/Socket.v ===== *)
(** * Sockets (src/socket.c)

    The public operations on sockets, over an arbitrary backend: one
    computation per function of the file.  A socket owns a backend socket and
    at most one URI; the watcher is embedded in it. *)

From S2P Require Import Prelude Endian CString Strerror Msg MsgReader Uri World Watcher.
From S2P Require Import Backend.

Definition with_userdata (d : option Z) (v : sc_socket) : sc_socket :=
  Socket d (s_backend v) (s_uri v) (s_watcher v).
Definition with_backend (b : option (option nat)) (v : sc_socket) : sc_socket :=
  Socket (s_userdata v) b (s_uri v) (s_watcher v).
Definition with_uri (u : option (option nat)) (v : sc_socket) : sc_socket :=
  Socket (s_userdata v) (s_backend v) u (s_watcher v).
Definition with_watcher (wt : option watcher) (v : sc_socket) : sc_socket :=
  Socket (s_userdata v) (s_backend v) (s_uri v) wt.

(** An assignment to a member. *)
Definition update_sock (s : nat) (f : sc_socket → sc_socket) : M unit :=
  v ← get_sock s; put_sock s (f v).

(** [free] of a socket. *)
Definition free_sock (s : nat) : M unit :=
  ss ← gets w_socks;
  _ ← demand UseAfterFree (ss !! s);
  modify (set_socks (delete s ss)).

Section socket.
Context `{Env} (be : backend).

(** *** URIs in the heap: [sc_uri_new] and [sc_uri_del] of src/uri.c

    [sc_uri_new] allocates the structure and then the copy of the string,
    and frees both when it fails. *)
Definition sc_uri_new_at (instr : cbuf) : M (option nat * Z) :=
  n ← gets w_mallocs;
  let ok1 := malloc_ok n in
  let ok2 := malloc_ok (S n) in
  modify (set_mallocs (if ok1 then S (S n) else S n));;
  r ← lift (sc_uri_new ok1 ok2 instr);
  match fst r with
  | None => mret (None, snd r)
  | Some u =>
      a ← gets w_next;
      modify (set_next (S a));;
      modify (λ w, set_uris (<[a := u]> (w_uris w)) w);;
      mret (Some a, snd r)
  end.

Definition sc_uri_del_at (u : nat) : M unit :=
  us ← gets w_uris;
  _ ← demand UseAfterFree (us !! u);
  modify (set_uris (delete u us)).

(** *** Life and death *)

(** [socket->backend] *)
Definition sock_backend (s : nat) : M (option nat) :=
  v ← get_sock s; demand Indeterminate (s_backend v).
(** The same, handed to an operation that dereferences it. *)
Definition sock_backend_obj (s : nat) : M nat :=
  b ← sock_backend s; demand NullDeref b.

Definition sc_socket_new : M (option nat) :=
  o ← malloc (λ a w, set_socks (<[a := Socket None None None None]> (w_socks w)) w);
  match o with
  | None => mret None
  | Some s =>
      update_sock s (with_userdata (Some 0));;
      be ← the_backend be;
      b ← be_alloc be;
      update_sock s (with_backend (Some b));;
      match b with
      | None =>
          be_free be None;;
          mret None
      | Some b =>
          update_sock s (with_watcher (Some (sc_watcher_init s)));;
          be_init be b s;;
          update_sock s (with_uri (Some None));;
          mret (Some s)
      end
  end.

(** [if (socket->uri) sc_uri_del(socket->uri)] *)
Definition del_uri (s : nat) : M unit :=
  v ← get_sock s;
  u ← demand Indeterminate (s_uri v);
  match u with Some u => sc_uri_del_at u | None => mret tt end.

Definition sc_socket_del (s : nat) : M unit :=
  del_uri s;;
  be ← the_backend be;
  b ← sock_backend s;
  be_free be b;;
  free_sock s.

(** *** Operations *)

(** The start of connecting and binding: parse the URI and keep it; the
    code, and the URI if there is one. *)
Definition set_new_uri (s : nat) (uri : cbuf) : M (option nat * Z) :=
  r ← sc_uri_new_at uri;
  update_sock s (with_uri (Some (fst r)));;
  mret r.

Definition sc_socket_connect (s : nat) (uri : cbuf) : M Z :=
  r ← set_new_uri s uri;
  match fst r with
  | None => mret (snd r)
  | Some u =>
      be ← the_backend be;
      b ← sock_backend_obj s;
      be_connect be b u
  end.

Definition sc_socket_accept (server client : nat) : M unit :=
  be ← the_backend be;
  srv ← sock_backend_obj server;
  clt ← sock_backend_obj client;
  be_accept be srv clt.

Definition sc_socket_bind (s : nat) (uri : cbuf) : M Z :=
  r ← set_new_uri s uri;
  match fst r with
  | None => mret (snd r)
  | Some u =>
      be ← the_backend be;
      b ← sock_backend_obj s;
      be_bind be b u
  end.

Definition sc_socket_listen (s : nat) (backlog : Z) : M Z :=
  be ← the_backend be;
  b ← sock_backend_obj s;
  be_listen be b backlog.

Definition sc_socket_send (s : nat) (m : option nat) : M Z :=
  be ← the_backend be;
  b ← sock_backend_obj s;
  be_send be b m.

Definition sc_socket_close (s : nat) : M Z :=
  be ← the_backend be;
  b ← sock_backend_obj s;
  errcode ← be_close be b;
  v ← get_sock s;
  u ← demand Indeterminate (s_uri v);
  match u with
  | Some u =>
      sc_uri_del_at u;;
      update_sock s (with_uri (Some None));;
      mret errcode
  | None => mret errcode
  end.

Definition sc_socket_set_userdata (s : nat) (data : Z) : M unit :=
  update_sock s (with_userdata (Some data)).

Definition sc_socket_get_userdata (s : nat) : M Z :=
  v ← get_sock s; demand Indeterminate (s_userdata v).
End socket.

(** ** The callbacks of a socket *)
Section setters.
Context `{Env}.

(** An assignment to a member of [socket->watcher]. *)
Definition update_watcher (s : nat) (f : watcher → watcher) : M unit :=
  v ← get_sock s;
  wt ← demand Indeterminate (s_watcher v);
  put_sock s (with_watcher (Some (f wt)) v).

Definition sc_socket_on_connect (s : nat) (cb : cbfn) : M unit :=
  update_watcher s (λ t, Watcher (w_socket t) cb (on_connection t) (on_accept t)
    (on_recv t) (on_send t) (on_close t)).
Definition sc_socket_on_connection (s : nat) (cb : cbfn) : M unit :=
  update_watcher s (λ t, Watcher (w_socket t) (on_connect t) cb (on_accept t)
    (on_recv t) (on_send t) (on_close t)).
Definition sc_socket_on_accept (s : nat) (cb : cbfn) : M unit :=
  update_watcher s (λ t, Watcher (w_socket t) (on_connect t) (on_connection t) cb
    (on_recv t) (on_send t) (on_close t)).
Definition sc_socket_on_recv (s : nat) (cb : cbfn) : M unit :=
  update_watcher s (λ t, Watcher (w_socket t) (on_connect t) (on_connection t) (on_accept t)
    cb (on_send t) (on_close t)).
Definition sc_socket_on_send (s : nat) (cb : cbfn) : M unit :=
  update_watcher s (λ t, Watcher (w_socket t) (on_connect t) (on_connection t) (on_accept t)
    (on_recv t) cb (on_close t)).
Definition sc_socket_on_close (s : nat) (cb : cbfn) : M unit :=
  update_watcher s (λ t, Watcher (w_socket t) (on_connect t) (on_connection t) (on_accept t)
    (on_recv t) (on_send t) cb).
End setters.

(** ** What the sockets rely on

    A backend leaves the sockets and their URIs alone, except through the
    callbacks it makes. *)
Definition leaves_sockets (w w' : world) : Prop :=
  w_socks w' = w_socks w ∧ w_uris w' = w_uris w ∧
  w_backend w' = w_backend w ∧ (w_next w ≤ w_next w')%nat.

#[export] Instance leaves_sockets_preorder : PreOrder leaves_sockets.
Proof.
  split.
  - by intros w.
  - intros w1 w2 w3 (E1 & E2 & E3 & L1) (E4 & E5 & E6 & L2). unfold leaves_sockets.
    rewrite E4, E5, E6. split_and!; try done. lia.
Qed.

#[export] Hint Extern 0 (leaves_sockets _ _) =>
  unfold leaves_sockets; split_and!; first [reflexivity | cbn; lia] : moves.

Class BackendFrame `{App} (be : backend) : Prop := {
  frame_alloc : moves leaves_sockets (be_alloc be);
  frame_init b s : moves leaves_sockets (be_init be b s);
  frame_free b : moves leaves_sockets (be_free be b);
  frame_connect b u : moves leaves_sockets (be_connect be b u);
  frame_bind b u : moves leaves_sockets (be_bind be b u);
  frame_listen b n : moves leaves_sockets (be_listen be b n);
  frame_send b m : moves leaves_sockets (be_send be b m);
  frame_close b : moves leaves_sockets (be_close be b);
  frame_accept srv clt (R : relation world) `{!PreOrder R} :
    (∀ w w', leaves_sockets w w' → R w w') →
    (∀ f ev, moves R (app_cb f ev)) → moves R (be_accept be srv clt)
}.

(** ** Evaluating assignments *)
Section sock_assignments.
Context `{Env}.

Lemma update_sock_ok s f v w :
  w_socks w !! s = Some v →
  update_sock s f w = Ok (tt, set_socks (<[s := f v]> (w_socks w)) w).
Proof.
  intros E. unfold update_sock. by rewrite (st_bind_ok _ _ _ _ _ (get_sock_ok _ _ _ E)).
Qed.

Lemma the_backend_ok be w : w_backend w = true → the_backend be w = Ok (be, w).
Proof. intros E. unfold the_backend, mbind, st_bind, gets. by rewrite E. Qed.

Lemma sock_backend_obj_ok s v b w :
  w_socks w !! s = Some v → s_backend v = Some (Some b) → sock_backend_obj s w = Ok (b, w).
Proof.
  intros Es Eb. unfold sock_backend_obj, sock_backend, mbind, st_bind, get_sock, gets.
  unfold mbind, st_bind. cbn. rewrite Es. cbn. by rewrite Eb.
Qed.
End sock_assignments.

#[export] Hint Resolve update_sock_ok the_backend_ok sock_backend_obj_ok : sc.
