(* ===== verification/SocketUv.v ===== *)
(** * Sockets over libuv

    The libuv backend is a backend in the sense of Socket.v. *)

From S2P Require Import Prelude Endian CString Strerror Msg MsgReader Uri World Watcher.
From S2P Require Import Demo Backend BackendUv Socket.

Section frame.
Context `{Env} `{App}.

Lemma moves_fire (R : relation world) `{!PreOrder R} fn ev :
  (∀ w w', leaves_sockets w w' → R w w') →
  (∀ f ev, moves R (app_cb f ev)) → moves R (fire fn ev).
Proof.
  intros HR Hcb. unfold fire, noop. destruct fn; go_moves.
Qed.

Lemma moves_call_on_accept (R : relation world) `{!PreOrder R} clt e :
  (∀ w w', leaves_sockets w w' → R w w') →
  (∀ f ev, moves R (app_cb f ev)) → moves R (call_on_accept clt e).
Proof.
  intros HR Hcb. unfold call_on_accept, watcher_call, get_buv, get_sock. go_moves.
  by apply moves_fire.
Qed.

#[export] Instance buv_frame : BackendFrame buv_funcs.
Proof.
  split; intros; cbn [be_alloc be_init be_free be_connect be_accept be_bind be_listen
    be_send be_close buv_funcs].
  - unfold buv_alloc. go_moves.
  - unfold buv_init. go_moves.
  - unfold buv_free. go_moves.
  - unfold buv_connect, connect_pipe, connect_tcp, tcp_setup. go_moves.
  - unfold buv_bind, bind_pipe, bind_tcp, tcp_setup. go_moves.
  - unfold buv_listen. go_moves.
  - unfold buv_send. go_moves.
  - unfold buv_close. go_moves.
  - assert (Huv : ∀ c, moves R (uv_do c)) by
      (intros; eapply moves_impl; [done|]; auto with moves typeclass_instances).
    assert (Hup : ∀ b g, moves R (update_buv b g)) by
      (intros; eapply moves_impl; [done|]; auto with moves typeclass_instances).
    assert (Hcall : ∀ b e, moves R (call_on_accept b e)) by (intros; by apply moves_call_on_accept).
    unfold buv_accept, buv_loop, get_buv. go_moves.
Qed.
End frame.
