(* ===== verification/Owner.v ===== *)
(** * Who owns a URI

    Every URI of the heap belongs to at most one socket, and a socket only
    points to live ones; every operation keeps this, so that none frees a URI
    twice.  The converse, that a URI without an owner is freed, fails. *)

From S2P Require Import Prelude Endian CString Strerror Msg MsgReader Uri World Watcher.
From S2P Require Import Demo Backend BackendUv Socket SocketUv.

(** Socket [s] points to the URI at [u]. *)
Definition owns (w : world) (s u : nat) : Prop :=
  ∃ v, w_socks w !! s = Some v ∧ s_uri v = Some (Some u).

(** The invariant, except that the sockets in [X] may dangle. *)
Record owned_except (X : nat → Prop) (w : world) : Prop := Owned {
  owned_live s u : owns w s u → ¬ X s → is_Some (w_uris w !! u);
  owned_once s1 s2 u : owns w s1 u → owns w s2 u → s1 = s2;
  owned_fresh_uri u : is_Some (w_uris w !! u) → (u < w_next w)%nat;
  owned_fresh_sock s : is_Some (w_socks w !! s) → (s < w_next w)%nat;
  owned_old s u : owns w s u → (u < w_next w)%nat
}.

Definition uris_owned : world → Prop := owned_except (λ _, False).

(** Computations that keep an invariant. *)
Definition keeps {A} (P : world → Prop) (m : M A) : Prop :=
  moves (λ w w', P w → P w') m.

#[export] Instance keeps_preorder (P : world → Prop) : PreOrder (λ w w', P w → P w').
Proof. split; [by intros w|]. intros w1 w2 w3. eauto. Qed.

Lemma owned_frame X w w' : leaves_sockets w w' → owned_except X w → owned_except X w'.
Proof.
  intros (Es & Eu & _ & Hn) [L1 L2 L3 L4 L5].
  assert (Ho : ∀ s u, owns w' s u ↔ owns w s u) by (intros; unfold owns; by rewrite Es).
  assert (Hl : ∀ a, (a < w_next w)%nat → (a < w_next w')%nat) by lia.
  split; intros; rewrite ?Eu, ?Es, ?Ho in *; eauto.
Qed.

Lemma owned_weaken X Y w : (∀ s, X s → Y s) → owned_except X w → owned_except Y w.
Proof. intros HXY [L1 L2 L3 L4 L5]. split; eauto. Qed.

Lemma frame_keeps {A} X (m : M A) : moves leaves_sockets m → keeps (owned_except X) m.
Proof. apply moves_impl. apply owned_frame. Qed.

(** An update of a socket that leaves its URI alone. *)
Lemma owned_same_uri X s v v' w :
  w_socks w !! s = Some v → s_uri v' = s_uri v →
  owned_except X w → owned_except X (set_socks (<[s := v']> (w_socks w)) w).
Proof.
  intros Hs Hu [L1 L2 L3 L4 L5].
  assert (Ho : ∀ s' u, owns (set_socks (<[s := v']> (w_socks w)) w) s' u → owns w s' u).
  { intros s' u (v0 & Hv & Eu). cbn in Hv. apply lookup_insert_Some in Hv as [[<- <-]|[Hne Hv]];
      [exists v|exists v0]; split; congruence. }
  split; cbn; intros; eauto.
  apply L4. destruct (decide (s = s0)) as [<-|Hne]; [by exists v|].
  by rewrite lookup_insert_ne in *.
Qed.

(** A socket loses its URI, or gets a live one nobody owns. *)
Lemma owned_new_uri X s v u w :
  w_socks w !! s = Some v →
  match u with
  | None => True
  | Some u => is_Some (w_uris w !! u) ∧ (∀ s', owns w s' u → s' = s)
  end →
  owned_except X w →
  owned_except (λ s', X s' ∧ s' ≠ s) (set_socks (<[s := with_uri (Some u) v]> (w_socks w)) w).
Proof.
  intros Hs Hu [L1 L2 L3 L4 L5].
  set (w' := set_socks _ w).
  assert (Ho : ∀ s' u', owns w' s' u' ↔ (s' = s ∧ u = Some u') ∨ (s' ≠ s ∧ owns w s' u')).
  { intros s' u'. unfold owns, w'. cbn. destruct (decide (s' = s)) as [->|Hne].
    - rewrite lookup_insert_eq. split.
      + intros (v0 & [= <-] & E). cbn in E. left. split; congruence.
      + intros [[_ ->]|[? _]]; [by eexists|done].
    - rewrite lookup_insert_ne by done. split; [by right|]. by intros [[? _]|[_ ?]]. }
  split; cbn.
  - intros s' u' [[-> ->]|[Hne Hown]]%Ho HX; [apply Hu|]. apply (L1 s'); [done|]. tauto.
  - intros s1 s2 u' [[-> ->]|[Hne1 H1]]%Ho [[-> E2]|[Hne2 H2]]%Ho; simplify_eq; try done.
    + destruct Hu as [_ Hu]. by rewrite (Hu s2).
    + destruct Hu as [_ Hu]. by rewrite (Hu s1).
    + eauto.
  - exact L3.
  - intros s' Hs'. apply L4. destruct (decide (s = s')) as [<-|Hne]; [by exists v|].
    by rewrite lookup_insert_ne in Hs'.
  - intros s' u' [[-> ->]|[Hne Hown]]%Ho; [apply L3, Hu|by eapply L5].
Qed.

Section heap.
Context `{Env}.

(** [sc_uri_new] either changes only the count of allocations, or puts the
    URI it parsed at a fresh address. *)
Lemma sc_uri_new_at_inv instr w r w' :
  sc_uri_new_at instr w = Ok (r, w') →
  ∃ n u, sc_uri_new (malloc_ok (w_mallocs w)) (malloc_ok (S (w_mallocs w))) instr = Ok (u, snd r) ∧
    match u with
    | None => fst r = None ∧ w' = set_mallocs n w
    | Some x => fst r = Some (w_next w) ∧
        w' = set_uris (<[w_next w := x]> (w_uris w)) (set_next (S (w_next w)) (set_mallocs n w))
    end.
Proof.
  unfold sc_uri_new_at, mbind, st_bind, gets, modify, lift. cbn.
  destruct (sc_uri_new _ _ _) as [[[x|] e]|]; cbn; intros [= <- <-];
    [eexists _, (Some x)|eexists _, None]; split_and!; done.
Qed.

Lemma keeps_uri_new X instr : keeps (owned_except X) (sc_uri_new_at instr).
Proof.
  intros w r w' (n & [x|] & _ & _ & ->)%sc_uri_new_at_inv [L1 L2 L3 L4 L5]; split; cbn; eauto.
  - intros s u Hs HX. destruct (decide (u = w_next w)) as [->|];
      [by rewrite lookup_insert_eq|rewrite lookup_insert_ne by done; eauto].
  - intros u Hu. destruct (decide (u = w_next w)) as [->|]; [lia|].
    rewrite lookup_insert_ne in Hu by done. apply L3 in Hu. lia.
  - intros s Hs. apply L4 in Hs. lia.
  - intros s u Hs. apply L5 in Hs. lia.
Qed.

Lemma get_sock_inv s w v w' : get_sock s w = Ok (v, w') → w' = w ∧ w_socks w !! s = Some v.
Proof.
  unfold get_sock, mbind, st_bind, gets. cbn. destruct (w_socks w !! s); cbn; [|done].
  by intros [= <- <-].
Qed.

Lemma update_sock_inv s f w r w' :
  update_sock s f w = Ok (r, w') →
  ∃ v, w_socks w !! s = Some v ∧ w' = set_socks (<[s := f v]> (w_socks w)) w.
Proof.
  intros E. unfold update_sock in E. st_inv E. apply get_sock_inv in Hst as [-> Hs].
  unfold put_sock, modify in Hst0. simplify_eq. eauto.
Qed.

(** Updates that do not touch the URI. *)
Lemma keeps_update_sock X s f :
  (∀ v, s_uri (f v) = s_uri v) → keeps (owned_except X) (update_sock s f).
Proof.
  intros Hf w r w' (v & Hs & ->)%update_sock_inv HX. by eapply owned_same_uri.
Qed.

Lemma keeps_update_watcher X s f : keeps (owned_except X) (update_watcher s f).
Proof.
  intros w r w' E HX. unfold update_watcher in E. st_inv E.
  apply get_sock_inv in Hst as [-> Hs]. st_inv Hst0.
  destruct (s_watcher a); cbn in Hst; simplify_eq. unfold put_sock, modify in Hst1.
  cbn in Hst. injection Hst as <- <-. injection Hst1 as <- <-.
  by eapply owned_same_uri.
Qed.

(** The URI a socket had before is still there, and nobody's. *)
Lemma set_new_uri_leaves s u instr w r w' :
  uris_owned w → owns w s u → set_new_uri s instr w = Ok (r, w') →
  is_Some (w_uris w' !! u) ∧ ∀ s', ¬ owns w' s' u.
Proof.
  intros [L1 L2 L3 _ L5] Hown E. assert (Hu : is_Some (w_uris w !! u)) by (by apply (L1 s); [|intros []]).
  pose proof (L3 u Hu) as Hlt.
  unfold set_new_uri in E. apply st_bind_inv in E as (ru & w1 & E1 & E).
  apply sc_uri_new_at_inv in E1 as (n & x & _ & Hx).
  apply st_bind_inv in E as ([] & w2 & E2 & E). injection E as <- <-.
  apply update_sock_inv in E2 as (v & Hs & ->).
  assert (Hsame : w_socks w1 = w_socks w) by (destruct x, Hx as [_ ->]; done).
  split.
  - destruct x; destruct Hx as [_ ->]; cbn; [rewrite lookup_insert_ne by lia|]; done.
  - intros s' (v' & Hv' & Eu). cbn in Hv'. rewrite Hsame in Hv'.
    apply lookup_insert_Some in Hv' as [[<- <-]|[Hne Hv']].
    + destruct x; destruct Hx as [Hr _]; cbn in Eu; rewrite Hr in Eu; simplify_eq. lia.
    + apply Hne, (L2 s s' u); [done|by exists v'].
Qed.

(** A new URI replaces the old one. *)
Lemma keeps_set_new_uri s instr : keeps uris_owned (set_new_uri s instr).
Proof.
  intros w r w' E HO. unfold set_new_uri in E. st_inv E. rename a into ru.
  pose proof (keeps_uri_new _ _ _ _ _ Hst HO) as HO1.
  apply sc_uri_new_at_inv in Hst as (n & x & _ & Hx).
  st_inv Hst0. injection Hst1 as <- <-. apply update_sock_inv in Hst as (v & Hs & ->).
  eapply owned_weaken; [|eapply owned_new_uri; [exact Hs| |exact HO1]]; [naive_solver|].
  destruct x as [x|]; destruct Hx as [-> ->]; [|done]. cbn. rewrite lookup_insert_eq.
  split; [done|]. intros s' Hs'. exfalso. destruct HO as [_ _ _ _ L5].
  assert (Hw : owns w s' (w_next w)) by exact Hs'. apply L5 in Hw. lia.
Qed.
End heap.

(** ** Every public operation keeps the invariant *)
Inductive api_call :=
  | ApiNew
  | ApiDel (s : nat)
  | ApiConnect (s : nat) (uri : cbuf)
  | ApiAccept (server client : nat)
  | ApiBind (s : nat) (uri : cbuf)
  | ApiListen (s : nat) (backlog : Z)
  | ApiSend (s : nat) (m : option nat)
  | ApiClose (s : nat)
  | ApiSetUserdata (s : nat) (data : Z)
  | ApiGetUserdata (s : nat)
  | ApiOnConnect (s : nat) (cb : cbfn)
  | ApiOnConnection (s : nat) (cb : cbfn)
  | ApiOnAccept (s : nat) (cb : cbfn)
  | ApiOnRecv (s : nat) (cb : cbfn)
  | ApiOnSend (s : nat) (cb : cbfn)
  | ApiOnClose (s : nat) (cb : cbfn).

Section api.
Context `{Env} `{App} (be : backend).

Definition api (c : api_call) : M unit :=
  match c with
  | ApiNew => sc_socket_new be;; mret tt
  | ApiDel s => sc_socket_del be s
  | ApiConnect s uri => sc_socket_connect be s uri;; mret tt
  | ApiAccept srv clt => sc_socket_accept be srv clt
  | ApiBind s uri => sc_socket_bind be s uri;; mret tt
  | ApiListen s n => sc_socket_listen be s n;; mret tt
  | ApiSend s m => sc_socket_send be s m;; mret tt
  | ApiClose s => sc_socket_close be s;; mret tt
  | ApiSetUserdata s d => sc_socket_set_userdata s d
  | ApiGetUserdata s => sc_socket_get_userdata s;; mret tt
  | ApiOnConnect s cb => sc_socket_on_connect s cb
  | ApiOnConnection s cb => sc_socket_on_connection s cb
  | ApiOnAccept s cb => sc_socket_on_accept s cb
  | ApiOnRecv s cb => sc_socket_on_recv s cb
  | ApiOnSend s cb => sc_socket_on_send s cb
  | ApiOnClose s cb => sc_socket_on_close s cb
  end.

Context `{!BackendFrame be}.

Lemma keeps_the_backend X : keeps (owned_except X) (the_backend be).
Proof. unfold keeps, the_backend. go_moves. Qed.

Lemma the_backend_inv w b w' : the_backend be w = Ok (b, w') → b = be ∧ w' = w.
Proof.
  unfold the_backend, mbind, st_bind, gets. cbn. destruct (w_backend w); [|done].
  by intros [= <- <-].
Qed.

Lemma keeps_sock_backend X s : keeps (owned_except X) (sock_backend s).
Proof. unfold keeps, sock_backend, get_sock. go_moves. Qed.
Lemma keeps_sock_backend_obj X s : keeps (owned_except X) (sock_backend_obj s).
Proof. pose proof (keeps_sock_backend X s). unfold keeps, sock_backend_obj. go_moves. Qed.

(** Looking up the backend. *)
Lemma moves_the_backend {A} (R : relation world) (k : backend → M A) :
  moves R (k be) → moves R (b ← the_backend be; k b).
Proof.
  intros Hk w r w' E. st_inv E. apply the_backend_inv in Hst as [-> ->]. by eapply Hk.
Qed.

(** Freeing the URI of [s] leaves [s] dangling at most. *)
Lemma sc_uri_del_at_inv u w r w' :
  sc_uri_del_at u w = Ok (r, w') →
  is_Some (w_uris w !! u) ∧ w' = set_uris (delete u (w_uris w)) w.
Proof.
  unfold sc_uri_del_at, mbind, st_bind, gets, modify. cbn.
  destruct (w_uris w !! u); cbn; [|done]. intros [= <- <-]. eauto.
Qed.

Lemma owned_del s u w :
  owns w s u → uris_owned w →
  owned_except (λ s', s' = s) (set_uris (delete u (w_uris w)) w).
Proof.
  intros Hs [L1 L2 L3 L4 L5]. split; cbn; eauto.
  - intros s' u' Hs' Hne. rewrite lookup_delete_ne.
    + by apply (L1 s'); [|intros []].
    + intros <-. by apply Hne, (L2 s' s u).
  - intros u' Hu'. apply L3. destruct (decide (u = u')) as [->|];
      [by rewrite lookup_delete_eq in Hu'; destruct Hu'|by rewrite lookup_delete_ne in Hu'].
Qed.

Lemma del_uri_owned s w r w' :
  del_uri s w = Ok (r, w') → uris_owned w → owned_except (λ s', s' = s) w'.
Proof.
  unfold del_uri. intros E HX. st_inv E. apply get_sock_inv in Hst as [-> Hs]. st_inv Hst0.
  destruct (s_uri a) as [u|] eqn:Eu; [|done]. injection Hst as <- <-.
  destruct u as [u|].
  - apply sc_uri_del_at_inv in Hst1 as [_ ->]. apply owned_del; [by exists a|done].
  - injection Hst1 as <- <-. eapply owned_weaken; [|exact HX]. done.
Qed.

Lemma owned_null s w r w' :
  update_sock s (with_uri (Some None)) w = Ok (r, w') →
  owned_except (λ s', s' = s) w → uris_owned w'.
Proof.
  intros (v & Hs & ->)%update_sock_inv HX.
  eapply owned_weaken; [|by eapply (owned_new_uri _ s v None)]. naive_solver.
Qed.

Lemma keeps_free_sock s w r w' :
  free_sock s w = Ok (r, w') → owned_except (λ s', s' = s) w → uris_owned w'.
Proof.
  unfold free_sock. intros E [L1 L2 L3 L4 L5]. st_inv E. injection Hst as <- <-.
  st_inv Hst0. destruct (w_socks w !! s) as [v|] eqn:Es; [|done].
  injection Hst as <- <-. injection Hst1 as <- <-.
  set (w' := set_socks _ w).
  assert (Ho : ∀ s' u, owns w' s' u → s' ≠ s ∧ owns w s' u).
  { intros s' u (v' & Hv & Eu). cbn in Hv. apply lookup_delete_Some in Hv as [Hne Hv].
    split; [done|by exists v']. }
  split; cbn.
  - intros s' u [Hne Hs']%Ho _. by apply (L1 s').
  - intros s1 s2 u [_ H1]%Ho [_ H2]%Ho. eauto.
  - done.
  - intros s' [v' Hv']. apply L4. apply lookup_delete_Some in Hv' as [_ Hv']. by exists v'.
  - intros s' u [_ Hs']%Ho. eauto.
Qed.

Lemma keeps_new_sock :
  keeps uris_owned (malloc (λ a w, set_socks (<[a := Socket None None None None]> (w_socks w)) w)).
Proof.
  intros w r w' E [L1 L2 L3 L4 L5].
  destruct (malloc_ok (w_mallocs w)) eqn:Eok;
    [rewrite malloc_success in E by done|rewrite malloc_failure in E by done];
    injection E as <- <-; [|by split].
  set (w' := set_socks _ _).
  assert (Ho : ∀ s u, owns w' s u → owns w s u).
  { intros s u (v & Hv & Eu). cbn in Hv. apply lookup_insert_Some in Hv as [[<- <-]|[Hne Hv]];
      [done|by exists v]. }
  split; cbn.
  - intros s u Hs%Ho. eauto.
  - intros s1 s2 u H1%Ho H2%Ho. eauto.
  - intros u Hu. apply L3 in Hu. lia.
  - intros s [v Hv]. apply lookup_insert_Some in Hv as [[<- _]|[Hne Hv]]; [lia|].
    assert (s < w_next w)%nat by (apply L4; by exists v). lia.
  - intros s u Hs%Ho. apply L5 in Hs. lia.
Qed.

Lemma keeps_socket_new : keeps uris_owned (sc_socket_new be).
Proof.
  pose proof (λ s f Hf, keeps_update_sock (λ _, False) s f Hf) as Hup.
  assert (Hnull : ∀ s, keeps uris_owned (update_sock s (with_uri (Some None)))).
  { intros s w r w' E HX. eapply owned_null; [exact E|]. by eapply owned_weaken; [|exact HX]. }
  pose proof (frame_keeps (λ _, False) _ frame_alloc) as Ha.
  pose proof (λ b s, frame_keeps (λ _, False) _ (frame_init b s)) as Hi.
  pose proof (λ b, frame_keeps (λ _, False) _ (frame_free b)) as Hf.
  pose proof keeps_new_sock as Hnew.
  unfold keeps, uris_owned in *. unfold sc_socket_new.
  repeat first [solve [eauto with moves typeclass_instances] | apply moves_the_backend
    | apply moves_bind; [apply _| |intros ?] | case_match ].
Qed.

Lemma keeps_socket_del s : keeps uris_owned (sc_socket_del be s).
Proof.
  intros w r w' E HX. unfold sc_socket_del in E.
  apply st_bind_inv in E as (? & w1 & Ed & E). pose proof (del_uri_owned _ _ _ _ Ed HX) as HX1. clear Ed.
  apply st_bind_inv in E as (? & w2 & Eb & E). apply the_backend_inv in Eb as [-> ->].
  apply st_bind_inv in E as (b & w2 & Eb & E). pose proof (keeps_sock_backend _ _ _ _ _ Eb HX1) as HX2.
  apply st_bind_inv in E as ([] & w3 & Ef & E).
  pose proof (frame_keeps _ _ (frame_free _) _ _ _ Ef HX2) as HX3.
  by eapply keeps_free_sock.
Qed.

Lemma keeps_socket_close s : keeps uris_owned (sc_socket_close be s).
Proof.
  intros w r w' E HX. unfold sc_socket_close in E.
  apply st_bind_inv in E as (? & w1 & Eb & E). apply the_backend_inv in Eb as [-> ->].
  apply st_bind_inv in E as (b & w2 & Eb & E). pose proof (keeps_sock_backend_obj _ _ _ _ _ Eb HX) as HX1.
  apply st_bind_inv in E as (e & w3 & Ec & E).
  pose proof (frame_keeps _ _ (frame_close _) _ _ _ Ec HX1) as HX2.
  apply st_bind_inv in E as (v & ? & Ev & E). apply get_sock_inv in Ev as [-> Hs].
  apply st_bind_inv in E as (u & ? & Eu & E).
  destruct (s_uri v) as [u'|] eqn:Euri; [|done]. injection Eu as <- <-.
  destruct u' as [u|]; [|by injection E as <- <-].
  apply st_bind_inv in E as ([] & ? & Ed & E). apply sc_uri_del_at_inv in Ed as [_ ->].
  apply st_bind_inv in E as ([] & w4 & En & E). injection E as <- <-.
  eapply owned_null; [exact En|]. apply owned_del; [by exists v|done].
Qed.

(** Connecting and binding: a new URI, then the backend. *)
Lemma keeps_with_uri s instr (k : backend → nat → nat → M Z) :
  (∀ b u, moves leaves_sockets (k be b u)) →
  keeps uris_owned (r ← set_new_uri s instr;
    match fst r with
    | None => mret (snd r)
    | Some u => be' ← the_backend be; b ← sock_backend_obj s; k be' b u
    end).
Proof.
  intros Hk. pose proof (keeps_set_new_uri s instr) as Hset.
  pose proof (keeps_sock_backend_obj (λ _, False) s) as Hb.
  pose proof (λ b u, frame_keeps (λ _, False) _ (Hk b u)) as Hk'.
  unfold keeps, uris_owned in *.
  repeat first [solve [eauto with moves typeclass_instances] | apply moves_the_backend
    | apply moves_bind; [apply _| |intros ?] | case_match ].
Qed.

(** Every operation, if the callbacks of the application do. *)
Lemma keeps_api c :
  (∀ f ev, keeps uris_owned (app_cb f ev)) → keeps uris_owned (api c).
Proof.
  intros Hcb. pose proof keeps_socket_new as Hnew. pose proof keeps_socket_del as Hdel.
  pose proof keeps_socket_close as Hclose.
  pose proof (keeps_sock_backend_obj (λ _, False)) as Hobj.
  pose proof (keeps_update_sock (λ _, False)) as Hup.
  pose proof (keeps_update_watcher (λ _, False)) as Hw.
  pose proof (λ s u, keeps_with_uri s u (λ be, be_connect be) frame_connect) as Hconn.
  pose proof (λ s u, keeps_with_uri s u (λ be, be_bind be) frame_bind) as Hbind.
  pose proof (λ b n, frame_keeps (λ _, False) _ (frame_listen b n)) as Hlisten.
  pose proof (λ b m, frame_keeps (λ _, False) _ (frame_send b m)) as Hsend.
  assert (Hacc : ∀ srv clt, keeps uris_owned (be_accept be srv clt)).
  { intros. apply frame_accept; [apply _|intros ??; apply owned_frame|done]. }
  unfold keeps, uris_owned in *. destruct c; cbn [api];
    unfold sc_socket_connect, sc_socket_bind, sc_socket_accept, sc_socket_listen,
      sc_socket_send, sc_socket_set_userdata, sc_socket_get_userdata, get_sock,
      sc_socket_on_connect, sc_socket_on_connection, sc_socket_on_accept,
      sc_socket_on_recv, sc_socket_on_send, sc_socket_on_close;
    repeat first [solve [eauto with moves typeclass_instances] | apply moves_the_backend
      | apply moves_bind; [apply _| |intros ?] ].
Qed.
End api.
