(* ===== verification/Sc.v ===== *)
(** * Initialisation and error texts (src/sc.c, src/backend.c) *)

From S2P Require Import Prelude Endian CString Strerror Msg MsgReader Uri World Watcher.
From S2P Require Import Demo Backend BackendUv Socket.

(** include/sc/backend.h *)
Inductive sc_backend := SC_NOTSET | SC_LIBUV.

#[export] Instance sc_backend_eq_dec : EqDecision sc_backend.
Proof. solve_decision. Defined.

Section sc.
Context `{Env} `{App}.

(** [backend_data] is the loop of the structure it points to, or nothing for
    a null pointer. *)
Definition sc_init (b : sc_backend) (backend_data : option Z)
    (rec_alloc : option alloc_fn) (rec_free : option free_fn) : M unit :=
  (if decide (b = SC_LIBUV) then backend_uv_init backend_data;; backend_init
   else sc_warn "invalid backend");;
  sc_msg_init_allocator rec_alloc rec_free.

Definition sc_strerror (errcode : Z) : M string :=
  if decide (errcode = SC_ENOMEM) then mret "not enough memory"%string
  else if decide (errcode = SC_EURIPARSE) then mret "invalid URI"%string
  else if decide (errcode = SC_EINVPROTO) then mret "invalid protocol"%string
  else be ← the_backend buv_funcs; mret (be_strerror be errcode).

(** What the text of a code is meant to be: the library's own codes first,
    then the codes of libuv with libuv's texts. *)
Inductive error_text : Z → string → Prop :=
  | TextNomem : error_text SC_ENOMEM "not enough memory"
  | TextUri : error_text SC_EURIPARSE "invalid URI"
  | TextProto : error_text SC_EINVPROTO "invalid protocol"
  | TextUv n t : uv_text n = Some t → error_text (uv_code n) t
  | TextOther e :
      e ∉ [SC_ENOMEM; SC_EURIPARSE; SC_EINVPROTO] → e ∉ (uv_code <$> all_errnames) →
      error_text e "unknown error code".

Lemma sc_strerror_other e w :
  w_backend w = true → e ∉ [SC_ENOMEM; SC_EURIPARSE; SC_EINVPROTO] →
  sc_strerror e w = Ok (buv_strerror e, w).
Proof.
  intros Hb Hn. unfold sc_strerror.
  rewrite !decide_False by set_solver.
  unfold the_backend, mbind, st_bind, gets. cbn. by rewrite Hb.
Qed.

Lemma uv_code_not_sc n :
  supported_host → uv_code n ∉ [SC_ENOMEM; SC_EURIPARSE; SC_EINVPROTO].
Proof.
  intros Hs. pose proof (uv_code_negative n Hs).
  unfold SC_ENOMEM, SC_EURIPARSE, SC_EINVPROTO. rewrite !not_elem_of_cons.
  split_and!; [lia..|apply not_elem_of_nil].
Qed.

Lemma buv_strerror_other e :
  e ∉ (uv_code <$> all_errnames) → buv_strerror e = "unknown error code"%string.
Proof.
  intros Hn. unfold buv_strerror. destruct (list_find _ _) as [[i [m msg]]|] eqn:Hf; [|done].
  apply list_find_Some in Hf as (_ & E & _). destruct Hn.
  apply list_elem_of_fmap. exists m. split; [by symmetry|apply all_errnames_spec].
Qed.

Lemma uv_text_map n t :
  supported_host → uv_text n = Some t → buv_strerror (uv_code n) = t.
Proof.
  intros Hs. unfold uv_text. destruct (list_find _ _) as [[i [m msg]]|] eqn:Hf; [|done].
  intros [= <-]. apply list_find_Some in Hf as (Hi & E & _). cbn in E. subst.
  by eapply buv_map_lookup.
Qed.

Lemma uv_text_total n : is_Some (uv_text n).
Proof. by destruct n; vm_compute; eexists. Qed.

Lemma error_text_strerror e t w :
  supported_host → w_backend w = true → error_text e t → sc_strerror e w = Ok (t, w).
Proof.
  intros Hs Hb [| | |n t' Ht|e' Hsc Huv]; try done.
  - rewrite sc_strerror_other by (done || by apply uv_code_not_sc). by rewrite (uv_text_map n t').
  - rewrite sc_strerror_other by done. by rewrite buv_strerror_other.
Qed.

Lemma error_text_total e : ∃ t, error_text e t.
Proof.
  destruct (decide (e ∈ [SC_ENOMEM; SC_EURIPARSE; SC_EINVPROTO])) as [Hsc|Hsc].
  { rewrite !elem_of_cons, elem_of_nil in Hsc. destruct Hsc as [->|[->|[->|[]]]];
      eauto using error_text. }
  destruct (decide (e ∈ uv_code <$> all_errnames)) as [Huv|Huv]; [|eauto using error_text].
  apply list_elem_of_fmap in Huv as (n & -> & _). destruct (uv_text_total n) as [t Ht].
  eauto using error_text.
Qed.

(** C38. The text of every code, once a backend is set: [sc_strerror] gives
    the library's three codes their texts, each code of libuv the text
    libuv documents, and everything else the fallback.  The two families
    never clash, so that the text of a code is unique. *)
Theorem sc_strerror_texts e t w :
  supported_host → w_backend w = true →
  sc_strerror e w = Ok (t, w) ↔ error_text e t.
Proof.
  intros Hs Hb. split; [|by apply error_text_strerror].
  intros E. destruct (error_text_total e) as [t' Ht].
  rewrite (error_text_strerror e t' w) in E by done. by simplify_eq.
Qed.

(** Before a backend is set, which is what [sc_init] leaves with any
    other backend than libuv, only the library's own three codes have a
    text: any other goes through a null pointer; so do creating a socket,
    and every operation that calls the backend. *)
Lemma no_backend_faults e data w w' s srv clt n m :
  w_backend w = false → sc_init SC_NOTSET data None None w = Ok (tt, w') →
  w_backend w' = false ∧
  (e ∉ [SC_ENOMEM; SC_EURIPARSE; SC_EINVPROTO] → sc_strerror e w' = Fault NullDeref) ∧
  (malloc_ok (w_mallocs w') = true → sc_socket_new buv_funcs w' = Fault NullDeref) ∧
  sc_socket_accept buv_funcs srv clt w' = Fault NullDeref ∧
  sc_socket_listen buv_funcs s n w' = Fault NullDeref ∧
  sc_socket_send buv_funcs s m w' = Fault NullDeref ∧
  sc_socket_close buv_funcs s w' = Fault NullDeref.
Proof.
  intros Hb E.
  assert (Hb' : w_backend w' = false).
  { unfold sc_init, sc_warn, sc_msg_init_allocator, mbind, st_bind, gets, modify in E.
    destruct ndebug; cbn in E; by injection E as <-. }
  assert (Hbe : ∀ w, w_backend w = false → the_backend buv_funcs w = Fault NullDeref).
  { intros w1 H1. unfold the_backend, mbind, st_bind, gets. by rewrite H1. }
  split_and!; try (apply st_bind_fault; by apply Hbe).
  - done.
  - intros Hn. unfold sc_strerror. rewrite !decide_False by set_solver.
    apply st_bind_fault. by apply Hbe.
  - intros Hm. unfold sc_socket_new. rewrite (st_bind_ok _ _ _ _ _ (malloc_success _ _ Hm)).
    rewrite (st_bind_ok _ _ _ _ _ (update_sock_ok _ _ _ _ (lookup_insert_eq _ _ _))).
    apply st_bind_fault. by apply Hbe.
Qed.
End sc.

(** ** On a Linux host *)
Section sc_demo.
#[local] Existing Instance demo_env.
#[local] Existing Instance demo_app.

Lemma sc_strerror_texts_witness :
  sc_strerror (-111) demo_world = Ok ("connection refused"%string, demo_world).
Proof.
  apply (sc_strerror_texts (-111)); [exact linux_supported|reflexivity|].
  exact (TextUv ECONNREFUSED "connection refused" eq_refl).
Defined.
End sc_demo.
