(* ===== verification/Dial.v ===== *)
(** * Connecting and binding by URI

    From the string the application gives to [sc_socket_connect] and
    [sc_socket_bind] to the calls libuv gets, through socket.c, uri.c and
    backend_uv.c, with the code that comes back. *)

From S2P Require Import Prelude Endian CString Strerror Msg MsgReader Uri World Watcher.
From S2P Require Import Demo Backend BackendUv Conn Socket.
From Stdlib Require Import Ascii.

Definition view_proto (v : uri_view) : proto :=
  match v with VPipe _ => PROTO_PIPE | VTcp _ _ => PROTO_TCP end.
(** The port number a port text stands for. *)
Definition view_port (port : cbuf) : Z := u32 (fst (strtol port)).

Lemma shows_protocol nd u v : uri_shows u v → sc_uri_protocol nd u = Ok (view_proto v).
Proof.
  unfold sc_uri_protocol. destruct v as [path|ip port]; cbn [uri_shows view_proto].
  - intros [E _]. rewrite (is_protocol_known_eq _ _ _ E), !(streq_eq _ _ _ _ E). by destruct nd.
  - intros [E _]. rewrite (is_protocol_known_eq _ _ _ E), !(streq_eq _ _ _ _ E). by destruct nd.
Qed.

(** What connecting, and binding, by a URI means: the calls, and the code. *)
Section plans.
Context `{Env}.

(** The address is asked of [uv_ip4_addr] once the handle is initialised. *)
Definition tcp_plan (loop : Z) (b : nat) (use : list byte → uv_call)
    (past : list uv_call) (ip port : cbuf) : list uv_call * Z :=
  let init := UvTcpInit loop b in
  let e := uv_result past init in
  if decide (e ≠ 0) then ([init], e)
  else
    let '(e, addr) := uv_ip4_addr ip (view_port port) in
    if decide (e ≠ 0) then ([init], e)
    else ([init; use addr], uv_result (past ++ [init]) (use addr)).

(** [uv_pipe_connect] returns nothing: its failure is reported later. *)
Definition connect_plan (loop : Z) (b : nat) (past : list uv_call) (v : uri_view) :
    list uv_call * Z :=
  match v with
  | VPipe path =>
      let e := uv_result past (UvPipeInit loop b) in
      if decide (e ≠ 0) then ([UvPipeInit loop b], e)
      else ([UvPipeInit loop b; UvPipeConnect b path], 0)
  | VTcp ip port => tcp_plan loop b (UvTcpConnect b) past ip port
  end.

Definition bind_plan (loop : Z) (b : nat) (past : list uv_call) (v : uri_view) :
    list uv_call * Z :=
  match v with
  | VPipe path => try_calls past [UvPipeInit loop b; UvPipeBind b path]
  | VTcp ip port => tcp_plan loop b (UvTcpBind b) past ip port
  end.
End plans.

Definition add_uvs (cs : list uv_call) (w : world) : world :=
  World (w_mallocs w) (w_next w) (w_msgs w) (w_uris w) (w_socks w) (w_buvs w)
    (w_backend w) (w_buv_data w) (w_msg_alloc w) (w_msg_free w)
    (w_stderr w) (w_uv w ++ cs) (w_obs w) (w_app w).

(** [r] carries out [plan] from [w] on the backend socket [v] at [b]: it
    returns the code of the plan, has made the calls of the plan, and changed
    nothing but that backend socket, which [f] describes up to the address. *)
Definition carries_out (b : nat) (v : socket_uv) (f : socket_uv → socket_uv)
    (plan : list uv_call * Z) (w : world) (r : outcome (Z * world)) : Prop :=
  ∃ addr, r = Ok (snd plan,
    set_buvs (<[b := Some (with_addr addr (f v))]> (w_buvs w))
      (add_uvs (fst plan) w)).

Section backend.
Context `{Env}.

Lemma with_addr_same v : with_addr (tcp_addr v) v = v.
Proof. by destruct v. Qed.

Lemma add_uv_twice c1 c2 h w :
  set_buvs h (add_uvs [c1; c2] w) = set_buvs h (add_uv c2 (add_uv c1 w)).
Proof. unfold set_buvs, add_uvs, add_uv. cbn. by rewrite <-app_assoc. Qed.

Lemma buv_loop_ok loop w : w_buv_data w = Some loop → buv_loop w = Ok (loop, w).
Proof. intros E. unfold buv_loop, mbind, st_bind, gets. by rewrite E. Qed.

(** Setting up a tcp handle, and then using its address. *)
Lemma tcp_setup_plan b v loop ip port (use : list byte → uv_call) w :
  w_buvs w !! b = Some (Some v) → w_buv_data w = Some loop →
  carries_out b v id (tcp_plan loop b use (w_uv w) ip port) w
    ((r ← tcp_setup b ip (view_port port);
      if decide (fst r ≠ 0) then mret (fst r) else uv_do (use (snd r))) w).
Proof.
  intros Hb Hl. unfold tcp_setup, tcp_plan.
  unfold mbind, st_bind. rewrite (buv_loop_ok loop) by done. rewrite uv_do_ok.
  case_decide as He; cbn [mret st_ret fst snd].
  - exists (tcp_addr v). rewrite decide_True by done. rewrite with_addr_same.
    cbn [fst snd id]. rewrite insert_id by done. by destruct w.
  - destruct (uv_ip4_addr ip (view_port port)) as [e addr].
    assert (Hb1 : w_buvs (add_uv (UvTcpInit loop b) w) !! b = Some (Some v)) by done.
    rewrite (update_buv_ok _ _ _ _ Hb1). cbn [mret st_ret fst snd].
    exists addr. case_decide as He2; cbn [fst snd]; [done|].
    rewrite add_uv_twice. done.
Qed.

Lemma connect_pipe_plan b v loop path w :
  w_buvs w !! b = Some (Some v) → w_buv_data w = Some loop →
  carries_out b v id (connect_plan loop b (w_uv w) (VPipe path)) w (connect_pipe b path w).
Proof.
  intros Hb Hl. unfold connect_pipe, connect_plan. exists (tcp_addr v).
  rewrite with_addr_same. rewrite insert_id by done.
  rewrite (st_bind_ok _ _ _ _ _ (buv_loop_ok loop w Hl)), (st_bind_ok _ _ _ _ _ (uv_do_ok _ _)).
  case_decide as He; cbn [fst snd]; [by destruct w|].
  rewrite (st_bind_ok _ _ _ _ _ (uv_do_ok _ _)), He, add_uv_twice. by destruct w.
Qed.

Lemma bind_pipe_plan b v loop path w :
  w_buvs w !! b = Some (Some v) → w_buv_data w = Some loop →
  carries_out b v id (bind_plan loop b (w_uv w) (VPipe path)) w (bind_pipe b path w).
Proof.
  intros Hb Hl. unfold bind_pipe, bind_plan. cbn [try_calls]. exists (tcp_addr v).
  rewrite with_addr_same. rewrite insert_id by done.
  rewrite (st_bind_ok _ _ _ _ _ (buv_loop_ok loop w Hl)), (st_bind_ok _ _ _ _ _ (uv_do_ok _ _)).
  case_decide as He; cbn [fst snd]; [by destruct w|].
  rewrite uv_do_ok. change (w_uv (add_uv _ w)) with (w_uv w ++ [UvPipeInit loop b]).
  destruct (decide (uv_result (w_uv w ++ [UvPipeInit loop b]) (UvPipeBind b path) ≠ 0)) as [?|E0];
    cbn [fst snd]; rewrite add_uv_twice; [by destruct w|].
  apply dec_stable in E0. rewrite E0. by destruct w.
Qed.

(** Reading the URI before it is used. *)
Lemma get_uri_ok u x w : w_uris w !! u = Some x → get_uri u w = Ok (x, w).
Proof. intros E. unfold get_uri, mbind, st_bind, gets. cbn. by rewrite E. Qed.

Lemma uri_pipe_path {B} x path (k : cbuf → M B) w :
  uri_shows x (VPipe path) →
  (p ← lift (sc_uri_pipe_filepath x); path ← uri_string x p; k path) w = k path w.
Proof.
  intros [_ Hp]. unfold mbind, st_bind, lift, uri_string, lift.
  destruct (sc_uri_pipe_filepath x) as [p|]; [|done]. unfold mbind, outcome_bind in Hp.
  by rewrite Hp.
Qed.

Lemma uri_tcp_parts {B} x ip port (k : cbuf → Z → M B) w :
  uri_shows x (VTcp ip port) →
  (p ← lift (sc_uri_tcp_ip4 x); ip4 ← uri_string x p; n ← lift (sc_uri_tcp_port x);
   k ip4 n) w = k ip (view_port port) w.
Proof.
  intros (_ & Hp & q & Hq & Hport). unfold mbind, st_bind, lift, uri_string, lift.
  destruct (sc_uri_tcp_ip4 x) as [p|]; [|done]. unfold mbind, outcome_bind in Hp. rewrite Hp.
  unfold sc_uri_tcp_port. rewrite Hq. unfold mbind, outcome_bind. by rewrite Hport.
Qed.

Lemma buv_connect_plan b v loop u x y w :
  w_uris w !! u = Some x → uri_shows x y →
  w_buvs w !! b = Some (Some v) → w_buv_data w = Some loop →
  carries_out b v id (connect_plan loop b (w_uv w) y) w (buv_connect b u w).
Proof.
  intros Hu Hx Hb Hl. unfold buv_connect.
  rewrite (st_bind_ok _ _ _ _ _ (get_uri_ok u x w Hu)).
  rewrite (st_bind_ok _ _ _ _ _ (lift_ok _ _ _ (shows_protocol ndebug x y Hx))).
  destruct y as [path|ip port]; cbn [view_proto].
  - rewrite (uri_pipe_path x path) by done. by apply connect_pipe_plan.
  - rewrite (uri_tcp_parts x ip port) by done. by apply tcp_setup_plan.
Qed.

Lemma buv_bind_plan b v loop u x y w :
  w_uris w !! u = Some x → uri_shows x y →
  w_buvs w !! b = Some (Some v) → w_buv_data w = Some loop →
  carries_out b v (with_proto (view_proto y)) (bind_plan loop b (w_uv w) y) w (buv_bind b u w).
Proof.
  intros Hu Hx Hb Hl. unfold buv_bind.
  rewrite (st_bind_ok _ _ _ _ _ (get_uri_ok u x w Hu)).
  rewrite (st_bind_ok _ _ _ _ _ (lift_ok _ _ _ (shows_protocol ndebug x y Hx))).
  rewrite (st_bind_ok _ _ _ _ _ (update_buv_ok b _ v w Hb)). set (w1 := set_buvs _ w).
  assert (is_bound (view_proto y) = true) as -> by (destruct y; by apply bool_decide_eq_true_2; auto).
  rewrite (st_bind_ok _ _ _ _ _ (assert_that_true w1)).
  assert (Hb1 : w_buvs w1 !! b = Some (Some (with_proto (view_proto y) v))) by apply lookup_insert_eq.
  assert (Hfin : ∀ plan r, carries_out b (with_proto (view_proto y) v) id plan w1 r →
    carries_out b v (with_proto (view_proto y)) plan w r).
  { intros plan r [addr ->]. exists addr. unfold w1, set_buvs, add_uvs. cbn.
    by rewrite insert_insert_eq. }
  apply Hfin. destruct y as [path|ip port]; cbn [view_proto].
  - rewrite decide_True by done. rewrite (uri_pipe_path x path) by done.
    by apply (bind_pipe_plan b _ loop path w1).
  - rewrite decide_False by done. rewrite (uri_tcp_parts x ip port) by done.
    by apply (tcp_setup_plan b _ loop ip port _ w1).
Qed.
End backend.

Section dial.
Context `{Env} `{App}.

(** A parsed URI is kept by the socket, in place of the one it had. *)
Lemma set_new_uri_eq s k uri o e w :
  w_socks w !! s = Some k →
  sc_uri_new (malloc_ok (w_mallocs w)) (malloc_ok (S (w_mallocs w))) uri = Ok (o, e) →
  ∃ n, set_new_uri s uri w =
    match o with
    | None => Ok ((None, e),
        set_socks (<[s := with_uri (Some None) k]> (w_socks w)) (set_mallocs n w))
    | Some x => Ok ((Some (w_next w), e),
        set_socks (<[s := with_uri (Some (Some (w_next w))) k]> (w_socks w))
          (set_uris (<[w_next w := x]> (w_uris w))
            (set_next (S (w_next w)) (set_mallocs n w))))
    end.
Proof.
  intros Hs E. eexists. unfold set_new_uri, sc_uri_new_at, mbind, st_bind, gets, modify, lift.
  cbn. rewrite E. destruct o as [x|]; cbn [fst snd mret st_ret];
    by erewrite update_sock_ok by exact Hs.
Qed.

(** What an operation that connects or binds by a URI does, [plan] being
    what it asks of libuv and [f] what it does to the backend socket. *)
Definition dials (s b : nat) (k : sc_socket) (v : socket_uv) (f : socket_uv → socket_uv)
    (plan : uri_view → list uv_call * Z) (ref : uri_ref) (w : world)
    (r : outcome (Z * world)) : Prop :=
  match ref with
  | RFault => r = Fault NullDeref
  | RErr e => ∃ w', r = Ok (e, w') ∧ w_uv w' = w_uv w ∧ w_uris w' = w_uris w ∧
      w_buvs w' = w_buvs w ∧ w_socks w' = <[s := with_uri (Some None) k]> (w_socks w) ∧
      w_backend w' = w_backend w ∧ w_app w' = w_app w ∧ w_msgs w' = w_msgs w
  | ROk y => ∃ w' x addr, r = Ok (snd (plan y), w') ∧ w_uv w' = w_uv w ++ fst (plan y) ∧
      uri_shows x y ∧ w_uris w' = <[w_next w := x]> (w_uris w) ∧
      w_buvs w' = <[b := Some (with_addr addr (f v))]> (w_buvs w) ∧
      w_socks w' = <[s := with_uri (Some (Some (w_next w))) k]> (w_socks w) ∧
      w_backend w' = w_backend w ∧ w_app w' = w_app w ∧ w_msgs w' = w_msgs w
  end.

Lemma dials_with_uri (op : backend → nat → nat → M Z) s k b v loop plan f tok rest w :
  w_socks w !! s = Some k → s_backend k = Some (Some b) →
  w_buvs w !! b = Some (Some v) → w_buv_data w = Some loop → w_backend w = true →
  malloc_ok (w_mallocs w) = true → malloc_ok (S (w_mallocs w)) = true →
  NUL ∉ tok ++ ":"%char :: rest → tok ≠ [] → ":"%char ∉ tok →
  (∀ u x y w', w_uris w' !! u = Some x → uri_shows x y →
    w_buvs w' !! b = Some (Some v) → w_buv_data w' = Some loop → w_uv w' = w_uv w →
    carries_out b v (f y) (plan y) w' (op buv_funcs b u w')) →
  dials s b k v (match uri_reference tok rest with ROk y => f y | _ => id end) plan
    (uri_reference tok rest) w
    ((r ← set_new_uri s (tok ++ ":"%char :: rest);
      match fst r with
      | None => mret (snd r)
      | Some u => be ← the_backend buv_funcs; b ← sock_backend_obj s; op be b u
      end) w).
Proof.
  intros Hs Hk Hb Hl Hbe M1 M2 Hn Hne Hc Hop.
  pose proof (sc_uri_new_agrees tok rest Hn Hne Hc) as Hag.
  destruct (uri_reference tok rest) as [|e|y]; cbn [agrees dials] in *.
  - apply st_bind_fault, st_bind_fault. unfold sc_uri_new_at, mbind, st_bind, gets, modify, lift.
    cbn. by rewrite M1, M2, Hag.
  - destruct (set_new_uri_eq s k (tok ++ ":"%char :: rest) None e w Hs) as [n E];
      [by rewrite M1, M2|].
    rewrite (st_bind_ok _ _ _ _ _ E). by eexists.
  - destruct Hag as (x & Hag & Hx).
    destruct (set_new_uri_eq s k (tok ++ ":"%char :: rest) (Some x) SC_EURIPARSE w Hs) as [n E];
      [by rewrite M1, M2|].
    rewrite (st_bind_ok _ _ _ _ _ E). cbn [fst]. set (w1 := set_socks _ _).
    rewrite (st_bind_ok _ _ _ _ _ (the_backend_ok buv_funcs w1 Hbe)).
    rewrite (st_bind_ok _ _ _ _ _ (sock_backend_obj_ok s _ b w1 (lookup_insert_eq _ _ _) Hk)).
    destruct (Hop (w_next w) x y w1) as [addr E2]; [apply lookup_insert_eq|done..|].
    by eexists _, x, addr.
Qed.

Lemma connect_dials s k b v loop tok rest w :
  w_socks w !! s = Some k → s_backend k = Some (Some b) →
  w_buvs w !! b = Some (Some v) → w_buv_data w = Some loop → w_backend w = true →
  malloc_ok (w_mallocs w) = true → malloc_ok (S (w_mallocs w)) = true →
  NUL ∉ tok ++ ":"%char :: rest → tok ≠ [] → ":"%char ∉ tok →
  dials s b k v id (connect_plan loop b (w_uv w)) (uri_reference tok rest) w
    (sc_socket_connect buv_funcs s (tok ++ ":"%char :: rest) w).
Proof.
  intros Hs Hk Hb Hl Hbe M1 M2 Hn Hne Hc.
  pose proof (dials_with_uri be_connect s k b v loop (connect_plan loop b (w_uv w))
    (λ _, id) tok rest w) as Hd.
  destruct (uri_reference tok rest); (apply Hd; [done..|]);
    intros u x y w' Hu Hx Hb' Hl' <-; by eapply buv_connect_plan.
Qed.

(** C12. Connecting, from the string to libuv: on a live socket
    [sc_socket_connect] refuses a URI the grammar refuses with the code the
    grammar gives, without a call to libuv; with any other, it keeps the
    URI and carries out its plan: initialise the handle of the protocol, for
    tcp convert the address text with [uv_ip4_addr], connect, up to the
    first failure, whose code it returns. *)
Theorem sc_socket_connect_spec s k b v loop tok rest w :
  w_socks w !! s = Some k → s_backend k = Some (Some b) →
  w_buvs w !! b = Some (Some v) → w_buv_data w = Some loop → w_backend w = true →
  malloc_ok (w_mallocs w) = true → malloc_ok (S (w_mallocs w)) = true →
  NUL ∉ tok ++ ":"%char :: rest → tok ≠ [] → ":"%char ∉ tok →
  dials s b k v id (connect_plan loop b (w_uv w)) (uri_reference tok rest) w
    (sc_socket_connect buv_funcs s (tok ++ ":"%char :: rest) w).
Proof. apply connect_dials. Qed.

(** Binding, likewise; the backend socket also takes over the protocol
    of the URI, which accepting uses. *)
Lemma sc_socket_bind_spec s k b v loop tok rest w :
  w_socks w !! s = Some k → s_backend k = Some (Some b) →
  w_buvs w !! b = Some (Some v) → w_buv_data w = Some loop → w_backend w = true →
  malloc_ok (w_mallocs w) = true → malloc_ok (S (w_mallocs w)) = true →
  NUL ∉ tok ++ ":"%char :: rest → tok ≠ [] → ":"%char ∉ tok →
  dials s b k v
    (match uri_reference tok rest with ROk y => with_proto (view_proto y) | _ => id end)
    (bind_plan loop b (w_uv w)) (uri_reference tok rest) w
    (sc_socket_bind buv_funcs s (tok ++ ":"%char :: rest) w).
Proof.
  intros Hs Hk Hb Hl Hbe M1 M2 Hn Hne Hc.
  apply (dials_with_uri be_bind s k b v loop (bind_plan loop b (w_uv w))
    (λ y, with_proto (view_proto y)) tok rest w); [done..|].
  intros u x y w' Hu Hx Hb' Hl' <-. by eapply buv_bind_plan.
Qed.
End dial.

(** ** A connection to, and a server on, the local host *)
Section dial_demo.
#[local] Existing Instance demo_env.
#[local] Existing Instance demo_app.

Definition demo_sock : sc_socket :=
  Socket (Some 0) (Some (Some 2%nat)) (Some None) (Some demo_watcher).
Definition demo_rest : cbuf := str "//127.0.0.1:8765".

Lemma demo_reference :
  uri_reference (str "tcp") demo_rest = ROk (VTcp (str "127.0.0.1") (str "8765")).
Proof. vm_compute. reflexivity. Qed.

Lemma sc_socket_connect_spec_witness :
  dials 1 2 demo_sock demo_buv id (connect_plan 0 2 [])
    (ROk (VTcp (str "127.0.0.1") (str "8765"))) demo_world
    (sc_socket_connect buv_funcs 1 (str "tcp" ++ ":"%char :: demo_rest) demo_world).
Proof.
  rewrite <-demo_reference.
  apply (sc_socket_connect_spec 1 demo_sock 2 demo_buv 0 (str "tcp") demo_rest demo_world);
    [reflexivity..|decide_by_run|done|decide_by_run].
Defined.

Lemma sc_socket_bind_spec_witness :
  dials 1 2 demo_sock demo_buv (with_proto PROTO_TCP) (bind_plan 0 2 [])
    (ROk (VTcp (str "127.0.0.1") (str "8765"))) demo_world
    (sc_socket_bind buv_funcs 1 (str "tcp" ++ ":"%char :: demo_rest) demo_world).
Proof.
  pose proof (sc_socket_bind_spec 1 demo_sock 2 demo_buv 0 (str "tcp") demo_rest demo_world)
    as Hb.
  rewrite demo_reference in Hb. apply Hb; [reflexivity..|decide_by_run|done|decide_by_run].
Defined.
End dial_demo.
