(* ===== verification/Lifecycle.v ===== *)
(** * The life of a socket

    Creating, connecting, closing and deleting: what is allocated is freed,
    and the cases where it is not. *)

From S2P Require Import AppData.
From S2P Require Import Prelude Endian CString Strerror Msg MsgReader Uri World Watcher.
From S2P Require Import Demo Backend BackendUv Conn Socket SocketUv Owner Dial.
From Stdlib Require Import Ascii.

(** Evaluate a computation on an explicit state. *)
Ltac eval_world :=
  unfold mbind, st_bind, gets, modify, demand, mret, st_ret; cbn -[lookup insert delete].

Section lifecycle.
Context `{Env} `{App}.

(** The state of a socket that has just been created. *)
Definition new_sock (s b : nat) : sc_socket :=
  Socket (Some 0) (Some (Some b)) (Some None) (Some (sc_watcher_init s)).
Definition new_buv (b s : nat) : socket_uv :=
  SocketUv s b b b [UvBuf None 0; UvBuf None 0] None None PROTO_NOSET
    (replicate sizeof_sockaddr_in x00).

(** A socket whose backend socket could not be allocated. *)
Definition starved_sock : sc_socket := Socket (Some 0) (Some None) None None.

Lemma sc_socket_new_ok w :
  w_backend w = true →
  malloc_ok (w_mallocs w) = true → malloc_ok (S (w_mallocs w)) = true →
  let s := w_next w in let b := S (w_next w) in
  sc_socket_new buv_funcs w = Ok (Some s,
    World (S (S (w_mallocs w))) (S b) (w_msgs w) (w_uris w)
      (<[s := new_sock s b]> (w_socks w)) (<[b := Some (new_buv b s)]> (w_buvs w))
      (w_backend w) (w_buv_data w) (w_msg_alloc w) (w_msg_free w)
      (w_stderr w) (w_uv w) (w_obs w) (w_app w)).
Proof.
  intros Hbe M1 M2 s b. destruct w as [mal nx ms us ss bs be d al fr err uv obs app].
  cbn in Hbe, M1, M2, s, b. subst be.
  unfold sc_socket_new, update_sock, get_sock, put_sock, the_backend, buv_alloc, malloc.
  eval_world. rewrite M1. eval_world.
  repeat (rewrite lookup_insert_eq; eval_world).
  unfold buv_alloc, malloc. eval_world. rewrite M2. eval_world.
  repeat (rewrite lookup_insert_eq; eval_world).
  unfold buv_init, put_buv. eval_world. repeat (rewrite lookup_insert_eq; eval_world).
  by rewrite !insert_insert_eq.
Qed.

(** Creating a socket leaks when memory runs out half-way: without memory
    for the backend socket it returns null, but the socket it allocated
    before stays in the heap, with no way left to free it. *)
Lemma sc_socket_new_starved w :
  w_backend w = true →
  malloc_ok (w_mallocs w) = true → malloc_ok (S (w_mallocs w)) = false →
  sc_socket_new buv_funcs w = Ok (None,
    World (S (S (w_mallocs w))) (S (w_next w)) (w_msgs w) (w_uris w)
      (<[w_next w := starved_sock]> (w_socks w)) (w_buvs w)
      (w_backend w) (w_buv_data w) (w_msg_alloc w) (w_msg_free w)
      (w_stderr w) (w_uv w) (w_obs w) (w_app w)).
Proof.
  intros Hbe M1 M2. destruct w as [mal nx ms us ss bs be d al fr err uv obs app].
  cbn in Hbe, M1, M2. subst be.
  unfold sc_socket_new, update_sock, get_sock, put_sock, the_backend, buv_alloc, malloc.
  eval_world. rewrite M1. eval_world.
  repeat (rewrite lookup_insert_eq; eval_world).
  unfold buv_alloc, malloc. eval_world. rewrite M2. eval_world.
  repeat (rewrite lookup_insert_eq; eval_world). by rewrite !insert_insert_eq.
Qed.

(** Without memory for the socket. *)
Lemma sc_socket_new_none w :
  malloc_ok (w_mallocs w) = false → sc_socket_new buv_funcs w = Ok (None, set_mallocs (S (w_mallocs w)) w).
Proof. intros M1. unfold sc_socket_new, malloc. eval_world. by rewrite M1. Qed.

(** Closing: libuv is asked to close the handle, and the URI goes. *)
Definition drop_uri (o : option nat) (us : gmap nat uri) : gmap nat uri :=
  match o with Some u => delete u us | None => us end.

Lemma sc_socket_close_ok s k b o w :
  w_backend w = true → w_socks w !! s = Some k → s_backend k = Some (Some b) →
  s_uri k = Some o → (∀ u, o = Some u → is_Some (w_uris w !! u)) →
  sc_socket_close buv_funcs s w = Ok (0,
    World (w_mallocs w) (w_next w) (w_msgs w) (drop_uri o (w_uris w))
      (<[s := with_uri (Some None) k]> (w_socks w)) (w_buvs w)
      (w_backend w) (w_buv_data w) (w_msg_alloc w) (w_msg_free w)
      (w_stderr w) (w_uv w ++ [UvClose b]) (w_obs w) (w_app w)).
Proof.
  intros Hbe Hs Hb Ho Hlive. destruct w as [mal nx ms us ss bs be d al fr err uv obs app].
  cbn in Hbe, Hs, Hlive. subst be. unfold sc_socket_close.
  erewrite st_bind_ok by (by apply the_backend_ok).
  erewrite st_bind_ok by (by apply (sock_backend_obj_ok s k b)).
  cbn [be_close buv_funcs]. unfold buv_close, uv_do, get_sock. eval_world. rewrite Hs.
  eval_world. rewrite Ho. eval_world. destruct o as [u|].
  - destruct (Hlive u eq_refl) as [x Hx]. unfold sc_uri_del_at. eval_world. rewrite Hx.
    eval_world. by erewrite update_sock_ok by exact Hs.
  - unfold mret, st_ret. rewrite insert_id; [done|]. rewrite Hs. f_equal.
    destruct k; cbn in *. by subst.
Qed.

(** Deleting: the URI, the backend socket and the socket go. *)
Lemma sc_socket_del_ok s k b o vb w :
  w_backend w = true → w_socks w !! s = Some k → s_backend k = Some (Some b) →
  s_uri k = Some o → (∀ u, o = Some u → is_Some (w_uris w !! u)) → w_buvs w !! b = Some vb →
  sc_socket_del buv_funcs s w = Ok (tt,
    World (w_mallocs w) (w_next w) (w_msgs w) (drop_uri o (w_uris w))
      (delete s (w_socks w)) (delete b (w_buvs w))
      (w_backend w) (w_buv_data w) (w_msg_alloc w) (w_msg_free w)
      (w_stderr w) (w_uv w) (w_obs w) (w_app w)).
Proof.
  intros Hbe Hs Hb Ho Hlive Hvb. destruct w as [mal nx ms us ss bs be d al fr err uv obs app].
  cbn in Hbe, Hs, Hlive, Hvb. subst be.
  unfold sc_socket_del, del_uri, sock_backend, get_sock, the_backend, free_sock, sc_uri_del_at.
  eval_world. rewrite Hs. eval_world. rewrite Ho. eval_world. destruct o as [u|].
  - destruct (Hlive u eq_refl) as [x Hx]. eval_world. rewrite Hx. eval_world. rewrite Hs.
    eval_world. rewrite Hb. eval_world. unfold buv_free. eval_world. rewrite Hvb. eval_world.
    by rewrite Hs.
  - eval_world. rewrite Hs. eval_world. rewrite Hb. eval_world. unfold buv_free. eval_world.
    rewrite Hvb. eval_world. by rewrite Hs.
Qed.

(** Closing and then deleting. *)
Lemma close_and_del s k b o vb (e : Z) w :
  w_backend w = true → w_socks w !! s = Some k → s_backend k = Some (Some b) →
  s_uri k = Some o → (∀ u, o = Some u → is_Some (w_uris w !! u)) →
  w_buvs w !! b = Some vb →
  (c ← sc_socket_close buv_funcs s; sc_socket_del buv_funcs s;; mret (Some (e, c))) w =
  Ok (Some (e, 0),
    World (w_mallocs w) (w_next w) (w_msgs w) (drop_uri o (w_uris w))
      (delete s (w_socks w)) (delete b (w_buvs w))
      (w_backend w) (w_buv_data w) (w_msg_alloc w) (w_msg_free w)
      (w_stderr w) (w_uv w ++ [UvClose b]) (w_obs w) (w_app w)).
Proof.
  intros Hbe Hs Hb Ho Hlive Hvb.
  rewrite (st_bind_ok _ _ _ _ _ (sc_socket_close_ok s k b o w Hbe Hs Hb Ho Hlive)).
  erewrite st_bind_ok.
  2: { eapply (sc_socket_del_ok s (with_uri (Some None) k) b None vb); [done| |done..].
       apply lookup_insert_eq. }
  unfold mret, st_ret. cbn [w_mallocs w_next w_msgs w_uris w_socks w_buvs w_backend
    w_buv_data w_msg_alloc w_msg_free w_stderr w_uv w_obs].
  by rewrite delete_insert_eq.
Qed.

(** Create, connect, close, delete; the codes of connecting and closing. *)
Definition session (uri : cbuf) : M (option (Z * Z)) :=
  o ← sc_socket_new buv_funcs;
  match o with
  | None => mret None
  | Some s =>
      e ← sc_socket_connect buv_funcs s uri;
      c ← sc_socket_close buv_funcs s;
      sc_socket_del buv_funcs s;;
      mret (Some (e, c))
  end.

(** What the session asks of libuv, with the code of connecting. *)
Definition session_plan (loop : Z) (b : nat) (past : list uv_call) (ref : uri_ref) :
    list uv_call * Z :=
  match ref with
  | ROk y => connect_plan loop b past y
  | RErr e => ([], e)
  | RFault => ([], 0)
  end.

(** Without memory for the URI, connecting is refused. *)
Lemma connect_starved s k uri w :
  w_socks w !! s = Some k → malloc_ok (w_mallocs w) && malloc_ok (S (w_mallocs w)) = false →
  ∃ n, sc_socket_connect buv_funcs s uri w =
    Ok (SC_ENOMEM, set_socks (<[s := with_uri (Some None) k]> (w_socks w)) (set_mallocs n w)).
Proof.
  intros Hs HM. destruct (set_new_uri_eq s k uri None SC_ENOMEM w Hs) as [n En].
  { by destruct (malloc_ok (w_mallocs w)), (malloc_ok (S (w_mallocs w))). }
  exists n. unfold sc_socket_connect. by rewrite (st_bind_ok _ _ _ _ _ En).
Qed.

(** The state once a socket has been created. *)
Definition new_world (w : world) : world :=
  World (S (S (w_mallocs w))) (S (S (w_next w))) (w_msgs w) (w_uris w)
    (<[w_next w := new_sock (w_next w) (S (w_next w))]> (w_socks w))
    (<[S (w_next w) := Some (new_buv (S (w_next w)) (w_next w))]> (w_buvs w))
    (w_backend w) (w_buv_data w) (w_msg_alloc w) (w_msg_free w)
    (w_stderr w) (w_uv w) (w_obs w) (w_app w).

Definition fresh (w : world) : Prop := ∀ a, (w_next w ≤ a)%nat →
  w_socks w !! a = None ∧ w_buvs w !! a = None ∧ w_uris w !! a = None.

(** The session made the calls [calls], and left the heaps as they were in [w]. *)
Definition left_nothing (w w' : world) (calls : list uv_call) : Prop :=
  w_socks w' = w_socks w ∧ w_buvs w' = w_buvs w ∧ w_uris w' = w_uris w ∧ w_uv w' = w_uv w ++ calls.

(** A socket that has connected, or tried to, is closed and deleted. *)
Lemma close_and_del_new w o v calls w2 (e : Z) :
  fresh w → w_backend w = true →
  let s := w_next w in let b := S s in
  w_backend w2 = true → w_socks w2 = <[s := with_uri (Some o) (new_sock s b)]> (w_socks (new_world w)) →
  w_buvs w2 = <[b := Some v]> (w_buvs (new_world w)) →
  match o with
  | Some u => w_uris w !! u = None ∧ ∃ x, w_uris w2 = <[u := x]> (w_uris w)
  | None => w_uris w2 = w_uris w
  end →
  w_uv w2 = w_uv w ++ calls →
  ∃ w', (c ← sc_socket_close buv_funcs s; sc_socket_del buv_funcs s;; mret (Some (e, c))) w2 =
      Ok (Some (e, 0), w') ∧ left_nothing w w' (calls ++ [UvClose b]).
Proof.
  intros Hf Hbe s b Hbe2 Es Eb Eu Euv.
  destruct (Hf s ltac:(done)) as (Fs & _ & _), (Hf b ltac:(unfold b, s; lia)) as (_ & Fb & _).
  eexists. split.
  - apply (close_and_del s (with_uri (Some o) (new_sock s b)) b o (Some v)); try done.
    + by rewrite Es, lookup_insert_eq.
    + intros u ->. destruct Eu as (_ & x & ->). rewrite lookup_insert_eq. by eexists.
    + by rewrite Eb, lookup_insert_eq.
  - unfold left_nothing, new_world in *. cbn in *. rewrite Es, Eb, Euv, !insert_insert_eq, !delete_insert_id by done.
    split_and!; try done; [|by rewrite app_assoc].
    destruct o as [u|]; cbn [drop_uri]; [|done]. destruct Eu as (Fu & x & ->). by apply delete_insert_id.
Qed.

(** The rest of a session, once the socket is there. *)
Lemma session_after_new loop tok rest w :
  w_backend w = true → w_buv_data w = Some loop → fresh w →
  NUL ∉ tok ++ ":"%char :: rest → tok ≠ [] → ":"%char ∉ tok → uri_reference tok rest ≠ RFault →
  let s := w_next w in let b := S s in
  let plan := if malloc_ok (S (S (w_mallocs w))) && malloc_ok (S (S (S (w_mallocs w))))
    then session_plan loop b (w_uv w) (uri_reference tok rest) else ([], SC_ENOMEM) in
  ∃ w', (e ← sc_socket_connect buv_funcs s (tok ++ ":"%char :: rest);
      c ← sc_socket_close buv_funcs s; sc_socket_del buv_funcs s;; mret (Some (e, c))) (new_world w) =
    Ok (Some (snd plan, 0), w') ∧ left_nothing w w' (fst plan ++ [UvClose b]).
Proof.
  intros Hbe Hl Hf Hn Hne Hc Href s b plan.
  assert (Hs : w_socks (new_world w) !! s = Some (new_sock s b)) by apply lookup_insert_eq.
  assert (Hb : w_buvs (new_world w) !! b = Some (Some (new_buv b s))) by apply lookup_insert_eq.
  unfold plan. destruct (_ && _) eqn:HM.
  - apply andb_true_iff in HM as [M2 M3].
    pose proof (connect_dials s (new_sock s b) b (new_buv b s) loop tok rest (new_world w)
      Hs eq_refl Hb Hl Hbe M2 M3 Hn Hne Hc) as Hd.
    destruct (uri_reference tok rest) as [|e|y]; cbn [dials session_plan] in *; [done| |].
    + destruct Hd as (w2 & E2 & Euv & Euri & Ebuv & Esock & Ebe & _).
      rewrite (st_bind_ok _ _ _ _ _ E2). apply (close_and_del_new w None (new_buv b s)); try done.
      * by rewrite Ebe.
      * by rewrite Ebuv, insert_id.
      * by rewrite Euv, app_nil_r.
    + destruct Hd as (w2 & x & addr & E2 & Euv & _ & Euri & Ebuv & Esock & Ebe & _).
      rewrite (st_bind_ok _ _ _ _ _ E2).
      apply (close_and_del_new w (Some (w_next (new_world w))) (with_addr addr (new_buv b s))); try done.
      * by rewrite Ebe.
      * split; [apply Hf; cbn; lia|by exists x].
  - destruct (connect_starved s _ (tok ++ ":"%char :: rest) _ Hs HM) as [n E].
    rewrite (st_bind_ok _ _ _ _ _ E). apply (close_and_del_new w None (new_buv b s)); try done.
    + cbn. by rewrite insert_insert_eq.
    + by rewrite app_nil_r.
Qed.

(** C14. What a session leaves behind, whatever fails in it: creating a
    socket, connecting it by any URI that does not crash the parser, closing
    and deleting it completes.  When there is memory for the socket and its
    backend socket, it leaves the heaps of sockets, backend sockets and URIs
    as they were, and asks libuv for the calls of the URI and the closing:
    whether there is no memory for the URI, the URI is refused, libuv refuses,
    or all goes well.  Without memory for the backend socket it leaves exactly
    one thing behind, the socket that sc_socket_new does not free; without
    memory for the socket, nothing. *)
Theorem session_leaves_nothing loop tok rest w :
  w_backend w = true → w_buv_data w = Some loop → fresh w →
  NUL ∉ tok ++ ":"%char :: rest → tok ≠ [] → ":"%char ∉ tok →
  uri_reference tok rest ≠ RFault →
  let ok i := malloc_ok (i + w_mallocs w) in
  let b := S (w_next w) in
  let plan := if ok 2%nat && ok 3%nat then session_plan loop b (w_uv w) (uri_reference tok rest)
              else ([], SC_ENOMEM) in
  ∃ r w', session (tok ++ ":"%char :: rest) w = Ok (r, w') ∧
    if ok 0%nat && ok 1%nat then r = Some (snd plan, 0) ∧ left_nothing w w' (fst plan ++ [UvClose b])
    else r = None ∧ w_buvs w' = w_buvs w ∧ w_uris w' = w_uris w ∧ w_uv w' = w_uv w ∧
      w_socks w' = if ok 0%nat then <[w_next w := starved_sock]> (w_socks w) else w_socks w.
Proof.
  intros Hbe Hl Hf Hn Hne Hc Href ok b plan. unfold ok in *. cbn [Nat.add] in *. unfold session.
  destruct (malloc_ok (w_mallocs w)) eqn:M0; [destruct (malloc_ok (S (w_mallocs w))) eqn:M1|]; cbn [andb].
  - rewrite (st_bind_ok _ _ _ _ _ (sc_socket_new_ok w Hbe M0 M1)).
    destruct (session_after_new loop tok rest w Hbe Hl Hf Hn Hne Hc Href) as (w' & E & Hw').
    by exists (Some (snd plan, 0)), w'.
  - rewrite (st_bind_ok _ _ _ _ _ (sc_socket_new_starved w Hbe M0 M1)). by eexists _, _.
  - rewrite (st_bind_ok _ _ _ _ _ (sc_socket_new_none w M0)). by eexists _, _.
Qed.

(** Some call has initialised the handle at [b]. *)
Definition initialised (b : nat) (calls : list uv_call) : Prop :=
  ∃ loop, UvTcpInit loop b ∈ calls ∨ UvPipeInit loop b ∈ calls.

(** Closing asks libuv to close the handle whether or not there is one:
    for a socket that never connected nor bound, the handle libuv is asked
    to close was never initialised, by any call. *)
Lemma close_uninitialised_handle w :
  w_backend w = true →
  malloc_ok (w_mallocs w) = true → malloc_ok (S (w_mallocs w)) = true →
  let b := S (w_next w) in
  ¬ initialised b (w_uv w) →
  ∃ w', (o ← sc_socket_new buv_funcs;
         match o with None => mret (-1) | Some s => sc_socket_close buv_funcs s end) w =
        Ok (0, w') ∧ UvClose b ∈ w_uv w' ∧ ¬ initialised b (w_uv w').
Proof.
  intros Hbe M1 M2 b Hun.
  rewrite (st_bind_ok _ _ _ _ _ (sc_socket_new_ok w Hbe M1 M2)).
  erewrite (sc_socket_close_ok _ (new_sock (w_next w) b) b None);
    [|done|apply lookup_insert_eq|done..].
  eexists. split; [done|]. cbn. split; [set_solver|].
  intros [loop Hin]. apply Hun. exists loop. set_solver.
Qed.

(** The message at [m] is in the heap, and no backend socket refers to it. *)
Definition leaked_msg (w : world) (m : nat) : Prop :=
  is_Some (w_msgs w !! m) ∧
  ∀ b v, w_buvs w !! b = Some (Some v) → uv_msg v ≠ Some m.
(** The URI at [u] is in the heap, and no socket points to it. *)
Definition leaked_uri (w : world) (u : nat) : Prop :=
  is_Some (w_uris w !! u) ∧ ∀ s, ¬ owns w s u.

(** C37. Closing and deleting a socket in the middle of a message leaks the
    message: it stays in the heap, and no backend socket refers to it any
    more. *)
Theorem close_leaks_partial_message s k b v m w :
  w_backend w = true → w_socks w !! s = Some k → s_backend k = Some (Some b) →
  s_uri k = Some None → w_buvs w !! b = Some (Some v) →
  uv_msg v = Some m → is_Some (w_msgs w !! m) →
  (∀ b' v', w_buvs w !! b' = Some (Some v') → uv_msg v' = Some m → b' = b) →
  ∃ w', (sc_socket_close buv_funcs s;; sc_socket_del buv_funcs s) w = Ok (tt, w') ∧
    w_buvs w' !! b = None ∧ leaked_msg w' m.
Proof.
  intros Hbe Hs Hb Ho Hv Hm Hlive Honly.
  rewrite (st_bind_ok _ _ _ _ _ (sc_socket_close_ok s k b None w Hbe Hs Hb Ho ltac:(done))).
  erewrite (sc_socket_del_ok s (with_uri (Some None) k) b None (Some v));
    [|done|apply lookup_insert_eq|done..].
  eexists. split; [done|]. cbn. split; [apply lookup_delete_eq|]. split; [done|].
  intros b' v' Hb' E. cbn in Hb'. apply lookup_delete_Some in Hb' as [Hne Hb']. by eapply Hne, eq_sym, Honly.
Qed.

(** C36. Connecting again leaks the first URI: after [sc_socket_connect] on a
    socket that has a URI, whatever the new one and whatever the outcome,
    the first stays in the heap and no socket points to it. *)
Theorem reconnect_leaks_uri (be : backend) `{!BackendFrame be} s u uri e w w' :
  uris_owned w → owns w s u → sc_socket_connect be s uri w = Ok (e, w') →
  leaked_uri w' u.
Proof.
  intros HO Hown E. unfold leaked_uri. pose proof HO as [L1 L2 L3 _ L5].
  assert (Hu : is_Some (w_uris w !! u)) by (by apply (L1 s); [|intros []]).
  unfold sc_socket_connect in E. apply st_bind_inv in E as (r & w1 & E1 & E).
  assert (Hleft : is_Some (w_uris w1 !! u) ∧ ∀ s', ¬ owns w1 s' u).
  { eapply set_new_uri_leaves; eauto. }
  assert (Hfr : leaves_sockets w1 w').
  { destruct (fst r) as [u'|]; [|by injection E as <- <-].
    apply st_bind_inv in E as (be' & w2 & E2 & E). apply the_backend_inv in E2 as [-> ->].
    apply st_bind_inv in E as (b & w2 & E2 & E).
    assert (leaves_sockets w1 w2).
    { assert (moves leaves_sockets (sock_backend_obj s)) as Hmv
        by (unfold sock_backend_obj, sock_backend, get_sock; go_moves).
      by eapply Hmv. }
    etrans; [done|]. by eapply frame_connect. }
  destruct Hfr as (Es & Eu & _). unfold owns in *. by rewrite Es, Eu.
Qed.
End lifecycle.

(** ** Concrete lives *)
Section lifecycle_demo.
#[local] Existing Instance demo_app.

(** Nothing allocated yet, with the backend set. *)
Definition ready_world : world :=
  World 0 1 ∅ ∅ ∅ ∅ true (Some 0) DefaultAlloc DefaultFree [] [] [] app_state0.

Lemma ready_fresh : fresh ready_world.
Proof. by intros a _. Qed.

(** With memory; and when there is none but for the first object. *)
Lemma session_leaves_nothing_witness :
  (∃ r w', @session demo_env demo_app (str "tcp" ++ ":"%char :: str "//127.0.0.1:8765") ready_world =
      Ok (r, w') ∧ r = Some (0, 0) ∧
    left_nothing ready_world w' [UvTcpInit 0 2; UvTcpConnect 2 (replicate 16 x00); UvClose 2]) ∧
  ∃ r w', @session (lean_env 1) demo_app (str "tcp" ++ ":"%char :: str "//127.0.0.1:8765") ready_world =
      Ok (r, w') ∧ r = None ∧ w_buvs w' = ∅ ∧ w_uris w' = ∅ ∧ w_uv w' = [] ∧
    w_socks w' = {[1%nat := starved_sock]}.
Proof.
  assert (Href : uri_reference (str "tcp") (str "//127.0.0.1:8765") ≠ RFault)
    by (vm_compute; discriminate).
  split.
  - apply (@session_leaves_nothing demo_env demo_app 0 (str "tcp") (str "//127.0.0.1:8765") ready_world
      eq_refl eq_refl ready_fresh); [decide_by_run|done|decide_by_run|exact Href].
  - apply (@session_leaves_nothing (lean_env 1) demo_app 0 (str "tcp") (str "//127.0.0.1:8765") ready_world
      eq_refl eq_refl ready_fresh); [decide_by_run|done|decide_by_run|exact Href].
Defined.

#[local] Existing Instance demo_env.

(** The socket of [demo_world], with the first half of a message. *)
Definition half_world : world :=
  set_buvs {[2%nat := Some (with_msg (Some 3%nat) demo_buv)]}
    (set_msgs {[3%nat := fresh_msg 64]} demo_world).

Lemma close_leaks_partial_message_witness :
  ∃ w', (sc_socket_close buv_funcs 1;; sc_socket_del buv_funcs 1) half_world = Ok (tt, w') ∧
    w_buvs w' !! 2%nat = None ∧ leaked_msg w' 3.
Proof.
  apply (close_leaks_partial_message 1 demo_sock 2 (with_msg (Some 3%nat) demo_buv) 3 half_world);
    try reflexivity; [by eexists|].
  intros b' v' Hb _. cbn in Hb. by apply lookup_singleton_Some in Hb as [<- _].
Defined.

(** The socket of [demo_world], with a URI. *)
Definition bound_world : world :=
  set_socks {[1%nat := with_uri (Some (Some 0%nat)) demo_sock]}
    (set_uris {[0%nat := Uri [] None LNone]} demo_world).

Lemma bound_world_owned : uris_owned bound_world ∧ owns bound_world 1 0.
Proof.
  assert (Ho : ∀ s u, owns bound_world s u → s = 1%nat ∧ u = 0%nat).
  { intros s u (v & Hv & Eu). cbn in Hv. apply lookup_singleton_Some in Hv as [<- <-].
    cbn in Eu. by simplify_eq. }
  split; [|by eexists].
  split.
  - intros s u [-> ->]%Ho _. by eexists.
  - intros s1 s2 u [-> _]%Ho [-> _]%Ho. done.
  - intros u [x Hx]. cbn in Hx. apply lookup_singleton_Some in Hx as [<- _]. cbn. lia.
  - intros s [x Hx]. cbn in Hx. apply lookup_singleton_Some in Hx as [<- _]. cbn. lia.
  - intros s u [-> ->]%Ho. cbn. lia.
Qed.

Lemma reconnect_leaks_uri_witness :
  ∃ e w', sc_socket_connect buv_funcs 1 (str "tcp://127.0.0.1:8765") bound_world = Ok (e, w') ∧
    leaked_uri w' 0.
Proof.
  destruct bound_world_owned as [HO Hown].
  destruct (sc_socket_connect buv_funcs 1 (str "tcp://127.0.0.1:8765") bound_world)
    as [[e w']|f] eqn:E; [|vm_compute in E; discriminate].
  exists e, w'. split; [reflexivity|].
  exact (reconnect_leaks_uri buv_funcs 1 0 _ e bound_world w' HO Hown E).
Defined.
End lifecycle_demo.
