(* ===== verification/System.v ===== *)
(** * The library at work

    The application calls the public operations and libuv runs its callbacks,
    in any order: what holds in every state that can be reached. *)

From S2P Require Import Prelude Endian CString Strerror Msg MsgReader Uri World Watcher.
From S2P Require Import Demo Backend BackendUv Frame Recv Socket SocketUv Owner Dial.
From S2P Require Import Lifecycle Sc.

(** What libuv does to the library: it runs its callbacks, on the handle or
    request of a backend socket, and stores the bytes it received. *)
Inductive uv_event :=
  | EvConnect (b : nat) (status : Z)
  | EvConnection (b : nat) (status : Z)
  | EvAlloc (b : nat) (suggested_size : Z)
  | EvFill (p : ptr) (bs : list byte)
  | EvRead (b : nat) (nread : Z)
  | EvWrite (b : nat) (status : Z)
  | EvClose (b : nat).

Section system.
Context `{Env} `{App}.

Definition event (e : uv_event) : M unit :=
  match e with
  | EvConnect b st => on_connect_wrap b st
  | EvConnection b st => on_connection_wrap b st
  | EvAlloc b n => alloc_wrap b n;; mret tt
  | EvFill p bs => uv_fill p bs
  | EvRead b n => read_wrap b n
  | EvWrite b st => write_wrap b st
  | EvClose b => close_wrap b
  end.

(** The states of a program that uses the library. *)
Inductive step : world → world → Prop :=
  | step_init b data al fr w w' : sc_init b data al fr w = Ok (tt, w') → step w w'
  | step_strerror e w t w' : sc_strerror e w = Ok (t, w') → step w w'
  | step_api c w w' : api buv_funcs c w = Ok (tt, w') → step w w'
  | step_event e w w' : event e w = Ok (tt, w') → step w w'.

Definition reachable (w : world) : Prop := rtc step world0 w.

(** The application's functions, in turn, do no more than call the library:
    they keep what every operation keeps. *)
Class AppKeeps (P : world → Prop) : Prop := {
  keeps_cb f ev : keeps P (app_cb f ev);
  keeps_alloc f n : keeps P (app_alloc f n);
  keeps_free f m : keeps P (app_free f m)
}.
End system.

Section ownership.
Context `{Env} `{App} `{!AppKeeps uris_owned}.

Lemma frame_owned {A} (m : M A) : moves leaves_sockets m → keeps uris_owned m.
Proof. apply frame_keeps. Qed.

Lemma keeps_fire fn ev : keeps uris_owned (fire fn ev).
Proof.
  apply moves_fire; [apply _|intros ??; apply owned_frame|apply keeps_cb].
Qed.

Lemma keeps_watcher_call s sel mk : keeps uris_owned (watcher_call s sel mk).
Proof.
  pose proof keeps_fire as Hf. unfold keeps, watcher_call, get_sock in *. go_moves.
Qed.

Lemma keeps_update_buv b g : keeps uris_owned (update_buv b g).
Proof. apply frame_owned. go_moves. Qed.

Lemma keeps_drop_msg b : keeps uris_owned (drop_msg b).
Proof.
  pose proof (keeps_update_buv b) as Hup.
  pose proof (keeps_free (P := uris_owned)) as Hfree.
  assert (Hm : ∀ m, keeps uris_owned (free_msg m)) by (intros; apply frame_owned; go_moves).
  unfold keeps, drop_msg, sc_msg_free, default_heap_free, get_buv in *. go_moves.
Qed.

Lemma keeps_msg_alloc n : keeps uris_owned (sc_msg_alloc n).
Proof.
  pose proof (keeps_alloc (P := uris_owned)) as Ha.
  assert (Hm : keeps uris_owned (malloc (λ a w, set_msgs (<[a := fresh_msg n]> (w_msgs w)) w)))
    by (apply frame_owned; go_moves).
  unfold keeps, sc_msg_alloc, default_heap_alloc in *. go_moves.
Qed.

Lemma keeps_event e : keeps uris_owned (event e).
Proof.
  pose proof keeps_watcher_call as Hw. pose proof keeps_update_buv as Hup.
  pose proof keeps_drop_msg as Hdrop. pose proof keeps_msg_alloc as Ha.
  assert (Hassert : ∀ c, keeps uris_owned (assert_that c)) by
    (intros; apply frame_owned; go_moves).
  assert (Hput : ∀ m v, keeps uris_owned (put_msg m v)) by
    (intros; apply frame_owned; unfold put_msg; go_moves).
  unfold keeps in *. destruct e; cbn [event].
  - unfold on_connect_wrap, get_buv. go_moves.
  - unfold on_connection_wrap, get_buv. go_moves.
  - unfold alloc_wrap, get_buv, sc_msg_init_at, get_msg. go_moves.
  - unfold uv_fill, get_msg. go_moves.
  - unfold read_wrap, get_buv, call_on_recv. go_moves.
  - unfold write_wrap, get_buv. go_moves.
  - unfold close_wrap, get_buv. go_moves.
Qed.

(** Changes to neither sockets, URIs nor addresses. *)
Lemma owned_eq w w' :
  w_socks w' = w_socks w → w_uris w' = w_uris w → w_next w' = w_next w →
  uris_owned w → uris_owned w'.
Proof.
  intros Es Eu En [L1 L2 L3 L4 L5]. split; unfold owns in *; rewrite ?Es, ?Eu, ?En; eauto.
Qed.

Lemma keeps_sc_init b data al fr : keeps uris_owned (sc_init b data al fr).
Proof.
  assert (Hm : ∀ g, (∀ w, w_socks (g w) = w_socks w ∧ w_uris (g w) = w_uris w ∧
      w_next (g w) = w_next w) → moves (λ w w', uris_owned w → uris_owned w') (modify g)).
  { intros g Hg. apply moves_modify. intros w. destruct (Hg w) as (?&?&?). by apply owned_eq. }
  assert (Hw : ∀ s, moves (λ w w', uris_owned w → uris_owned w') (sc_warn s))
    by (intros; apply frame_owned; go_moves).
  unfold keeps, sc_init, backend_uv_init, backend_init, sc_msg_init_allocator. go_moves.
Qed.

Lemma keeps_sc_strerror e : keeps uris_owned (sc_strerror e).
Proof.
  pose proof (keeps_the_backend buv_funcs (λ _, False)) as Hb.
  unfold keeps, uris_owned, sc_strerror in *. go_moves.
Qed.

Lemma owned_world0 : uris_owned world0.
Proof.
  assert (Ho : ∀ s u, ¬ owns world0 s u) by (by intros s u (v & Hv & _)).
  split.
  - by intros s u []%Ho.
  - by intros s1 s2 u []%Ho.
  - by intros u [x Hx].
  - by intros s [x Hx].
  - by intros s u []%Ho.
Qed.

Lemma reachable_owned w : reachable w → uris_owned w.
Proof.
  intros Hr. cut (∀ w1 w2, rtc step w1 w2 → uris_owned w1 → uris_owned w2);
    [intros Hk; eapply Hk, owned_world0; exact Hr|].
  induction 1 as [|w1 w2 w3 Hstep _ IH]; [done|]. intros HO. apply IH.
  destruct Hstep as [b data al fr w1 w2 E|e w1 t w2 E|c w1 w2 E|e w1 w2 E].
  - by eapply keeps_sc_init.
  - by eapply keeps_sc_strerror.
  - exact (keeps_api buv_funcs c keeps_cb _ _ _ E HO).
  - by eapply keeps_event.
Qed.

(** C11. In every state a program can reach, whatever the order of its calls
    and of libuv's callbacks, and whatever libuv and [malloc] answer: no two
    sockets share a URI, and no socket points to a freed one. *)
Theorem reachable_uris_owned w s u :
  reachable w → owns w s u →
  is_Some (w_uris w !! u) ∧ ∀ s', owns w s' u → s' = s.
Proof.
  intros Hr Hs. destruct (reachable_owned w Hr) as [L1 L2 _ _ _].
  split; [by apply (L1 s); [|intros []]|]. intros s' Hs'. by eapply L2.
Qed.

(** A socket is closed [n] times in a row. *)
Fixpoint close_times (s n : nat) : M unit :=
  match n with
  | O => mret tt
  | S n => sc_socket_close buv_funcs s;; close_times s n
  end.

(** The first time frees its URI, if it has one; the others free none. *)
Lemma close_times_ok n s v b o w :
  uris_owned w → w_backend w = true → w_socks w !! s = Some v → s_backend v = Some (Some b) →
  s_uri v = Some o →
  ∃ o' w', close_times s n w = Ok (tt, w') ∧ uris_owned w' ∧ w_backend w' = true ∧
    w_socks w' !! s = Some (with_uri (Some o') v) ∧ w_buvs w' = w_buvs w ∧
    (∀ s', s' ≠ s → w_socks w' !! s' = w_socks w !! s') ∧
    drop_uri o' (w_uris w') = drop_uri o (w_uris w) ∧ w_uv w' = w_uv w ++ replicate n (UvClose b) ∧
    (n ≠ 0%nat ∨ o = None → o' = None).
Proof.
  revert v o w. induction n as [|n IH]; intros v o w HO Hbe Hs Hb Ho.
  { exists o, w. split_and!; try done; [|by rewrite app_nil_r|by intros []]. rewrite Hs. destruct v. cbn in *. by subst. }
  assert (Hlive : ∀ u, o = Some u → is_Some (w_uris w !! u)).
  { intros u ->. apply (owned_live _ _ HO s); [by exists v|intros []]. }
  pose proof (sc_socket_close_ok s v b o w Hbe Hs Hb Ho Hlive) as E. cbn [close_times].
  rewrite (st_bind_ok _ _ _ _ _ E). set (w1 := World _ _ _ _ _ _ _ _ _ _ _ _ _ _) in *.
  destruct (IH (with_uri (Some None) v) None w1) as (o' & w' & -> & HO' & Hbe' & Hs' & Hbu & Hoth & Hu & Huv & Hn);
    [by apply (keeps_socket_close buv_funcs s w 0 w1 E)|done|apply lookup_insert_eq|done..|].
  exists o', w'. split_and!; try done.
  - intros s' Hne. rewrite Hoth by done. apply lookup_insert_ne. congruence.
  - rewrite Huv. cbn. by rewrite <-app_assoc.
  - intros _. apply Hn. by right.
Qed.

(** C15. A URI is freed exactly once: in any state a program can reach, a
    socket may be closed any number of times before it is deleted, and this
    runs to its end; all of it together takes one URI out of the heap, the
    one the socket had, and with the first closing already; the URI of every
    other socket is still there. *)
Theorem uri_freed_once n w s v b o vb :
  reachable w → w_backend w = true → w_socks w !! s = Some v → s_backend v = Some (Some b) →
  s_uri v = Some o → w_buvs w !! b = Some vb →
  ∃ w1 w2, close_times s n w = Ok (tt, w1) ∧ sc_socket_del buv_funcs s w1 = Ok (tt, w2) ∧
    (n ≠ 0%nat → w_uris w1 = drop_uri o (w_uris w)) ∧ w_uris w2 = drop_uri o (w_uris w) ∧
    ∀ s' u, s' ≠ s → owns w s' u → owns w2 s' u ∧ is_Some (w_uris w2 !! u).
Proof.
  intros Hr Hbe Hs Hb Ho Hvb. pose proof (reachable_owned w Hr) as HO.
  destruct (close_times_ok n s v b o w HO Hbe Hs Hb Ho)
    as (o' & w1 & E1 & HO1 & Hbe1 & Hs1 & Hbu & Hoth & Hu & _ & Hn).
  assert (Hlive : ∀ u, o' = Some u → is_Some (w_uris w1 !! u)).
  { intros u ->. apply (owned_live _ _ HO1 s); [by eexists|intros []]. }
  pose proof (sc_socket_del_ok s _ b o' vb w1 Hbe1 Hs1 Hb eq_refl Hlive ltac:(by rewrite Hbu)) as E2.
  eexists w1, _. split; [exact E1|]. split; [exact E2|]. cbn. split_and!; [|done|].
  - intros Hne. rewrite (Hn (or_introl Hne)) in Hu. exact Hu.
  - intros s' u Hne (v' & Hv' & Eu). split.
    + exists v'. split; [|done]. cbn. rewrite lookup_delete_ne by congruence. by rewrite Hoth.
    + rewrite Hu. assert (Hx : is_Some (w_uris w !! u))
        by (apply (owned_live _ _ HO s'); [by exists v'|intros []]).
      destruct o as [u0|]; [|done]. cbn. rewrite lookup_delete_ne; [done|]. intros <-.
      apply Hne. apply (owned_once _ _ HO s' s u0); [by exists v'|by exists v].
Qed.
End ownership.

(** ** A program that connects and closes, with the callbacks that do nothing *)
Section system_demo.
#[local] Existing Instance demo_env.
#[local] Existing Instance demo_app.

#[export] Instance demo_keeps : AppKeeps uris_owned.
Proof.
  split; intros; cbn [app_cb app_alloc app_free demo_app]; apply frame_owned; go_moves.
Qed.

(** The state after a list of public operations on [ready_world]. *)
Fixpoint run_apis (cs : list api_call) : M unit :=
  match cs with
  | [] => mret tt
  | c :: cs => api buv_funcs c;; run_apis cs
  end.

Lemma run_apis_steps cs w w' : run_apis cs w = Ok (tt, w') → rtc step w w'.
Proof.
  revert w. induction cs as [|c cs IH]; intros w E; [injection E as <-; apply rtc_refl|].
  apply st_bind_inv in E as ([] & w1 & E1 & E). eapply rtc_l; [by eapply step_api|by apply IH].
Qed.

Lemma ready_reachable : reachable ready_world.
Proof.
  eapply rtc_l; [|apply rtc_refl]. by apply (step_init SC_LIBUV (Some 0) None None world0 ready_world).
Qed.

(** A connected socket at address 1, its URI at 3. *)
Definition connected_world : world :=
  match run_apis [ApiNew; ApiConnect 1 (str "tcp://127.0.0.1:80")] ready_world with
  | Ok (_, w) => w
  | Fault _ => world0
  end.

Lemma connected_reachable : reachable connected_world.
Proof.
  unfold reachable. etrans; [exact ready_reachable|].
  apply (run_apis_steps [ApiNew; ApiConnect 1 (str "tcp://127.0.0.1:80")]).
  unfold connected_world.
  destruct (run_apis _ ready_world) as [[[] w]|f] eqn:E; [done|].
  vm_compute in E. discriminate.
Qed.

Definition connected_sock : sc_socket :=
  Socket (Some 0) (Some (Some 2%nat)) (Some (Some 3%nat)) (Some (sc_watcher_init 1)).
Lemma connected_sock_at : w_socks connected_world !! 1%nat = Some connected_sock.
Proof. vm_compute. reflexivity. Qed.

Lemma reachable_uris_owned_witness :
  is_Some (w_uris connected_world !! 3%nat) ∧ ∀ s', owns connected_world s' 3 → s' = 1%nat.
Proof.
  apply (reachable_uris_owned connected_world 1 3 connected_reachable).
  exists connected_sock. split; [exact connected_sock_at|reflexivity].
Defined.

Lemma uri_freed_once_witness :
  ∃ w1 w2, close_times 1 2 connected_world = Ok (tt, w1) ∧ sc_socket_del buv_funcs 1 w1 = Ok (tt, w2) ∧
    (2%nat ≠ 0%nat → w_uris w1 = drop_uri (Some 3%nat) (w_uris connected_world)) ∧
    w_uris w2 = drop_uri (Some 3%nat) (w_uris connected_world) ∧
    ∀ s' u, s' ≠ 1%nat → owns connected_world s' u → owns w2 s' u ∧ is_Some (w_uris w2 !! u).
Proof.
  eapply (uri_freed_once 2 connected_world 1 connected_sock 2 (Some 3%nat));
    [exact connected_reachable|vm_compute; reflexivity|exact connected_sock_at|reflexivity..|].
  vm_compute. reflexivity.
Defined.
End system_demo.
