(* ===== verification/Safety.v ===== *)
(** * What the library relies on

    [safe] is what every operation and callback needs and keeps: sockets and
    backend sockets point at each other, callbacks are set, a message under
    way is live and its reader inside of it, and URIs have one owner (Owner.v).
    Here it is shown of the callbacks of libuv, which call the application:
    [AppSafe] is what the application has to promise.  SafeApi.v adds the
    public operations. *)

From S2P Require Import Prelude Endian CString Strerror Msg MsgReader Uri World Watcher.
From S2P Require Import AppData Demo Backend BackendUv Conn Frame Recv Socket SocketUv Owner Dial.
From S2P Require Import Lifecycle Sc System.

(** Running to an end that satisfies [Q], or until the program ends itself with
    [fatal]; no other fault. *)
Definition runs {A} (m : M A) (w : world) (Q : A → world → Prop) : Prop :=
  match m w with
  | Ok (a, w') => Q a w'
  | Fault (Fatal _) => True
  | Fault _ => False
  end.

Section runs.
Context {A B : Type}.

Lemma runs_ok (m : M A) w a w' (Q : A → world → Prop) : m w = Ok (a, w') → Q a w' → runs m w Q.
Proof. unfold runs. by intros ->. Qed.

Lemma runs_inv (m : M A) w a w' (Q : A → world → Prop) : m w = Ok (a, w') → runs m w Q → Q a w'.
Proof. unfold runs. by intros ->. Qed.

Lemma runs_ret (a : A) w (Q : A → world → Prop) : Q a w → runs (mret a) w Q.
Proof. by apply runs_ok. Qed.

Lemma runs_bind (m : M A) (k : A → M B) w Q :
  runs m w (λ a w', runs (k a) w' Q) → runs (mbind k m) w Q.
Proof. unfold runs, mbind, st_bind. by destruct (m w) as [[a w']|]. Qed.

Lemma runs_step (m : M A) (k : A → M B) w a w' Q :
  m w = Ok (a, w') → runs (k a) w' Q → runs (mbind k m) w Q.
Proof. intros E HQ. apply runs_bind. by eapply runs_ok. Qed.

Lemma runs_seq (m : M A) (k : A → M B) w P Q :
  runs m w P → (∀ a w', m w = Ok (a, w') → P a w' → runs (k a) w' Q) → runs (mbind k m) w Q.
Proof.
  intros Hm Hk. apply runs_bind. unfold runs in Hm |- *.
  destruct (m w) as [[a w']|]; [by apply Hk|done].
Qed.

Lemma runs_weaken (m : M A) w (Q Q' : A → world → Prop) :
  (∀ a w', Q a w' → Q' a w') → runs m w Q → runs m w Q'.
Proof. intros HQ. unfold runs. destruct (m w) as [[a w']|[]]; auto. Qed.

(** What every run does to the state. *)
Lemma runs_moves (R : relation world) (m : M A) w Q :
  moves R m → runs m w Q → runs m w (λ a w', Q a w' ∧ R w w').
Proof.
  intros Hk. unfold runs. destruct (m w) as [[a w']|[]] eqn:E; try done.
  intros HQ. split; [done|]. exact (Hk _ _ _ E).
Qed.

(** What every run keeps. *)
Lemma runs_keeps (P : world → Prop) (m : M A) w Q :
  keeps P m → P w → runs m w Q → runs m w (λ a w', Q a w' ∧ P w').
Proof.
  intros Hk Hw Hr. eapply runs_weaken; [|exact (runs_moves _ _ _ _ Hk Hr)].
  cbn. intros a w' [? HP]. auto.
Qed.
End runs.

(** ** Runs of an event loop

    The loop handles events in any order, each one that may come in the state
    it comes in. *)
Section handling.
Context {E : Type} (handle : E → M unit) (may : E → world → Prop).

Fixpoint handle_all (es : list E) : M unit :=
  match es with
  | [] => mret tt
  | e :: es => handle e;; handle_all es
  end.
Fixpoint may_all (es : list E) (w : world) : Prop :=
  match es with
  | [] => True
  | e :: es => may e w ∧ ∀ w', handle e w = Ok (tt, w') → may_all es w'
  end.

Lemma may_cons e es w w' :
  may e w → handle e w = Ok (tt, w') → may_all es w' → may_all (e :: es) w.
Proof. intros He Ew Hes. split; [done|]. intros w2 E2. by replace w2 with w' by congruence. Qed.

Lemma handle_all_keeps (I : world → Prop) es w :
  (∀ e w, I w → may e w → runs (handle e) w (λ _, I)) →
  I w → may_all es w → runs (handle_all es) w (λ _, I).
Proof.
  intros HI. revert w. induction es as [|e es IH]; intros w Hw; cbn [handle_all may_all]; [by intros _|].
  intros [He Hes]. apply (runs_seq _ _ _ _ _ (HI e w Hw He)). intros [] w' Ew Hw'. by apply IH, Hes.
Qed.
End handling.

(** ** The invariant *)

(** No callback is a null pointer. *)
Definition callbacks_set (wt : watcher) : Prop :=
  on_connect wt ≠ CbNull ∧ on_connection wt ≠ CbNull ∧ on_accept wt ≠ CbNull ∧
  on_recv wt ≠ CbNull ∧ on_send wt ≠ CbNull ∧ on_close wt ≠ CbNull.

(** A message under way: of its size field, with the value [sz] so far, [i]
    bytes have been read, and of its data [body]. *)
Record under_way (mv : sc_msg) (sz body : list byte) (i : Z) : Prop := {
  uw_size : size_be mv = Some <$> sz;
  uw_length : length sz = 4%nat;
  uw_head : 0 ≤ i ≤ 4;
  uw_body : take (length body) (data mv) = Some <$> body;
  uw_order : i < 4 → body = [];
  uw_fits : Z.of_nat (length body) ≤ be_value sz;
  uw_room : Z.of_nat (length (data mv)) < 2 ^ 31
}.

(** The reader points into it. *)
Definition reading (h : msg_heap) (v : socket_uv) : Prop :=
  ∀ m, uv_msg v = Some m → ∃ mv sz body i,
    h !! m = Some mv ∧ under_way mv sz body i ∧
    uv_reader v = Some (MsgReader m (Ptr m FSize i) (Ptr m FData (Z.of_nat (length body)))).

(** A socket that can be used. *)
Definition sock_ready (w : world) (s : nat) (k : sc_socket) : Prop :=
  ∃ d b u wt v, k = Socket (Some d) (Some (Some b)) (Some u) (Some wt) ∧
    w_socket wt = s ∧ callbacks_set wt ∧
    w_buvs w !! b = Some (Some v) ∧ uv_watcher v = s.

Record buv_ready (w : world) (b : nat) (v : socket_uv) : Prop := {
  br_stream : stream_data v = b;
  br_connect : connect_data v = b;
  br_write : write_data v = b;
  br_sock : ∃ k, w_socks w !! uv_watcher v = Some k ∧ s_backend k = Some (Some b);
  br_reading : reading (w_msgs w) v
}.

(** The objects that belong together point at each other. *)
Record linked (w : world) : Prop := {
  sf_backend : w_backend w = true;
  sf_loop : is_Some (w_buv_data w);
  sf_alloc : w_msg_alloc w = DefaultAlloc;
  sf_free : w_msg_free w = DefaultFree;
  sf_new_msg a : (w_next w ≤ a)%nat → w_msgs w !! a = None;
  sf_new_sock a : (w_next w ≤ a)%nat → w_socks w !! a = None;
  sf_new_buv a : (w_next w ≤ a)%nat → w_buvs w !! a = None;
  sf_sock s k : w_socks w !! s = Some k → k = starved_sock ∨ sock_ready w s k;
  sf_buv b o : w_buvs w !! b = Some o → ∃ v, o = Some v ∧ buv_ready w b v;
  sf_once b1 b2 v1 v2 m :
    w_buvs w !! b1 = Some (Some v1) → w_buvs w !! b2 = Some (Some v2) →
    uv_msg v1 = Some m → uv_msg v2 = Some m → b1 = b2
}.

Record safe (w : world) : Prop := Safe {
  sf_linked :> linked w;
  sf_owned : uris_owned w
}.

(** The socket at [s] can be used. *)
Definition usable (w : world) (s : nat) : Prop := ∃ k, w_socks w !! s = Some k ∧ sock_ready w s k.
(** The backend socket at [b] is there. *)
Definition alive (w : world) (b : nat) : Prop := is_Some (w_buvs w !! b).

(** The server has been bound. *)
Definition bound (w : world) (s : nat) : Prop :=
  ∃ k b v, w_socks w !! s = Some k ∧ s_backend k = Some (Some b) ∧
    w_buvs w !! b = Some (Some v) ∧ is_bound (uv_proto v) = true.

(** A message no socket is reading into. *)
Definition apart (w : world) (a : nat) : Prop :=
  ∀ b v, w_buvs w !! b = Some (Some v) → uv_msg v ≠ Some a.

(** What the library does of its own accord, between the calls from and to
    the program, leaves alone: sockets, URIs, the program's state, what is
    bound, messages other than those under way, and which streams it has asked
    libuv to read, other than those of [X]. *)
Record internal_but (X : nat → Prop) (w w' : world) : Prop := {
  in_socks : w_socks w' = w_socks w;
  in_uris : w_uris w' = w_uris w;
  in_app : w_app w' = w_app w;
  in_bound s : bound w s → bound w' s;
  in_apart a mv : w_msgs w !! a = Some mv → apart w a → w_msgs w' !! a = Some mv ∧ apart w' a;
  in_reads b : ¬ X b → UvReadStart b ∈ w_uv w' → UvReadStart b ∈ w_uv w
}.
Abbreviation internal := (internal_but (λ _, False)).

#[export] Instance internal_preorder X : PreOrder (internal_but X).
Proof.
  split; [by intros w|]. intros w1 w2 w3 [A1 A2 A3 A4 A5 A6] [B1 B2 B3 B4 B5 B6].
  split; [congruence..|auto| |auto]. intros a mv H1 H2. destruct (A5 a mv H1 H2). by apply B5.
Qed.

Lemma internal_weaken X w w' : internal w w' → internal_but X w w'.
Proof. intros [? ? ? ? ? Hr]. split; try done. intros b _. apply Hr. by intros []. Qed.

(** ** What changes leave it true *)

(** Changes elsewhere. *)
Lemma linked_same w w' :
  w_backend w' = w_backend w → w_buv_data w' = w_buv_data w →
  w_msg_alloc w' = w_msg_alloc w → w_msg_free w' = w_msg_free w →
  w_msgs w' = w_msgs w → w_socks w' = w_socks w → w_buvs w' = w_buvs w →
  (w_next w ≤ w_next w')%nat → linked w → linked w'.
Proof.
  intros E1 E2 E3 E4 Em Es Eb Hn [S1 S2 S3 S4 S5 S6 S7 S8 S9 S10].
  split; rewrite ?E1, ?E2, ?E3, ?E4, ?Em, ?Es, ?Eb; try done.
  - intros a Ha. apply S5. lia.
  - intros a Ha. apply S6. lia.
  - intros a Ha. apply S7. lia.
  - intros s k Hk. unfold sock_ready. rewrite Eb. by apply S8.
  - intros b o Ho. destruct (S9 b o Ho) as (v & -> & [? ? ? ? ?]). exists v. split; [done|].
    split; rewrite ?Es, ?Em; done.
Qed.

Lemma safe_same w w' :
  leaves_sockets w w' → w_buv_data w' = w_buv_data w →
  w_msg_alloc w' = w_msg_alloc w → w_msg_free w' = w_msg_free w →
  w_msgs w' = w_msgs w → w_buvs w' = w_buvs w → safe w → safe w'.
Proof.
  intros Hl E1 E2 E3 E4 E5 [Hw HO]. pose proof Hl as (? & ? & ? & ?).
  split; [by apply (linked_same w)|by apply (owned_frame _ w)].
Qed.

Lemma reading_other h h' v :
  (∀ m, uv_msg v = Some m → h' !! m = h !! m) → reading h v → reading h' v.
Proof. intros Hh Hr m Em. destruct (Hr m Em) as (mv & ?). exists mv. by rewrite Hh. Qed.

Lemma alive_ready w b : safe w → alive w b → ∃ v, w_buvs w !! b = Some (Some v) ∧ buv_ready w b v.
Proof. intros Hs [o Ho]. destruct (sf_buv w Hs b o Ho) as (v & -> & Hv). by exists v. Qed.

(** The owner of a backend socket can be used. *)
Lemma owner_usable w b v :
  safe w → w_buvs w !! b = Some (Some v) → buv_ready w b v → usable w (uv_watcher v).
Proof.
  intros Hs Hb Hv. destruct (br_sock _ _ _ Hv) as (k & Hk & Hkb). exists k. split; [done|].
  destruct (sf_sock w Hs _ _ Hk) as [->|Hr]; done.
Qed.

(** A backend socket changes, with the messages. *)
Lemma linked_buv w b v v' h :
  linked w → w_buvs w !! b = Some (Some v) →
  uv_watcher v' = uv_watcher v → stream_data v' = b → connect_data v' = b → write_data v' = b →
  reading h v' →
  (∀ b2 v2, b2 ≠ b → w_buvs w !! b2 = Some (Some v2) → reading h v2 ∧
     ∀ m, uv_msg v' = Some m → uv_msg v2 ≠ Some m) →
  (∀ a, (w_next w ≤ a)%nat → h !! a = None) →
  linked (set_msgs h (set_buvs (<[b := Some v']> (w_buvs w)) w)).
Proof.
  intros [S1 S2 S3 S4 S5 S6 S7 S8 S9 S10] Hb Ew Es Ec Ewr Hrd Hoth Hnew.
  split; cbn [set_msgs set_buvs w_backend w_buv_data w_msg_alloc w_msg_free w_next w_msgs w_socks w_buvs];
    try done.
  - intros a Ha. rewrite lookup_insert_ne; [by apply S7|]. intros ->. by rewrite S7 in Hb.
  - intros s k Hk. destruct (S8 s k Hk) as [|(d & b1 & u & wt & v1 & -> & ? & ? & Hb1 & ?)]; [by left|].
    right. unfold sock_ready. cbn. destruct (decide (b1 = b)) as [->|Hne].
    + exists d, b, u, wt, v'. split_and!; try done; [apply lookup_insert_eq|congruence].
    + exists d, b1, u, wt, v1. split_and!; try done. by rewrite lookup_insert_ne.
  - intros b1 o Ho. apply lookup_insert_Some in Ho as [[<- <-]|[Hne Ho]].
    + destruct (S9 b (Some v) Hb) as (? & [= <-] & [? ? ? Hk _]). exists v'. split; [done|].
      split; try done. by rewrite Ew.
    + destruct (S9 b1 o Ho) as (v1 & -> & [? ? ? ? ?]). exists v1. split; [done|].
      split; try done. by apply (Hoth b1).
  - intros b1 b2 v1 v2 m H1 H2 M1 M2.
    apply lookup_insert_Some in H1 as [[<- [= <-]]|[Hne1 H1]];
      apply lookup_insert_Some in H2 as [[<- [= <-]]|[Hne2 H2]]; [done|..|by eapply S10].
    + by apply (proj2 (Hoth b2 v2 (not_eq_sym Hne2) H2)) in M1.
    + by apply (proj2 (Hoth b1 v1 (not_eq_sym Hne1) H1)) in M2.
Qed.

Lemma safe_buv w b v v' h :
  safe w → w_buvs w !! b = Some (Some v) →
  uv_watcher v' = uv_watcher v → stream_data v' = b → connect_data v' = b → write_data v' = b →
  reading h v' →
  (∀ b2 v2, b2 ≠ b → w_buvs w !! b2 = Some (Some v2) → reading h v2 ∧
     ∀ m, uv_msg v' = Some m → uv_msg v2 ≠ Some m) →
  (∀ a, (w_next w ≤ a)%nat → h !! a = None) →
  safe (set_msgs h (set_buvs (<[b := Some v']> (w_buvs w)) w)).
Proof.
  intros [Hw HO] ????????. split; [by apply (linked_buv w b v)|].
  apply (owned_frame _ w); [|done]. split_and!; done.
Qed.

(** Members that have to do with neither reading nor the links. *)
Lemma linked_member w b v v' :
  linked w → w_buvs w !! b = Some (Some v) → rx_view v' = rx_view v →
  connect_data v' = connect_data v → write_data v' = write_data v →
  linked (set_buvs (<[b := Some v']> (w_buvs w)) w).
Proof.
  intros Hw Hb [= E1 E2 E3 E4] Ec Ewr.
  destruct (sf_buv w Hw b _ Hb) as (? & [= <-] & [B1 B2 B3 B4 B5]).
  eapply linked_same; [..|eapply (linked_buv w b v v' (w_msgs w) Hw Hb)]; try done; try congruence.
  - intros m. rewrite E3, E4. apply B5.
  - intros b2 v2 Hne L2. destruct (sf_buv w Hw b2 _ L2) as (? & [= <-] & Hr2).
    split; [exact (br_reading _ _ _ Hr2)|]. rewrite E3. intros m F1 F2. apply Hne.
    by eapply (sf_once w Hw b2 b).
  - apply (sf_new_msg w Hw).
Qed.

Lemma safe_member w b v v' :
  safe w → w_buvs w !! b = Some (Some v) → rx_view v' = rx_view v →
  connect_data v' = connect_data v → write_data v' = write_data v →
  safe (set_buvs (<[b := Some v']> (w_buvs w)) w).
Proof.
  intros [Hw HO] ????. split; [by eapply linked_member|].
  apply (owned_frame _ w); [split_and!; done|done].
Qed.

(** A socket changes, but keeps its backend socket. *)
Lemma linked_put_sock w s k d b u wt :
  linked w → w_socks w !! s = Some k → sock_ready w s k → s_backend k = Some (Some b) →
  w_socket wt = s → callbacks_set wt →
  linked (set_socks (<[s := Socket (Some d) (Some (Some b)) (Some u) (Some wt)]> (w_socks w)) w).
Proof.
  intros [S1 S2 S3 S4 S5 S6 S7 S8 S9 S10] Hk (d0 & b0 & u0 & wt0 & v0 & -> & _ & _ & Hb & Hv) Eb Ew Hcb.
  cbn in Eb. injection Eb as <-.
  split; cbn [set_socks w_backend w_buv_data w_msg_alloc w_msg_free w_next w_msgs w_socks w_buvs]; try done.
  - intros a Ha. rewrite lookup_insert_ne; [by apply S6|]. intros ->. by rewrite S6 in Hk.
  - intros s1 k1 H1. apply lookup_insert_Some in H1 as [[<- <-]|[Hne H1]]; [|by apply S8].
    right. by exists d, b0, u, wt, v0.
  - intros b1 o Ho. destruct (S9 b1 o Ho) as (v1 & -> & [? ? ? (k1 & Hk1 & Hb1) ?]). exists v1.
    split; [done|]. split; try done. cbn. destruct (decide (uv_watcher v1 = s)) as [Es|Hne].
    + rewrite Es in *. rewrite lookup_insert_eq. eexists. split; [done|]. rewrite Hk1 in Hk.
      by injection Hk as ->.
    + rewrite lookup_insert_ne by done. by exists k1.
Qed.

(** Only what the library leaves alone matters to [internal]. *)
Lemma internal_same X w w' :
  w_socks w' = w_socks w → w_uris w' = w_uris w → w_app w' = w_app w → w_buvs w' = w_buvs w →
  w_msgs w' = w_msgs w →
  (∀ b, ¬ X b → UvReadStart b ∈ w_uv w' → UvReadStart b ∈ w_uv w) → internal_but X w w'.
Proof.
  intros Es Eu Ea Eb Em Hu. split; [done..| | |done].
  - intros s (k & b & v & ?). exists k, b, v. by rewrite Es, Eb.
  - intros a mv. unfold apart. by rewrite Em, Eb.
Qed.

Lemma internal_buv w b v v' h :
  w_buvs w !! b = Some (Some v) → uv_proto v' = uv_proto v →
  (∀ m, uv_msg v' = Some m → uv_msg v = Some m ∨ w_msgs w !! m = None) →
  (∀ a mv, w_msgs w !! a = Some mv → uv_msg v ≠ Some a → h !! a = Some mv) →
  internal w (set_msgs h (set_buvs (<[b := Some v']> (w_buvs w)) w)).
Proof.
  intros Hb Ep Hm Hh. split; [done..| | |done].
  - intros s (k & b1 & v1 & Hk & Ek & Hb1 & Hp). destruct (decide (b1 = b)) as [->|Hne].
    + exists k, b, v'. split_and!; [done..|apply lookup_insert_eq|]. rewrite Ep. congruence.
    + exists k, b1, v1. split_and!; try done. cbn. by rewrite lookup_insert_ne.
  - intros a mv Ha Hap. split; [by apply (Hh a), (Hap b)|]. intros b1 v1 L1. cbn in L1.
    apply lookup_insert_Some in L1 as [[<- [= <-]]|[_ L1]]; [|by apply (Hap b1)].
    intros [E|E]%Hm; [by apply (Hap b v)|congruence].
Qed.

(** ** Callbacks *)

(** The socket an event is about, and the callback for it. *)
Definition event_socket (ev : cb_event) : nat :=
  match ev with
  | OnConnect s _ | OnConnection s _ | OnAccept s _ | OnRecv s _ _ | OnSend s _ | OnClose s => s
  end.
Definition slot (ev : cb_event) (wt : watcher) : cbfn :=
  match ev with
  | OnConnect _ _ => on_connect wt
  | OnConnection _ _ => on_connection wt
  | OnAccept _ _ => on_accept wt
  | OnRecv _ _ _ => on_recv wt
  | OnSend _ _ => on_send wt
  | OnClose _ => on_close wt
  end.

Lemma slot_set ev wt : callbacks_set wt → slot ev wt ≠ CbNull.
Proof. intros (? & ? & ? & ? & ? & ?). by destruct ev. Qed.

(** What has to be left after a callback: a socket is not deleted by its own
    [on_recv], because [read_wrap] goes on with its backend socket. *)
Definition leaves_reader (ev : cb_event) (w w' : world) : Prop :=
  match ev with
  | OnRecv s _ _ => ∀ k b, w_socks w !! s = Some k → s_backend k = Some (Some b) → alive w' b
  | _ => True
  end.

Section callbacks.
Context `{Env}.

(** The library has asked libuv to read the stream of the socket. *)
Definition read_started (w : world) (s : nat) : Prop :=
  ∃ k b, w_socks w !! s = Some k ∧ s_backend k = Some (Some b) ∧ UvReadStart b ∈ w_uv w.

(** What is handed to the application: a socket that can be used, and a
    message that is complete, on a socket that reads. *)
Definition event_ok (w : world) (ev : cb_event) : Prop :=
  usable w (event_socket ev) ∧
  match ev with
  | OnRecv s m _ => read_started w s ∧
      match m with
      | Some m => ∃ mv p, w_msgs w !! m = Some mv ∧ payload mv = Ok (Some <$> p) ∧
          Z.of_nat (length p) < 2 ^ 31
      | None => True
      end
  | _ => True
  end.

(** [f] is the callback set for the event. *)
Definition registered (w : world) (f : nat) (ev : cb_event) : Prop :=
  ∃ k wt, w_socks w !! event_socket ev = Some k ∧ s_watcher k = Some wt ∧ slot ev wt = CbUser f.

(** The application's callbacks return (or end the program), do no more than
    the library allows, and keep an invariant of their own, which what the
    library does meanwhile has to leave true. *)
Class AppSafe `{App} (J : world → Prop) : Prop := {
  app_internal w w' : internal w w' → J w → J w';
  app_safe f ev w : safe w → J w → event_ok w ev → registered w f ev →
    runs (app_cb f ev) w (λ _ w', safe w' ∧ J w' ∧ leaves_reader ev w w')
}.
End callbacks.

(** The invariant of a program that needs none. *)
Definition no_inv (w : world) : Prop := True.

Section library.
Context `{Env} `{App} (J : world → Prop) `{!AppSafe J}.

Definition sound (w : world) : Prop := safe w ∧ J w.

Lemma sound_internal w w' : internal w w' → safe w' → sound w → sound w'.
Proof. intros Hi Hs [_ Hj]. split; [done|]. by eapply app_internal. Qed.

(** Changes to none of the objects of the library. *)
Lemma sound_same w w' :
  leaves_sockets w w' → w_buv_data w' = w_buv_data w →
  w_msg_alloc w' = w_msg_alloc w → w_msg_free w' = w_msg_free w →
  w_msgs w' = w_msgs w → w_buvs w' = w_buvs w → w_app w' = w_app w → w_uv w' = w_uv w →
  sound w → sound w'.
Proof.
  intros Hl ? ? ? Em Eb Ea Ev Hs. pose proof Hl as (Es & Eu & _). apply (sound_internal w); [|by apply (safe_same w), Hs|done].
  apply internal_same; [done..|]. by rewrite Ev.
Qed.

Lemma fire_ok fn ev w :
  fn ≠ CbNull → (∀ f, fn = CbUser f → registered w f ev) → sound w → event_ok w ev →
  runs (fire fn ev) w (λ _ w', sound w' ∧ leaves_reader ev w w').
Proof.
  intros Hfn Hreg Hs Hev. assert (Hr : leaves_reader ev w w).
  { destruct ev as [| | |s ? ?| |]; try done. intros k b Hk Hb. destruct Hev as [(k' & Hk' & Hr) _].
    cbn [event_socket] in Hk'. destruct Hr as (d & b' & u & wt & v & -> & _ & _ & Hv & _).
    rewrite Hk in Hk'. injection Hk' as ->. cbn in Hb. injection Hb as <-. by eexists. }
  destruct fn as [| |f]; [done|..]; cbn [fire].
  - unfold noop, sc_warn. destruct ndebug; [by eapply runs_ok|].
    eapply runs_ok; [done|]. split; [by apply (sound_same w)|done].
  - apply (runs_step _ _ _ _ _ _ (gets_ok _ w)). eapply runs_step; [done|].
    set (w1 := add_obs _ w). assert (Hs1 : sound w1) by by apply (sound_same w).
    eapply runs_weaken; [|apply (app_safe f ev w1); [apply Hs1..|done|by apply Hreg]].
    intros _ w' (? & ? & ?). by split; [split|].
Qed.

(** A callback of the socket of a backend socket. *)
Lemma watcher_call_ok s sel mk w :
  sound w → usable w s → (∀ wt, sel wt = slot (mk s) wt) → event_socket (mk s) = s →
  event_ok w (mk s) →
  runs (watcher_call s sel mk) w (λ _ w', sound w' ∧ leaves_reader (mk s) w w').
Proof.
  intros Hs (k & Hk & Hr) Hsel Es Hev. pose proof Hr as (d & b & u & wt & v & -> & Ew & Hcb & _).
  unfold watcher_call. apply (runs_step _ _ _ _ _ _ (get_sock_ok _ _ _ Hk)). cbn [s_watcher demand].
  apply (runs_step _ _ _ _ _ _ (ret_ok wt w)). rewrite Ew, Hsel.
  apply fire_ok; [by apply slot_set| |done..].
  intros f E. eexists _, wt. rewrite Es. by split_and!.
Qed.

(** ** Events other than reads *)

(** A callback without a message, of the owner of a backend socket. *)
Lemma owner_call_ok w b v sel mk :
  sound w → w_buvs w !! b = Some (Some v) → buv_ready w b v →
  (∀ s wt, sel wt = slot (mk s) wt) →
  (∀ s, event_socket (mk s) = s ∧ ∀ m e, mk s ≠ OnRecv s m e) →
  runs (watcher_call (uv_watcher v) sel mk) w (λ _ w', sound w').
Proof.
  intros Hs Hb Hr Hsel Hmk. pose proof (owner_usable w b v (proj1 Hs) Hb Hr) as Hu.
  destruct (Hmk (uv_watcher v)) as [Es Hm].
  eapply runs_weaken; [|apply watcher_call_ok; [done..|]]; [by cbn; tauto|].
  split; [by rewrite Es|].
  destruct (mk (uv_watcher v)) as [| | |s m e| |] eqn:E; try done. cbn in Es. subst s.
  by destruct (Hm m e).
Qed.

Ltac owner_call w b :=
  let Hs := fresh in let v := fresh "v" in let Hb := fresh in let Hr := fresh in
  intros Hs (v & Hb & Hr)%alive_ready; [|apply Hs];
  apply (runs_step _ _ _ _ _ _ (get_buv_ok _ _ _ Hb));
  rewrite ?(br_connect _ _ _ Hr), ?(br_stream _ _ _ Hr), ?(br_write _ _ _ Hr);
  apply (runs_step _ _ _ _ _ _ (get_buv_ok _ _ _ Hb));
  apply (owner_call_ok w b v); [done|done|done|done|by intros s; split].

Lemma on_connect_wrap_ok b st w :
  sound w → alive w b → runs (on_connect_wrap b st) w (λ _ w', sound w').
Proof. unfold on_connect_wrap. owner_call w b. Qed.
Lemma on_connection_wrap_ok b st w :
  sound w → alive w b → runs (on_connection_wrap b st) w (λ _ w', sound w').
Proof. unfold on_connection_wrap. owner_call w b. Qed.
Lemma write_wrap_ok b st w :
  sound w → alive w b → runs (write_wrap b st) w (λ _ w', sound w').
Proof. unfold write_wrap. owner_call w b. Qed.
Lemma close_wrap_ok b w :
  sound w → alive w b → runs (close_wrap b) w (λ _ w', sound w').
Proof. unfold close_wrap. owner_call w b. Qed.

(** ** Reads *)

(** The end of a message. *)
Lemma sound_drop_msg b w : sound w → alive w b → runs (drop_msg b) w (λ _ w', sound w').
Proof.
  intros Hs (v & Hb & Hr)%alive_ready; [|apply Hs]. unfold drop_msg, sc_msg_free.
  apply (runs_step _ _ _ _ _ _ (get_buv_ok _ _ _ Hb)).
  set (h := match uv_msg v with Some m => delete m (w_msgs w) | None => w_msgs w end).
  assert (E : (f ← gets w_msg_free; match f with DefaultFree => default_heap_free (uv_msg v)
    | UserFree n => app_free n (uv_msg v) end) w = Ok (tt, set_msgs h w)).
  { rewrite (st_bind_ok _ _ _ _ _ (gets_ok _ w)), (sf_free w (proj1 Hs)). unfold default_heap_free, h.
    destruct (uv_msg v) as [m|] eqn:Em; [|by destruct w].
    destruct (br_reading _ _ _ Hr m Em) as (mv & sz & body & i & Hm & _). by rewrite (free_msg_ok _ _ _ Hm). }
  apply (runs_step _ _ _ _ _ _ E). eapply runs_ok; [by apply update_buv_ok|].
  change (sound (set_msgs h (set_buvs (<[b:=Some (with_msg None v)]> (w_buvs w)) w))).
  apply (sound_internal w); [|apply (safe_buv w b v (with_msg None v) h); try done; try apply Hs; try apply Hr|done].
  - apply (internal_buv w b v); [done|done|done|]. intros a mv Ha Hne. unfold h.
    destruct (uv_msg v) as [m|]; [|done]. rewrite lookup_delete_ne; [done|congruence].
  - intros b2 v2 Hne H2. split; [|done].
    destruct (sf_buv w (proj1 Hs) b2 _ H2) as (? & [= <-] & Hr2).
    apply (reading_other (w_msgs w)); [|exact (br_reading _ _ _ Hr2)]. intros m2 E2. unfold h.
    destruct (uv_msg v) as [m|] eqn:Em; [|done]. rewrite lookup_delete_ne; [done|].
    intros ->. apply Hne. by eapply (sf_once w (proj1 Hs) b2 b).
  - intros a Ha. unfold h. pose proof (sf_new_msg w (proj1 Hs) a Ha). destruct (uv_msg v); [|done].
    apply lookup_delete_None. by right.
Qed.

(** A message, or its absence, is reported, and the message under way freed. *)
Lemma report_ok b v m e w :
  sound w → w_buvs w !! b = Some (Some v) → event_ok w (OnRecv (uv_watcher v) m e) →
  runs (call_on_recv b m e;; drop_msg b) w (λ _ w', sound w').
Proof.
  intros Hs Hb Hev. destruct (sf_buv w (proj1 Hs) b _ Hb) as (? & [= <-] & Hr).
  pose proof (owner_usable w b v (proj1 Hs) Hb Hr) as Hu. unfold call_on_recv.
  apply runs_bind, (runs_step _ _ _ _ _ _ (get_buv_ok _ _ _ Hb)).
  eapply runs_weaken; [|by apply watcher_call_ok].
  cbn. intros _ w' [Hs' Hl]. destruct (br_sock _ _ _ Hr) as (k & Hk & Hkb).
  apply sound_drop_msg; [done|]. by apply (Hl k b).
Qed.

Lemma owner_reads w b v :
  w_buvs w !! b = Some (Some v) → buv_ready w b v → UvReadStart b ∈ w_uv w →
  read_started w (uv_watcher v).
Proof. intros Hb Hr Hu. destruct (br_sock _ _ _ Hr) as (k & Hk & Ek). by exists k, b. Qed.

(** An end of the stream. *)
Lemma read_wrap_negative b n w :
  sound w → alive w b → UvReadStart b ∈ w_uv w → n < 0 → runs (read_wrap b n) w (λ _ w', sound w').
Proof.
  intros Hs (v & Hb & Hr)%alive_ready Hu Hn; [|apply Hs]. unfold read_wrap.
  apply (runs_step _ _ _ _ _ _ (get_buv_ok _ _ _ Hb)). rewrite (br_stream _ _ _ Hr).
  rewrite (decide_True (P := n < 0)) by done.
  set (e := if decide (0 ≤ n ∨ n = UV_EOF) then 0 else n).
  assert (He : n = UV_EOF ∧ e = 0 ∨ n ≠ UV_EOF ∧ e ≠ 0).
  { unfold e. destruct (decide (n = UV_EOF)); [left|right]; case_decide; naive_solver lia. }
  pose proof (report_ok b v None e w Hs Hb) as Hrun. unfold runs in *.
  enough (∀ m : M unit, m w = call_on_recv b None e w → (m;; drop_msg b) w = (call_on_recv b None e;; drop_msg b) w) as Hm.
  { rewrite Hm; [apply Hrun; split; [by eapply owner_usable; [apply Hs|..]|split; [by eapply owner_reads|done]]|].
    destruct He as [[-> He]|[Hne He]]; [rewrite decide_True by done|rewrite decide_False by done];
      rewrite bool_decide_eq_true_2 by done; by rewrite (st_bind_ok _ _ _ _ _ (assert_that_true w)). }
  intros m E. unfold mbind, st_bind. by rewrite E.
Qed.

Lemma read_wrap_nothing b w : sound w → alive w b → runs (read_wrap b 0) w (λ _ w', sound w').
Proof.
  intros Hs (v & Hb & Hr)%alive_ready; [|apply Hs]. unfold read_wrap.
  by apply (runs_step _ _ _ _ _ _ (get_buv_ok _ _ _ Hb)).
Qed.

(** *** The reader of a message under way *)

(** The buffer it waits for: of the size field, or of the data. *)
Definition asked (h : msg_heap) (r : msg_reader) : outcome (ptr * Z) :=
  hsize ← msg_reader_avail_head_size r;
  if decide (0 < hsize) then mret (msg_reader_head_pos r, hsize)
  else avail ← msg_reader_avail_body_size h r; mret (msg_reader_body_pos r, avail).

Section reader.
Context (h : msg_heap) (m : nat) (mv : sc_msg) (sz body : list byte) (i : Z).
Context (Hm : h !! m = Some mv) (Hw : under_way mv sz body i).
Let j := Z.of_nat (length body).
Let rd := MsgReader m (Ptr m FSize i) (Ptr m FData j).

Lemma size_range : 0 ≤ be_value sz < 2 ^ 32.
Proof. pose proof (be_value_range sz) as Hr. by rewrite (uw_length _ _ _ _ Hw) in Hr. Qed.

Lemma body_range : 0 ≤ j < 2 ^ 31.
Proof.
  pose proof (f_equal length (uw_body _ _ _ _ Hw)) as E. rewrite length_take, length_fmap in E.
  pose proof (uw_room _ _ _ _ Hw). unfold j. lia.
Qed.

Lemma reader_head : msg_reader_avail_head_size rd = Ok (4 - i).
Proof.
  pose proof (uw_head _ _ _ _ Hw) as Hi.
  unfold msg_reader_avail_head_size, ptr_diff. cbn. rewrite decide_True by done. cbn.
  unfold mret, outcome_ret, SC_MSG_SIZE_BYTES. f_equal.
  rewrite Z.sub_0_r, (u32_small i), u32_small by lia. done.
Qed.

Lemma reader_body : msg_reader_avail_body_size h rd = Ok (be_value sz - j).
Proof.
  pose proof size_range. pose proof body_range. pose proof (uw_fits _ _ _ _ Hw) as Hf. fold j in Hf.
  unfold msg_reader_avail_body_size, ptr_diff. cbn. rewrite Hm. cbn. rewrite decide_True by done. cbn.
  rewrite (get_size_bytes mv sz (uw_length _ _ _ _ Hw) (uw_size _ _ _ _ Hw)). cbn.
  unfold mret, outcome_ret. f_equal. rewrite Z.sub_0_r, (u32_small j), u32_small by lia. done.
Qed.

Lemma asked_ok : asked h rd =
  Ok (if decide (i < 4) then (Ptr m FSize i, 4 - i) else (Ptr m FData j, be_value sz - j)).
Proof.
  unfold asked. rewrite reader_head. cbn [mbind outcome_bind]. rewrite reader_body.
  repeat case_decide; try done; lia.
Qed.

Lemma reader_finished :
  msg_reader_finished h rd = Ok (bool_decide (be_value sz = j)).
Proof.
  unfold msg_reader_finished. rewrite reader_body. cbn [mbind outcome_bind]. unfold mret, outcome_ret. f_equal.
  apply bool_decide_ext. lia.
Qed.

(** A finished message is complete. *)
Lemma complete : be_value sz = j → payload mv = Ok (Some <$> body).
Proof.
  intros E. unfold payload. rewrite (get_size_bytes mv sz (uw_length _ _ _ _ Hw) (uw_size _ _ _ _ Hw)). cbn.
  pose proof (f_equal length (uw_body _ _ _ _ Hw)) as El. rewrite length_take, length_fmap in El.
  rewrite decide_True by (unfold j in E; lia). unfold mret, outcome_ret. f_equal.
  rewrite E. unfold j. by rewrite Nat2Z.id, (uw_body _ _ _ _ Hw).
Qed.

(** Bytes that have come into the buffer. *)
Definition arrived (p : ptr) (n : nat) : Prop :=
  ∃ bs, length bs = n ∧ take n (drop (Z.to_nat (p_off p)) (field_of mv (p_field p))) = Some <$> bs.

Lemma reader_step p k n :
  asked h rd = Ok (p, k) → 0 < n ≤ k → arrived p (Z.to_nat n) →
  ∃ body' i' rest, under_way mv sz body' i' ∧
    (if decide (0 < 4 - i) then msg_reader_parse_head rd (u32 n) else msg_reader_parse_body h rd (u32 n)) =
      Ok (MsgReader m (Ptr m FSize i') (Ptr m FData (Z.of_nat (length body'))), rest).
Proof.
  pose proof size_range. pose proof body_range. pose proof (uw_fits _ _ _ _ Hw) as Hf. fold j in Hf.
  pose proof (uw_head _ _ _ _ Hw) as Hi. destruct Hw as [W1 W2 W3 W4 W5 W6 W7].
  rewrite asked_ok. destruct (decide (i < 4)); intros [= <- <-] Hn (bs & Hl & Hbs).
  - rewrite decide_True by lia. exists body, (i + n), 0. split.
    + split; try done; [lia|]. intros _. by apply W5.
    + unfold msg_reader_parse_head. rewrite reader_head. cbn -[skip_pos].
      rewrite (u32_small n), skip_pos_clamps, Z.min_r by lia. rewrite Z.sub_diag. done.
  - rewrite decide_False by lia. exists (body ++ bs), i, 0. split.
    + split; try done.
      * rewrite length_app, Nat.add_comm. cbn [p_off p_field field_of] in Hbs. unfold j in Hbs.
        rewrite Nat2Z.id in Hbs. rewrite (Nat.add_comm (length bs)), <-take_take_drop, W4.
        by rewrite fmap_app, Hl, Hbs.
      * rewrite length_app, Hl. unfold j in *. lia.
    + unfold msg_reader_parse_body. rewrite reader_body. cbn -[skip_pos].
      rewrite (u32_small n), skip_pos_clamps, Z.min_r by lia. rewrite Z.sub_diag.
      unfold rd, ptr_add. cbn. rewrite length_app, Hl. do 4 f_equal. unfold j. lia.
Qed.

(** libuv fills it. *)
Lemma fill_step p k bs l :
  asked h rd = Ok (p, k) → Z.of_nat (length bs) ≤ k →
  mem_write (field_of mv (p_field p)) (p_off p) bs = Ok l →
  ∃ sz', under_way (set_field mv (p_field p) l) sz' body i.
Proof.
  destruct Hw as [W1 W2 W3 W4 W5 W6 W7]. rewrite asked_ok.
  destruct (decide (i < 4)); intros [= <- <-] Hn E; cbn [p_field p_off field_of set_field] in *.
  - unfold mem_write in E. case_decide as Hfit; [|done]. injection E as <-.
    rewrite W1 in *. rewrite length_fmap in Hfit.
    exists (take (Z.to_nat i) sz ++ bs ++ drop (Z.to_nat i + length bs) sz).
    split; cbn; try done.
    + by rewrite !fmap_app, fmap_take, fmap_drop.
    + rewrite !length_app, length_take, length_drop. lia.
    + rewrite W5 by done. apply be_value_range.
  - exists sz. pose proof (mem_write_length _ _ _ _ E) as El. unfold mem_write in E.
    case_decide as Hfit; [|done]. injection E as E.
    split; cbn; try done; [|lia]. rewrite <-E, take_app_le, take_take by (rewrite length_take; unfold j in *; lia).
    unfold j. by rewrite Nat2Z.id, Nat.min_id.
Qed.
End reader.

(** *** Bytes *)

(** What a socket reads into now. *)
Definition asked_at (w : world) (b : nat) (p : ptr) (k : Z) : Prop :=
  ∃ v r, w_buvs w !! b = Some (Some v) ∧ is_Some (uv_msg v) ∧ uv_reader v = Some r ∧
    asked (w_msgs w) r = Ok (p, k).

Lemma asked_message w b p k :
  safe w → asked_at w b p k → ∃ v m mv sz body i,
    w_buvs w !! b = Some (Some v) ∧ buv_ready w b v ∧ uv_msg v = Some m ∧ w_msgs w !! m = Some mv ∧
    under_way mv sz body i ∧ p_msg p = m ∧
    (let r := MsgReader m (Ptr m FSize i) (Ptr m FData (Z.of_nat (length body))) in
     uv_reader v = Some r ∧ asked (w_msgs w) r = Ok (p, k)).
Proof.
  intros Hs (v & r & Hb & [m Em] & Er & Ha). destruct (sf_buv w Hs b _ Hb) as (? & [= <-] & Hr).
  destruct (br_reading _ _ _ Hr m Em) as (mv & sz & body & i & Hm & Hw & Er').
  rewrite Er in Er'. injection Er' as ->. exists v, m, mv, sz, body, i. split_and!; try done.
  rewrite (asked_ok _ _ _ _ _ _ Hm Hw) in Ha. case_decide; by injection Ha as <- _.
Qed.

(** A message changes that only [b] is reading into. *)
Lemma sound_reading w b v v' m mv sz body i :
  sound w → w_buvs w !! b = Some (Some v) → buv_ready w b v → uv_msg v = Some m →
  v' = with_reader (Some (MsgReader m (Ptr m FSize i) (Ptr m FData (Z.of_nat (length body))))) v →
  under_way mv sz body i →
  sound (set_msgs (<[m := mv]> (w_msgs w)) (set_buvs (<[b := Some v']> (w_buvs w)) w)).
Proof.
  intros Hs Hb Hr Em -> Hw. destruct (br_reading _ _ _ Hr m Em) as (mv0 & _ & _ & _ & Hm & _).
  apply (sound_internal w); [|apply (safe_buv w b v); try done; try apply Hs; try apply Hr|done].
  - apply (internal_buv w b v); [done|done|by left|]. intros a mv1 Ha Hne.
    rewrite lookup_insert_ne; [done|congruence].
  - intros m' E. cbn in E. rewrite Em in E. injection E as <-. exists mv, sz, body, i.
    by rewrite lookup_insert_eq.
  - intros b2 v2 Hne H2. destruct (sf_buv w (proj1 Hs) b2 _ H2) as (? & [= <-] & Hr2).
    assert (Hd : uv_msg v2 ≠ Some m) by (intros E2; apply Hne; by eapply (sf_once w (proj1 Hs) b2 b)).
    split; [|cbn; congruence]. apply (reading_other (w_msgs w)); [|exact (br_reading _ _ _ Hr2)].
    intros m2 E2. rewrite lookup_insert_ne; [done|congruence].
  - intros a Ha. rewrite lookup_insert_ne; [by apply (sf_new_msg w (proj1 Hs))|].
    intros <-. by rewrite (sf_new_msg w (proj1 Hs)) in Hm.
Qed.

(** Bytes that have arrived. *)
Lemma read_wrap_data b p k n w :
  sound w → asked_at w b p k → UvReadStart b ∈ w_uv w → 0 < n ≤ k →
  (∀ mv, w_msgs w !! p_msg p = Some mv → arrived mv p (Z.to_nat n)) →
  runs (read_wrap b n) w (λ _ w', sound w').
Proof.
  intros Hs (v & m & mv & sz & body & i & Hb & Hr & Em & Hm & Hw & Ep & Erd & Ea)%asked_message Hu Hn Hbs;
    [|apply Hs]. subst m. specialize (Hbs mv Hm).
  unfold read_wrap. apply (runs_step _ _ _ _ _ _ (get_buv_ok _ _ _ Hb)). rewrite (br_stream _ _ _ Hr).
  rewrite (decide_False (P := n < 0)), (decide_True (P := 0 < n)), (decide_True (P := _ ∨ _)) by (try lia; by left; lia).
  apply (runs_step _ _ _ _ _ _ (get_buv_ok _ _ _ Hb)). rewrite Erd. cbn [demand].
  apply (runs_step _ _ _ _ _ _ (ret_ok _ w)).
  apply (runs_step _ _ _ _ _ _ (lift_ok _ _ w (reader_head _ _ _ _ _ Hw))).
  apply (runs_step _ _ _ _ _ _ (gets_ok _ w)).
  destruct (reader_step _ _ _ _ _ _ Hm Hw p k n Ea Hn Hbs) as (body' & i' & rest & Hw' & E).
  set (r' := MsgReader (p_msg p) (Ptr (p_msg p) FSize i') _) in E.
  eapply (runs_step _ _ _ (r', rest) w); [case_decide; by apply lift_ok|].
  apply (runs_step _ _ _ _ _ _ (update_buv_ok b _ v w Hb)). cbn [fst].
  set (v' := with_reader (Some r') v). set (w1 := set_buvs _ w). assert (Hs1 : sound w1).
  { pose proof (sound_reading w b v v' (p_msg p) mv sz body' i' Hs Hb Hr Em eq_refl Hw') as H'.
    by rewrite (insert_id (w_msgs w)) in H'. }
  apply (runs_step _ _ _ _ _ _ (lift_ok _ _ w1 (reader_finished _ _ _ _ _ _ Hm Hw'))).
  case_bool_decide as Hfin; [|done].
  rewrite bool_decide_eq_true_2 by done. apply (runs_step _ _ _ _ _ _ (assert_that_true w1)).
  destruct (sf_buv w1 (proj1 Hs1) b (Some v') (lookup_insert_eq _ _ _)) as (? & [= <-] & Hr1).
  apply (report_ok b v'); [done|apply lookup_insert_eq|]. rewrite Em. split; [|split].
  - apply (owner_usable w1 b v'); [apply Hs1|apply lookup_insert_eq|done].
  - by apply (owner_reads w1 b v'); [apply lookup_insert_eq|..].
  - exists mv, body'. split_and!; [done|by eapply complete|]. by eapply body_range.
Qed.

(** libuv fills the buffer it was given. *)
Lemma uv_fill_ok b p k bs w :
  sound w → asked_at w b p k → Z.of_nat (length bs) ≤ k →
  (∀ mv, w_msgs w !! p_msg p = Some mv →
    p_off p + Z.of_nat (length bs) ≤ Z.of_nat (length (field_of mv (p_field p)))) →
  runs (uv_fill p bs) w (λ _ w', sound w').
Proof.
  intros Hs (v & m & mv & sz & body & i & Hb & Hr & Em & Hm & Hw & Ep & Erd & Ea)%asked_message Hk Hfit;
    [|apply Hs]. subst m. specialize (Hfit mv Hm). unfold uv_fill.
  assert (Hoff : 0 ≤ p_off p).
  { pose proof (uw_head _ _ _ _ Hw). pose proof (asked_ok _ _ _ _ _ _ Hm Hw) as E.
    rewrite Ea in E. case_decide; injection E as -> _; cbn; lia. }
  apply (runs_step _ _ _ _ _ _ (get_msg_ok _ _ _ Hm)).
  pose proof (mem_write_ok (field_of mv (p_field p)) (p_off p) bs Hoff Hfit) as E.
  set (l := _ ++ _ ++ _) in E. apply (runs_step _ _ _ _ _ _ (lift_ok _ _ w E)).
  eapply runs_ok; [done|].
  destruct (fill_step _ _ _ _ _ _ Hm Hw p k bs l Ea Hk E) as [sz' Hw'].
  pose proof (sound_reading w b v v (p_msg p) _ sz' body i Hs Hb Hr Em ltac:(by destruct v; cbn in Erd; subst) Hw') as H'.
  by rewrite (insert_id (w_buvs w)) in H'.
Qed.

(** A new message for a backend socket without one, with memory to be had. *)
Lemma open_message b v sz w :
  sound w → w_buvs w !! b = Some (Some v) → uv_msg v = None →
  malloc_ok (w_mallocs w) = true → 1 ≤ sz < 2 ^ 31 →
  runs (m ← sc_msg_alloc sz;
        update_buv b (with_msg m);;
        sc_msg_init_at m;;
        a ← demand NullDeref m;
        update_buv b (with_reader (Some (msg_reader_init a)))) w
    (λ _ w', sound w' ∧ ∃ v', w_buvs w' !! b = Some (Some v') ∧ is_Some (uv_msg v')).
Proof.
  intros Hs Hb Hv Hok Hsz. destruct (sf_buv w (proj1 Hs) b _ Hb) as (? & [= <-] & Hr).
  set (a := w_next w). set (w0 := set_next (S a) (set_mallocs (S (w_mallocs w)) w)).
  set (w1 := set_msgs (<[a := fresh_msg sz]> (w_msgs w)) w0).
  assert (E1 : sc_msg_alloc sz w = Ok (Some a, w1)).
  { unfold sc_msg_alloc. rewrite (st_bind_ok _ _ _ _ _ (gets_ok w_msg_alloc w)), (sf_alloc w (proj1 Hs)).
    unfold default_heap_alloc. by rewrite (st_bind_ok _ _ _ _ _ (malloc_success _ w Hok)). }
  pose proof (sc_msg_init_fresh sz ltac:(lia)) as E2. set (msg := Msg _ _) in E2.
  set (v1 := with_msg (Some a) v). set (v2 := with_reader (Some (msg_reader_init a)) v1).
  set (w2 := set_buvs (<[b := Some v1]> (w_buvs w1)) w1).
  set (w3 := set_msgs (<[a := msg]> (w_msgs w2)) w2).
  apply (runs_step _ _ _ _ _ _ E1), (runs_step _ _ _ _ _ _ (update_buv_ok b _ v w1 Hb)).
  apply (runs_step _ _ w2 tt w3).
  { unfold sc_msg_init_at.
    rewrite (st_bind_ok _ _ _ _ _ (get_msg_ok a (fresh_msg sz) w2 (lookup_insert_eq _ _ _))).
    by rewrite (st_bind_ok _ _ _ _ _ (lift_ok _ _ w2 E2)). }
  apply (runs_step _ _ _ _ _ _ (demand_some _ a w3)).
  eapply runs_ok; [by apply (update_buv_ok b _ v1), lookup_insert_eq|].
  split; [|exists v2; split; [apply lookup_insert_eq|by eexists]].
  cbn [w3 w2 w1 w_buvs set_msgs set_buvs]. rewrite insert_insert_eq.
  assert (Hs0 : sound w0) by (apply (sound_same w); [split_and!; cbn; lia || done|done..]).
  assert (Hnew : w_msgs w !! a = None) by (by apply (sf_new_msg w (proj1 Hs))).
  change (sound (set_msgs (<[a := msg]> (<[a := fresh_msg sz]> (w_msgs w)))
    (set_buvs (<[b := Some v2]> (w_buvs w0)) w0))). rewrite insert_insert_eq.
  apply (sound_internal w0); [|apply (safe_buv w0 b v v2); try done; try apply Hs0; try apply Hr|done].
  - apply (internal_buv w0 b v); [done|done| |].
    + intros m [= <-]. by right.
    + intros a' mv' Ha' _. rewrite lookup_insert_ne; [done|]. intros <-. cbn in Ha'. congruence.
  - intros m [= <-]. exists msg, (replicate 4 x00), [], 0. rewrite lookup_insert_eq. split_and!; try done.
    split; try done; cbn; rewrite ?length_replicate; lia.
  - intros b2 v3 Hne H2. destruct (sf_buv w (proj1 Hs) b2 _ H2) as (? & [= <-] & Hr2).
    assert (Ha : uv_msg v3 ≠ Some a).
    { intros E. destruct (br_reading _ _ _ Hr2 a E) as (? & ? & ? & ? & Hm & _). by rewrite Hnew in Hm. }
    split; [|by intros m [= <-]]. apply (reading_other (w_msgs w)); [|exact (br_reading _ _ _ Hr2)].
    intros m Em. rewrite lookup_insert_ne by congruence. done.
  - cbn. intros c Hc. rewrite lookup_insert_ne by lia. apply (sf_new_msg w (proj1 Hs)). lia.
Qed.

(** The buffer [alloc_wrap] hands to libuv starts where the reader waits, and
    is no longer than what it waits for. *)
Lemma sound_alloc_wrap b sz w :
  sound w → alive w b → 1 ≤ u32 sz < 2 ^ 31 →
  (∀ v, w_buvs w !! b = Some (Some v) → uv_msg v = None → malloc_ok (w_mallocs w) = true) →
  runs (alloc_wrap b sz) w (λ buf w', sound w' ∧
    ∃ p k, base buf = Some p ∧ len buf = Z.min k (u32 sz) ∧ asked_at w' b p k).
Proof.
  intros Hs (v & Hb & Hr)%alive_ready Hsz Hok; [|apply Hs]. unfold alloc_wrap.
  apply (runs_step _ _ _ _ _ _ (get_buv_ok _ _ _ Hb)). rewrite (br_stream _ _ _ Hr).
  apply (runs_step _ _ _ _ _ _ (get_buv_ok _ _ _ Hb)). apply runs_bind.
  eapply (runs_weaken _ _ (λ _ w', sound w' ∧ ∃ v', w_buvs w' !! b = Some (Some v') ∧ is_Some (uv_msg v'))).
  2: { destruct (uv_msg v) as [m|] eqn:Em; [by apply runs_ret; eauto|].
       apply (open_message b v); [done|done|done|by apply (Hok v)|done]. }
  intros _ w1 (Hs1 & v1 & Hb1 & m & Em1). destruct (sf_buv w1 (proj1 Hs1) b _ Hb1) as (? & [= <-] & Hr1).
  destruct (br_reading _ _ _ Hr1 m Em1) as (mv & bs & body & i & Hm & Hw & Erd).
  pose proof (asked_ok _ _ _ _ _ _ Hm Hw) as Ea. pose proof (uw_head _ _ _ _ Hw) as Hi.
  apply (runs_step _ _ _ _ _ _ (get_buv_ok _ _ _ Hb1)). rewrite Erd. cbn [demand].
  apply (runs_step _ _ _ _ _ _ (ret_ok _ w1)).
  apply (runs_step _ _ _ _ _ _ (lift_ok _ _ w1 (reader_head _ _ _ _ _ Hw))).
  destruct (decide (0 < 4 - i)).
  - rewrite decide_True in Ea by lia. apply runs_ret. split; [done|]. eexists _, _.
    split; [done|]. split; [|by exists v1; eauto].
    cbn [len]. case_decide; lia.
  - rewrite decide_False in Ea by lia. apply (runs_step _ _ _ _ _ _ (gets_ok _ w1)).
    apply (runs_step _ _ _ _ _ _ (lift_ok _ _ w1 (reader_body _ _ _ _ _ _ Hm Hw))).
    apply runs_ret. split; [done|]. eexists _, _.
    split; [done|]. split; [|by exists v1; eauto].
    cbn [len]. case_decide; lia.
Qed.
End library.
