(* ===== verification/SafeApi.v ===== *)
(** * A program that keeps to the rules never makes the library fault

    The rules [legal] are the preconditions of the public operations and of
    libuv's callbacks that the code relies on without checking them.  Every
    legal operation returns and keeps [safe] (Safety.v), so that no sequence
    of them, in any order and whatever libuv answers, ends in the library or
    the program following a null or dangling pointer, reading an indeterminate
    value, failing an assertion or writing out of bounds.  [malloc] may fail
    wherever the code looks at what it returns.  It does not for the message
    that alloc_wrap asks for (src/msg.c): this is the one allocation that has
    to succeed, and what happens if it does not is part of the theorem.

    What libuv does with what it is given is not modelled: the calls are
    recorded.  That a handle was initialised before it is closed, listened on
    or written to is not among the rules, and not promised either
    (Lifecycle.close_uninitialised_handle). *)

From S2P Require Import Prelude Endian CString Strerror Msg MsgReader Uri World Watcher.
From S2P Require Import AppData Demo Backend BackendUv Conn Frame Recv Socket SocketUv Owner Dial.
From S2P Require Import Lifecycle Sc System Safety.
From Stdlib Require Import Ascii.

(** A URI with a protocol part that does not crash the parser. *)
Definition good_uri (uri : cbuf) : Prop :=
  ∃ tok rest, uri = tok ++ (":"%char :: rest) ∧ (NUL ∉ uri) ∧ tok ≠ [] ∧ (":"%char ∉ tok) ∧
    uri_reference tok rest ≠ RFault.

(** A message whose size field has a value. *)
Definition sendable (w : world) (m : option nat) : Prop :=
  ∃ a mv bs, m = Some a ∧ w_msgs w !! a = Some mv ∧ size_be mv = Some <$> bs.

Inductive operation :=
  | OpApi (c : api_call)
  | OpStrerror (e : Z)
  | OpEvent (e : uv_event).

Section rules.
Context `{Env} `{App}.

Definition do_op (o : operation) : M unit :=
  match o with
  | OpApi c => api buv_funcs c
  | OpStrerror e => sc_strerror e;; mret tt
  | OpEvent e => event e
  end.

Definition legal_api (c : api_call) (w : world) : Prop :=
  match c with
  | ApiNew => True
  | ApiDel s | ApiListen s _ | ApiClose s | ApiSetUserdata s _ | ApiGetUserdata s => usable w s
  | ApiConnect s uri | ApiBind s uri => usable w s ∧ good_uri uri
  | ApiAccept srv clt => usable w srv ∧ usable w clt ∧ bound w srv
  | ApiSend s m => usable w s ∧ sendable w m
  | ApiOnConnect s cb | ApiOnConnection s cb | ApiOnAccept s cb | ApiOnRecv s cb
  | ApiOnSend s cb | ApiOnClose s cb => usable w s ∧ cb ≠ CbNull
  end.

(** What libuv promises: its callbacks are about backend sockets that are
    there, it reads only streams it was asked to read, it suggests a size that is
    neither zero nor huge, it only reads into the buffer it was given, and reports bytes that it has put there.  What is
    not libuv's to promise: there is memory for the message, which alloc_wrap
    uses unchecked, and what the peer sends fits into it. *)
Definition legal_event (e : uv_event) (w : world) : Prop :=
  match e with
  | EvConnect b _ | EvConnection b _ | EvWrite b _ | EvClose b => alive w b
  | EvAlloc b sz => alive w b ∧ 1 ≤ u32 sz < 2 ^ 31 ∧
      ∀ v, w_buvs w !! b = Some (Some v) → uv_msg v = None → malloc_ok (w_mallocs w) = true
  | EvFill p bs => ∃ b k, asked_at w b p k ∧ Z.of_nat (length bs) ≤ k ∧
      ∀ mv, w_msgs w !! p_msg p = Some mv →
        p_off p + Z.of_nat (length bs) ≤ Z.of_nat (length (field_of mv (p_field p)))
  | EvRead b n => alive w b ∧ UvReadStart b ∈ w_uv w ∧ (0 < n → ∃ p k, asked_at w b p k ∧ n ≤ k ∧
      ∀ mv, w_msgs w !! p_msg p = Some mv → arrived mv p (Z.to_nat n))
  end.

Definition events : list uv_event → M unit := handle_all event.
Definition legal_events : list uv_event → world → Prop := may_all event legal_event.

Definition legal (o : operation) (w : world) : Prop :=
  match o with
  | OpApi c => legal_api c w
  | OpStrerror _ => True
  | OpEvent e => legal_event e w
  end.

(** The states of a program that keeps to the rules, from [w0] on. *)
Definition legal_step (w w' : world) : Prop := ∃ o, legal o w ∧ do_op o w = Ok (tt, w').
End rules.

Section events.
Context `{Env} `{App} (J : world → Prop) `{!AppSafe J}.

Lemma event_sound e w : sound J w → legal_event e w → runs (event e) w (λ _ w', sound J w').
Proof.
  intros Hs. destruct e as [b st|b st|b sz|p bs|b n|b st|b]; cbn [event legal_event].
  - by apply on_connect_wrap_ok.
  - by apply on_connection_wrap_ok.
  - intros (Ha & Hsz & Hm). apply runs_bind.
    eapply runs_weaken; [|by apply sound_alloc_wrap]. intros buf w' [Hs' _]. by apply runs_ret.
  - intros (b & k & Ha & Hk & Hfit). by apply (uv_fill_ok J b p k).
  - intros (Ha & Hu & Hn). destruct (Z.lt_trichotomy n 0) as [?|[->|Hp]].
    + by apply read_wrap_negative.
    + by apply read_wrap_nothing.
    + destruct (Hn Hp) as (p & k & Hask & Hle & Hb). by apply (read_wrap_data J b p k n).
  - by apply write_wrap_ok.
  - by apply close_wrap_ok.
Qed.

Lemma events_sound es w :
  sound J w → legal_events es w → runs (events es) w (λ _ w', sound J w').
Proof. apply handle_all_keeps. intros e w'. apply event_sound. Qed.
End events.

(** ** The public operations *)

Section operations.
Context `{Env} `{App}.

(** What an operation keeps of the ownership of URIs is known (Owner.v). *)
Lemma runs_owned {A} (m : M A) w :
  keeps uris_owned m → safe w → runs m w (λ _ w', linked w') → runs m w (λ _ w', safe w').
Proof.
  intros Hk Hs Hr. eapply runs_weaken; [|apply (runs_keeps _ _ _ _ Hk (sf_owned _ Hs) Hr)].
  intros _ w' []. by split.
Qed.

(** Assignments to the user data and the callbacks. *)
Lemma safe_update s k f w :
  safe w → w_socks w !! s = Some k → sock_ready w s k →
  (∀ d b u wt, w_socket wt = s → callbacks_set wt → ∃ d' wt',
    f (Socket (Some d) b u (Some wt)) = Socket (Some d') b u (Some wt') ∧
    w_socket wt' = s ∧ callbacks_set wt') →
  safe (set_socks (<[s := f k]> (w_socks w)) w).
Proof.
  intros [Hw HO] Hk Hr Hf. pose proof Hr as (d & b & u & wt & v & -> & Ew & Hcb & Hb & Hv).
  destruct (Hf d (Some (Some b)) (Some u) wt Ew Hcb) as (d' & wt' & E & Ew' & Hcb'). rewrite E.
  split; [by eapply linked_put_sock|]. by apply (owned_same_uri _ s _ _ w Hk).
Qed.

Lemma set_userdata_safe s d w :
  safe w → usable w s → runs (sc_socket_set_userdata s d) w (λ _ w', safe w').
Proof.
  intros Hs (k & Hk & Hr). eapply runs_ok; [exact (update_sock_ok _ _ _ _ Hk)|].
  apply safe_update; [done..|]. intros d0 b u wt ? ?. by exists d, wt.
Qed.

Lemma get_userdata_safe s w :
  safe w → usable w s → runs (sc_socket_get_userdata s) w (λ _ w', safe w').
Proof.
  intros Hs (k & Hk & d & b & u & wt & v & -> & _). apply (runs_ok _ _ d w); [|done].
  unfold sc_socket_get_userdata. by rewrite (st_bind_ok _ _ _ _ _ (get_sock_ok _ _ _ Hk)).
Qed.

Lemma update_watcher_safe s f w :
  safe w → usable w s →
  (∀ wt, callbacks_set wt → callbacks_set (f wt) ∧ w_socket (f wt) = w_socket wt) →
  runs (update_watcher s f) w (λ _ w', safe w').
Proof.
  intros Hs (k & Hk & Hr) Hf. pose proof Hr as (d & b & u & wt & v & -> & Ew & Hcb & _).
  unfold update_watcher. apply (runs_step _ _ _ _ _ _ (get_sock_ok _ _ _ Hk)). cbn [s_watcher].
  apply (runs_step _ _ _ _ _ _ (demand_some _ wt w)). eapply runs_ok; [done|].
  set (k := Socket _ _ _ _) in *. destruct (Hf wt Hcb) as [Hc' Ew'].
  apply (safe_update s k (λ v, with_watcher (Some (f wt)) v) w Hs Hk Hr).
  intros d0 b0 u0 wt0 _ _. exists d0, (f wt). split_and!; [done|congruence|done].
Qed.

(** A new socket. *)
Lemma linked_new w mal :
  linked w → let s := w_next w in let b := S s in
  linked (World mal (S b) (w_msgs w) (w_uris w)
      (<[s := new_sock s b]> (w_socks w)) (<[b := Some (new_buv b s)]> (w_buvs w))
      (w_backend w) (w_buv_data w) (w_msg_alloc w) (w_msg_free w)
      (w_stderr w) (w_uv w) (w_obs w) (w_app w)).
Proof.
  intros [S1 S2 S3 S4 S5 S6 S7 S8 S9 S10] s b. set (w' := World _ _ _ _ _ _ _ _ _ _ _ _ _ _).
  assert (Hs : w_socks w !! s = None) by (apply S6; unfold s; lia).
  assert (Hb : w_buvs w !! b = None) by (apply S7; unfold b, s; lia).
  assert (Hr : sock_ready w' s (new_sock s b)).
  { exists 0, b, None, (sc_watcher_init s), (new_buv b s).
    split_and!; try done. apply lookup_insert_eq. }
  unfold w' in *. clear w'. split; cbn; try done.
  - intros a Ha. apply S5. lia.
  - intros a Ha. cbn in *. rewrite lookup_insert_ne by (unfold b in Ha; lia). apply S6. lia.
  - intros a Ha. cbn in *. rewrite lookup_insert_ne by lia. apply S7. lia.
  - intros s1 k1 L1. apply lookup_insert_Some in L1 as [[<- <-]|[Hne L1]]; [by right|].
    destruct (S8 s1 k1 L1) as [|(d & b1 & u & wt & v1 & -> & ? & ? & Hb1 & ?)]; [by left|]. right.
    exists d, b1, u, wt, v1. split_and!; try done. cbn. rewrite lookup_insert_ne; [done|congruence].
  - intros b1 o Ho. apply lookup_insert_Some in Ho as [[<- <-]|[Hne Ho]].
    + exists (new_buv b s). split; [done|]. split; try done. exists (new_sock s b).
      split; [apply lookup_insert_eq|done].
    + destruct (S9 b1 o Ho) as (v1 & -> & [? ? ? (k1 & Hk1 & ?) ?]). exists v1. split; [done|].
      split; try done. exists k1. split; [|done]. cbn. rewrite lookup_insert_ne; [done|congruence].
  - intros b1 b2 v1 v2 m L1 L2 M1 M2.
    apply lookup_insert_Some in L1 as [[<- [= <-]]|[Hne1 L1]]; [done|].
    apply lookup_insert_Some in L2 as [[<- [= <-]]|[Hne2 L2]]; [done|]. by eapply S10.
Qed.

Lemma linked_starved w mal :
  linked w →
  linked (World mal (S (w_next w)) (w_msgs w) (w_uris w)
      (<[w_next w := starved_sock]> (w_socks w)) (w_buvs w)
      (w_backend w) (w_buv_data w) (w_msg_alloc w) (w_msg_free w)
      (w_stderr w) (w_uv w) (w_obs w) (w_app w)).
Proof.
  intros [S1 S2 S3 S4 S5 S6 S7 S8 S9 S10].
  assert (Hs : w_socks w !! w_next w = None) by (apply S6; lia).
  split; cbn; try done.
  - intros a Ha. apply S5. lia.
  - intros a Ha. rewrite lookup_insert_ne by lia. apply S6. lia.
  - intros a Ha. apply S7. lia.
  - intros s1 k1 L1. apply lookup_insert_Some in L1 as [[<- <-]|[Hne L1]]; [by left|]. by apply S8.
  - intros b1 o Ho. destruct (S9 b1 o Ho) as (v1 & -> & [? ? ? (k1 & Hk1 & ?) ?]). exists v1.
    split; [done|]. split; try done. exists k1. split; [|done]. cbn. rewrite lookup_insert_ne; [done|congruence].
Qed.

Lemma socket_new_linked w : safe w → runs (sc_socket_new buv_funcs) w (λ _ w', linked w').
Proof.
  intros Hs. destruct (malloc_ok (w_mallocs w)) eqn:M1; [destruct (malloc_ok (S (w_mallocs w))) eqn:M2|].
  - eapply runs_ok; [apply (sc_socket_new_ok w (sf_backend w Hs) M1 M2)|].
    by apply linked_new, sf_linked.
  - eapply runs_ok; [apply (sc_socket_new_starved w (sf_backend w Hs) M1 M2)|].
    by apply linked_starved, sf_linked.
  - apply (runs_ok _ _ None (set_mallocs (S (w_mallocs w)) w)); [|apply (linked_same w); try done; apply Hs].
    unfold sc_socket_new, malloc. eval_world. by rewrite M1.
Qed.

(** Closing and deleting. *)
Lemma live_uri w s k o :
  safe w → w_socks w !! s = Some k → s_uri k = Some o → ∀ u, o = Some u → is_Some (w_uris w !! u).
Proof.
  intros Hs Hk Ho u ->. apply (owned_live _ _ (sf_owned _ Hs) s); [by exists k|tauto].
Qed.

Lemma close_linked s w :
  safe w → usable w s → runs (sc_socket_close buv_funcs s) w (λ _ w', linked w').
Proof.
  intros Hs (k & Hk & Hr). pose proof Hr as (d & b & u & wt & v & Ek & Ew & Hcb & Hb & Hv).
  pose proof (live_uri w s k u Hs Hk ltac:(by subst k)) as Hu. eapply runs_ok.
  { apply (sc_socket_close_ok s k b u w); [apply Hs|done|by subst k..|done]. }
  subst k. cbn [with_uri s_userdata s_backend s_watcher].
  eapply linked_same; [..|eapply (linked_put_sock w s _ d b None wt)]; try done. apply Hs.
Qed.

Lemma del_linked s w :
  safe w → usable w s → runs (sc_socket_del buv_funcs s) w (λ _ w', linked w').
Proof.
  intros Hs (k & Hk & Hr). pose proof Hr as (d & b & u & wt & v & Ek & Ew & Hcb & Hb & Hv).
  pose proof (live_uri w s k u Hs Hk ltac:(by subst k)) as Hu. eapply runs_ok.
  { apply (sc_socket_del_ok s k b u (Some v) w); [apply Hs|done|by subst k..|done|done]. }
  destruct Hs as [[S1 S2 S3 S4 S5 S6 S7 S8 S9 S10] _]. split; cbn; try done.
  - intros a Ha. apply lookup_delete_None. right. by apply S6.
  - intros a Ha. apply lookup_delete_None. right. by apply S7.
  - intros s1 k1 [Hne L1]%lookup_delete_Some.
    destruct (S8 s1 k1 L1) as [|(d1 & b1 & u1 & wt1 & v1 & -> & ? & ? & Hb1 & ?)]; [by left|].
    right. exists d1, b1, u1, wt1, v1. split_and!; try done. cbn.
    rewrite lookup_delete_ne; [done|]. intros <-. apply Hne. rewrite Hb in Hb1. congruence.
  - intros b1 o [Hne L1]%lookup_delete_Some.
    destruct (S9 b1 o L1) as (v1 & -> & [? ? ? (k1 & Hk1 & Eb1) ?]). exists v1. split; [done|].
    split; try done. exists k1. split; [|done]. cbn. rewrite lookup_delete_ne; [done|].
    intros Es. rewrite <-Es, Hk in Hk1. apply Hne. subst k. by simplify_eq/=.
  - intros b1 b2 v1 v2 m [_ L1]%lookup_delete_Some [_ L2]%lookup_delete_Some. by eapply S10.
Qed.

(** What the operations on a socket alone leave behind; no URI is left without
    a socket that has it. *)
Definition no_stray (w : world) : Prop := ∀ u, is_Some (w_uris w !! u) → ∃ s, owns w s u.

Lemma stray_socks w w' :
  w_uris w' = w_uris w → (∀ s u, owns w s u → owns w' s u) → no_stray w → no_stray w'.
Proof. intros Eu Ho Hn u. rewrite Eu. intros [s Hs]%Hn. exists s. by apply Ho. Qed.

(** A socket gives up its URI, and may go itself. *)
Lemma stray_drop w w' s k o :
  w_socks w !! s = Some k → s_uri k = Some o → w_uris w' = drop_uri o (w_uris w) →
  (∀ a, a ≠ s → w_socks w' !! a = w_socks w !! a) → no_stray w → no_stray w'.
Proof.
  intros Hk Eo Eu Es Hn u. rewrite Eu. intros Hu.
  assert (Hu' : is_Some (w_uris w !! u) ∧ o ≠ Some u).
  { destruct o as [u'|]; [|done]. cbn in Hu. destruct Hu as [x [Hne Hx]%lookup_delete_Some].
    split; [by exists x|congruence]. }
  destruct (Hn u (proj1 Hu')) as (a & ka & Hka & Ea). exists a, ka. split; [|done].
  rewrite Es; [done|]. intros ->. rewrite Hka in Hk. injection Hk as ->.
  apply (proj2 Hu'). congruence.
Qed.

Lemma new_effect w :
  safe w → malloc_ok (w_mallocs w) = true → malloc_ok (S (w_mallocs w)) = true →
  let s := w_next w in let b := S (w_next w) in
  ∃ w', sc_socket_new buv_funcs w = Ok (Some s, w') ∧ safe w' ∧
    w_socks w' = <[s := new_sock s b]> (w_socks w) ∧
    w_buvs w' = <[b := Some (new_buv b s)]> (w_buvs w) ∧
    w_msgs w' = w_msgs w ∧ w_app w' = w_app w ∧ (no_stray w → no_stray w').
Proof.
  intros Hs M1 M2 s b. pose proof (sc_socket_new_ok w (sf_backend w Hs) M1 M2) as E.
  eexists. split; [exact E|]. split; [|split_and!; try done].
  2: { apply stray_socks; [done|]. intros a u (k & Hk & Eu). exists k. split; [|done]. cbn.
       rewrite lookup_insert_ne; [done|]. intros <-. by rewrite (sf_new_sock w Hs) in Hk. }
  apply (runs_inv _ _ _ _ (λ _ w', safe w') E). apply runs_owned; [apply keeps_socket_new, _|done|by apply socket_new_linked].
Qed.

Lemma close_effect s k w :
  safe w → w_socks w !! s = Some k → sock_ready w s k →
  ∃ w', sc_socket_close buv_funcs s w = Ok (0, w') ∧ safe w' ∧
    w_socks w' = <[s := with_uri (Some None) k]> (w_socks w) ∧
    w_buvs w' = w_buvs w ∧ w_msgs w' = w_msgs w ∧ w_app w' = w_app w ∧
    (no_stray w → no_stray w') ∧ ∃ b, w_uv w' = w_uv w ++ [UvClose b].
Proof.
  intros Hs Hk Hr. pose proof Hr as (d & b & u & wt & v & Ek & _).
  pose proof (sc_socket_close_ok s k b u w (sf_backend w Hs) Hk ltac:(by subst k) ltac:(by subst k)
    (live_uri w s k u Hs Hk ltac:(by subst k))) as E.
  eexists. split; [exact E|]. split; [|split_and!; try done].
  2: { apply (stray_drop _ _ s k u Hk); [by subst k|done|].
       intros a Ha. cbn. by rewrite lookup_insert_ne. }
  2: by exists b.
  apply (runs_inv _ _ _ _ (λ _ w', safe w') E).
  apply runs_owned; [apply keeps_socket_close, _|done|]. apply close_linked; [done|by exists k].
Qed.

Lemma del_effect s k b w :
  safe w → w_socks w !! s = Some k → sock_ready w s k → s_backend k = Some (Some b) →
  ∃ w', sc_socket_del buv_funcs s w = Ok (tt, w') ∧ safe w' ∧
    w_socks w' = delete s (w_socks w) ∧ w_buvs w' = delete b (w_buvs w) ∧
    w_msgs w' = w_msgs w ∧ w_app w' = w_app w ∧ (no_stray w → no_stray w').
Proof.
  intros Hs Hk Hr Eb. pose proof Hr as (d & b' & u & wt & v & Ek & _ & _ & Hv & _).
  assert (b' = b) as -> by (subst k; cbn in Eb; congruence).
  pose proof (sc_socket_del_ok s k b u (Some v) w (sf_backend w Hs) Hk Eb ltac:(by subst k)
    (live_uri w s k u Hs Hk ltac:(by subst k)) Hv) as E.
  eexists. split; [exact E|]. split; [|split_and!; try done].
  2: { apply (stray_drop _ _ s k u Hk); [by subst k|done|].
       intros a Ha. cbn. by rewrite lookup_delete_ne. }
  apply (runs_inv _ _ _ _ (λ _ w', safe w') E).
  apply runs_owned; [apply keeps_socket_del, _|done|]. apply del_linked; [done|by exists k].
Qed.

Lemma watcher_effect s f k wt w :
  safe w → w_socks w !! s = Some k → sock_ready w s k → s_watcher k = Some wt →
  (∀ wt, callbacks_set wt → callbacks_set (f wt) ∧ w_socket (f wt) = w_socket wt) →
  ∃ w', update_watcher s f w = Ok (tt, w') ∧ safe w' ∧
    w_socks w' = <[s := with_watcher (Some (f wt)) k]> (w_socks w) ∧
    w_buvs w' = w_buvs w ∧ w_msgs w' = w_msgs w ∧ w_app w' = w_app w ∧ (no_stray w → no_stray w').
Proof.
  intros Hs Hk Hr Ew Hf.
  assert (E : update_watcher s f w =
    Ok (tt, set_socks (<[s := with_watcher (Some (f wt)) k]> (w_socks w)) w)).
  { unfold update_watcher. rewrite (st_bind_ok _ _ _ _ _ (get_sock_ok _ _ _ Hk)), Ew. done. }
  eexists. split; [exact E|]. split; [|split_and!; try done].
  2: { apply stray_socks; [done|]. intros a u (k' & Hk' & Eu). unfold owns. cbn.
       destruct (decide (a = s)) as [->|Hne]; [rewrite lookup_insert_eq|rewrite lookup_insert_ne by done; by exists k'].
       eexists. split; [done|]. rewrite Hk in Hk'. by injection Hk' as ->. }
  apply (runs_inv _ _ _ _ (λ _ w', safe w') E).
  apply update_watcher_safe; [done|by exists k|done].
Qed.

(** The state the library is initialised to, whatever objects, and static
    messages, the program has. *)
Lemma init_effect loop w :
  w_socks w = ∅ → w_buvs w = ∅ → w_uris w = ∅ →
  w_msg_alloc w = DefaultAlloc → w_msg_free w = DefaultFree →
  (∀ a, (w_next w ≤ a)%nat → w_msgs w !! a = None) →
  ∃ w', sc_init SC_LIBUV (Some loop) None None w = Ok (tt, w') ∧ safe w' ∧ no_stray w' ∧
    w_next w' = w_next w ∧ w_socks w' = ∅ ∧ w_buvs w' = ∅ ∧
    w_msgs w' = w_msgs w ∧ w_app w' = w_app w.
Proof.
  intros Es Eb Eu Ea Ef Hm. eexists. split; [unfold sc_init; rewrite decide_True by done; reflexivity|].
  split; [|split; [intros u; cbn; rewrite Eu; by intros []|split_and!; done]]. split.
  - split; cbn; rewrite ?Es, ?Eb, ?Ea, ?Ef; try done; intros *; rewrite ?lookup_empty; done.
  - set (w' := set_hooks _ _ _).
    assert (Ho : ∀ s u, ¬ owns w' s u) by (intros s u (v & Hv & _); cbn in Hv; by rewrite Es in Hv).
    split; try (by intros s ? []%Ho); try (by intros s1 s2 u []%Ho); cbn; rewrite ?Es, ?Eu;
      intros ?; rewrite lookup_empty; by intros [? ?].
Qed.

(** Connecting and binding. *)
Lemma refused_nonzero tok rest e : uri_reference tok rest = Uri.RErr e → e ≠ 0.
Proof.
  unfold uri_reference, tcp_ref. intros E.
  repeat (case_match; simplify_eq; try done).
Qed.

Lemma good_uri_parsed ok1 ok2 uri :
  good_uri uri → ∃ o e, sc_uri_new ok1 ok2 uri = Ok (o, e) ∧ (o = None → e ≠ 0) ∧
    ∀ x, o = Some x → ∃ y, uri_shows x y.
Proof.
  intros (tok & rest & -> & Hn & Hne & Hc & Href).
  destruct (ok1 && ok2) eqn:E.
  - apply andb_true_iff in E as [-> ->]. pose proof (sc_uri_new_agrees tok rest Hn Hne Hc) as Hag.
    destruct (uri_reference tok rest) as [|e|y] eqn:Eref; [done| |].
    + exists None, e. split; [done|]. split; [|done]. intros _. by eapply refused_nonzero.
    + destruct Hag as (x & E & Hx). exists (Some x), SC_EURIPARSE. split; [done|]. split; [done|].
      intros ? [= <-]. by exists y.
  - exists None, SC_ENOMEM. split; [by destruct ok1, ok2|done].
Qed.

Lemma linked_carried b v f plan (r : outcome (Z * world)) w :
  linked w → w_buvs w !! b = Some (Some v) → carries_out b v f plan w r →
  (∀ a, rx_view (with_addr a (f v)) = rx_view v ∧ connect_data (f v) = connect_data v ∧
    write_data (f v) = write_data v) →
  ∃ e w', r = Ok (e, w') ∧ linked w'.
Proof.
  intros Hw Hb [a ->] Hf. destruct (Hf a) as (Ev & Ec & Ewr). eexists _, _. split; [done|].
  eapply linked_same; [..|eapply (linked_member w b v (with_addr a (f v)) Hw Hb)]; done.
Qed.

Lemma dial_linked (op : backend → nat → nat → M Z) plan f s uri w :
  safe w → usable w s → good_uri uri →
  (∀ b v loop u x y w1, w_uris w1 !! u = Some x → uri_shows x y →
    w_buvs w1 !! b = Some (Some v) → w_buv_data w1 = Some loop →
    carries_out b v (f y) (plan loop b (w_uv w1) y) w1 (op buv_funcs b u w1)) →
  (∀ y v a, rx_view (with_addr a (f y v)) = rx_view v ∧ connect_data (f y v) = connect_data v ∧
    write_data (f y v) = write_data v) →
  runs (r ← set_new_uri s uri;
    match fst r with
    | None => mret (snd r)
    | Some u => be ← the_backend buv_funcs; b ← sock_backend_obj s; op be b u
    end) w (λ _ w', linked w').
Proof.
  intros Hs (k & Hk & Hr) Huri Hop Hf.
  pose proof Hr as (d & b & u & wt & v & Ek & Ew & Hcb & Hb & Hv).
  destruct (good_uri_parsed (malloc_ok (w_mallocs w)) (malloc_ok (S (w_mallocs w))) uri Huri)
    as (o & e & E & _ & Ho). destruct (set_new_uri_eq s k uri o e w Hk E) as [n En].
  destruct (sf_loop w Hs) as [loop Hl].
  assert (Hput : ∀ nu, linked (set_socks (<[s := with_uri (Some nu) k]> (w_socks w)) w)).
  { intros nu. subst k. by eapply (linked_put_sock w s); [apply Hs|..]. }
  destruct o as [x|]; apply (runs_step _ _ _ _ _ _ En); cbn [fst snd].
  - set (w1 := set_socks _ _). destruct (Ho x eq_refl) as [y Hy].
    apply (runs_step _ _ _ _ _ _ (the_backend_ok buv_funcs w1 (sf_backend w Hs))).
    assert (Es : s_backend (with_uri (Some (Some (w_next w))) k) = Some (Some b)) by (by subst k).
    apply (runs_step _ _ _ _ _ _ (sock_backend_obj_ok s _ b w1 (lookup_insert_eq _ _ _) Es)).
    assert (Hw1 : linked w1).
    { eapply linked_same; [..|apply (Hput (Some (w_next w)))]; try done. cbn. lia. }
    destruct (linked_carried b v (f y) _ _ w1 Hw1 Hb
      (Hop b v loop (w_next w) x y w1 (lookup_insert_eq _ _ _) Hy Hb Hl) (Hf y v)) as (e2 & w2 & E2 & Hw2).
    by eapply runs_ok.
  - eapply runs_ok; [done|]. eapply linked_same; [..|apply (Hput None)]; done.
Qed.

Lemma connect_safe s uri w :
  safe w → usable w s → good_uri uri →
  runs (sc_socket_connect buv_funcs s uri) w (λ _ w', safe w').
Proof.
  intros Hs Hu Huri. apply runs_owned; [|done|].
  - apply (keeps_with_uri buv_funcs s uri be_connect). intros. apply frame_connect.
  - apply (dial_linked be_connect (λ loop b past y, connect_plan loop b past y) (λ _, id));
      [done..| |done]. intros. by eapply buv_connect_plan.
Qed.

Lemma bind_safe s uri w :
  safe w → usable w s → good_uri uri →
  runs (sc_socket_bind buv_funcs s uri) w (λ _ w', safe w').
Proof.
  intros Hs Hu Huri. apply runs_owned; [|done|].
  - apply (keeps_with_uri buv_funcs s uri be_bind). intros. apply frame_bind.
  - apply (dial_linked be_bind bind_plan (λ y, with_proto (view_proto y))); [done..| |done].
    intros. by eapply buv_bind_plan.
Qed.

(** The same on a URI that is known to be good. *)
Lemma stray_uri w w' s k x :
  w_socks w !! s = Some k → s_uri k = Some None →
  w_uris w' = <[w_next w := x]> (w_uris w) →
  w_socks w' = <[s := with_uri (Some (Some (w_next w))) k]> (w_socks w) →
  no_stray w → no_stray w'.
Proof.
  intros Hk Eo Eu Es Hn u. rewrite Eu. intros [y Hy]. unfold owns. setoid_rewrite Es.
  apply lookup_insert_Some in Hy as [[<- _]|[Hne Hy]].
  - exists s. eexists. by rewrite lookup_insert_eq.
  - destruct (Hn u ltac:(by exists y)) as (a & ka & Hka & Ea). exists a, ka.
    split; [|done]. rewrite lookup_insert_ne; [done|]. intros <-. congruence.
Qed.

Definition dialed (f : socket_uv → socket_uv) (s b : nat) (k : sc_socket) (v : socket_uv)
    (w w' : world) : Prop :=
  w_socks w' = <[s := with_uri (Some (Some (w_next w))) k]> (w_socks w) ∧
  (∃ addr, w_buvs w' = <[b := Some (with_addr addr (f v))]> (w_buvs w)) ∧
  w_msgs w' = w_msgs w ∧ w_app w' = w_app w ∧
  (s_uri k = Some None → no_stray w → no_stray w').

Lemma dials_dialed f s b k v plan y w r :
  w_socks w !! s = Some k → dials s b k v f plan (ROk y) w r →
  ∃ e w', r = Ok (e, w') ∧ dialed f s b k v w w'.
Proof.
  intros Hk (w' & x & addr & -> & _ & _ & Eu & Eb & Es & _ & Ea & Em). eexists _, w'.
  split; [done|]. split; [done|]. split; [by eexists|]. split; [done|]. split; [done|].
  intros Hn. by apply (stray_uri w w' s k x).
Qed.

Lemma bind_effect s k b v tok rest y w :
  safe w → w_socks w !! s = Some k → sock_ready w s k → s_backend k = Some (Some b) →
  w_buvs w !! b = Some (Some v) →
  malloc_ok (w_mallocs w) = true → malloc_ok (S (w_mallocs w)) = true →
  NUL ∉ tok ++ ":"%char :: rest → tok ≠ [] → ":"%char ∉ tok → uri_reference tok rest = ROk y →
  ∃ e w', sc_socket_bind buv_funcs s (tok ++ ":"%char :: rest) w = Ok (e, w') ∧ safe w' ∧
    dialed (with_proto (view_proto y)) s b k v w w'.
Proof.
  intros Hs Hk Hr Eb Hb M1 M2 Hn Hne Hc Href. destruct (sf_loop w Hs) as [loop Hl].
  pose proof (sc_socket_bind_spec s k b v loop tok rest w Hk Eb Hb Hl (sf_backend w Hs) M1 M2 Hn Hne Hc) as Hd.
  rewrite Href in Hd. apply dials_dialed in Hd as (e & w' & E & Hd); [|done].
  exists e, w'. split; [done|]. split; [|done]. apply (runs_inv _ _ _ _ (λ _ w', safe w') E).
  apply bind_safe; [done|by exists k|]. exists tok, rest. by rewrite Href.
Qed.

Lemma connect_effect s k b v tok rest y w :
  safe w → w_socks w !! s = Some k → sock_ready w s k → s_backend k = Some (Some b) →
  w_buvs w !! b = Some (Some v) →
  malloc_ok (w_mallocs w) = true → malloc_ok (S (w_mallocs w)) = true →
  NUL ∉ tok ++ ":"%char :: rest → tok ≠ [] → ":"%char ∉ tok → uri_reference tok rest = ROk y →
  ∃ e w', sc_socket_connect buv_funcs s (tok ++ ":"%char :: rest) w = Ok (e, w') ∧ safe w' ∧
    dialed id s b k v w w'.
Proof.
  intros Hs Hk Hr Eb Hb M1 M2 Hn Hne Hc Href. destruct (sf_loop w Hs) as [loop Hl].
  pose proof (connect_dials s k b v loop tok rest w Hk Eb Hb Hl (sf_backend w Hs) M1 M2 Hn Hne Hc) as Hd.
  rewrite Href in Hd. apply dials_dialed in Hd as (e & w' & E & Hd); [|done].
  exists e, w'. split; [done|]. split; [|done]. apply (runs_inv _ _ _ _ (λ _ w', safe w') E).
  apply connect_safe; [done|by exists k|]. exists tok, rest. by rewrite Href.
Qed.

(** Sending and listening. *)
Lemma socket_op_safe s (k : backend → nat → M Z) w :
  safe w → usable w s →
  (∀ b, alive w b → runs (k buv_funcs b) w (λ _ w', safe w')) →
  runs (be ← the_backend buv_funcs; b ← sock_backend_obj s; k be b) w (λ _ w', safe w').
Proof.
  intros Hs (x & Hx & d & b & u & wt & v & -> & _ & _ & Hb & _) Hk.
  apply (runs_step _ _ _ _ _ _ (the_backend_ok buv_funcs w (sf_backend w Hs))).
  apply (runs_step _ _ _ _ _ _ (sock_backend_obj_ok s _ b w Hx eq_refl)). apply Hk. by eexists.
Qed.

Lemma safe_uv_do c w : safe w → runs (uv_do c) w (λ _ w', safe w').
Proof. intros Hs. eapply runs_ok; [done|]. by apply (safe_same w). Qed.

Lemma send_safe s m w :
  safe w → usable w s → sendable w m → runs (sc_socket_send buv_funcs s m) w (λ _ w', safe w').
Proof.
  intros Hs Hu (a & mv & bs & -> & Hm & Hsz). apply (socket_op_safe s (λ be b, be_send be b (Some a)));
    [done..|]. intros b (v & Hb & Hr)%alive_ready; [|done]. cbn [be_send buv_funcs]. unfold buv_send.
  apply (runs_step _ _ _ _ _ _ (get_msg_ok _ _ _ Hm)), (runs_step _ _ _ _ _ _ (demand_some _ a w)).
  assert (∃ n, sc_msg_get_size mv = Ok n) as [n En].
  { unfold sc_msg_get_size. rewrite Hsz, init_bytes_some. by eexists. }
  apply (runs_step _ _ _ _ _ _ (lift_ok _ _ w En)).
  apply (runs_step _ _ _ _ _ _ (update_buv_ok b _ v w Hb)). apply safe_uv_do.
  by apply (safe_member w b v).
Qed.

(** Accepting: whatever libuv refuses, [on_accept] is called, in a state where
    nothing that a program can see has changed. *)
Definition before_call (w0 : world) (clt : nat) (w : world) : Prop :=
  safe w ∧ internal_but (λ b, b = clt) w0 w ∧ alive w clt.

Lemma call_or_report w0 clt c w (k : Z → M unit) (Q : world → Prop) :
  (∀ e w, before_call w0 clt w → runs (call_on_accept clt e) w (λ _ w', Q w')) →
  before_call w0 clt w → (∀ b, c = UvReadStart b → b = clt) →
  (before_call w0 clt (add_uv c w) → runs (k 0) (add_uv c w) (λ _ w', Q w')) →
  runs (e ← uv_do c; if decide (e ≠ 0) then call_on_accept clt e else k e) w (λ _ w', Q w').
Proof.
  intros Hcall (Hs & Hi & Hc) Hu Hk. apply (runs_step _ _ _ _ _ _ (uv_do_ok c w)).
  assert (Hs' : before_call w0 clt (add_uv c w)).
  { split; [by apply (safe_same w)|]. split; [|done]. trans w; [done|].
    apply internal_same; [done..|]. cbn. intros b Hb [?|E%list_elem_of_singleton]%elem_of_app; [done|].
    by destruct Hb; apply Hu. }
  case_decide as E; [by apply Hcall|]. rewrite E. by apply Hk.
Qed.

Lemma accept_runs srv clt kc c w (Q : world → Prop) :
  safe w → w_socks w !! clt = Some kc → s_backend kc = Some (Some c) → bound w srv →
  (∀ e w', before_call w c w' → runs (call_on_accept c e) w' (λ _ w'', Q w'')) →
  runs (sc_socket_accept buv_funcs srv clt) w (λ _ w', Q w').
Proof.
  intros Hs Hkc Ekc (ks & b & vs & Hks & Eb & Hb & Hbd) Hcall.
  assert (∃ vc, w_buvs w !! c = Some (Some vc)) as [vc Hc].
  { destruct (sf_sock w Hs _ _ Hkc) as [->|(? & ? & ? & ? & vc & -> & ? & ? & ? & ?)]; [done|].
    injection Ekc as ->. by exists vc. }
  unfold sc_socket_accept.
  apply (runs_step _ _ _ _ _ _ (the_backend_ok buv_funcs w (sf_backend w Hs))).
  apply (runs_step _ _ _ _ _ _ (sock_backend_obj_ok srv _ b w Hks Eb)).
  apply (runs_step _ _ _ _ _ _ (sock_backend_obj_ok clt _ c w Hkc Ekc)).
  cbn [be_accept buv_funcs]. destruct (sf_loop w Hs) as [loop Hl]. unfold runs.
  rewrite (buv_accept_ok b c vs loop w Hb Hbd Hl).
  match goal with |- match ?m w with _ => _ end => change (runs m w (λ _ w', Q w')) end.
  apply (call_or_report w); [done|split; [done|split; [done|by eexists]]|by case_decide|].
  intros (Hs1 & Hi1 & Ha1). set (w1 := add_uv _ w) in *.
  apply (runs_step _ _ _ _ _ _ (update_buv_ok c _ vc w1 Hc)).
  set (w2 := set_buvs _ w1). set (vc' := with_proto (uv_proto vs) vc) in *.
  assert (Hb2 : before_call w c w2).
  { split; [by apply (safe_member w1 c vc)|]. split; [|eexists; apply lookup_insert_eq].
    trans w1; [done|]. split; [done..| | |done].
    - intros s (k & b1 & v1 & Hk & Ek & L1 & Hp). destruct (decide (b1 = c)) as [->|Hne].
      + exists k, c, vc'. split_and!; [done..|apply lookup_insert_eq|done].
      + exists k, b1, v1. split_and!; try done. cbn. by rewrite lookup_insert_ne.
    - intros a mv Ha Hap. split; [done|]. intros b1 v1 L1. cbn in L1.
      apply lookup_insert_Some in L1 as [[<- [= <-]]|[_ L1]]; [by apply (Hap c vc)|by apply (Hap b1)]. }
  apply (call_or_report w); [done..|]. intros Hb3.
  apply (call_or_report w); [done|done|by intros ? [= ->]|]. intros Hb4.
  apply (runs_step _ _ _ _ _ _ (assert_that_true _)). by apply Hcall.
Qed.

(** *** With an application that has no invariant *)

Context `{!AppSafe no_inv}.

Lemma accept_safe srv clt w :
  safe w → usable w srv → usable w clt → bound w srv →
  runs (sc_socket_accept buv_funcs srv clt) w (λ _ w', safe w').
Proof.
  intros Hs _ (kc & Hkc & dc & c & uc & wc & vc & -> & _ & _ & Hc & _) Hbd.
  apply (accept_runs srv clt _ c w safe Hs Hkc eq_refl Hbd).
  intros e w' (Hs' & _ & (v & Hb & Hr)%alive_ready); [|done]. unfold call_on_accept.
  apply (runs_step _ _ _ _ _ _ (get_buv_ok _ _ _ Hb)).
  eapply runs_weaken; [|apply (owner_call_ok no_inv w' c v); [done|done|done|done|by intros s; split]].
  by intros _ w'' [].
Qed.

Lemma api_safe c w : safe w → legal_api c w → runs (api buv_funcs c) w (λ _ w', safe w').
Proof.
  assert (Hret : ∀ {A} (m : M A), runs m w (λ _ w', safe w') → runs (m;; mret tt) w (λ _ w', safe w')).
  { intros A m Hm. apply runs_bind. eapply runs_weaken; [|done]. intros ? w' Hw'. by apply runs_ret. }
  intros Hs. destruct c; cbn [legal_api api]; try (intros [Hu Hcb]; apply update_watcher_safe;
    [done..|]; by intros wt (?&?&?&?&?&?); split; [split_and!|]).
  - intros _. apply Hret, runs_owned; [apply keeps_socket_new, _|done|by apply socket_new_linked].
  - intros Hu. apply runs_owned; [apply keeps_socket_del, _|done|by apply del_linked].
  - intros [Hu Huri]. by apply Hret, connect_safe.
  - intros (Hsrv & Hclt & Hbd). by apply accept_safe.
  - intros [Hu Huri]. by apply Hret, bind_safe.
  - intros Hu. apply Hret, (socket_op_safe s (λ be b, be_listen be b backlog)); [done..|].
    intros b _. by apply safe_uv_do.
  - intros [Hu Hm]. by apply Hret, send_safe.
  - intros Hu. apply Hret, runs_owned; [apply keeps_socket_close, _|done|by apply close_linked].
  - by apply set_userdata_safe.
  - intros Hu. by apply Hret, get_userdata_safe.
Qed.

Lemma op_safe o w : safe w → legal o w → runs (do_op o) w (λ _ w', safe w').
Proof.
  intros Hs. destruct o as [c|e|e]; cbn [legal do_op].
  - by apply api_safe.
  - intros _. apply runs_bind. unfold sc_strerror.
    repeat (case_decide; [by apply runs_ret, runs_ret|]).
    apply (runs_step _ _ _ _ _ _ (the_backend_ok buv_funcs w (sf_backend w Hs))).
    by apply runs_ret, runs_ret.
  - intros Hl. eapply runs_weaken; [|apply (event_sound no_inv); [by split|done]]. by intros _ w' [].
Qed.

Lemma legal_safe w w' : rtc legal_step w w' → safe w → safe w'.
Proof.
  induction 1 as [|w1 w2 w3 (o & Hl & E) _ IH]; [done|]. intros Hs. apply IH.
  pose proof (op_safe o w1 Hs Hl) as Hr. unfold runs in Hr. by rewrite E in Hr.
Qed.
End operations.

Section safety.
Context `{Env} `{App} `{!AppSafe no_inv}.

(** libuv asks for the buffer of a new message, and there is no memory for it. *)
Definition starved (o : operation) (w : world) : Prop :=
  ∃ b sz v, o = OpEvent (EvAlloc b sz) ∧ w_buvs w !! b = Some (Some v) ∧ uv_msg v = None ∧
    malloc_ok (w_mallocs w) = false.

Lemma starved_faults o w : safe w → starved o w → do_op o w = Fault NullDeref.
Proof.
  intros Hs (b & sz & v & -> & Hb & Em & HM). destruct (sf_buv w Hs b _ Hb) as (? & [= <-] & Hv).
  cbn [do_op event]. apply st_bind_fault. unfold alloc_wrap.
  rewrite (st_bind_ok _ _ _ _ _ (get_buv_ok _ _ _ Hb)), (br_stream _ _ _ Hv).
  rewrite (st_bind_ok _ _ _ _ _ (get_buv_ok _ _ _ Hb)), Em. apply st_bind_fault, st_bind_fault.
  unfold sc_msg_alloc. rewrite (st_bind_ok _ _ _ _ _ (gets_ok _ w)), (sf_alloc w Hs).
  unfold default_heap_alloc, malloc. eval_world. by rewrite HM.
Qed.

(** C3. Memory safety.  A program that initialises the library and then keeps
    to the rules, calling any operation and letting libuv run any callback,
    in any order, never makes it fault, whatever libuv answers, and whatever
    [malloc] answers other than for a message that arrives: the next legal
    operation returns, and what the library relies on holds again, unless a
    callback of the program ends it with [fatal].  Without memory for a
    message that arrives, alloc_wrap dereferences the null pointer.  The
    application's own callbacks, which the library calls in between with
    complete messages and live sockets, have to do the same ([AppSafe]). *)
Theorem library_never_faults loop w0 w o :
  sc_init SC_LIBUV (Some loop) None None world0 = Ok (tt, w0) → rtc legal_step w0 w →
  (legal o w → (∃ w', do_op o w = Ok (tt, w') ∧ safe w') ∨ ∃ msg, do_op o w = Fault (Fatal msg)) ∧
  (starved o w → do_op o w = Fault NullDeref).
Proof.
  intros E Hr. assert (Hs : safe w).
  { destruct (init_effect loop world0) as (w1 & E1 & Hs & _); [done..|].
    apply (legal_safe w0 w Hr). congruence. }
  split; [|by apply starved_faults]. intros Hl. pose proof (op_safe o w Hs Hl) as H'.
  unfold runs in H'. destruct (do_op o w) as [[[] w']|[]]; try done; [left|right]; eauto.
Qed.
End safety.

(** ** A program that closes at the end of a stream, and deletes what is closed *)
Section safety_demo.
#[local] Existing Instance demo_env.
#[local] Existing Instance demo_app.

(** A program whose callbacks do nothing. *)
Lemma idle_safe (E : Env) : AppSafe (H := E) (H0 := demo_app) no_inv.
Proof.
  split; [done|]. intros f ev w Hs _ [Hu _] _. apply runs_ret. split; [done|]. split; [done|].
  destruct ev; try done. cbn in Hu. destruct Hu as (k & Hk & d & b & u & wt & v & -> & _ & _ & Hv & _).
  intros k' b'. rewrite Hk. intros [= <-] [= <-]. by eexists.
Qed.

Definition closing_app : App := {|
  app_cb := λ _ ev,
    match ev with
    | OnRecv s None _ => sc_socket_close buv_funcs s;; mret tt
    | OnClose s => sc_socket_del buv_funcs s
    | _ => mret tt
    end;
  app_alloc := λ _ _, mret None;
  app_free := λ _ _, mret tt
|}.

#[export] Instance closing_safe : AppSafe (H0 := closing_app) no_inv.
Proof.
  split; [done|]. intros f ev w Hs _ [Hu _] _. assert (Hid : leaves_reader ev w w).
  { destruct ev; try done. cbn in Hu. destruct Hu as (k & Hk & d & b & u & wt & v & -> & _ & _ & Hv & _).
    intros k' b'. rewrite Hk. intros [= <-] [= <-]. by eexists. }
  destruct ev as [s e|s e|s e|s [m|] e|s e|s]; cbn [app_cb closing_app event_socket] in *;
    try by apply runs_ret.
  - destruct Hu as (k & Hk & Hr). destruct (close_effect s k w Hs Hk Hr) as (w' & E & Hs' & _ & Eb & _).
    apply (runs_step _ _ _ _ _ _ E), runs_ret. split; [done|]. split; [done|].
    destruct Hr as (d & b & u & wt & v & -> & _ & _ & Hv & _).
    intros k' b'. rewrite Hk. intros [= <-] [= <-]. unfold alive. rewrite Eb. by eexists.
  - eapply runs_weaken; [|apply (runs_owned _ w (keeps_socket_del buv_funcs s) Hs), del_linked; done].
    by intros [] w' ?.
Qed.

#[local] Existing Instance closing_app.

(** A socket that connects, and is closed. *)
Definition closing_ops : list operation :=
  [OpApi ApiNew; OpApi (ApiOnClose 1 (CbUser 0));
   OpApi (ApiConnect 1 (str "tcp://127.0.0.1:80")); OpApi (ApiClose 1)].
Fixpoint do_ops (os : list operation) : M unit :=
  match os with [] => mret tt | o :: os => do_op o;; do_ops os end.
Definition closing_world (n : nat) : world :=
  match do_ops (take n closing_ops) ready_world with Ok (_, w) => w | Fault _ => world0 end.

(** A socket that took the last memory. *)
Definition lean_world : world :=
  match do_op (H := lean_env 2) (H0 := demo_app) (OpApi ApiNew) ready_world with Ok (_, w) => w | Fault _ => world0 end.

Lemma good_demo_uri : good_uri (str "tcp://127.0.0.1:80").
Proof.
  exists (str "tcp"), (str "//127.0.0.1:80"). split; [reflexivity|].
  split_and!; [decide_by_run|done|decide_by_run|vm_compute; discriminate].
Qed.

Lemma closing_steps : rtc legal_step ready_world (closing_world 4).
Proof.
  assert (Hstep : ∀ n o, closing_ops !! n = Some o → legal o (closing_world n) →
    do_op o (closing_world n) = Ok (tt, closing_world (S n)) →
    legal_step (closing_world n) (closing_world (S n))) by (intros n o _ ? ?; by exists o).
  assert (Hu : ∀ n, n ∈ [1%nat; 2%nat; 3%nat] → usable (closing_world n) 1).
  { intros n. rewrite !elem_of_cons, elem_of_nil. intros [->|[->|[->|[]]]];
      (eexists; split; [vm_compute; reflexivity|]);
      do 5 eexists; (split; [reflexivity|]); (split_and!; [done|by split_and!|..]);
      vm_compute; reflexivity. }
  trans (closing_world 1); [|trans (closing_world 2); [|trans (closing_world 3)]];
    [apply rtc_once, (Hstep 0%nat (OpApi ApiNew))
    |apply rtc_once, (Hstep 1%nat (OpApi (ApiOnClose 1 (CbUser 0))))
    |apply rtc_once, (Hstep 2%nat (OpApi (ApiConnect 1 (str "tcp://127.0.0.1:80"))))
    |apply rtc_once, (Hstep 3%nat (OpApi (ApiClose 1)))]; try (vm_compute; reflexivity).
  - split; [by apply Hu; set_solver|done].
  - split; [by apply Hu; set_solver|exact good_demo_uri].
  - by apply Hu; set_solver.
Qed.

(** When libuv reports it closed, the program deletes it; and libuv asks for a
    buffer when memory has run out. *)
Lemma library_never_faults_witness :
  ((∃ w', do_op (OpEvent (EvClose 2)) (closing_world 4) = Ok (tt, w') ∧ safe w') ∨
   ∃ msg, do_op (OpEvent (EvClose 2)) (closing_world 4) = Fault (Fatal msg)) ∧
  do_op (H := lean_env 2) (H0 := demo_app) (OpEvent (EvAlloc 2 65536)) lean_world = Fault NullDeref.
Proof.
  split.
  - apply (library_never_faults 0 ready_world (closing_world 4)).
    + reflexivity.
    + exact closing_steps.
    + eexists. vm_compute. reflexivity.
  - apply (library_never_faults (H := lean_env 2) (H0 := demo_app) (AppSafe0 := idle_safe _) 0 ready_world lean_world).
    + reflexivity.
    + apply rtc_once. exists (OpApi ApiNew). split; [exact I|]. vm_compute. reflexivity.
    + exists 2%nat, 65536, (new_buv 2 1). split_and!; reflexivity.
Defined.
End safety_demo.
