(* ===== verification/TestApp.v ===== *)
(** * What the test programs share (test/fatal.h and the idioms of test/*.c)

    Giving up, closing a socket, handles of their own, and printing. *)

From S2P Require Import Prelude Endian CString Strerror Msg MsgReader Uri AppData World.
From S2P Require Import Watcher Backend BackendUv Socket.

(** [fatal] of test/fatal.h: the program ends there. *)
Definition fatal_exit {A} (msg : string) : M A := fail_with (Fatal msg).

(** A member of a structure, which must have been assigned. *)
Definition member {A} (o : option A) : M A := demand Indeterminate o.

(** *** The objects of the program *)
Definition get_obj (a : nat) : M app_obj :=
  s ← gets w_app; demand UseAfterFree (a_objs s !! a).
Definition put_obj (a : nat) (v : app_obj) : M unit :=
  modify (λ w, set_app (set_objs (<[a := v]> (a_objs (w_app w))) (w_app w)) w).
Definition free_obj (a : nat) : M unit :=
  s ← gets w_app;
  _ ← demand UseAfterFree (a_objs s !! a);
  modify (λ w, set_app (set_objs (delete a (a_objs (w_app w))) (w_app w)) w).

(** [fprintf(output, ...)] *)
Definition put_out (bs : list byte) : M unit :=
  modify (λ w, set_app (add_out bs (w_app w)) w).

(** What [%. *s] prints of an array: up to [prec] bytes, up to a null; without
    a precision only a null ends it. *)
Fixpoint printf_s (prec : option nat) (l : list (option byte)) : outcome (list byte) :=
  match prec with
  | Some O => Ok []
  | _ =>
      match l with
      | [] => Fault OutOfBounds
      | None :: _ => Fault Indeterminate
      | Some b :: l =>
          if decide (b = x00) then Ok []
          else t ← printf_s (pred <$> prec) l; Ok (b :: t)
      end
  end.

(** The precision an [unsigned] is after its conversion to [int]: a negative
    one is as good as none. *)
Definition precision (size : Z) : option nat :=
  if decide (size < 2 ^ 31) then Some (Z.to_nat size) else None.

Definition text (s : string) : list byte := String.list_byte_of_string s.

(** [%u] *)
Definition print_unsigned (n : Z) : list byte :=
  Ascii.byte_of_ascii <$> print_dec_fuel 9 n.

Section test_app.
Context `{Env} `{App}.

(** A call of libuv on a handle of the program, fatal if it fails. *)
Definition handle_call (c : uv_call) (msg : string) : M unit :=
  e ← uv_do c;
  if decide (e ≠ 0) then fatal_exit msg else mret tt.

(** [uv_close] of a handle of the program. *)
Definition close_handle (h : app_handle) : M unit :=
  uv_do (UvHandleClose h);; mret tt.

Definition close_socket (s : nat) : M unit :=
  e ← sc_socket_close buv_funcs s;
  if decide (e ≠ 0) then fatal_exit "sc_socket_close" else mret tt.

(** [sc_socket_new], fatal without memory. *)
Definition new_socket : M nat :=
  o ← sc_socket_new buv_funcs;
  match o with Some s => mret s | None => fatal_exit "sc_socket_new" end.

(** The size and the text of a message, as [printf] prints it. *)
Definition msg_text (m : option nat) : M (Z * list byte) :=
  v ← get_msg m;
  size ← lift (sc_msg_get_size v);
  t ← lift (printf_s (precision size) (data v));
  mret (size, t).

(** [if (uv_run(...)) fatal("uv_run")] and the like, for what the loop does:
    the callbacks it makes, as a computation. *)
Definition fatal_unless_zero (c : M Z) (msg : string) : M unit :=
  e ← c; if decide (e ≠ 0) then fatal_exit msg else mret tt.

(** [assert(signum == SIGTERM || signum == SIGINT)] *)
Definition SIGINT : Z := 2.
Definition SIGTERM : Z := 15.
Definition assert_signal (signum : Z) : M unit :=
  assert_that (bool_decide (signum = SIGTERM ∨ signum = SIGINT)).
End test_app.

(** ** What [printf] shows of a message *)

(** The text of a payload: up to its first null byte. *)
Fixpoint c_text (p : list byte) : list byte :=
  match p with
  | [] => []
  | b :: p => if decide (b = x00) then [] else b :: c_text p
  end.

Lemma c_text_id p : Forall (λ b, b ≠ x00) p → c_text p = p.
Proof. induction 1; cbn; [done|]. rewrite decide_False by done. by f_equal. Qed.

Lemma printf_s_text p l :
  take (length p) l = Some <$> p → printf_s (Some (length p)) l = Ok (c_text p).
Proof.
  revert l. induction p as [|b p IH]; intros l El; [by destruct l|].
  destruct l as [|x l]; [done|]. cbn in El. simplify_eq. cbn.
  destruct (decide (b = x00)); [done|]. by rewrite IH.
Qed.

Section msg_text.
Context `{Env}.

Lemma payload_inv v p :
  payload v = Ok (Some <$> p) →
  sc_msg_get_size v = Ok (Z.of_nat (length p)) ∧ take (length p) (data v) = Some <$> p.
Proof.
  unfold payload.
  destruct (sc_msg_get_size v) as [n|]; [|done]. osimpl. case_decide as Hn; [|done].
  osimpl. intros [= E].
  assert (Z.to_nat n = length p) as El.
  { apply (f_equal length) in E. rewrite length_take, length_fmap in E. lia. }
  rewrite <-E, El. split; [f_equal; lia|done].
Qed.

Lemma msg_text_ok s m e p w :
  event_payload (OnRecv s m e) w = Some (Some <$> p) → Z.of_nat (length p) < 2 ^ 31 →
  msg_text m w = Ok ((Z.of_nat (length p), c_text p), w).
Proof.
  intros Ep Hp. destruct m as [m|]; [|done]. unfold event_payload in Ep.
  cbn [deref_msg] in Ep. destruct (w_msgs w !! m) as [v|] eqn:Ev; [|done]. revert Ep. osimpl.
  destruct (payload v) as [bs|] eqn:Epl; [|done]. intros [= ->].
  apply payload_inv in Epl as [Es Et]. unfold msg_text.
  rewrite (st_bind_ok _ _ _ _ _ (get_msg_ok m v w Ev)).
  rewrite (st_bind_ok _ _ _ _ _ (lift_ok _ _ w Es)). unfold precision.
  rewrite decide_True, Nat2Z.id by done.
  by rewrite (st_bind_ok _ _ _ _ _ (lift_ok _ _ w (printf_s_text p _ Et))).
Qed.
End msg_text.
