(* ===== verification/SafeRun.v ===== *)
(** * Steps of whole programs

    What the test programs do around the calls of the library, each step with
    what it leaves: making a socket and setting its callbacks, binding, calls
    of libuv that have to succeed, and deleting.  EchoSafe.v and the files
    after it put them together. *)

From S2P Require Import Prelude Endian CString Strerror Msg MsgReader Uri AppData World.
From S2P Require Import Watcher Demo Backend BackendUv Conn Frame Recv Socket SocketUv Owner Dial.
From S2P Require Import Lifecycle Sc System Safety SafeApi TestApp.
From Stdlib Require Import Ascii.

(** Sockets with a watcher can be used. *)
Lemma watched_ready w s k wt :
  safe w → w_socks w !! s = Some k → s_watcher k = Some wt → sock_ready w s k.
Proof. intros Hs Hk Ew. by destruct (sf_sock w Hs s k Hk) as [->|Hr]. Qed.

(** An object of the program. *)
Definition has_obj (a : nat) (o : app_obj) (w : world) : Prop := a_objs (w_app w) !! a = Some o.

(** A socket of the object at [a]. *)
Definition owned_by (a s : nat) (wt : watcher) (w : world) : Prop :=
  ∃ k, w_socks w !! s = Some k ∧ s_watcher k = Some wt ∧ s_userdata k = Some (Z.of_nat a).

Lemma owned_by_socks a s wt w w' : w_socks w' = w_socks w → owned_by a s wt w → owned_by a s wt w'.
Proof. intros Es (k & Hk & ?). exists k. by rewrite Es. Qed.

(** Sockets have backend sockets of their own. *)
Lemma backend_owner w s k b :
  safe w → w_socks w !! s = Some k → s_backend k = Some (Some b) →
  ∃ v, w_buvs w !! b = Some (Some v) ∧ uv_watcher v = s.
Proof.
  intros Hs Hk Eb. destruct (sf_sock w Hs s k Hk) as [->|(d & b' & u & wt & v & -> & _ & _ & ? & ?)]; [done|].
  exists v. cbn in Eb. by injection Eb as ->.
Qed.

(** A socket that is being set up, next to the sockets [m]. *)
Record building (m : gmap nat sc_socket) (bs : gmap nat (option socket_uv)) (h : msg_heap) (s : nat)
    (k : sc_socket) (w : world) : Prop := {
  bd_safe : safe w;
  bd_socks : w_socks w = <[s := k]> m;
  bd_buvs : w_buvs w = bs;
  bd_msgs : w_msgs w = h;
  bd_uris : no_stray w
}.

Lemma building_app m bs h s k a w : building m bs h s k w → building m bs h s k (set_app a w).
Proof. intros [H1 H2 H3 H4 H5]. split; [by apply (safe_same w)|done..]. Qed.

Section steps.
Context `{Env} `{App}.

(** Without sockets nothing else is left. *)
Lemma nothing_left w :
  safe w → no_stray w → w_socks w = ∅ → w_buvs w = ∅ ∧ w_uris w = ∅.
Proof.
  intros Hs Hn Es. split; apply map_empty; intros a; apply eq_None_not_Some.
  - intros [o Ho]. destruct (sf_buv w Hs a o Ho) as (v & _ & Hr).
    destruct (br_sock _ _ _ Hr) as (k & Hk & _). by rewrite Es in Hk.
  - intros (s & k & Hk & _)%Hn. by rewrite Es in Hk.
Qed.

(** The only socket, or one of the only two, is deleted. *)
Lemma only_socket_gone s w w' :
  (∀ x k, w_socks w !! x = Some k → x = s) → w_socks w' = delete s (w_socks w) → w_socks w' = ∅.
Proof.
  intros Ho Es. apply map_empty. intros x. rewrite Es. apply eq_None_not_Some.
  intros [k [Hne Hk]%lookup_delete_Some]. by apply Hne; rewrite (Ho x k Hk).
Qed.

Lemma two_sockets_gone s c w w1 w2 :
  (∀ x k, w_socks w !! x = Some k → x = s ∨ x = c) →
  w_socks w1 = delete c (w_socks w) → w_socks w2 = delete s (w_socks w1) → w_socks w2 = ∅.
Proof.
  intros Ho E1. apply only_socket_gone. rewrite E1. intros x k [Hne Hk]%lookup_delete_Some.
  destruct (Ho x k Hk); congruence.
Qed.

Lemma watched_del s k wt w :
  safe w → w_socks w !! s = Some k → s_watcher k = Some wt →
  ∃ w', sc_socket_del buv_funcs s w = Ok (tt, w') ∧ safe w' ∧
    w_socks w' = delete s (w_socks w) ∧ w_msgs w' = w_msgs w ∧ w_app w' = w_app w ∧
    (no_stray w → no_stray w').
Proof.
  intros Hs Hk Ew. pose proof (watched_ready _ _ _ _ Hs Hk Ew) as Hr.
  pose proof Hr as (d & b & u & wt' & v & Ek & _).
  destruct (del_effect s k b w Hs Hk Hr ltac:(by subst k)) as (w' & E & Hs' & Es & _ & Em & Ea & Hn).
  by exists w'.
Qed.

(** ** Setting up *)

(** A socket, or the end of the program. *)
Lemma new_socket_runs w (Q : nat → world → Prop) :
  safe w → no_stray w →
  (∀ w', building (w_socks w) (<[S (w_next w) := Some (new_buv (S (w_next w)) (w_next w))]> (w_buvs w))
      (w_msgs w) (w_next w) (new_sock (w_next w) (S (w_next w))) w' → w_app w' = w_app w → Q (w_next w) w') →
  runs new_socket w Q.
Proof.
  intros Hs Hn HQ. unfold new_socket.
  destruct (malloc_ok (w_mallocs w)) eqn:M1; [destruct (malloc_ok (S (w_mallocs w))) eqn:M2|].
  - destruct (new_effect w Hs M1 M2) as (w' & E & Hs' & Es & Eb & Em & Ea & Hn').
    apply (runs_step _ _ _ _ _ _ E), runs_ret, HQ; [|done]. split; auto.
  - by apply (runs_step _ _ _ _ _ _ (sc_socket_new_starved w (sf_backend w Hs) M1 M2)).
  - apply (runs_step _ _ w None (set_mallocs (S (w_mallocs w)) w)); [|done].
    unfold sc_socket_new, malloc. eval_world. by rewrite M1.
Qed.

Section building.
Context (m : gmap nat sc_socket) (bs : gmap nat (option socket_uv)) (h : msg_heap) (s : nat).

Lemma building_at k w : building m bs h s k w → w_socks w !! s = Some k.
Proof. intros Hb. rewrite (bd_socks _ _ _ _ _ _ Hb). apply lookup_insert_eq. Qed.

Lemma building_watcher {A} f k wt (rest : M A) w Q :
  building m bs h s k w → s_watcher k = Some wt →
  (∀ wt, callbacks_set wt → callbacks_set (f wt) ∧ w_socket (f wt) = w_socket wt) →
  (∀ w', building m bs h s (with_watcher (Some (f wt)) k) w' → w_app w' = w_app w → runs rest w' Q) →
  runs (update_watcher s f;; rest) w Q.
Proof.
  intros Hb Ew Hf HQ. pose proof (building_at k w Hb) as Hk. pose proof (bd_safe _ _ _ _ _ _ Hb) as Hs.
  destruct (watcher_effect s f k wt w Hs Hk (watched_ready _ _ _ _ Hs Hk Ew) Ew Hf)
    as (w' & E & Hs' & Es & Eb & Em & Ea & Hn).
  apply (runs_step _ _ _ _ _ _ E), HQ; [|done]. destruct Hb as [_ Eso Ebu Emu Hu].
  split; [done|by rewrite Es, Eso, insert_insert_eq|congruence|congruence|auto].
Qed.

Lemma building_userdata {A} d k wt (rest : M A) w Q :
  building m bs h s k w → s_watcher k = Some wt →
  (∀ w', building m bs h s (with_userdata (Some d) k) w' → w_app w' = w_app w → runs rest w' Q) →
  runs (sc_socket_set_userdata s d;; rest) w Q.
Proof.
  intros Hb Ew HQ. pose proof (building_at k w Hb) as Hk. pose proof (bd_safe _ _ _ _ _ _ Hb) as Hs.
  pose proof (update_sock_ok s (with_userdata (Some d)) k w Hk) as E.
  apply (runs_step _ _ _ _ _ _ E), HQ; [|done]. destruct Hb as [_ Eso Ebu Emu Hu]. split.
  - apply (runs_inv _ _ _ _ (λ _ w', safe w') E), set_userdata_safe; [done|].
    exists k. split; [done|]. by eapply watched_ready.
  - cbn. by rewrite Eso, insert_insert_eq.
  - done.
  - done.
  - apply (stray_socks w); [done| |done]. intros a u (k' & Hk' & Eu). unfold owns. cbn.
    destruct (decide (a = s)) as [->|Hne]; [rewrite lookup_insert_eq|rewrite lookup_insert_ne by done; by exists k'].
    eexists. split; [done|]. rewrite Hk in Hk'. by injection Hk' as ->.
Qed.

(** The same, with an object of the program that stays as it is. *)
Lemma watcher_step {A} g k wt a o (rest : M A) w Q :
  has_obj a o w → building m bs h s k w → s_watcher k = Some wt →
  (∀ wt, callbacks_set wt → callbacks_set (g wt) ∧ w_socket (g wt) = w_socket wt) →
  (∀ w', has_obj a o w' → building m bs h s (with_watcher (Some (g wt)) k) w' → runs rest w' Q) →
  runs (update_watcher s g;; rest) w Q.
Proof.
  intros Hv Hb Ew Hg HQ. eapply building_watcher; [done..|]. intros w' Hb' Ea. apply HQ; [|done].
  unfold has_obj. by rewrite Ea.
Qed.

Lemma userdata_step {A} d k wt a o (rest : M A) w Q :
  has_obj a o w → building m bs h s k w → s_watcher k = Some wt →
  (∀ w', has_obj a o w' → building m bs h s (with_userdata (Some d) k) w' → runs rest w' Q) →
  runs (sc_socket_set_userdata s d;; rest) w Q.
Proof.
  intros Hv Hb Ew HQ. eapply building_userdata; [done..|]. intros w' Hb' Ea. apply HQ; [|done].
  unfold has_obj. by rewrite Ea.
Qed.
End building.

(** A socket of the object at [a], once it is set up, and what that leaves. *)
Definition set_up (a s : nat) (wt : watcher) : sc_socket :=
  Socket (Some (Z.of_nat a)) (Some (Some (S s))) (Some None) (Some wt).

Definition adds_socket (a s : nat) (wt : watcher) (o : app_obj) (w w' : world) : Prop :=
  building (w_socks w) (<[S s := Some (new_buv (S s) s)]> (w_buvs w)) (w_msgs w) s (set_up a s wt) w' ∧
  has_obj a o w'.

(** A call of libuv that has to succeed. *)
Lemma handle_call_runs c msg w (Q : unit → world → Prop) :
  Q tt (add_uv c w) → runs (handle_call c msg) w Q.
Proof.
  intros HQ. unfold handle_call. apply (runs_step _ _ _ _ _ _ (uv_do_ok c w)).
  by case_decide; [|apply runs_ret].
Qed.

Lemma safe_add_uv c w : safe w → safe (add_uv c w).
Proof. intros Hs. by apply (safe_same w). Qed.

(** Connecting or binding to any good URI, with whatever memory there is. *)
Definition dialed_to (s b : nat) (k : sc_socket) (v : socket_uv)
    (f : uri_view → socket_uv → socket_uv) (e : Z) (w w' : world) : Prop :=
  safe w' ∧ no_stray w' ∧ (∃ u, w_socks w' = <[s := with_uri (Some u) k]> (w_socks w)) ∧
  w_app w' = w_app w ∧ w_msgs w' = w_msgs w ∧
  (e ≠ 0 ∧ w_buvs w' = w_buvs w ∨
   ∃ y addr, w_buvs w' = <[b := Some (with_addr addr (f y v))]> (w_buvs w)).

Lemma dial_runs (op : backend → nat → nat → M Z) plan f s k b v uri w :
  safe w → w_socks w !! s = Some k → s_backend k = Some (Some b) →
  w_buvs w !! b = Some (Some v) → s_uri k = Some None → good_uri uri → no_stray w →
  (∀ loop u x y w1, w_uris w1 !! u = Some x → uri_shows x y →
    w_buvs w1 !! b = Some (Some v) → w_buv_data w1 = Some loop →
    carries_out b v (f y) (plan loop (w_uv w1) y) w1 (op buv_funcs b u w1)) →
  let m := r ← set_new_uri s uri;
    match fst r with
    | None => mret (snd r)
    | Some u => be ← the_backend buv_funcs; b ← sock_backend_obj s; op be b u
    end in
  runs m w (λ _ w', safe w') → ∃ e w', m w = Ok (e, w') ∧ dialed_to s b k v f e w w'.
Proof.
  intros Hs Hk Eb Hb Eu Huri Hn Hop m Hsafe. destruct (sf_loop w Hs) as [loop Hl].
  destruct (good_uri_parsed (malloc_ok (w_mallocs w)) (malloc_ok (S (w_mallocs w))) uri Huri)
    as (o & e & E & He & Ho). destruct (set_new_uri_eq s k uri o e w Hk E) as [n En].
  destruct o as [x|].
  - destruct (Ho x eq_refl) as [y Hy]. set (w1 := set_socks _ _) in En.
    assert (Es : s_backend (with_uri (Some (Some (w_next w))) k) = Some (Some b)) by done.
    destruct (Hop loop (w_next w) x y w1 (lookup_insert_eq _ _ _) Hy Hb Hl) as [addr E2].
    assert (Erun : m w = op buv_funcs b (w_next w) w1).
    { unfold m. rewrite (st_bind_ok _ _ _ _ _ En). cbn [fst].
      rewrite (st_bind_ok _ _ _ _ _ (the_backend_ok buv_funcs w1 (sf_backend w Hs))).
      by rewrite (st_bind_ok _ _ _ _ _ (sock_backend_obj_ok s _ b w1 (lookup_insert_eq _ _ _) Es)). }
    rewrite E2 in Erun. eexists _, _. split; [exact Erun|].
    split; [exact (runs_inv _ _ _ _ (λ _ w', safe w') Erun Hsafe)|].
    split; [by apply (stray_uri w _ s k x)|]. split; [by eexists|]. split; [done|]. split; [done|].
    right. by exists y, addr.
  - assert (Erun : m w = Ok (e, set_socks (<[s := with_uri (Some None) k]> (w_socks w)) (set_mallocs n w))).
    { unfold m. by rewrite (st_bind_ok _ _ _ _ _ En). }
    eexists _, _. split; [exact Erun|].
    split; [exact (runs_inv _ _ _ _ (λ _ w', safe w') Erun Hsafe)|].
    split; [|split; [by eexists|split; [done|split; [done|left; by auto]]]].
    apply (stray_socks w); [done| |done]. intros a u (k' & Hk' & Eu'). exists k'. split; [|done]. cbn.
    rewrite lookup_insert_ne; [done|]. intros <-. congruence.
Qed.

Lemma bind_runs s k b v uri w :
  safe w → w_socks w !! s = Some k → sock_ready w s k → s_backend k = Some (Some b) →
  w_buvs w !! b = Some (Some v) → s_uri k = Some None → good_uri uri → no_stray w →
  ∃ e w', sc_socket_bind buv_funcs s uri w = Ok (e, w') ∧
    dialed_to s b k v (λ y, with_proto (view_proto y)) e w w' ∧ (e = 0 → bound w' s).
Proof.
  intros Hs Hk Hr Eb Hb Eu Huri Hn.
  destruct (dial_runs be_bind (λ loop past y, bind_plan loop b past y) (λ y, with_proto (view_proto y))
    s k b v uri w Hs Hk Eb Hb Eu Huri Hn) as (e & w' & E & Hd).
  - intros. by eapply buv_bind_plan.
  - by apply bind_safe; [|exists k|].
  - exists e, w'. split; [exact E|]. split; [done|]. intros ->.
    destruct Hd as (_ & _ & (u & Es) & _ & _ & [[? _]|(y & addr & Ebu)]); [done|].
    eexists _, b, _. split; [rewrite Es; apply lookup_insert_eq|]. split; [done|].
    split; [rewrite Ebu; apply lookup_insert_eq|]. by destruct y.
Qed.

Lemma connect_runs s k b v uri w :
  safe w → w_socks w !! s = Some k → sock_ready w s k → s_backend k = Some (Some b) →
  w_buvs w !! b = Some (Some v) → s_uri k = Some None → good_uri uri → no_stray w →
  ∃ e w', sc_socket_connect buv_funcs s uri w = Ok (e, w') ∧ dialed_to s b k v (λ _, id) e w w'.
Proof.
  intros Hs Hk Hr Eb Hb Eu Huri Hn.
  apply (dial_runs be_connect (λ loop past y, connect_plan loop b past y) (λ _, id)
    s k b v uri w Hs Hk Eb Hb Eu Huri Hn).
  - intros. by eapply buv_connect_plan.
  - by apply connect_safe; [|exists k|].
Qed.

(** ** Messages of the program *)

(** Connecting leaves messages that are not under way alone. *)
Lemma dialed_apart s b k v e w w' a :
  w_buvs w !! b = Some (Some v) → dialed_to s b k v (λ _, id) e w w' → apart w a → apart w' a.
Proof.
  intros Hb (_ & _ & _ & _ & _ & [[_ Eb]|(y & addr & Eb)]) Ha b1 v1; rewrite Eb; [apply Ha|].
  intros [[<- [= <-]]|[_ ?]]%lookup_insert_Some; [by apply (Ha b v)|by eapply Ha].
Qed.

(** A message that no socket reads into may change, or be new. *)
Lemma safe_put_msg m o w :
  safe w → apart w m → (m < w_next w)%nat → safe (set_msgs (partial_alter (λ _, o) m (w_msgs w)) w).
Proof.
  intros [[S1 S2 S3 S4 S5 S6 S7 S8 S9 S10] HO] Ha Hm. split.
  - split; cbn; try done.
    + intros a Hle. rewrite lookup_partial_alter_ne by lia. by apply S5.
    + intros b ob Hb. destruct (S9 b ob Hb) as (v & -> & [B1 B2 B3 B4 B5]). exists v. split; [done|].
      split; try done. apply (reading_other (w_msgs w)); [|done]. intros m' Em. cbn.
      apply lookup_partial_alter_ne. intros ->. by eapply Ha.
  - by apply (owned_frame _ w); [split_and!|].
Qed.

(** Sending: the program's objects, and its messages, are left alone. *)
Lemma send_effect s k m w :
  safe w → w_socks w !! s = Some k → sock_ready w s k → sendable w (Some m) →
  ∃ e w', sc_socket_send buv_funcs s (Some m) w = Ok (e, w') ∧ safe w' ∧ internal w w'.
Proof.
  intros Hs Hk Hr Hm. pose proof (send_safe s (Some m) w Hs ltac:(by exists k) Hm) as Hsafe.
  destruct Hr as (d & b & u & wt & v & -> & _ & _ & Hb & Hv).
  destruct Hm as (? & mv & bs & [= <-] & Hmv & Hsz).
  assert (Erun : ∃ e bufs, sc_socket_send buv_funcs s (Some m) w =
    Ok (e, add_uv (UvWrite b bufs) (set_buvs (<[b := Some (with_buffers bufs v)]> (w_buvs w)) w))).
  { unfold sc_socket_send.
    rewrite (st_bind_ok _ _ _ _ _ (the_backend_ok buv_funcs w (sf_backend w Hs))).
    rewrite (st_bind_ok _ _ _ _ _ (sock_backend_obj_ok s _ b w Hk eq_refl)).
    cbn [be_send buv_funcs]. unfold buv_send. rewrite (st_bind_ok _ _ _ _ _ (get_msg_ok _ _ _ Hmv)).
    rewrite (st_bind_ok _ _ _ _ _ (demand_some _ m w)).
    assert (∃ n, sc_msg_get_size mv = Ok n) as [n En].
    { unfold sc_msg_get_size. rewrite Hsz, init_bytes_some. by eexists. }
    rewrite (st_bind_ok _ _ _ _ _ (lift_ok _ _ w En)).
    rewrite (st_bind_ok _ _ _ _ _ (update_buv_ok b _ v w Hb)). by eexists _, _. }
  destruct Erun as (e & bufs & Erun). eexists e, _. split; [exact Erun|].
  split; [exact (runs_inv _ _ _ _ (λ _ w', safe w') Erun Hsafe)|].
  set (w1 := set_buvs _ w). trans w1.
  - apply (internal_buv w b v (with_buffers bufs v) (w_msgs w) Hb); [done|by left|done].
  - apply internal_same; [done..|]. cbn.
    by intros b' _ [?|E%list_elem_of_singleton]%elem_of_app.
Qed.

(** ** Closing *)

(** The state after closing the socket [a]: sockets only lose their URI. *)
Record closed_at (a : nat) (w w' : world) : Prop := {
  cl_safe : safe w';
  cl_sock x k : w_socks w !! x = Some k → ∃ k', w_socks w' !! x = Some k' ∧
    s_watcher k' = s_watcher k ∧ s_backend k' = s_backend k ∧ s_userdata k' = s_userdata k;
  cl_only x : is_Some (w_socks w' !! x) → is_Some (w_socks w !! x);
  cl_buvs : w_buvs w' = w_buvs w;
  cl_msgs : w_msgs w' = w_msgs w;
  cl_app : w_app w' = w_app w;
  cl_uris : no_stray w → no_stray w';
  cl_reads b : UvReadStart b ∈ w_uv w' → UvReadStart b ∈ w_uv w
}.

Lemma watched_close a k wt w :
  safe w → w_socks w !! a = Some k → s_watcher k = Some wt →
  ∃ w', sc_socket_close buv_funcs a w = Ok (0, w') ∧ closed_at a w w'.
Proof.
  intros Hs Hk Ew. destruct (close_effect a k w Hs Hk (watched_ready _ _ _ _ Hs Hk Ew))
    as (w' & E & Hs' & Es & Eb & Em & Ea & Hn & b & Eu).
  exists w'. split; [done|]. split; try done.
  - intros x kx Hx. rewrite Es. destruct (decide (x = a)) as [->|Hne].
    + rewrite lookup_insert_eq. eexists. split; [done|]. rewrite Hx in Hk. by injection Hk as ->.
    + exists kx. by rewrite lookup_insert_ne.
  - intros x. rewrite Es, lookup_insert_is_Some. intros [<-|[_ ?]]; [by eexists|done].
  - intros b' Hb'. rewrite Eu in Hb'. apply elem_of_app in Hb' as [?|Hb']; [done|].
    by apply list_elem_of_singleton in Hb'.
Qed.

Lemma closed_bound a s w w' : closed_at a w w' → bound w s → bound w' s.
Proof.
  intros Hc (k & b & v & Hk & Eb & Hb & Hp).
  destruct (cl_sock _ _ _ Hc s k Hk) as (k' & Hk' & _ & Eb' & _).
  exists k', b, v. rewrite (cl_buvs _ _ _ Hc). split_and!; congruence.
Qed.

Lemma owned_by_closed a s wt x w w' : closed_at x w w' → owned_by a s wt w → owned_by a s wt w'.
Proof.
  intros Hc (k & Hk & Ew & Ed). destruct (cl_sock _ _ _ Hc s k Hk) as (k' & Hk' & ? & _ & ?).
  exists k'. split_and!; congruence.
Qed.

Lemma closed_not_reading a s w w' : closed_at a w w' → is_Some (w_socks w !! s) →
  read_started w' s → read_started w s.
Proof.
  intros Hc [k Hk] (k' & b & Hk' & Eb & Hu).
  destruct (cl_sock _ _ _ Hc s k Hk) as (k2 & Hk2 & _ & Eb2 & _).
  exists k, b. split; [done|]. split; [congruence|]. by apply (cl_reads _ _ _ Hc).
Qed.
End steps.

(** ** Checking that an event may come, on concrete states

    The socket that reads is the backend socket at address 5. *)
Ltac found := eexists; vm_compute; reflexivity.
Ltac legal_tac :=
  cbn [legal_event]; lazymatch goal with
  | |- alive _ _ => found
  | |- ∃ b k, asked_at _ b ?p k ∧ _ =>
      exists 5%nat; eexists; split;
        [eexists _, _; split; [vm_compute; reflexivity|]; split; [by eexists|];
         split; [reflexivity|vm_compute; reflexivity]
        |split; [vm_compute; discriminate|
         intros mv E; vm_compute in E; injection E as <-; vm_compute; discriminate]]
  | |- alive _ _ ∧ _ ≤ _ < _ ∧ _ =>
      split; [found|split; [split; [vm_compute; discriminate|vm_compute; reflexivity]|by intros]]
  | |- alive _ _ ∧ _ =>
      split; [found|split; [first [by apply (list_elem_of_lookup_2 _ 5)|by apply (list_elem_of_lookup_2 _ 12)]|intros Hn; first [by vm_compute in Hn|
        eexists _, _; split;
        [eexists _, _; split; [vm_compute; reflexivity|]; split; [by eexists|];
         split; [reflexivity|vm_compute; reflexivity]
        |split; [vm_compute; discriminate|
         intros mv E; vm_compute in E; injection E as <-;
         unfold arrived; lazymatch goal with |- ∃ bs, _ ∧ ?t = _ => exists (omap id t) end;
         split; vm_compute; reflexivity]]]]]
  end.

(** A step of the setting up of a socket whose program object is changed by
    the steps [update] is about. *)
Tactic Notation "setup_step" uconstr(update) ident(Hv) ident(Hb) :=
  first [eapply update; [exact Hv|exact Hb|]
        |eapply userdata_step; [exact Hv|exact Hb|reflexivity|]
        |eapply watcher_step; [exact Hv|exact Hb|reflexivity
           |by intros ? (? & ? & ? & ? & ? & ?); split; [split_and!|]|]];
  clear Hv Hb; intros ? Hv Hb.
