(* ===== verification/TestServer.v ===== *)
(** * The test server (test/server.c)

    A program over the library: it accepts one client at a time, prints the
    messages it receives, and shuts down in steps after a signal.  Its
    callbacks are an instance of the application the model of the library is
    parametric in. *)

From S2P Require Import Prelude Endian CString Strerror Msg MsgReader Uri AppData World.
From S2P Require Import Watcher Demo Backend BackendUv Conn Socket Dial Lifecycle Sc TestApp.

Definition with_active (b : bool) (v : server) : server :=
  Server (srv_loop v) (srv_socket v) (srv_clt_server v) (srv_clt_socket v) (Some b)
    (srv_terminate v).
Definition with_terminate (t : terminate) (v : server) : server :=
  Server (srv_loop v) (srv_socket v) (srv_clt_server v) (srv_clt_socket v)
    (srv_clt_active v) (Some t).
Definition with_srv_socket (s : nat) (v : server) : server :=
  Server (srv_loop v) (Some s) (srv_clt_server v) (srv_clt_socket v) (srv_clt_active v)
    (srv_terminate v).
Definition with_clt_server (a : nat) (v : server) : server :=
  Server (srv_loop v) (srv_socket v) (Some a) (srv_clt_socket v) (srv_clt_active v)
    (srv_terminate v).
Definition with_clt_socket (s : nat) (v : server) : server :=
  Server (srv_loop v) (srv_socket v) (srv_clt_server v) (Some s) (srv_clt_active v)
    (srv_terminate v).

(** The server at an address. *)
Definition get_server (a : nat) : M server :=
  o ← get_obj a;
  match o with AServer v => mret v | _ => fail_with OutOfBounds end.
Definition update_server (a : nat) (f : server → server) : M unit :=
  v ← get_server a; put_obj a (AServer (f v)).

(** The functions the program registers, by number. *)
Definition CB_server_on_connection := 0%nat.
Definition CB_server_on_recv := 1%nat.
Definition CB_server_on_close := 2%nat.
Definition CB_client_on_accept := 3%nat.
Definition CB_client_on_recv := 4%nat.
Definition CB_client_on_close := 5%nat.

Section server.
(** [App] is what the callbacks of the library reach from inside a callback. *)
Context `{Env} `{App}.

Definition print_msg (m : option nat) : M unit :=
  r ← msg_text m;
  put_out (text "[" ++ print_unsigned (fst r) ++ text "](" ++ snd r ++ text ")
").

(** The structure a socket's user data points to. *)
Definition userdata_obj (s : nat) : M nat :=
  p ← sc_socket_get_userdata s; mret (Z.to_nat p).

Definition server_on_connection (s : nat) (errcode : Z) : M unit :=
  if decide (errcode ≠ 0) then fatal_exit "errcode" else
  a ← userdata_obj s;
  v ← get_server a;
  t ← member (srv_terminate v);
  if decide (t ≠ NOTSET) then mret tt else
  c ← member (srv_clt_socket v);
  sc_socket_accept buv_funcs s c.

Definition server_on_recv (s : nat) (m : option nat) (errcode : Z) : M unit :=
  if decide (errcode ≠ 0) then fatal_exit "errcode" else print_msg m.

Definition server_on_close (s : nat) : M unit :=
  a ← userdata_obj s;
  close_handle (HSigterm a);;
  close_handle (HSigint a).

(** [if (server->terminate) close_socket(client->socket)], for the client in
    the server at [a]. *)
Definition close_if_terminating (a : nat) : M unit :=
  v ← get_server a;
  srv ← member (srv_clt_server v);
  vs ← get_server srv;
  t ← member (srv_terminate vs);
  if decide (t ≠ NOTSET) then (c ← member (srv_clt_socket v); close_socket c) else mret tt.

Definition client_on_accept (s : nat) (errcode : Z) : M unit :=
  if decide (errcode ≠ 0) then fatal_exit "errcode" else
  a ← userdata_obj s;
  update_server a (with_active true);;
  close_if_terminating a.

Definition client_on_recv (s : nat) (m : option nat) (errcode : Z) : M unit :=
  if decide (errcode ≠ 0) then fatal_exit "errcode" else
  a ← userdata_obj s;
  match m with
  | None =>
      v ← get_server a;
      c ← member (srv_clt_socket v);
      close_socket c
  | Some _ =>
      print_msg m;;
      close_if_terminating a
  end.

Definition client_on_close (s : nat) : M unit :=
  a ← userdata_obj s;
  update_server a (with_active false).

Definition async_cb (a : nat) : M unit :=
  update_server a (with_terminate CLIENT);;
  close_handle (HAsync a).

Definition signal_cb (a : nat) (signum : Z) : M unit :=
  assert_signal signum;;
  v ← get_server a;
  t ← member (srv_terminate v);
  if decide (t ≠ NOTSET) then mret tt else
  handle_call (UvAsyncSend (HAsync a)) "uv_async_send".

Definition idle_cb (a : nat) : M unit :=
  v ← get_server a;
  active ← member (srv_clt_active v);
  t ← member (srv_terminate v);
  if decide (active = false ∧ t = CLIENT) then update_server a (with_terminate SERVER)
  else if decide (t = SERVER) then
    close_handle (HIdle a);;
    s ← member (srv_socket v);
    close_socket s
  else mret tt.

(** *** Initialisation *)
Definition async_init (a : nat) : M unit :=
  handle_call (UvHandleInit (HAsync a)) "uv_async_init".

Definition signal_init (h : app_handle) (signum : Z) : M unit :=
  handle_call (UvHandleInit h) "uv_signal_init";;
  handle_call (UvHandleStart h signum) "uv_signal_start".

Definition idle_init (a : nat) : M unit :=
  handle_call (UvHandleInit (HIdle a)) "uv_idle_init";;
  handle_call (UvHandleStart (HIdle a) 0) "uv_idle_start".

Definition server_init (a : nat) : M unit :=
  async_init a;;
  signal_init (HSigterm a) SIGTERM;;
  signal_init (HSigint a) SIGINT;;
  idle_init a;;
  s ← new_socket;
  update_server a (with_srv_socket s);;
  sc_socket_set_userdata s (Z.of_nat a);;
  sc_socket_on_connection s (CbUser CB_server_on_connection);;
  sc_socket_on_recv s (CbUser CB_server_on_recv);;
  sc_socket_on_close s (CbUser CB_server_on_close);;
  update_server a (with_terminate NOTSET).

Definition client_init (a : nat) : M unit :=
  update_server a (with_clt_server a);;
  s ← new_socket;
  update_server a (with_clt_socket s);;
  sc_socket_set_userdata s (Z.of_nat a);;
  sc_socket_on_accept s (CbUser CB_client_on_accept);;
  sc_socket_on_recv s (CbUser CB_client_on_recv);;
  sc_socket_on_close s (CbUser CB_client_on_close);;
  update_server a (with_active false).

Definition server_new (loop : Z) : M nat :=
  o ← malloc (λ a w, set_app (set_objs (<[a := AServer (Server loop None None None None None)]>
    (a_objs (w_app w))) (w_app w)) w);
  match o with Some a => mret a | None => fatal_exit "not enough memory" end.

Definition server_del (a : nat) : M unit :=
  v ← get_server a;
  c ← member (srv_clt_socket v);
  sc_socket_del buv_funcs c;;
  s ← member (srv_socket v);
  sc_socket_del buv_funcs s;;
  free_obj a.

Definition server_bind_and_listen (a : nat) (uri : cbuf) : M unit :=
  v ← get_server a;
  s ← member (srv_socket v);
  e ← sc_socket_bind buv_funcs s uri;
  if decide (e ≠ 0) then fatal_exit "sc_socket_bind" else
  e ← sc_socket_listen buv_funcs s 4;
  if decide (e ≠ 0) then fatal_exit "sc_socket_listen" else mret tt.

(** [main], up to [uv_run]; the server. *)
Definition server_start (loop : Z) (uri : cbuf) : M nat :=
  a ← server_new loop;
  sc_init SC_LIBUV (Some loop) None None;;
  server_init a;;
  client_init a;;
  server_bind_and_listen a uri;;
  mret a.

(** The arguments, [fopen] saying whether a file can be opened; the URI. *)
Definition server_parse_args (fopen : cbuf → bool) (argv : list cbuf) : M cbuf :=
  match argv with
  | [_; uri; file] =>
      if fopen file then mret uri else fatal_exit "failed to create output"
  | _ => fatal_exit "wrong number of arguments"
  end.

(** [main], for what [uv_run] and [uv_loop_close] do. *)
Definition server_main (fopen : cbuf → bool) (uv_run uv_loop_close : M Z) (loop : Z)
    (argv : list cbuf) : M Z :=
  uri ← server_parse_args fopen argv;
  a ← server_start loop uri;
  fatal_unless_zero uv_run "uv_run";;
  fatal_unless_zero uv_loop_close "uv_loop_close";;
  server_del a;;
  mret 0.

(** The function a number stands for. *)
Definition server_cb (f : nat) (ev : cb_event) : M unit :=
  match f, ev with
  | 0%nat, OnConnection s e => server_on_connection s e
  | 1%nat, OnRecv s m e => server_on_recv s m e
  | 2%nat, OnClose s => server_on_close s
  | 3%nat, OnAccept s e => client_on_accept s e
  | 4%nat, OnRecv s m e => client_on_recv s m e
  | 5%nat, OnClose s => client_on_close s
  | _, _ => fail_with NullDeref
  end.
End server.

(** The program as an application of the library.  Its callbacks call the
    library, which may call them again: [n] bounds the nesting. *)
Fixpoint server_app `{Env} (n : nat) : App :=
  match n with
  | O => {| app_cb := λ _ _, fail_with NullDeref;
            app_alloc := λ _ _, mret None; app_free := λ _ _, mret tt |}
  | S n => {| app_cb := server_cb (H0 := server_app n);
              app_alloc := λ _ _, mret None; app_free := λ _ _, mret tt |}
  end.

(** ** The server at work *)
Section server_steps.
Context `{Env} `{App}.

Lemma get_server_ok a v w : a_objs (w_app w) !! a = Some (AServer v) → get_server a w = Ok (v, w).
Proof. intros E. unfold get_server, get_obj, mbind, st_bind, gets. cbn. by rewrite E. Qed.

(** The state with the server at [a] replaced. *)
Definition put_server (a : nat) (v : server) (w : world) : world :=
  set_app (set_objs (<[a := AServer v]> (a_objs (w_app w))) (w_app w)) w.

Lemma put_server_at a v w : a_objs (w_app (put_server a v w)) !! a = Some (AServer v).
Proof. apply lookup_insert_eq. Qed.

Lemma update_server_ok a f v w :
  a_objs (w_app w) !! a = Some (AServer v) →
  update_server a f w = Ok (tt, put_server a (f v) w).
Proof.
  intros E. unfold update_server. by rewrite (st_bind_ok _ _ _ _ _ (get_server_ok _ _ _ E)).
Qed.

Lemma close_handle_ok h w : close_handle h w = Ok (tt, add_uv (UvHandleClose h) w).
Proof. done. Qed.

Lemma userdata_obj_ok s k a w :
  w_socks w !! s = Some k → s_userdata k = Some (Z.of_nat a) → userdata_obj s w = Ok (a, w).
Proof.
  intros Es Ed. unfold userdata_obj, sc_socket_get_userdata, mbind, st_bind.
  rewrite (get_sock_ok _ _ _ Es), Ed. cbn. by rewrite Nat2Z.id.
Qed.

(** What [idle_cb] does, in every state of the server. *)
Lemma idle_cb_eq a v active t w :
  a_objs (w_app w) !! a = Some (AServer v) →
  srv_clt_active v = Some active → srv_terminate v = Some t →
  idle_cb a w =
    match t, active with
    | CLIENT, false => Ok (tt, put_server a (with_terminate SERVER v) w)
    | SERVER, _ =>
        (s ← member (srv_socket v); close_socket s) (add_uv (UvHandleClose (HIdle a)) w)
    | _, _ => Ok (tt, w)
    end.
Proof.
  intros E Ea Et. unfold idle_cb.
  rewrite (st_bind_ok _ _ _ _ _ (get_server_ok _ _ _ E)), Ea, Et.
  unfold member. rewrite !(st_bind_ok _ _ _ _ _ (demand_some _ _ w)).
  destruct t, active; first
    [ by rewrite !decide_False by naive_solver
    | rewrite decide_True by done; by apply update_server_ok
    | rewrite decide_False, decide_True by naive_solver;
      by rewrite (st_bind_ok _ _ _ _ _ (close_handle_ok (HIdle a) w)) ].
Qed.

Lemma async_cb_eq a v w :
  a_objs (w_app w) !! a = Some (AServer v) →
  async_cb a w = Ok (tt, add_uv (UvHandleClose (HAsync a)) (put_server a (with_terminate CLIENT v) w)).
Proof.
  intros E. unfold async_cb.
  by rewrite (st_bind_ok _ _ _ _ _ (update_server_ok a _ _ _ E)).
Qed.

(** A signal counts once: it asks for the asynchronous callback, and does
    nothing when the server is already terminating. *)
Lemma signal_cb_eq a v t signum w :
  a_objs (w_app w) !! a = Some (AServer v) → srv_terminate v = Some t →
  signum = SIGTERM ∨ signum = SIGINT →
  uv_result (w_uv w) (UvAsyncSend (HAsync a)) = 0 →
  signal_cb a signum w =
    Ok (tt, if decide (t = NOTSET) then add_uv (UvAsyncSend (HAsync a)) w else w).
Proof.
  intros E Et Hsig Hr. unfold signal_cb, assert_signal.
  rewrite bool_decide_eq_true_2 by done.
  rewrite (st_bind_ok _ _ _ _ _ (assert_that_true w)).
  rewrite (st_bind_ok _ _ _ _ _ (get_server_ok _ _ _ E)), Et.
  unfold member. rewrite (st_bind_ok _ _ _ _ _ (demand_some _ _ w)).
  destruct (decide (t = NOTSET)) as [->|Hne]; [|by rewrite decide_True].
  rewrite decide_False by naive_solver. unfold handle_call.
  rewrite (st_bind_ok _ _ _ _ _ (uv_do_ok _ w)). rewrite Hr. by rewrite decide_False by lia.
Qed.
End server_steps.

(** ** Shutting down *)

(** The server at [a] listens on socket [s], over the backend socket [bs] and
    with the URI [u]; no client is connected and no signal has come. *)
Record serving (a s bs u : nat) (v : server) (k : sc_socket) (wt : watcher) (vb : socket_uv)
    (w : world) : Prop := {
  sv_server : a_objs (w_app w) !! a = Some (AServer v);
  sv_socket : srv_socket v = Some s;
  sv_active : srv_clt_active v = Some false;
  sv_terminate : srv_terminate v = Some NOTSET;
  sv_sock : w_socks w !! s = Some k;
  sv_userdata : s_userdata k = Some (Z.of_nat a);
  sv_backend : s_backend k = Some (Some bs);
  sv_uri : s_uri k = Some (Some u);
  sv_watcher : s_watcher k = Some wt;
  sv_wsock : w_socket wt = s;
  sv_close : on_close wt = CbUser CB_server_on_close;
  sv_buv : w_buvs w !! bs = Some (Some vb);
  sv_stream : stream_data vb = bs;
  sv_back : uv_watcher vb = s;
  sv_ready : w_backend w = true;
  sv_live : is_Some (w_uris w !! u)
}.

Section shutdown.
Context `{Env} (n : nat).
#[local] Instance server_inst : App := server_app (S n).

(** The events of a shutdown: the signal, the wake-up it asks for, two idle
    rounds, and the close callback of the listening socket. *)
Definition shutdown (a bs : nat) (signum : Z) : M unit :=
  signal_cb a signum;;
  async_cb a;;
  idle_cb a;;
  idle_cb a;;
  close_wrap bs.

(** What the listening socket does when it is closed. *)
Lemma close_wrap_server a s bs vb k wt w :
  w_buvs w !! bs = Some (Some vb) → stream_data vb = bs → uv_watcher vb = s →
  w_socks w !! s = Some k → s_watcher k = Some wt → w_socket wt = s →
  on_close wt = CbUser CB_server_on_close → s_userdata k = Some (Z.of_nat a) →
  close_wrap bs w = Ok (tt,
    add_uv (UvHandleClose (HSigint a)) (add_uv (UvHandleClose (HSigterm a))
      (add_obs (Observed (OnClose s) None) w))).
Proof.
  intros Hb Hst Hw Hs Hwt Hws Hcl Hud. unfold close_wrap.
  rewrite (st_bind_ok _ _ _ _ _ (get_buv_ok _ _ _ Hb)), Hst.
  rewrite (st_bind_ok _ _ _ _ _ (get_buv_ok _ _ _ Hb)), Hw. unfold watcher_call.
  rewrite (st_bind_ok _ _ _ _ _ (get_sock_ok _ _ _ Hs)), Hwt.
  rewrite (st_bind_ok _ _ _ _ _ (demand_some _ wt w)), Hcl, Hws. unfold fire.
  rewrite (st_bind_ok _ _ _ _ _ (gets_ok _ w)), (st_bind_ok _ _ _ _ _ (modify_ok _ w)).
  cbn [app_cb server_inst server_app server_cb CB_server_on_close event_payload].
  unfold server_on_close.
  by rewrite (st_bind_ok _ _ _ _ _ (userdata_obj_ok s k a (add_obs _ w) Hs Hud)).
Qed.

Lemma close_socket_ok s k b u w :
  w_backend w = true → w_socks w !! s = Some k → s_backend k = Some (Some b) →
  s_uri k = Some (Some u) → is_Some (w_uris w !! u) →
  ∃ w', close_socket s w = Ok (tt, w') ∧ w_uv w' = w_uv w ++ [UvClose b] ∧
    w_socks w' = <[s := with_uri (Some None) k]> (w_socks w) ∧
    w_uris w' = delete u (w_uris w) ∧ w_buvs w' = w_buvs w ∧ w_app w' = w_app w.
Proof.
  intros Hbe Hs Hb Hu Hlive. unfold close_socket.
  rewrite (st_bind_ok _ _ _ _ _ (sc_socket_close_ok s k b (Some u) w Hbe Hs Hb Hu
    ltac:(by intros ? [= <-]))).
  rewrite decide_False by lia. by eexists.
Qed.

(** C18. Shutting down: a SIGTERM or SIGINT to a server without a client leads,
    through the asynchronous callback and two idle rounds, to closing each of
    the five handles of the program exactly once, in an order in which the
    signal handles go last; the URI of the socket is freed, and a further
    signal does nothing. *)
Theorem server_shutdown a s bs u v k wt vb signum w :
  serving a s bs u v k wt vb w →
  signum = SIGTERM ∨ signum = SIGINT →
  (∀ past, uv_result past (UvAsyncSend (HAsync a)) = 0) →
  ∃ w', shutdown a bs signum w = Ok (tt, w') ∧
    w_uv w' = w_uv w ++ [UvAsyncSend (HAsync a); UvHandleClose (HAsync a);
      UvHandleClose (HIdle a); UvClose bs; UvHandleClose (HSigterm a); UvHandleClose (HSigint a)] ∧
    w_uris w' = delete u (w_uris w) ∧ signal_cb a signum w' = Ok (tt, w').
Proof.
  intros [] Hsig Hr. unfold shutdown.
  rewrite (st_bind_ok _ _ _ _ _ (signal_cb_eq a v NOTSET signum w ltac:(done) ltac:(done) Hsig (Hr _))).
  set (w1 := add_uv _ w).
  rewrite (st_bind_ok _ _ _ _ _ (async_cb_eq a v w1 ltac:(done))). set (w2 := add_uv _ _).
  set (v2 := with_terminate CLIENT v).
  assert (H2 : a_objs (w_app w2) !! a = Some (AServer v2)) by apply put_server_at.
  erewrite st_bind_ok by (by rewrite (idle_cb_eq a v2 false CLIENT)).
  set (w3 := put_server a _ w2). set (v3 := with_terminate SERVER v2).
  assert (H3 : a_objs (w_app w3) !! a = Some (AServer v3)) by apply put_server_at.
  set (w4 := add_uv (UvHandleClose (HIdle a)) w3).
  destruct (close_socket_ok s k bs u w4) as (w5 & E5 & Euv & Es & Eu & Eb & Ea); [done..|].
  erewrite st_bind_ok.
  2: { rewrite (idle_cb_eq a v3 false SERVER) by done. change (srv_socket v3) with (srv_socket v).
       rewrite sv_socket0. unfold member.
       rewrite (st_bind_ok _ _ _ _ _ (demand_some _ s w4)). exact E5. }
  erewrite (close_wrap_server a s bs vb (with_uri (Some None) k) wt);
    [|by rewrite Eb|done|done|by rewrite Es; apply lookup_insert_eq|done..].
  eexists. split; [done|]. cbn [add_uv add_obs w_uv w_uris]. rewrite Euv, Eu.
  split; [cbn; by rewrite <-!app_assoc|]. split; [done|].
  rewrite (signal_cb_eq a v3 SERVER signum); [|by cbn; rewrite Ea|done..].
  by rewrite decide_False.
Qed.
End shutdown.

(** ** Accepting *)

(** The client socket [c] of the server at [a], over the backend socket [bc]. *)
Record has_client (a c bc : nat) (v : server) (k : sc_socket) (wt : watcher) (vc : socket_uv)
    (w : world) : Prop := {
  hc_socket : srv_clt_socket v = Some c;
  hc_server : srv_clt_server v = Some a;
  hc_sock : w_socks w !! c = Some k;
  hc_userdata : s_userdata k = Some (Z.of_nat a);
  hc_backend : s_backend k = Some (Some bc);
  hc_watcher : s_watcher k = Some wt;
  hc_wsock : w_socket wt = c;
  hc_accept : on_accept wt = CbUser CB_client_on_accept;
  hc_buv : w_buvs w !! bc = Some (Some vc);
  hc_back : uv_watcher vc = c
}.

Section accepting.
Context `{Env} (n : nat).
#[local] Instance accepting_inst : App := server_app (S (S n)).

(** [buv_accept] when every call succeeds. *)
Lemma accept_all_ok `{App} srv clt vs vc loop w :
  w_buvs w !! srv = Some (Some vs) → w_buvs w !! clt = Some (Some vc) →
  uv_proto vs = PROTO_TCP → w_buv_data w = Some loop →
  (∀ past call, uv_result past call = 0) →
  buv_accept srv clt w =
    call_on_accept clt 0
      (add_uv (UvReadStart clt) (add_uv (UvAccept srv clt)
        (set_buvs (<[clt := Some (with_proto (uv_proto vs) vc)]> (w_buvs w))
          (add_uv (UvTcpInit loop clt) w)))).
Proof.
  intros Hs Hc Hp Hl Hr. rewrite (buv_accept_ok srv clt vs loop w Hs) by (done || by rewrite Hp).
  rewrite decide_False by (by rewrite Hp).
  rewrite (st_bind_ok _ _ _ _ _ (uv_do_ok _ w)), Hr, decide_False by lia.
  rewrite (st_bind_ok _ _ _ _ _ (update_buv_ok clt _ vc (add_uv (UvTcpInit loop clt) w) Hc)).
  rewrite (st_bind_ok _ _ _ _ _ (uv_do_ok _ _)), Hr, decide_False by lia.
  rewrite (st_bind_ok _ _ _ _ _ (uv_do_ok _ _)), Hr, decide_False by lia.
  by rewrite (st_bind_ok _ _ _ _ _ (assert_that_true _)).
Qed.

(** The report of an accepted client makes it active. *)
Lemma client_accepted a c bc v k wt vc w :
  a_objs (w_app w) !! a = Some (AServer v) → srv_terminate v = Some NOTSET →
  has_client a c bc v k wt vc w →
  call_on_accept (H0 := server_app (S n)) bc 0 w =
    Ok (tt, put_server a (with_active true v) (add_obs (Observed (OnAccept c 0) None) w)).
Proof.
  intros Ea Et []. unfold call_on_accept.
  rewrite (st_bind_ok _ _ _ _ _ (get_buv_ok bc vc w ltac:(done))), hc_back0. unfold watcher_call.
  rewrite (st_bind_ok _ _ _ _ _ (get_sock_ok c k w ltac:(done))), hc_watcher0.
  rewrite (st_bind_ok _ _ _ _ _ (demand_some _ wt w)), hc_accept0, hc_wsock0. unfold fire.
  rewrite (st_bind_ok _ _ _ _ _ (gets_ok _ w)), (st_bind_ok _ _ _ _ _ (modify_ok _ w)).
  cbn [app_cb server_app server_cb CB_client_on_accept event_payload].
  unfold client_on_accept. rewrite decide_False by lia. set (w1 := add_obs _ w).
  rewrite (st_bind_ok _ _ _ _ _ (userdata_obj_ok c k a w1 ltac:(done) ltac:(done))).
  rewrite (st_bind_ok _ _ _ _ _ (update_server_ok a _ v w1 Ea)).
  set (w2 := put_server a _ w1). unfold close_if_terminating, member.
  assert (H2 : a_objs (w_app w2) !! a = Some (AServer (with_active true v))) by apply put_server_at.
  rewrite (st_bind_ok _ _ _ _ _ (get_server_ok a _ w2 H2)).
  change (srv_clt_server (with_active true v)) with (srv_clt_server v). rewrite hc_server0.
  rewrite (st_bind_ok _ _ _ _ _ (demand_some _ a w2)).
  rewrite (st_bind_ok _ _ _ _ _ (get_server_ok a _ w2 H2)).
  change (srv_terminate (with_active true v)) with (srv_terminate v). rewrite Et.
  by rewrite (st_bind_ok _ _ _ _ _ (demand_some _ NOTSET w2)).
Qed.

(** Accepting: a connection to a serving server, when libuv agrees,
    initialises the handle of its only client socket, accepts and starts
    reading on it, and the client becomes active.  That an earlier client is
    still active makes no difference: its handle, in use, is initialised
    again. *)
Lemma server_accepts a s bs v ks wts vs c bc kc wtc vc loop w :
  a_objs (w_app w) !! a = Some (AServer v) → srv_terminate v = Some NOTSET →
  w_socks w !! s = Some ks → s_userdata ks = Some (Z.of_nat a) → s_backend ks = Some (Some bs) →
  s_watcher ks = Some wts → w_socket wts = s →
  on_connection wts = CbUser CB_server_on_connection →
  w_buvs w !! bs = Some (Some vs) → stream_data vs = bs → uv_watcher vs = s →
  uv_proto vs = PROTO_TCP → w_backend w = true → w_buv_data w = Some loop →
  has_client a c bc v kc wtc vc w → (∀ past call, uv_result past call = 0) →
  ∃ w', on_connection_wrap bs 0 w = Ok (tt, w') ∧
    w_uv w' = w_uv w ++ [UvTcpInit loop bc; UvAccept bs bc; UvReadStart bc] ∧
    a_objs (w_app w') !! a = Some (AServer (with_active true v)).
Proof.
  intros Ea Et Hs Hud Hbe Hwt Hws Hcb Hb Hst Hw Hp Hset Hl Hc Hr.
  unfold on_connection_wrap.
  rewrite (st_bind_ok _ _ _ _ _ (get_buv_ok bs vs w Hb)), Hst.
  rewrite (st_bind_ok _ _ _ _ _ (get_buv_ok bs vs w Hb)), Hw. unfold watcher_call.
  rewrite (st_bind_ok _ _ _ _ _ (get_sock_ok s ks w Hs)), Hwt.
  rewrite (st_bind_ok _ _ _ _ _ (demand_some _ wts w)), Hcb, Hws. unfold fire.
  rewrite (st_bind_ok _ _ _ _ _ (gets_ok _ w)), (st_bind_ok _ _ _ _ _ (modify_ok _ w)).
  change (app_cb CB_server_on_connection (OnConnection s 0))
    with (server_on_connection (H0 := server_app (S n)) s 0).
  unfold server_on_connection. rewrite decide_False by lia. set (w1 := add_obs _ w).
  rewrite (st_bind_ok _ _ _ _ _ (userdata_obj_ok s ks a w1 Hs Hud)).
  rewrite (st_bind_ok _ _ _ _ _ (get_server_ok a v w1 Ea)), Et. unfold member.
  rewrite (st_bind_ok _ _ _ _ _ (demand_some _ NOTSET w1)).
  rewrite decide_False by naive_solver. rewrite (hc_socket _ _ _ _ _ _ _ _ Hc).
  rewrite (st_bind_ok _ _ _ _ _ (demand_some _ c w1)). unfold sc_socket_accept.
  rewrite (st_bind_ok _ _ _ _ _ (the_backend_ok _ w1 Hset)).
  rewrite (st_bind_ok _ _ _ _ _ (sock_backend_obj_ok s ks bs w1 Hs Hbe)).
  rewrite (st_bind_ok _ _ _ _ _ (sock_backend_obj_ok c kc bc w1
    (hc_sock _ _ _ _ _ _ _ _ Hc) (hc_backend _ _ _ _ _ _ _ _ Hc))).
  cbn [be_accept buv_funcs].
  destruct Hc as [].
  pose proof (accept_all_ok (H0 := server_app (S n)) bs bc vs vc loop w1
    Hb hc_buv0 Hp Hl Hr) as Eacc.
  rewrite Eacc. clear Eacc.
  match goal with |- context [call_on_accept bc 0 ?x] => set (w2 := x) end.
  assert (Hc2 : has_client a c bc v kc wtc (with_proto (uv_proto vs) vc) w2).
  { split; try done. apply lookup_insert_eq. }
  rewrite (client_accepted a c bc v kc wtc _ w2 Ea Et Hc2).
  eexists. split; [done|]. split; [cbn; by rewrite <-!app_assoc|apply put_server_at].
Qed.
End accepting.

(** ** The server on the local host *)
Section server_demo.
#[local] Existing Instance demo_env.

(** The state after [main] has started the server. *)
Definition server_world : world :=
  match server_start (H0 := server_app 2) 0 (str "tcp://127.0.0.1:60721") world0 with
  | Ok (_, w) => w
  | Fault _ => world0
  end.

Definition started_server : server :=
  Server 0 (Some 2%nat) (Some 1%nat) (Some 4%nat) (Some false) (Some NOTSET).
Definition listener_watcher : watcher :=
  Watcher 2 CbNoop (CbUser 0) CbNoop (CbUser 1) CbNoop (CbUser 2).
Definition listener : sc_socket :=
  Socket (Some 1) (Some (Some 3%nat)) (Some (Some 6%nat)) (Some listener_watcher).
Definition listener_buv : socket_uv :=
  SocketUv 2 3 3 3 [UvBuf None 0; UvBuf None 0] None None PROTO_TCP (replicate 16 x00).

Lemma started_serving :
  serving 1 2 3 6 started_server listener listener_watcher listener_buv server_world.
Proof. split; vm_compute; try reflexivity. by eexists. Qed.

(** The whole life of a server that is told to end at once: [main] returns zero
    and every object is gone. *)
Example server_life :
  match server_main (H0 := server_app 2) (λ _, true) (shutdown 0 1 3 SIGTERM;; mret 0) (mret 0)
    0 [str "server"; str "tcp://127.0.0.1:60721"; str "out"] world0 with
  | Ok (e, w) => e = 0 ∧ w_socks w = ∅ ∧ w_buvs w = ∅ ∧ w_uris w = ∅ ∧ w_msgs w = ∅ ∧
      a_objs (w_app w) = ∅
  | Fault _ => False
  end.
Proof. vm_compute. by split_and!. Qed.

Lemma server_shutdown_witness :
  ∃ w', shutdown 0 1 3 SIGTERM server_world = Ok (tt, w') ∧
    w_uv w' = w_uv server_world ++ [UvAsyncSend (HAsync 1); UvHandleClose (HAsync 1);
      UvHandleClose (HIdle 1); UvClose 3; UvHandleClose (HSigterm 1); UvHandleClose (HSigint 1)] ∧
    w_uris w' = delete 6%nat (w_uris server_world) ∧
    signal_cb 1 SIGTERM w' = Ok (tt, w').
Proof.
  apply (server_shutdown 0 1 2 3 6 _ _ _ _ SIGTERM server_world started_serving); auto.
Defined.

Lemma server_accepts_witness :
  ∃ w', on_connection_wrap (H0 := server_app 2) 3 0 server_world = Ok (tt, w') ∧
    w_uv w' = w_uv server_world ++ [UvTcpInit 0 5; UvAccept 3 5; UvReadStart 5] ∧
    a_objs (w_app w') !! 1%nat = Some (AServer (with_active true started_server)).
Proof.
  apply (server_accepts 0 1 2 3 started_server listener listener_watcher listener_buv 4 5
    (Socket (Some 1) (Some (Some 5%nat)) (Some None)
      (Some (Watcher 4 CbNoop CbNoop (CbUser 3) (CbUser 4) CbNoop (CbUser 5))))
    (Watcher 4 CbNoop CbNoop (CbUser 3) (CbUser 4) CbNoop (CbUser 5))
    (SocketUv 4 5 5 5 [UvBuf None 0; UvBuf None 0] None None PROTO_NOSET (replicate 16 x00))
    0 server_world); try (vm_compute; reflexivity). split; vm_compute; reflexivity.
Defined.
End server_demo.
