(* ===== verification/TestRecv.v ===== *)
(** * What the test server makes of the bytes it receives

    The callback of test/server.c keeps the promise the receive path asks for
    (Recv.v), with an invariant that ties what the program has printed to what
    it has received; so the path from the bytes of the stream to the output
    file is closed. *)

From S2P Require Import Prelude Endian CString Strerror Msg MsgReader Uri AppData World.
From S2P Require Import Watcher Demo Backend BackendUv Frame Recv Socket TestApp TestServer.

#[export] Instance delivered_inj : Inj (=) (=) delivered.
Proof. intros p q [= E]. by apply (inj (fmap Some)) in E. Qed.

(** A receiving socket of which more is known. *)
Lemma rx_rel_with (R : Receiver) sz b s f w st :
  rx_rel (H := any_receiver) sz b s f w st → rv_inv w → rx_rel sz b s f w st.
Proof. intros (v & [] & Hst) Hinv. exists v. split; [by split|done]. Qed.

(** What [print_msg] of test/server.c prints of a message. *)
Definition server_line (p : list byte) : list byte :=
  text "[" ++ print_unsigned (Z.of_nat (length p)) ++ text "](" ++ c_text p ++ text ")
".

(** The server at [a] is not terminating, and its client socket is [c]. *)
Definition server_up (a c : nat) (w : world) : Prop :=
  ∃ v k, a_objs (w_app w) !! a = Some (AServer v) ∧ srv_terminate v = Some NOTSET ∧
    srv_clt_server v = Some a ∧ w_socks w !! c = Some k ∧ s_userdata k = Some (Z.of_nat a).

(** The output since a state where [r0] had been received and [o0] printed:
    a line for each message received since. *)
Definition printed_since (line : list byte → list byte) (c : nat)
    (r0 : list (option (list (option byte)) * Z)) (o0 : list byte) (w : world) : Prop :=
  ∃ ps, received c w = r0 ++ (delivered <$> ps) ∧
    a_out (w_app w) = o0 ++ concat (line <$> ps).

(** Messages short enough for the precision of [%. *s], an [int]. *)
Definition printable (ev : option (list (option byte)) * Z) : Prop :=
  ∃ p, ev = delivered p ∧ Z.of_nat (length p) < 2 ^ 31.

Lemma printable_event (o : option (list (option byte))) e p :
  (o, e) = delivered p → o = Some (Some <$> p) ∧ e = 0.
Proof. by intros [= -> ->]. Qed.

Lemma printable_within sz ps :
  sz < 2 ^ 31 → within sz ps → Forall printable (delivered <$> ps).
Proof.
  intros Hsz Hps. apply Forall_fmap. eapply Forall_impl; [exact Hps|].
  intros p Hp. exists p. split; [done|]. cbn in Hp. lia.
Qed.

Lemma received_stable c w w' : w_obs w' = w_obs w → received c w' = received c w.
Proof. unfold received. by intros ->. Qed.

Lemma printed_since_stable line c r0 o0 w w' :
  w_app w' = w_app w → w_obs w' = w_obs w →
  printed_since line c r0 o0 w → printed_since line c r0 o0 w'.
Proof.
  intros Ha Ho (ps & Hr & Hout). exists ps. by rewrite Ha, (received_stable c w w' Ho).
Qed.

(** Once it is known what was received, it is known what was printed. *)
Lemma printed_all line c w w' o0 ps :
  printed_since line c (received c w) o0 w' →
  received c w' = received c w ++ (delivered <$> ps) →
  a_out (w_app w') = o0 ++ concat (line <$> ps).
Proof.
  intros (qs & Hq & ->) Hp. rewrite Hp in Hq. apply app_inv_head, (inj _) in Hq. by subst.
Qed.

(** Printing a line for the message just received. *)
Lemma printed_since_step line c r0 o0 w m p :
  printed_since line c r0 o0 w →
  printed_since line c r0 o0
    (set_app (add_out (line p) (w_app w)) (add_obs (Observed (OnRecv c m 0) (Some (Some <$> p))) w)).
Proof.
  intros (ps & Hr & Ho). exists (ps ++ [p]).
  rewrite (received_stable c (add_obs (Observed (OnRecv c m 0) (Some (Some <$> p))) w)) by done.
  rewrite received_add_obs, Hr, fmap_app, <-app_assoc. split.
  - f_equal. unfold recv_of. cbn [obs_event obs_payload]. by rewrite decide_True.
  - cbn [w_app set_app a_out add_out]. rewrite Ho, <-app_assoc, fmap_app, concat_app. cbn.
    by rewrite app_nil_r.
Qed.

(** Printing leaves the receiving state of every socket alone. *)
Lemma rx_frame_set_app b s x w : rx_frame b s w (set_app x w).
Proof. by split; eauto. Qed.

(** ** The server *)
Program Definition server_receiver (a c : nat) (r0 : list (option (list (option byte)) * Z))
    (o0 : list byte) : Receiver :=
  {| rv_inv w := server_up a c w ∧ printed_since server_line c r0 o0 w; rv_ok := printable |}.
Next Obligation.
  cbn. intros a c r0 o0 w w' Ha Ho Hs _ _ [(v & k & Hv) Hp]. split.
  - exists v, k. by rewrite Ha, Hs.
  - by apply (printed_since_stable _ _ _ _ w).
Qed.

Section server_receives.
Context `{Env} (n : nat).
#[local] Instance receiving_inst : App := server_app (S n).

Lemma close_if_serving a v w :
  a_objs (w_app w) !! a = Some (AServer v) → srv_clt_server v = Some a →
  srv_terminate v = Some NOTSET →
  close_if_terminating (H0 := server_app n) a w = Ok (tt, w).
Proof.
  intros Ea Es Et. unfold close_if_terminating, member.
  rewrite (st_bind_ok _ _ _ _ _ (get_server_ok a v w Ea)), Es.
  rewrite (st_bind_ok _ _ _ _ _ (demand_some _ a w)).
  rewrite (st_bind_ok _ _ _ _ _ (get_server_ok a v w Ea)), Et.
  by rewrite (st_bind_ok _ _ _ _ _ (demand_some _ NOTSET w)).
Qed.

Lemma print_msg_ok s m e p w :
  event_payload (OnRecv s m e) w = Some (Some <$> p) → Z.of_nat (length p) < 2 ^ 31 →
  print_msg m w = Ok (tt, set_app (add_out (server_line p) (w_app w)) w).
Proof.
  intros Ep Hp. unfold print_msg.
  by rewrite (st_bind_ok _ _ _ _ _ (msg_text_ok s m e p w Ep Hp)).
Qed.

Lemma server_on_recv_ok a c bc r0 o0 :
  on_recv_ok (H := server_receiver a c r0 o0) bc c CB_client_on_recv.
Proof.
  intros vb m e w [_ _ _ _ _ _ [Hup Hpr]] (p & Ev & Hlen) w1. cbn in Hup, Hpr.
  apply printable_event in Ev as [Ep ->]. subst w1. rewrite Ep. set (w1 := add_obs _ w).
  destruct Hup as (v & k & Ea & Et & Esrv & Ek & Eud).
  set (w2 := set_app (add_out (server_line p) (w_app w1)) w1).
  exists w2. split_and!; [|apply rx_frame_set_app|split].
  - change (app_cb CB_client_on_recv (OnRecv c m 0) w1)
      with (client_on_recv (H0 := server_app n) c m 0 w1).
    unfold client_on_recv. rewrite decide_False by lia.
    rewrite (st_bind_ok _ _ _ _ _ (userdata_obj_ok c k a w1 Ek Eud)).
    destruct m as [m|]; [|done].
    rewrite (st_bind_ok _ _ _ _ _ (print_msg_ok c (Some m) 0 p w1 Ep Hlen)). fold w2.
    by apply (close_if_serving a v w2).
  - by exists v, k.
  - exact (printed_since_step server_line c r0 o0 w m p Hpr).
Qed.

(** The server prints a line for each message that arrives. *)
Lemma server_prints_lines a c bc sz w ps cs :
  (∀ k, malloc_ok k = true) → 1 ≤ sz < 2 ^ 31 →
  rx_rel (H := any_receiver) sz bc c CB_client_on_recv w Idle → server_up a c w →
  within sz ps → concat cs = concat (encode <$> ps) →
  chunks_asked sz Idle cs → headers_whole Idle cs →
  ∃ w', uv_reads bc sz cs w = Ok (tt, w') ∧
    a_out (w_app w') = a_out (w_app w) ++ concat (server_line <$> ps).
Proof.
  intros Hmal Hsz Hrel Hup Hps Hcs Ha Hh.
  set (R := server_receiver a c (received c w) (a_out (w_app w))).
  assert (Hinv : rv_inv (Receiver := R) w).
  { split; [done|]. exists []. by rewrite !app_nil_r. }
  destruct (uv_reads_framing (H1 := R) bc c CB_client_on_recv sz
    (server_on_recv_ok a c bc _ _) Hmal ltac:(lia) w ps cs (rx_rel_with R _ _ _ _ _ _ Hrel Hinv)
    Hps (printable_within sz ps ltac:(lia) Hps) Hcs Ha Hh)
    as (w' & E & (vb & Hbase & _) & Hr).
  exists w'. split; [done|]. destruct (rb_inv _ _ _ _ _ Hbase) as [_ Hpr].
  by apply (printed_all _ c w w').
Qed.

(** C7. From the wire to the output file: when the encodings of messages arrive
    on the connection the server has accepted, cut into reads in any way that
    leaves each size field in one piece, and there is memory for them and they
    fit the size libuv suggests, the server prints one line for each,
    in order, with its length and its text up to the first null byte, and
    nothing else. *)
Theorem server_prints a c bc sz w ps cs :
  (∀ k, malloc_ok k = true) → 1 ≤ sz < 2 ^ 31 →
  rx_rel (H := any_receiver) sz bc c CB_client_on_recv w Idle → server_up a c w →
  within sz ps → concat cs = concat (encode <$> ps) →
  chunks_asked sz Idle cs → headers_whole Idle cs →
  ∃ w', uv_reads bc sz cs w = Ok (tt, w') ∧
    a_out (w_app w') = a_out (w_app w) ++ concat (server_line <$> ps).
Proof. apply server_prints_lines. Qed.
End server_receives.

(** ** The server of TestServer.v, with a client *)
Section server_demo.
#[local] Existing Instance demo_env.

Definition accepted_world : world :=
  match on_connection_wrap (H0 := server_app 2) 3 0 server_world with
  | Ok (_, w) => w
  | Fault _ => server_world
  end.

Lemma accepted_receiving :
  rx_rel (H := any_receiver) 65536 5 4 CB_client_on_recv accepted_world Idle.
Proof.
  eexists. split; [split|].
  - vm_compute; reflexivity.
  - reflexivity.
  - reflexivity.
  - do 2 eexists. split_and!; vm_compute; reflexivity.
  - vm_compute; reflexivity.
  - vm_compute; reflexivity.
  - exact I.
  - reflexivity.
Qed.

Lemma accepted_up : server_up 1 4 accepted_world.
Proof. do 2 eexists. split_and!; vm_compute; reflexivity. Qed.

(** Two messages, the first one cut in two. *)
Lemma server_prints_witness :
  ∃ w', uv_reads (H0 := server_app 2) 5 65536
      [be_bytes 5; text "He"; text "llo"; be_bytes 2; text "ok"] accepted_world = Ok (tt, w') ∧
    a_out (w_app w') = text "[5](Hello)
[2](ok)
".
Proof.
  apply (server_prints 1 1 4 5 65536 accepted_world [text "Hello"; text "ok"]);
    [by intros|lia|exact accepted_receiving|exact accepted_up|decide_by_run|reflexivity
    |decide_by_run|decide_by_run].
Defined.
End server_demo.
