(* ===== verification/TestClient.v ===== *)
(** * The test client and the greeter (test/client.c, test/send_hello.c)

    A program that connects and sends its input file line by line, each line
    once libuv is done with the one before, until the file ends or a signal
    comes; and one that sends a greeting. *)

From S2P Require Import Prelude Endian CString Strerror Msg MsgReader Uri AppData World.
From S2P Require Import Watcher Demo Backend BackendUv Conn Frame Send Socket Dial Lifecycle.
From S2P Require Import Sc TestApp.

Definition MSG_MAX_SIZE : nat := 1024.

Definition with_msg_ptr (m : option nat) (v : client) : client :=
  Client (clt_loop v) m (clt_socket v) (clt_terminate v) (clt_input_eof v) (clt_ready_send v).
Definition with_loop (l : Z) (v : client) : client :=
  Client (Some l) (clt_msg v) (clt_socket v) (clt_terminate v) (clt_input_eof v) (clt_ready_send v).
Definition with_socket (s : nat) (v : client) : client :=
  Client (clt_loop v) (clt_msg v) (Some s) (clt_terminate v) (clt_input_eof v) (clt_ready_send v).
Definition with_terminate (b : bool) (v : client) : client :=
  Client (clt_loop v) (clt_msg v) (clt_socket v) (Some b) (clt_input_eof v) (clt_ready_send v).
Definition with_input_eof (b : bool) (v : client) : client :=
  Client (clt_loop v) (clt_msg v) (clt_socket v) (clt_terminate v) (Some b) (clt_ready_send v).
Definition with_ready_send (b : bool) (v : client) : client :=
  Client (clt_loop v) (clt_msg v) (clt_socket v) (clt_terminate v) (clt_input_eof v) (Some b).

(** The client at an address. *)
Definition get_client (a : nat) : M client :=
  o ← get_obj a;
  match o with AClient v => mret v | _ => fail_with OutOfBounds end.
Definition update_client (a : nat) (f : client → client) : M unit :=
  v ← get_client a; put_obj a (AClient (f v)).

(** *** Reading the input file *)
Definition newline : byte := x0a.

(** What [fgets] takes off a file with room for [k] characters: up to and
    with a newline; whether it ran into the end of the file. *)
Fixpoint fgets_take (k : nat) (inp : list byte) : list byte * list byte * bool :=
  match k with
  | O => ([], inp, false)
  | S k =>
      match inp with
      | [] => ([], [], true)
      | b :: inp =>
          if decide (b = newline) then ([b], inp, false)
          else let '(l, r, e) := fgets_take k inp in (b :: l, r, e)
      end
  end.

(** [fgets((char * )msg->data, MSG_MAX_SIZE, input)]; whether it returns the
    buffer.  The file has no read errors. *)
Definition fgets (m : option nat) : M bool :=
  s ← gets w_app;
  let '(l, r, e) := fgets_take (MSG_MAX_SIZE - 1) (a_in s) in
  modify (λ w, set_app (set_input r (a_eof s || e) (w_app w)) w);;
  if decide (l = []) then mret false else
  v ← get_msg m;
  d ← lift (mem_write (data v) 0 (l ++ [x00]));
  a ← demand NullDeref m;
  put_msg a (Msg (size_be v) d);;
  mret true.

Definition feof : M bool := s ← gets w_app; mret (a_eof s).

(** [strlen] of the bytes of a message. *)
Fixpoint strlen_bytes (l : list (option byte)) : outcome nat :=
  match l with
  | [] => Fault OutOfBounds
  | None :: _ => Fault Indeterminate
  | Some b :: l => if decide (b = x00) then Ok 0%nat else n ← strlen_bytes l; Ok (S n)
  end.

(** The functions the program registers, by number. *)
Definition CB_on_connect := 0%nat.
Definition CB_on_recv := 1%nat.
Definition CB_on_send := 2%nat.
Definition CB_on_close := 3%nat.
Definition CB_hello_on_connect := 4%nat.

Section client.
Context `{Env} `{App}.

(** [str] is [msg->data] itself, so that [memcpy] copies it onto itself. *)
Definition msg_setup (m : option nat) : M unit :=
  v ← get_msg m;
  size ← lift (strlen_bytes (data v));
  a ← demand NullDeref m;
  put_msg a (sc_msg_set_size v (Z.of_nat size)).

Definition userdata_client (s : nat) : M nat :=
  p ← sc_socket_get_userdata s; mret (Z.to_nat p).

Definition client_async_cb (a : nat) : M unit :=
  update_client a (with_terminate true);;
  close_handle (HAsync a).

Definition client_signal_cb (a : nat) (signum : Z) : M unit :=
  assert_signal signum;;
  v ← get_client a;
  t ← member (clt_terminate v);
  if t : bool then mret tt else
  handle_call (UvAsyncSend (HAsync a)) "uv_async_send".

Definition client_idle_cb (a : nat) : M unit :=
  v ← get_client a;
  t ← member (clt_terminate v);
  if t : bool then
    close_handle (HIdle a);;
    s ← member (clt_socket v);
    close_socket s
  else
    eof ← member (clt_input_eof v);
    ready ← (if eof : bool then mret false else member (clt_ready_send v));
    if ready : bool then
      let m := clt_msg v in
      got ← fgets m;
      if got : bool then
        msg_setup m;;
        s ← member (clt_socket v);
        e ← sc_socket_send buv_funcs s m;
        if decide (e ≠ 0) then fatal_exit "sc_socket_send" else
        update_client a (with_ready_send false);;
        eof ← feof;
        update_client a (with_input_eof eof)
      else
        eof ← feof;
        update_client a (with_input_eof eof);;
        if negb eof then fatal_exit "input error" else
        handle_call (UvAsyncSend (HAsync a)) "uv_async_send"
    else mret tt.

Definition on_connect (s : nat) (errcode : Z) : M unit :=
  if decide (errcode ≠ 0) then fatal_exit "errcode" else
  a ← userdata_client s;
  update_client a (with_ready_send true).

Definition on_recv (s : nat) (m : option nat) (errcode : Z) : M unit :=
  if decide (errcode ≠ 0) then fatal_exit "errcode" else
  match m with
  | None =>
      a ← userdata_client s;
      v ← get_client a;
      c ← member (clt_socket v);
      close_socket c
  | Some _ => mret tt
  end.

Definition on_send (s : nat) (errcode : Z) : M unit :=
  if decide (errcode ≠ 0) then fatal_exit "errcode" else
  a ← userdata_client s;
  update_client a (with_ready_send true).

Definition on_close (s : nat) : M unit :=
  a ← userdata_client s;
  close_handle (HSigterm a);;
  close_handle (HSigint a).

(** *** Initialisation *)
Definition client_async_init (a : nat) : M unit :=
  handle_call (UvHandleInit (HAsync a)) "uv_async_init".

Definition client_signal_init (h : app_handle) (signum : Z) : M unit :=
  handle_call (UvHandleInit h) "uv_signal_init";;
  handle_call (UvHandleStart h signum) "uv_signal_start".

Definition client_idle_init (a : nat) : M unit :=
  handle_call (UvHandleInit (HIdle a)) "uv_idle_init";;
  handle_call (UvHandleStart (HIdle a) 0) "uv_idle_start".

(** A null message is fatal at once, so that [clt_msg] is [None] only before
    the assignment. *)
Definition client_new (loop : Z) : M nat :=
  o ← malloc (λ a w, set_app (set_objs (<[a := AClient (Client None None None None None None)]>
    (a_objs (w_app w))) (w_app w)) w);
  match o with
  | None => fatal_exit "not enough memory"
  | Some a =>
      m ← sc_msg_alloc (Z.of_nat MSG_MAX_SIZE);
      update_client a (with_msg_ptr m);;
      match m with
      | None => fatal_exit "not enough memory"
      | Some _ => update_client a (with_loop loop);; mret a
      end
  end.

Definition client_init (a : nat) : M unit :=
  client_async_init a;;
  client_signal_init (HSigterm a) SIGTERM;;
  client_signal_init (HSigint a) SIGINT;;
  client_idle_init a;;
  s ← new_socket;
  update_client a (with_socket s);;
  sc_socket_set_userdata s (Z.of_nat a);;
  sc_socket_on_connect s (CbUser CB_on_connect);;
  sc_socket_on_recv s (CbUser CB_on_recv);;
  sc_socket_on_send s (CbUser CB_on_send);;
  sc_socket_on_close s (CbUser CB_on_close);;
  update_client a (with_terminate false);;
  update_client a (with_input_eof false);;
  update_client a (with_ready_send false).

Definition client_del (a : nat) : M unit :=
  v ← get_client a;
  s ← member (clt_socket v);
  sc_socket_del buv_funcs s;;
  sc_msg_free (clt_msg v);;
  free_obj a.

Definition client_connect (a : nat) (uri : cbuf) : M unit :=
  v ← get_client a;
  s ← member (clt_socket v);
  e ← sc_socket_connect buv_funcs s uri;
  if decide (e ≠ 0) then fatal_exit "sc_socket_connect" else mret tt.

(** [main], up to [uv_run]; the client. *)
Definition client_start (loop : Z) (uri : cbuf) : M nat :=
  a ← client_new loop;
  sc_init SC_LIBUV (Some loop) None None;;
  client_init a;;
  client_connect a uri;;
  mret a.

(** The arguments, [fopen] giving the content of a file that can be opened;
    the URI and the content. *)
Definition client_parse_args (fopen : cbuf → option (list byte)) (argv : list cbuf) :
    M (cbuf * list byte) :=
  match argv with
  | [_; uri; file] =>
      match fopen file with
      | Some inp => mret (uri, inp)
      | None => fatal_exit "failed to open input"
      end
  | _ => fail_with (Fatal "Usage: client URI INPUT_FILE")
  end.

(** [main], for what [uv_run] and [uv_loop_close] do. *)
Definition client_main (fopen : cbuf → option (list byte)) (uv_run uv_loop_close : M Z)
    (loop : Z) (argv : list cbuf) : M Z :=
  args ← client_parse_args fopen argv;
  modify (λ w, set_app (set_input (snd args) false (w_app w)) w);;
  a ← client_start loop (fst args);
  fatal_unless_zero uv_run "uv_run";;
  fatal_unless_zero uv_loop_close "uv_loop_close";;
  client_del a;;
  mret 0.

(** *** test/send_hello.c: [hello] is a static message at address [m] *)
Definition hello : sc_msg := SC_MSG_INIT 5 (text "Hello" ++ [x00]).

Definition hello_on_connect (m s : nat) (errcode : Z) : M unit :=
  sc_socket_send buv_funcs s (Some m);; mret tt.

Definition hello_start (loop : Z) : M nat :=
  sc_init SC_LIBUV (Some loop) None None;;
  o ← sc_socket_new buv_funcs;
  s ← demand NullDeref o;
  sc_socket_on_connect s (CbUser CB_hello_on_connect);;
  sc_socket_connect buv_funcs s (str "tcp://127.0.0.1:8765");;
  mret s.

Definition hello_main (uv_run : M Z) (loop : Z) : M Z :=
  s ← hello_start loop;
  uv_run;;
  sc_socket_del buv_funcs s;;
  mret 0.

(** The function a number stands for; [m] is the address of [hello]. *)
Definition client_cb (m : nat) (f : nat) (ev : cb_event) : M unit :=
  match f, ev with
  | 0%nat, OnConnect s e => on_connect s e
  | 1%nat, OnRecv s v e => on_recv s v e
  | 2%nat, OnSend s e => on_send s e
  | 3%nat, OnClose s => on_close s
  | 4%nat, OnConnect s e => hello_on_connect m s e
  | _, _ => fail_with NullDeref
  end.
End client.

(** The programs as applications of the library; none of their callbacks makes
    the library call another one. *)
Definition no_nesting : App :=
  {| app_cb := λ _ _, fail_with NullDeref; app_alloc := λ _ _, mret None;
     app_free := λ _ _, mret tt |}.
Definition client_app `{Env} (m : nat) : App :=
  {| app_cb := client_cb (H0 := no_nesting) m; app_alloc := λ _ _, mret None;
     app_free := λ _ _, mret tt |}.

(** ** Reading lines *)

(** A line: no newline but the last byte, no null byte, and short enough for
    the buffer. *)
Definition is_line (l : list byte) : Prop :=
  ∃ p, l = p ++ [newline] ∧ Forall (λ b, b ≠ newline ∧ b ≠ x00) p ∧
    (length l < MSG_MAX_SIZE)%nat.

Lemma fgets_take_line k p rest :
  Forall (λ b, b ≠ newline ∧ b ≠ x00) p → (length p < k)%nat →
  fgets_take k (p ++ newline :: rest) = (p ++ [newline], rest, false).
Proof.
  revert k. induction p as [|b p IH]; intros k Hp Hk.
  - destruct k; [simpl in Hk; lia|]. cbn. by rewrite decide_True.
  - destruct k; [simpl in Hk; lia|]. apply Forall_cons in Hp as [[Hb _] Hp].
    cbn. rewrite decide_False by done. rewrite IH by (done || simpl in Hk; lia). done.
Qed.

(** The end of a file without a newline at the end. *)
Lemma fgets_take_rest k p :
  Forall (λ b, b ≠ newline ∧ b ≠ x00) p → (length p < k)%nat →
  fgets_take k p = (p, [], true).
Proof.
  revert k. induction p as [|b p IH]; intros k Hp Hk.
  - destruct k; [simpl in Hk; lia|done].
  - destruct k; [simpl in Hk; lia|]. apply Forall_cons in Hp as [[Hb _] Hp].
    cbn. rewrite decide_False by done. by rewrite IH by (done || simpl in Hk; lia).
Qed.

Lemma strlen_bytes_app l rest :
  Forall (λ b, b ≠ x00) l → strlen_bytes ((Some <$> l ++ [x00]) ++ rest) = Ok (length l).
Proof.
  induction 1 as [|b l Hb _ IH]; [done|]. cbn. rewrite decide_False by done.
  cbn in IH. by rewrite IH.
Qed.

(** The client [v] at [a] is connected over socket [s] and the backend socket
    [b], and its buffer is the message at [m]. *)
Record connected (a s b m : nat) (v : client) (w : world) : Prop := {
  cn_client : a_objs (w_app w) !! a = Some (AClient v);
  cn_socket : clt_socket v = Some s;
  cn_msg : clt_msg v = Some m;
  cn_terminate : clt_terminate v = Some false;
  cn_sock : ∃ k wt, w_socks w !! s = Some k ∧ s_userdata k = Some (Z.of_nat a) ∧
    s_backend k = Some (Some b) ∧ s_watcher k = Some wt ∧ w_socket wt = s ∧
    World.on_send wt = CbUser CB_on_send;
  cn_buv : ∃ vb, w_buvs w !! b = Some (Some vb) ∧ write_data vb = b ∧ uv_watcher vb = s;
  cn_buffer : ∃ msg, w_msgs w !! m = Some msg ∧ length (data msg) = MSG_MAX_SIZE;
  cn_backend : w_backend w = true
}.

(** The same, between two lines: ready, or not while libuv is writing. *)
Definition sending (a s b m : nat) (ready eof : bool) (inp : list byte) (w : world) : Prop :=
  ∃ v, connected a s b m v w ∧ clt_ready_send v = Some ready ∧ clt_input_eof v = Some eof ∧
    a_in (w_app w) = inp ∧ a_eof (w_app w) = eof.

Section sending.
Context `{Env} `{App}.

Lemma get_client_ok a v w : a_objs (w_app w) !! a = Some (AClient v) → get_client a w = Ok (v, w).
Proof. intros E. unfold get_client, get_obj, mbind, st_bind, gets. cbn. by rewrite E. Qed.

Definition put_client (a : nat) (v : client) (w : world) : world :=
  set_app (set_objs (<[a := AClient v]> (a_objs (w_app w))) (w_app w)) w.

Lemma update_client_ok a f v w :
  a_objs (w_app w) !! a = Some (AClient v) →
  update_client a f w = Ok (tt, put_client a (f v) w).
Proof.
  intros E. unfold update_client. by rewrite (st_bind_ok _ _ _ _ _ (get_client_ok _ _ _ E)).
Qed.

(** The buffer after [fgets] has put [l] into it. *)
Definition filled_buffer (msg : sc_msg) (l : list byte) : sc_msg :=
  Msg (size_be msg) ((Some <$> (l ++ [x00])) ++ drop (length l + 1) (data msg)).

Lemma fgets_ok m msg l r e w :
  fgets_take (MSG_MAX_SIZE - 1) (a_in (w_app w)) = (l, r, e) → l ≠ [] →
  w_msgs w !! m = Some msg → (length l < length (data msg))%nat →
  fgets (Some m) w = Ok (true,
    set_msgs (<[m := filled_buffer msg l]> (w_msgs w))
      (set_app (set_input r (a_eof (w_app w) || e) (w_app w)) w)).
Proof.
  intros Et Hl Hm Hlen. unfold fgets. rewrite (st_bind_ok _ _ _ _ _ (gets_ok _ w)), Et.
  rewrite (st_bind_ok _ _ _ _ _ (modify_ok _ w)), decide_False by done. set (w1 := set_app _ w).
  rewrite (st_bind_ok _ _ _ _ _ (get_msg_ok m msg w1 Hm)).
  assert (Ew : mem_write (data msg) 0 (l ++ [x00]) =
    Ok ((Some <$> (l ++ [x00])) ++ drop (length l + 1) (data msg))).
  { rewrite mem_write_ok by (rewrite ?length_app; simpl; lia).
    change (take (Z.to_nat 0) ?x) with (@nil (option byte)). by rewrite length_app. }
  by rewrite (st_bind_ok _ _ _ _ _ (lift_ok _ _ w1 Ew)).
Qed.

(** The buffer once its size is set: the message is the line. *)
Definition set_up_buffer (msg : sc_msg) (l : list byte) : sc_msg :=
  sc_msg_set_size (filled_buffer msg l) (Z.of_nat (length l)).

Lemma msg_setup_ok m msg l w :
  w_msgs w !! m = Some (filled_buffer msg l) → Forall (λ b, b ≠ x00) l →
  msg_setup (Some m) w = Ok (tt, set_msgs (<[m := set_up_buffer msg l]> (w_msgs w)) w).
Proof.
  intros Hm Hl. unfold msg_setup. rewrite (st_bind_ok _ _ _ _ _ (get_msg_ok m _ w Hm)).
  assert (Es : strlen_bytes (data (filled_buffer msg l)) = Ok (length l))
    by (by apply strlen_bytes_app).
  by rewrite (st_bind_ok _ _ _ _ _ (lift_ok _ _ w Es)).
Qed.

Lemma set_up_holds msg l :
  Z.of_nat (length l) < 2 ^ 32 → msg_holds (set_up_buffer msg l) l.
Proof.
  intros Hl. split; [done|]. split.
  - unfold set_up_buffer. by rewrite set_size_wire, u32_small by lia.
  - cbn. rewrite fmap_app, <-app_assoc. by rewrite take_app_length' by (by rewrite length_fmap).
Qed.
End sending.

(** A client that is connected is given its input. *)
Lemma given_input a s b m v inp w :
  connected a s b m v w → clt_ready_send v = Some true → clt_input_eof v = Some false →
  sending a s b m true false inp (set_app (set_input inp false (w_app w)) w).
Proof. intros [] Hr He. exists v. split; [by split|done]. Qed.

(** ** Sending a file *)
Section file.
Context `{Env} (m0 : nat).
#[local] Instance client_inst : App := client_app m0.

(** [client_idle_cb] with something to read: one write of what [fgets] gives,
    and the client waits for libuv. *)
Lemma client_idle_sends a s b m l r e inp w :
  sending a s b m true false inp w → fgets_take (MSG_MAX_SIZE - 1) inp = (l, r, e) →
  l ≠ [] → Forall (λ c, c ≠ x00) l → (length l < MSG_MAX_SIZE)%nat →
  (∀ past bufs, uv_result past (UvWrite b bufs) = 0) →
  ∃ w' bufs, client_idle_cb a w = Ok (tt, w') ∧ w_uv w' = w_uv w ++ [UvWrite b bufs] ∧
    gather (w_msgs w') bufs = Some (encode l) ∧ sending a s b m false e r w'.
Proof.
  intros (v & [] & Hready & Heof & Hin & Hae) Et Hl Hz Hlen Hr.
  destruct cn_sock0 as (k & wt & Hs & Hud & Hbe & Hwt & Hws & Hcb).
  destruct cn_buv0 as (vb & Hb & Hwd & Hw). destruct cn_buffer0 as (msg & Hm & Hml).
  unfold client_idle_cb, member.
  rewrite (st_bind_ok _ _ _ _ _ (get_client_ok a v w cn_client0)), cn_terminate0.
  rewrite (st_bind_ok _ _ _ _ _ (demand_some _ false w)), Heof.
  rewrite (st_bind_ok _ _ _ _ _ (demand_some _ false w)), Hready.
  rewrite (st_bind_ok _ _ _ _ _ (demand_some _ true w)), cn_msg0.
  rewrite <-Hin in Et.
  rewrite (st_bind_ok _ _ _ _ _ (fgets_ok m msg l r e w Et Hl Hm ltac:(lia))).
  rewrite Hae. set (w1 := set_msgs _ _).
  rewrite (st_bind_ok _ _ _ _ _ (msg_setup_ok m msg l w1 (lookup_insert_eq _ _ _) Hz)).
  set (w2 := set_msgs _ w1). rewrite cn_socket0.
  rewrite (st_bind_ok _ _ _ _ _ (demand_some _ s w2)).
  assert (Hbig : Z.of_nat (length l) < 2 ^ 32) by (unfold MSG_MAX_SIZE in Hlen; lia).
  pose proof (buv_send_holds b vb m _ l w2 Hb (lookup_insert_eq _ _ _)
    (set_up_holds msg l Hbig)) as Es.
  cbv zeta in Es. rewrite Hr in Es.
  assert (Ess : sc_socket_send buv_funcs s (Some m) w2 = buv_send b (Some m) w2).
  { unfold sc_socket_send. rewrite (st_bind_ok _ _ _ _ _ (the_backend_ok _ w2 cn_backend0)).
    by rewrite (st_bind_ok _ _ _ _ _ (sock_backend_obj_ok s k b w2 Hs Hbe)). }
  rewrite <-Ess in Es. rewrite (st_bind_ok _ _ _ _ _ Es), decide_False by lia.
  set (w3 := add_uv _ _).
  rewrite (st_bind_ok _ _ _ _ _ (update_client_ok a _ v w3 cn_client0)).
  set (w4 := put_client a _ w3). unfold feof.
  rewrite (st_bind_ok _ _ _ _ _ (st_bind_ok _ _ _ _ _ (gets_ok _ w4))).
  assert (H4 : a_objs (w_app w4) !! a = Some (AClient (with_ready_send false v)))
    by apply lookup_insert_eq.
  rewrite (update_client_ok a _ _ w4 H4).
  eexists _, _. split; [done|]. split; [done|]. split.
  { eapply gather_send; [apply lookup_insert_eq|by apply set_up_holds]. }
  exists (with_input_eof e (with_ready_send false v)). split; [|done].
  split; try done; [apply lookup_insert_eq|by exists k, wt| |].
  - exists (with_buffers (send_bufs m (Z.of_nat (length l))) vb).
    split_and!; [apply lookup_insert_eq|done|done].
  - exists (set_up_buffer msg l). split; [apply lookup_insert_eq|].
    cbn. rewrite length_app, length_fmap, length_drop, length_app. cbn. lia.
Qed.

(** libuv reports a write: the client is ready again. *)
Lemma write_done a s b m eof inp w :
  sending a s b m false eof inp w →
  ∃ w', write_wrap b 0 w = Ok (tt, w') ∧ w_uv w' = w_uv w ∧ sending a s b m true eof inp w'.
Proof.
  intros (v & [] & Hready & Heof & Hin & Hae).
  destruct cn_sock0 as (k & wt & Hs & Hud & Hbe & Hwt & Hws & Hcb).
  destruct cn_buv0 as (vb & Hb & Hwd & Hw). unfold write_wrap.
  rewrite (st_bind_ok _ _ _ _ _ (get_buv_ok b vb w Hb)), Hwd.
  rewrite (st_bind_ok _ _ _ _ _ (get_buv_ok b vb w Hb)), Hw. unfold watcher_call.
  rewrite (st_bind_ok _ _ _ _ _ (get_sock_ok s k w Hs)), Hwt.
  rewrite (st_bind_ok _ _ _ _ _ (demand_some _ wt w)), Hcb, Hws. unfold fire.
  rewrite (st_bind_ok _ _ _ _ _ (gets_ok _ w)), (st_bind_ok _ _ _ _ _ (modify_ok _ w)).
  set (w1 := add_obs _ w).
  change (app_cb CB_on_send (OnSend s 0)) with (on_send s 0).
  unfold on_send. rewrite decide_False by lia.
  assert (Eu : userdata_client s w1 = Ok (a, w1)).
  { unfold userdata_client, sc_socket_get_userdata.
    unfold mbind at 1, st_bind at 1. rewrite (st_bind_ok _ _ _ _ _ (get_sock_ok s k w1 Hs)), Hud.
    cbn. by rewrite Nat2Z.id. }
  rewrite (st_bind_ok _ _ _ _ _ Eu), (update_client_ok a _ v w1 cn_client0).
  eexists. split; [done|]. split; [done|].
  exists (with_ready_send true v). split; [|done].
  split; try done; [apply lookup_insert_eq|by exists k, wt|by exists vb].
Qed.

(** While libuv is writing, and after the end of the file, an idle round does
    nothing. *)
Lemma client_idle_waits a s b m ready eof inp w :
  sending a s b m ready eof inp w → ready = false ∨ eof = true →
  client_idle_cb a w = Ok (tt, w).
Proof.
  intros (v & [] & Hready & Heof & Hin & Hae) Hor. unfold client_idle_cb, member.
  rewrite (st_bind_ok _ _ _ _ _ (get_client_ok a v w cn_client0)), cn_terminate0.
  rewrite (st_bind_ok _ _ _ _ _ (demand_some _ false w)), Heof.
  rewrite (st_bind_ok _ _ _ _ _ (demand_some _ eof w)), Hready.
  destruct eof; [done|]. destruct Hor as [->|]; [done|done].
Qed.

(** The round after the last line. *)
Lemma client_idle_ends a s b m w :
  sending a s b m true false [] w →
  (∀ past, uv_result past (UvAsyncSend (HAsync a)) = 0) →
  ∃ w', client_idle_cb a w = Ok (tt, w') ∧ w_uv w' = w_uv w ++ [UvAsyncSend (HAsync a)] ∧
    sending a s b m true true [] w'.
Proof.
  intros (v & [] & Hready & Heof & Hin & Hae) Hr. unfold client_idle_cb, member.
  rewrite (st_bind_ok _ _ _ _ _ (get_client_ok a v w cn_client0)), cn_terminate0.
  rewrite (st_bind_ok _ _ _ _ _ (demand_some _ false w)), Heof.
  rewrite (st_bind_ok _ _ _ _ _ (demand_some _ false w)), Hready.
  rewrite (st_bind_ok _ _ _ _ _ (demand_some _ true w)).
  set (w1 := set_app (set_input [] true (w_app w)) w).
  assert (Ef : fgets (clt_msg v) w = Ok (false, w1)).
  { unfold fgets. rewrite (st_bind_ok _ _ _ _ _ (gets_ok _ w)), Hin. cbn.
    by rewrite Hae. }
  rewrite (st_bind_ok _ _ _ _ _ Ef). unfold feof.
  rewrite (st_bind_ok _ _ _ _ _ (st_bind_ok _ _ _ _ _ (gets_ok _ w1))).
  rewrite (st_bind_ok _ _ _ _ _ (update_client_ok a _ v w1 cn_client0)).
  cbn [negb a_eof w_app w1 set_app set_input]. unfold handle_call.
  set (w2 := put_client a _ w1).
  rewrite (st_bind_ok _ _ _ _ _ (uv_do_ok _ w2)), Hr, decide_False by lia.
  eexists. split; [done|]. split; [done|].
  exists (with_input_eof true v). split; [|done].
  split; try done; apply lookup_insert_eq.
Qed.

(** One line goes out: one write, whose buffers hold the encoding of the line
    when libuv gets them; idle rounds that do nothing, and so leave the buffer
    alone, while libuv has it; and the report of the write. *)
Definition sends_line (a b : nat) (l : list byte) (w w' : world) : Prop :=
  ∃ bufs w1, client_idle_cb a w = Ok (tt, w1) ∧ w_uv w1 = w_uv w ++ [UvWrite b bufs] ∧
    gather (w_msgs w1) bufs = Some (encode l) ∧ client_idle_cb a w1 = Ok (tt, w1) ∧
    write_wrap b 0 w1 = Ok (tt, w') ∧ w_uv w' = w_uv w1.

Inductive sends_lines (a b : nat) : list (list byte) → world → world → Prop :=
  | sends_nil w : sends_lines a b [] w w
  | sends_cons l ls w w1 w2 :
      sends_line a b l w w1 → sends_lines a b ls w1 w2 → sends_lines a b (l :: ls) w w2.

Lemma sends_one a s b m l r e inp w :
  sending a s b m true false inp w → fgets_take (MSG_MAX_SIZE - 1) inp = (l, r, e) →
  l ≠ [] → Forall (λ c, c ≠ x00) l → (length l < MSG_MAX_SIZE)%nat →
  (∀ past bufs, uv_result past (UvWrite b bufs) = 0) →
  ∃ w', sends_line a b l w w' ∧ sending a s b m true e r w'.
Proof.
  intros Hw Et Hl Hz Hlen Hr.
  destruct (client_idle_sends a s b m l r e inp w Hw Et Hl Hz Hlen Hr)
    as (w1 & bufs & E1 & Euv & Eg & H1).
  destruct (write_done a s b m e r w1 H1) as (w2 & E2 & Euv2 & H2).
  exists w2. split; [|done]. exists bufs, w1. split_and!; try done.
  by apply (client_idle_waits a s b m false e r); [|left].
Qed.

Lemma sends_all a s b m ls : ∀ w,
  sending a s b m true false (concat ls) w → Forall is_line ls →
  (∀ past bufs, uv_result past (UvWrite b bufs) = 0) →
  ∃ w', sends_lines a b ls w w' ∧ sending a s b m true false [] w'.
Proof.
  induction ls as [|l ls IH]; intros w Hw Hls Hr; [exists w; by split; [constructor|]|].
  apply Forall_cons in Hls as [(p & -> & Hp & Hlen) Hls].
  assert (Et : fgets_take (MSG_MAX_SIZE - 1) (concat ((p ++ [newline]) :: ls)) =
    (p ++ [newline], concat ls, false)).
  { cbn [concat]. rewrite <-app_assoc. cbn [app].
    rewrite length_app in Hlen. cbn [length] in Hlen. apply fgets_take_line; [done|lia]. }
  destruct (sends_one a s b m _ _ _ _ w Hw Et) as (w1 & H1 & Hs1); [by destruct p| |done|done|].
  { apply Forall_app. split; [|by repeat constructor].
    eapply Forall_impl; [exact Hp|]. by intros ? []. }
  destruct (IH w1 Hs1 Hls Hr) as (w2 & H2 & Hs2). exists w2. split; [by econstructor|done].
Qed.

(** C16. A connected client sends its input file: each line is handed to libuv
    by one write, encoded, and is not touched until libuv reports it written;
    then the next one is; and at the end of the file the client wakes itself
    up to terminate, as after a signal. *)
Theorem client_sends_file a s b m ls w :
  sending a s b m true false (concat ls) w → Forall is_line ls →
  (∀ past bufs, uv_result past (UvWrite b bufs) = 0) →
  (∀ past, uv_result past (UvAsyncSend (HAsync a)) = 0) →
  ∃ w1 w2, sends_lines a b ls w w1 ∧ client_idle_cb a w1 = Ok (tt, w2) ∧
    w_uv w2 = w_uv w1 ++ [UvAsyncSend (HAsync a)] ∧ client_idle_cb a w2 = Ok (tt, w2).
Proof.
  intros Hw Hls Hr Ha. destruct (sends_all a s b m ls w Hw Hls Hr) as (w1 & H1 & Hs1).
  destruct (client_idle_ends a s b m w1 Hs1 Ha) as (w2 & E2 & Euv & Hs2).
  exists w1, w2. split_and!; try done.
  by apply (client_idle_waits a s b m true true []); [|right].
Qed.

(** C28. When the last line of the file has no newline, [fgets] meets the end of
    the file while reading it: the line is sent, [input_eof] is set, and from
    then on the idle rounds do nothing: nothing makes the client terminate, or
    close its socket, short of a signal or the other side. *)
Theorem client_last_line_hangs a s b m l w :
  sending a s b m true false l w → l ≠ [] → Forall (λ c, c ≠ newline ∧ c ≠ x00) l →
  (length l < MSG_MAX_SIZE - 1)%nat →
  (∀ past bufs, uv_result past (UvWrite b bufs) = 0) →
  ∃ w', sends_line a b l w w' ∧ client_idle_cb a w' = Ok (tt, w').
Proof.
  intros Hw Hl Hp Hlen Hr.
  destruct (sends_one a s b m l [] true l w Hw) as (w' & H1 & Hs1); [|done| |lia|done|].
  - by apply fgets_take_rest.
  - eapply Forall_impl; [exact Hp|]. by intros ? [].
  - exists w'. split; [done|]. by apply (client_idle_waits a s b m true true []); [|right].
Qed.
End file.

(** ** A client of the local host *)
Section client_demo.
#[local] Existing Instance demo_env.

(** The state after [main] has started the client and libuv has reported the
    connection; the same with an input file. *)
Definition client_ready : world :=
  match (client_start (H0 := client_app 0) 0 (str "tcp://127.0.0.1:60721");;
         on_connect_wrap (H0 := client_app 0) 4 0) world0 with
  | Ok (_, w) => w
  | Fault _ => world0
  end.
Definition client_world (input : list byte) : world :=
  set_app (set_input input false (w_app client_ready)) client_ready.
Definition ready_client : client :=
  Client (Some 0) (Some 2%nat) (Some 3%nat) (Some false) (Some false) (Some true).

(** The whole life of a client: its file has one line; it is told the
    connection, writes, is told it is written, ends, and closes. *)
Example client_life :
  let A := client_app 0 in
  let run : M Z :=
    on_connect_wrap 4 0;; client_idle_cb 1;; write_wrap 4 0;; client_idle_cb 1;;
    client_async_cb 1;; client_idle_cb 1;; close_wrap 4;; mret 0 in
  match client_main (λ _, Some (text "Hello" ++ [newline])) run (mret 0) 0
    [str "client"; str "tcp://127.0.0.1:60721"; str "in"] world0 with
  | Ok (e, w) => e = 0 ∧ w_socks w = ∅ ∧ w_buvs w = ∅ ∧ w_uris w = ∅ ∧ w_msgs w = ∅ ∧
      a_objs (w_app w) = ∅ ∧
      omap (λ c, match c with UvHandleClose h => Some h | _ => None end) (w_uv w) =
        [HAsync 1; HIdle 1; HSigterm 1; HSigint 1]
  | Fault _ => False
  end.
Proof. vm_compute. by split_and!. Qed.

Definition two_lines : string := "Hello
you
".

Lemma client_ready_connected : connected 1 3 4 2 ready_client client_ready.
Proof.
  split; try (vm_compute; reflexivity).
  - do 2 eexists. split_and!; vm_compute; reflexivity.
  - eexists. split_and!; vm_compute; reflexivity.
  - eexists. split; vm_compute; reflexivity.
Qed.

Lemma client_world_sending input : sending 1 3 4 2 true false input (client_world input).
Proof. exact (given_input 1 3 4 2 ready_client input client_ready client_ready_connected
  eq_refl eq_refl). Qed.

Lemma two_lines_are :
  text two_lines = concat [text "Hello" ++ [newline]; text "you" ++ [newline]] ∧
  Forall is_line [text "Hello" ++ [newline]; text "you" ++ [newline]].
Proof.
  split; [reflexivity|]. repeat constructor; eexists; (split; [reflexivity|]);
    (split; [by repeat constructor|unfold MSG_MAX_SIZE; cbn; lia]).
Qed.

Lemma client_sends_file_witness :
  ∃ w1 w2, sends_lines 0 1 4 [text "Hello" ++ [newline]; text "you" ++ [newline]]
      (client_world (text two_lines)) w1 ∧
    client_idle_cb (H0 := client_app 0) 1 w1 = Ok (tt, w2) ∧
    w_uv w2 = w_uv w1 ++ [UvAsyncSend (HAsync 1)] ∧
    client_idle_cb (H0 := client_app 0) 1 w2 = Ok (tt, w2).
Proof.
  apply (client_sends_file 0 1 3 4 2); [|apply two_lines_are|by intros|by intros].
  exact (client_world_sending (text two_lines)).
Defined.

Lemma client_last_line_hangs_witness :
  ∃ w', sends_line 0 1 4 (text "Hello") (client_world (text "Hello")) w' ∧
    client_idle_cb (H0 := client_app 0) 1 w' = Ok (tt, w').
Proof.
  apply (client_last_line_hangs 0 1 3 4 2); [apply client_world_sending|done| | |by intros].
  - by repeat constructor.
  - unfold MSG_MAX_SIZE. cbn. lia.
Defined.
End client_demo.
