(* ===== verification/TestEcho.v ===== *)
(** * The echo server (test/echo_server.c)

    A program that accepts connections on one socket, prints the messages it
    receives, and closes both of its sockets when the stream ends. *)

From S2P Require Import Prelude Endian CString Strerror Msg MsgReader Uri AppData World.
From S2P Require Import Watcher Demo Backend BackendUv Conn Frame Recv Socket Sc.
From S2P Require Import TestApp TestServer TestRecv.

(** The address of the two global pointers, which no allocation returns. *)
Definition echo_at : nat := 0.

Definition CB_echo_on_connection := 0%nat.
Definition CB_echo_on_recv := 1%nat.

Section echo.
Context `{Env} `{App}.

Definition get_echo : M echo_globals :=
  o ← get_obj echo_at;
  match o with AEcho v => mret v | _ => fail_with OutOfBounds end.
Definition put_echo (v : echo_globals) : M unit := put_obj echo_at (AEcho v).

(** [fatal(sc_strerror(errcode))] *)
Definition fatal_code (errcode : Z) : M unit :=
  t ← sc_strerror errcode; fatal_exit t.

Definition echo_close_socket (s : nat) : M unit :=
  errcode ← sc_socket_close buv_funcs s;
  if decide (errcode ≠ 0) then fatal_code errcode else mret tt.

Definition echo (m : option nat) : M unit :=
  r ← msg_text m;
  put_out (snd r ++ text "
").

Definition echo_on_connection (s : nat) (errcode : Z) : M unit :=
  if decide (errcode ≠ 0) then fatal_code errcode else
  g ← get_echo;
  c ← demand NullDeref (echo_client g);
  sc_socket_accept buv_funcs s c.

Definition echo_on_recv (s : nat) (m : option nat) (errcode : Z) : M unit :=
  if decide (errcode ≠ 0) then fatal_exit "errcode" else
  match m with
  | None =>
      echo_close_socket s;;
      g ← get_echo;
      srv ← demand NullDeref (echo_server g);
      echo_close_socket srv
  | Some _ => echo m
  end.

(** [main] up to [uv_run]; the results of binding and listening are not looked
    at. *)
Definition echo_start (loop : Z) : M unit :=
  put_echo (EchoGlobals None None);;
  sc_init SC_LIBUV (Some loop) None None;;
  srv ← sc_socket_new buv_funcs;
  put_echo (EchoGlobals srv None);;
  s ← demand NullDeref srv;
  sc_socket_on_connection s (CbUser CB_echo_on_connection);;
  sc_socket_bind buv_funcs s (str "tcp://127.0.0.1:8777");;
  sc_socket_listen buv_funcs s 1;;
  clt ← sc_socket_new buv_funcs;
  put_echo (EchoGlobals srv clt);;
  c ← demand NullDeref clt;
  sc_socket_on_recv c (CbUser CB_echo_on_recv).

(** The end of [main]. *)
Definition echo_end : M unit :=
  g ← get_echo;
  s ← demand NullDeref (echo_server g);
  sc_socket_del buv_funcs s;;
  c ← demand NullDeref (echo_client g);
  sc_socket_del buv_funcs c.

Definition echo_main (uv_run : M Z) (loop : Z) : M Z :=
  echo_start loop;; uv_run;; echo_end;; mret 0.

Definition echo_cb (f : nat) (ev : cb_event) : M unit :=
  match f, ev with
  | 0%nat, OnConnection s e => echo_on_connection s e
  | 1%nat, OnRecv s m e => echo_on_recv s m e
  | _, _ => fail_with NullDeref
  end.
End echo.

(** The program as an application; [sc_socket_accept] may call back, into the
    callbacks that are not set. *)
Definition echo_app `{Env} : App :=
  {| app_cb := echo_cb (H0 := {| app_cb := λ _ _, fail_with NullDeref;
                                 app_alloc := λ _ _, mret None; app_free := λ _ _, mret tt |});
     app_alloc := λ _ _, mret None; app_free := λ _ _, mret tt |}.

(** What [echo] prints of a message. *)
Definition echo_line (p : list byte) : list byte := c_text p ++ text "
".

Program Definition echo_receiver (c : nat) (r0 : list (option (list (option byte)) * Z))
    (o0 : list byte) : Receiver :=
  {| rv_inv w := printed_since echo_line c r0 o0 w; rv_ok := printable |}.
Next Obligation. cbn. intros c r0 o0 w w' Ha Ho _ _ _. by apply printed_since_stable. Qed.

Section echo_receives.
Context `{Env}.
#[local] Existing Instance echo_app.

Lemma echo_on_recv_ok c bc r0 o0 :
  on_recv_ok (H := echo_receiver c r0 o0) bc c CB_echo_on_recv.
Proof.
  intros vb m e w [_ _ _ _ _ _ Hpr] (p & Ev & Hlen) w1. cbn in Hpr.
  apply printable_event in Ev as [Ep ->]. subst w1. rewrite Ep. set (w1 := add_obs _ w).
  exists (set_app (add_out (echo_line p) (w_app w1)) w1).
  split_and!; [|apply rx_frame_set_app|].
  - change (app_cb CB_echo_on_recv (OnRecv c m 0) w1) with
      (echo_on_recv (H0 := {| app_cb := λ _ _, fail_with NullDeref;
         app_alloc := λ _ _, mret None; app_free := λ _ _, mret tt |}) c m 0 w1).
    unfold echo_on_recv. rewrite decide_False by lia.
    destruct m as [m|]; [|done]. unfold echo.
    by rewrite (st_bind_ok _ _ _ _ _ (msg_text_ok c (Some m) 0 p w1 Ep Hlen)).
  - exact (printed_since_step echo_line c r0 o0 w m p Hpr).
Qed.

(** The echo server prints each message that arrives. *)
Lemma echo_prints_lines c bc sz w ps cs :
  (∀ k, malloc_ok k = true) → 1 ≤ sz < 2 ^ 31 →
  rx_rel (H := any_receiver) sz bc c CB_echo_on_recv w Idle →
  within sz ps → concat cs = concat (encode <$> ps) →
  chunks_asked sz Idle cs → headers_whole Idle cs →
  ∃ w', uv_reads bc sz cs w = Ok (tt, w') ∧
    a_out (w_app w') = a_out (w_app w) ++ concat (echo_line <$> ps).
Proof.
  intros Hmal Hsz Hrel Hps Hcs Ha Hh.
  set (R := echo_receiver c (received c w) (a_out (w_app w))).
  assert (Hinv : rv_inv (Receiver := R) w) by (exists []; by rewrite !app_nil_r).
  destruct (uv_reads_framing (H1 := R) bc c CB_echo_on_recv sz
    (echo_on_recv_ok c bc _ _) Hmal ltac:(lia) w ps cs (rx_rel_with R _ _ _ _ _ _ Hrel Hinv)
    Hps (printable_within sz ps ltac:(lia) Hps) Hcs Ha Hh)
    as (w' & E & (vb & Hbase & _) & Hr).
  exists w'. split; [done|]. apply (printed_all _ c w w'); [|done].
  exact (rb_inv _ _ _ _ _ Hbase).
Qed.

(** C27. From the wire to standard output: the echo server prints the text of
    each message it receives, up to its first null byte, on a line of its own,
    in order, however the stream is cut into reads that leave each size field
    in one piece, as long as there is memory for the messages and they fit the
    size libuv suggests. *)
Theorem echo_prints c bc sz w ps cs :
  (∀ k, malloc_ok k = true) → 1 ≤ sz < 2 ^ 31 →
  rx_rel (H := any_receiver) sz bc c CB_echo_on_recv w Idle →
  within sz ps → concat cs = concat (encode <$> ps) →
  chunks_asked sz Idle cs → headers_whole Idle cs →
  ∃ w', uv_reads bc sz cs w = Ok (tt, w') ∧
    a_out (w_app w') = a_out (w_app w) ++ concat (echo_line <$> ps).
Proof. apply echo_prints_lines. Qed.
End echo_receives.

(** ** The echo server with a client *)
Section echo_demo.
#[local] Existing Instances demo_env echo_app.

(** The state after the start of [main] and a connection. *)
Definition echo_world : world :=
  match (echo_start 0;; on_connection_wrap 2 0) world0 with
  | Ok (_, w) => w
  | Fault _ => world0
  end.

Lemma echo_receiving :
  rx_rel (H := any_receiver) 65536 5 4 CB_echo_on_recv echo_world Idle.
Proof.
  eexists. split; [split|].
  - vm_compute; reflexivity.
  - reflexivity.
  - reflexivity.
  - do 2 eexists. split_and!; vm_compute; reflexivity.
  - vm_compute; reflexivity.
  - vm_compute; reflexivity.
  - exact I.
  - reflexivity.
Qed.

Lemma echo_prints_witness :
  ∃ w', uv_reads 5 65536 [be_bytes 5; text "Hello"; be_bytes 0] echo_world = Ok (tt, w') ∧
    a_out (w_app w') = text "Hello

".
Proof.
  apply (echo_prints 4 5 65536 echo_world [text "Hello"; []]);
    [by intros|lia|exact echo_receiving|decide_by_run|reflexivity|decide_by_run|decide_by_run].
Defined.
End echo_demo.
