(* ===== verification/EchoSafe.v ===== *)
(** * The echo server never faults

    The whole program of test/echo_server.c: from the start of [main], through
    any run of the event loop in which libuv keeps its promises and messages
    fit, to the end of [main]. *)

From S2P Require Import Prelude Endian CString Strerror Msg MsgReader Uri AppData World.
From S2P Require Import Watcher Demo Backend BackendUv Conn Frame Recv Socket SocketUv Owner Dial.
From S2P Require Import Lifecycle Sc System Safety SafeApi SafeRun TestApp TestServer TestRecv TestEcho.
From Stdlib Require Import Ascii.

(** What the callbacks that are not set are: the inner level of [echo_app]. *)
Abbreviation no_app := {| app_cb := λ _ _, fail_with NullDeref;
  app_alloc := λ _ _, mret None; app_free := λ _ _, mret tt |}.

(** The watchers of the two sockets. *)
Definition echo_server_watcher (s : nat) : watcher :=
  Watcher s CbNoop (CbUser CB_echo_on_connection) CbNoop CbNoop CbNoop CbNoop.
Definition echo_client_watcher (c : nat) : watcher :=
  Watcher c CbNoop CbNoop CbNoop (CbUser CB_echo_on_recv) CbNoop CbNoop.

(** The state of the program while the event loop runs. *)
Record echo_ok (s c : nat) (w : world) : Prop := {
  eo_ne : s ≠ c;
  eo_socks a k : w_socks w !! a = Some k → a = s ∨ a = c;
  eo_server : ∃ k, w_socks w !! s = Some k ∧ s_watcher k = Some (echo_server_watcher s);
  eo_client : ∃ k, w_socks w !! c = Some k ∧ s_watcher k = Some (echo_client_watcher c);
  eo_globals : a_objs (w_app w) !! echo_at = Some (AEcho (EchoGlobals (Some s) (Some c)));
  eo_bound : bound w s;
  eo_uris : no_stray w
}.
Definition echo_inv (w : world) : Prop := ∃ s c, echo_ok s c w.

Lemma echo_ok_internal X s c w w' : internal_but X w w' → echo_ok s c w → echo_ok s c w'.
Proof.
  intros [Es Eu Ea Hb _ _] [E1 E2 E3 E4 E5 E6 E7].
  split; rewrite ?Es, ?Ea; [done..|by apply Hb|].
  apply (stray_socks w); [done| |done]. intros a u. unfold owns. by rewrite Es.
Qed.

Lemma echo_ok_closed s c a w w' : closed_at a w w' → echo_ok s c w → echo_ok s c w'.
Proof.
  intros Hc [E1 E2 (ks & Hks & Ews) (kc & Hkc & Ewc) E5 E6 E7].
  split; [done|..|by rewrite (cl_app _ _ _ Hc)|by eapply closed_bound|by apply (cl_uris _ _ _ Hc)].
  - intros x kx Hx. destruct (cl_only _ _ _ Hc x ltac:(by exists kx)) as [k Hk]. by eapply E2.
  - destruct (cl_sock _ _ _ Hc s ks Hks) as (k & ? & ? & _). exists k. split; [done|congruence].
  - destruct (cl_sock _ _ _ Hc c kc Hkc) as (k & ? & ? & _). exists k. split; [done|congruence].
Qed.

Section echo.
Context `{Env}.

(** ** The callbacks *)
Section callbacks.
Context `{App}.

Lemma echo_close_runs s c a w (Q : unit → world → Prop) :
  safe w → echo_ok s c w → a = s ∨ a = c →
  (∀ w', safe w' → echo_ok s c w' → w_buvs w' = w_buvs w → Q tt w') →
  runs (echo_close_socket a) w Q.
Proof.
  intros Hs He Ha HQ.
  assert (∃ k wt, w_socks w !! a = Some k ∧ s_watcher k = Some wt) as (k & wt & Hk & Ew).
  { destruct Ha as [->| ->]; [destruct (eo_server _ _ _ He) as (k & ? & ?)
      |destruct (eo_client _ _ _ He) as (k & ? & ?)]; eauto. }
  destruct (watched_close a k wt w Hs Hk Ew) as (w' & E & Hc).
  apply (runs_step _ _ _ _ _ _ E). rewrite decide_False by lia. apply runs_ret, HQ; [apply Hc| |apply Hc].
  by apply (echo_ok_closed s c a w).
Qed.

Lemma get_echo_ok s c w : echo_ok s c w → get_echo w = Ok (EchoGlobals (Some s) (Some c), w).
Proof.
  intros He. unfold get_echo, get_obj, mbind, st_bind, gets. cbn.
  by rewrite (eo_globals _ _ _ He).
Qed.

(** The end of the stream. *)
Lemma echo_end_of_stream s c w :
  safe w → echo_ok s c w →
  runs (echo_on_recv c None 0) w (λ _ w', safe w' ∧ echo_inv w' ∧ w_buvs w' = w_buvs w).
Proof.
  intros Hs He. unfold echo_on_recv. rewrite decide_False by lia.
  apply runs_bind, (echo_close_runs s c); [done|done|by right|]. intros w1 Hs1 He1 Eb1.
  apply (runs_step _ _ _ _ _ _ (get_echo_ok s c w1 He1)). cbn [echo_server].
  apply (runs_step _ _ _ _ _ _ (demand_some _ s w1)).
  apply (echo_close_runs s c); [done|done|by left|]. intros w2 Hs2 He2 Eb2.
  split; [done|]. split; [by exists s, c|]. congruence.
Qed.

(** A message. *)
Lemma echo_message s c m mv p w :
  safe w → echo_ok s c w → w_msgs w !! m = Some mv → payload mv = Ok (Some <$> p) →
  Z.of_nat (length p) < 2 ^ 31 →
  runs (echo_on_recv c (Some m) 0) w (λ _ w', safe w' ∧ echo_inv w' ∧ w_buvs w' = w_buvs w).
Proof.
  intros Hs He Hm Hp Hl. unfold echo_on_recv, echo. rewrite decide_False by lia.
  eapply runs_step.
  { apply (msg_text_ok c (Some m) 0 p w); [|done]. unfold event_payload. cbn [deref_msg].
    by rewrite Hm; osimpl; rewrite Hp. }
  eapply runs_ok; [done|]. split; [by apply (safe_same w)|]. split; [|done].
  exists s, c. by destruct He.
Qed.

(** A connection: [sc_socket_accept] calls the [on_accept] of the client, which
    is not set. *)
Lemma echo_connection s c w :
  safe w → echo_ok s c w →
  runs (echo_on_connection s 0) w (λ _ w', safe w' ∧ echo_inv w').
Proof.
  intros Hs He. unfold echo_on_connection. rewrite decide_False by lia.
  apply (runs_step _ _ _ _ _ _ (get_echo_ok s c w He)). cbn [echo_client].
  apply (runs_step _ _ _ _ _ _ (demand_some _ c w)).
  destruct (eo_client _ _ _ He) as (kc & Hkc & Ewc).
  pose proof (watched_ready _ _ _ _ Hs Hkc Ewc) as Hr.
  pose proof Hr as (d & b & u & wt & v & Ek & Ew & Hcb & Hb & Hv).
  apply (accept_runs s c kc b w (λ w', safe w' ∧ echo_inv w') Hs Hkc ltac:(by subst kc) (eo_bound _ _ _ He)).
  intros e w' (Hs' & Hi & _). pose proof (echo_ok_internal _ s c w w' Hi He) as He'.
  assert (∃ v', w_buvs w' !! b = Some (Some v') ∧ uv_watcher v' = c) as (v' & Hb' & Hv').
  { rewrite <-(in_socks _ _ _ Hi) in Hkc.
    destruct (watched_ready _ _ _ _ Hs' Hkc Ewc) as (d' & b' & u' & wt' & v' & Ek' & _ & _ & Hb' & ?).
    exists v'. rewrite Ek in Ek'. injection Ek' as _ <- _ _. done. }
  unfold call_on_accept. apply (runs_step _ _ _ _ _ _ (get_buv_ok _ _ _ Hb')). rewrite Hv'.
  unfold watcher_call. rewrite <-(in_socks _ _ _ Hi) in Hkc.
  apply (runs_step _ _ _ _ _ _ (get_sock_ok _ _ _ Hkc)). rewrite Ewc.
  apply (runs_step _ _ _ _ _ _ (demand_some _ _ w')). cbn [fire echo_client_watcher on_accept].
  unfold noop, sc_warn. destruct ndebug; eapply runs_ok; try done.
  - split; [done|by exists s, c].
  - split; [by apply (safe_same w')|]. exists s, c.
    by apply (echo_ok_internal (λ _, False) s c w'), He'; apply internal_same.
Qed.

(** Giving up. *)
Lemma fatal_code_runs e w (Q : unit → world → Prop) : safe w → runs (fatal_code e) w Q.
Proof.
  intros Hs. unfold fatal_code. apply runs_bind. unfold sc_strerror.
  repeat (case_decide; [done|]).
  by apply (runs_step _ _ _ _ _ _ (the_backend_ok buv_funcs w (sf_backend w Hs))).
Qed.
End callbacks.

#[local] Existing Instance echo_app.

#[export] Instance echo_safe : AppSafe echo_inv.
Proof.
  split; [intros w w' Hi (s & c & He); exists s, c; by eapply echo_ok_internal|].
  intros f ev w Hs (s & c & He) [Hu Hm] (k & wt & Hk & Ew & Ef).
  assert (Hsame : ∀ w', w_buvs w' = w_buvs w → leaves_reader ev w w').
  { destruct Hu as (k' & Hk' & d & b & u & wt' & v & -> & _ & _ & Hv & _).
    destruct ev; try done. cbn in *. intros w' Eb k2 b2. rewrite Hk'. intros [= <-] [= <-].
    unfold alive. rewrite Eb. by eexists. }
  destruct (eo_socks _ _ _ He _ _ Hk) as [Ea|Ea]; rewrite Ea in Hk.
  - destruct (eo_server _ _ _ He) as (ks & Hks & Ews). rewrite Hk in Hks. injection Hks as <-.
    rewrite Ew in Ews. injection Ews as ->.
    destruct ev as [|s' e| | | |]; cbn in Ef; try done. injection Ef as <-. cbn in Ea. subst s'.
    cbn [app_cb echo_app echo_cb CB_echo_on_connection CB_echo_on_recv]. destruct (decide (e = 0)) as [->|Hne].
    + eapply runs_weaken; [|by apply (echo_connection s c)]. by intros _ w' [].
    + unfold echo_on_connection. rewrite decide_True by done. by apply fatal_code_runs.
  - destruct (eo_client _ _ _ He) as (kc & Hkc & Ewc). rewrite Hk in Hkc. injection Hkc as <-.
    rewrite Ew in Ewc. injection Ewc as ->.
    destruct ev as [| | |c' m e| |]; cbn in Ef; try done. injection Ef as <-. cbn in Ea. subst c'.
    cbn [app_cb echo_app echo_cb CB_echo_on_connection CB_echo_on_recv]. destruct (decide (e = 0)) as [->|Hne].
    + eapply (runs_weaken _ _ (λ _ w', safe w' ∧ echo_inv w' ∧ w_buvs w' = w_buvs w)).
      { intros _ w' (? & ? & Eb). split_and!; [done..|by apply Hsame]. }
      destruct m as [m|]; [|by apply (echo_end_of_stream s)].
      destruct Hm as (_ & mv & p & Hmv & Hp & Hl). by apply (echo_message s c m mv p).
    + unfold echo_on_recv. by rewrite decide_True by done.
Qed.

(** ** The start of [main] *)

Definition echo_uri_rest : cbuf := str "//127.0.0.1:8777".

Lemma echo_uri_reference :
  uri_reference (str "tcp") echo_uri_rest = ROk (VTcp (str "127.0.0.1") (str "8777")).
Proof. vm_compute. reflexivity. Qed.

Lemma safe_put_echo v w : safe w → safe (set_app (set_objs (<[echo_at := AEcho v]> (a_objs (w_app w))) (w_app w)) w).
Proof. intros Hs. by apply (safe_same w). Qed.

(** The state once there is a server. *)
Record echo_serving (s : nat) (w : world) : Prop := {
  es_socks a k : w_socks w !! a = Some k → a = s;
  es_server : ∃ k, w_socks w !! s = Some k ∧ s_watcher k = Some (echo_server_watcher s);
  es_bound : bound w s;
  es_uris : no_stray w
}.

Context (Hmal : ∀ n, malloc_ok n = true).

Lemma echo_server_runs w (k : option nat → M unit) Q :
  safe w → w_socks w = ∅ → no_stray w →
  (∀ s w', safe w' → echo_serving s w' → runs (k (Some s)) w' Q) →
  runs (srv ← sc_socket_new buv_funcs;
    put_echo (EchoGlobals srv None);;
    s ← demand NullDeref srv;
    sc_socket_on_connection s (CbUser CB_echo_on_connection);;
    sc_socket_bind buv_funcs s (str "tcp" ++ ":"%char :: echo_uri_rest);;
    sc_socket_listen buv_funcs s 1;;
    k srv) w Q.
Proof.
  intros Hs1 Es1 Hn1 HQ.
  destruct (new_effect w Hs1 (Hmal _) (Hmal _)) as (w2 & E & Hs2 & Es2 & Eb2 & _ & _ & Hn2).
  apply (runs_step _ _ _ _ _ _ E). clear E. set (s := w_next w) in *. set (b := S s) in *.
  eapply runs_step; [done|]. set (w3 := set_app _ w2).
  assert (Hs3 : safe w3) by by apply safe_put_echo.
  apply (runs_step _ _ _ _ _ _ (demand_some _ s w3)).
  assert (Hk3 : w_socks w3 !! s = Some (new_sock s b)) by (cbn; rewrite Es2; apply lookup_insert_eq).
  destruct (watcher_effect s (λ t, Watcher (w_socket t) (on_connect t) (CbUser CB_echo_on_connection)
      (on_accept t) (on_recv t) (on_send t) (on_close t)) _ _ w3 Hs3 Hk3
      (watched_ready _ _ _ _ Hs3 Hk3 eq_refl) eq_refl) as (w4 & E & Hs4 & Es4 & Eb4 & _ & _ & Hn4).
  { intros wt (? & ? & ? & ? & ? & ?). by split; [split_and!|]. }
  apply (runs_step _ _ _ _ _ _ E). clear E. set (ks := with_watcher _ _) in Es4.
  assert (Hk4 : w_socks w4 !! s = Some ks) by (rewrite Es4; apply lookup_insert_eq).
  assert (Hb4 : w_buvs w4 !! b = Some (Some (new_buv b s))) by (rewrite Eb4; cbn; rewrite Eb2; apply lookup_insert_eq).
  destruct (bind_effect s ks b (new_buv b s) (str "tcp") echo_uri_rest (VTcp (str "127.0.0.1") (str "8777"))
    w4 Hs4 Hk4 (watched_ready _ _ _ _ Hs4 Hk4 eq_refl) eq_refl Hb4 (Hmal _) (Hmal _))
    as (e & w5 & E & Hs5 & Hd5); [decide_by_run|done|decide_by_run|exact echo_uri_reference|].
  apply (runs_step _ _ _ _ _ _ E). clear E. destruct Hd5 as (Es5 & (addr & Eb5) & _ & _ & Hn5).
  assert (Hk5 : ∃ k, w_socks w5 !! s = Some k ∧ s_watcher k = Some (echo_server_watcher s) ∧
    s_backend k = Some (Some b)).
  { rewrite Es5, lookup_insert_eq. by eexists. }
  destruct Hk5 as (k5 & Hk5 & Ew5 & Ebk5). apply runs_bind. unfold sc_socket_listen.
  apply (runs_step _ _ _ _ _ _ (the_backend_ok buv_funcs w5 (sf_backend w5 Hs5))).
  apply (runs_step _ _ _ _ _ _ (sock_backend_obj_ok s k5 b w5 Hk5 Ebk5)).
  eapply runs_ok; [done|]. apply HQ; [by apply (safe_same w5)|]. split.
  - intros a k1 Hk1. cbn in Hk1. rewrite Es5, Es4 in Hk1. cbn in Hk1. rewrite Es2, Es1 in Hk1.
    rewrite !insert_insert_eq in Hk1. by apply lookup_insert_Some in Hk1 as [[<- _]|[_ ?]].
  - by exists k5.
  - eexists k5, b, _. split; [done|]. split; [done|]. split; [cbn; rewrite Eb5; apply lookup_insert_eq|done].
  - apply (stray_socks w5); [done|done|]. apply Hn5; [done|]. apply Hn4. by apply (stray_socks w2), Hn2.
Qed.

Lemma echo_start_runs loop : runs (echo_start loop) world0 (λ _ w, safe w ∧ echo_inv w).
Proof.
  unfold echo_start.
  change (str "tcp://127.0.0.1:8777") with (str "tcp" ++ ":"%char :: echo_uri_rest).
  eapply runs_step; [done|].
  destruct (init_effect loop (set_app (set_objs (<[echo_at := AEcho (EchoGlobals None None)]> ∅) app_state0) world0))
    as (w1 & E & Hs1 & Hn1 & _ & Es1 & _); [done..|].
  apply (runs_step _ _ _ _ _ _ E). clear E.
  apply (echo_server_runs w1); [done..|]. clear w1 Hs1 Es1 Hn1.
  intros s w Hs [Hso (ks & Hks & Ews) Hb Hn].
  destruct (new_effect w Hs (Hmal _) (Hmal _)) as (w2 & E & Hs2 & Es2 & Eb2 & _ & _ & Hn2).
  apply (runs_step _ _ _ _ _ _ E). clear E. set (c := w_next w) in *.
  assert (Hne : s ≠ c) by (intros ->; by rewrite (sf_new_sock w Hs c (le_n _)) in Hks).
  eapply runs_step; [done|]. set (w3 := set_app _ w2).
  assert (Hs3 : safe w3) by by apply safe_put_echo.
  apply (runs_step _ _ _ _ _ _ (demand_some _ c w3)).
  assert (Hk3 : w_socks w3 !! c = Some (new_sock c (S c))) by (cbn; rewrite Es2; apply lookup_insert_eq).
  destruct (watcher_effect c (λ t, Watcher (w_socket t) (on_connect t) (on_connection t)
      (on_accept t) (CbUser CB_echo_on_recv) (on_send t) (on_close t)) _ _ w3 Hs3 Hk3
      (watched_ready _ _ _ _ Hs3 Hk3 eq_refl) eq_refl) as (w4 & E & Hs4 & Es4 & Eb4 & _ & Ea4 & Hn4).
  { intros wt (? & ? & ? & ? & ? & ?). by split; [split_and!|]. }
  eapply runs_ok; [exact E|]. split; [done|]. exists s, c.
  assert (Es : w_socks w4 = <[c := with_watcher (Some (echo_client_watcher c)) (new_sock c (S c))]> (w_socks w)).
  { rewrite Es4. cbn. by rewrite Es2, insert_insert_eq. }
  split; [done|..].
  - intros a k. rewrite Es. intros [[<- _]|[_ Ha]]%lookup_insert_Some; [by right|left; by eapply Hso].
  - exists ks. by rewrite Es, lookup_insert_ne.
  - eexists. by rewrite Es, lookup_insert_eq.
  - rewrite Ea4. apply lookup_insert_eq.
  - destruct Hb as (k & b & v & Hk & Eb & Hb & Hp). exists k, b, v. rewrite Es, lookup_insert_ne by done.
    split_and!; try done. rewrite Eb4. cbn. rewrite Eb2, lookup_insert_ne; [done|].
    intros <-. rewrite (sf_new_buv w Hs) in Hb; [done|unfold c; lia].
  - apply Hn4. apply (stray_socks w2); [done|done|]. by apply Hn2.
Qed.

(** ** The end of [main] *)

Lemma echo_end_runs w :
  safe w → echo_inv w →
  runs echo_end w (λ _ w', safe w' ∧ w_socks w' = ∅ ∧ w_buvs w' = ∅ ∧ w_uris w' = ∅).
Proof.
  intros Hs (s & c & He). unfold echo_end.
  apply (runs_step _ _ _ _ _ _ (get_echo_ok s c w He)). cbn [echo_server].
  apply (runs_step _ _ _ _ _ _ (demand_some _ s w)).
  destruct (eo_server _ _ _ He) as (ks & Hks & Ews), (eo_client _ _ _ He) as (kc & Hkc & Ewc).
  destruct (watched_del s ks _ w Hs Hks Ews) as (w1 & E & Hs1 & Es1 & _ & Ea1 & Hn1).
  apply (runs_step _ _ _ _ _ _ E). clear E. cbn [echo_client].
  apply (runs_step _ _ _ _ _ _ (demand_some _ c w1)).
  assert (Hkc1 : w_socks w1 !! c = Some kc) by (rewrite Es1, lookup_delete_ne; [done|apply (eo_ne _ _ _ He)]).
  destruct (watched_del c kc _ w1 Hs1 Hkc1 Ewc) as (w2 & E & Hs2 & Es2 & _ & Ea2 & Hn2).
  eapply runs_ok; [exact E|]. clear E.
  assert (Ho : ∀ x k, w_socks w !! x = Some k → x = c ∨ x = s).
  { intros x k Hk. destruct (eo_socks _ _ _ He x k Hk); auto. }
  pose proof (two_sockets_gone _ _ _ _ _ Ho Es1 Es2) as Es.
  destruct (nothing_left w2 Hs2 (Hn2 (Hn1 (eo_uris _ _ _ He))) Es). done.
Qed.

(** How [main] ends. *)
Definition echo_ended (r : Z) (w : world) : Prop :=
  r = 0 ∧ w_socks w = ∅ ∧ w_buvs w = ∅ ∧ w_uris w = ∅.

(** C6. The echo server, from the start of [main] to its end: with memory to
    be had, whatever libuv answers and whatever callbacks it makes, in any
    order and number, as long as it keeps its promises and messages fit
    ([legal_events]), the program makes no memory error and fails no
    assertion.  It ends by [fatal] when a connection or a read fails; when the
    event loop ends instead, [main] returns 0 and has given back every socket,
    backend socket and URI. *)
Theorem echo_main_safe loop es e :
  (∀ w, echo_start loop world0 = Ok (tt, w) → legal_events es w) →
  runs (echo_main (events es;; mret e) loop) world0 echo_ended.
Proof.
  intros Hes. unfold echo_main. apply (runs_seq _ _ _ _ _ (echo_start_runs loop)).
  intros [] w E Hw. specialize (Hes w E).
  apply runs_bind, runs_bind. eapply runs_weaken; [|exact (events_sound echo_inv es w Hw Hes)].
  intros _ w1 [Hs1 Hi1]. apply runs_ret, runs_bind.
  eapply runs_weaken; [|by apply echo_end_runs]. intros _ w2 (_ & ? & ? & ?). by apply runs_ret.
Qed.
End echo.

(** ** A run with a client that sends a message and hangs up *)
Section echo_safe_demo.
#[local] Existing Instances demo_env echo_app.

(** A connection; the size field, in two reads, and the text of a message; the
    end of the stream; the two sockets are closed. *)
Definition echo_events : list uv_event :=
  [EvConnection 2 0;
   EvAlloc 5 16; EvFill (Ptr 6 FSize 0) (be_bytes 2); EvRead 5 4;
   EvAlloc 5 16; EvFill (Ptr 6 FData 0) (text "hi"); EvRead 5 2;
   EvAlloc 5 16; EvRead 5 (uv_code EOF);
   EvClose 5; EvClose 2].

Definition echo_state (n : nat) : world :=
  match (echo_start 0;; events (take n echo_events)) world0 with Ok (_, w) => w | Fault _ => world0 end.

(** What it prints. *)
Lemma echo_prints_hi : a_out (w_app (echo_state 11)) = text "hi
".
Proof. vm_compute. reflexivity. Qed.

Ltac step_legal n :=
  apply (may_cons _ _ _ _ _ (echo_state n)); [legal_tac|vm_compute; reflexivity|].

Lemma echo_events_legal : legal_events echo_events (echo_state 0).
Proof.
  step_legal 1%nat.
  step_legal 2%nat. step_legal 3%nat. step_legal 4%nat. step_legal 5%nat. step_legal 6%nat.
  step_legal 7%nat. step_legal 8%nat. step_legal 9%nat. step_legal 10%nat. step_legal 11%nat.
  exact I.
Qed.

Lemma echo_main_safe_witness :
  runs (echo_main (events echo_events;; mret 0) 0) world0 echo_ended.
Proof.
  apply echo_main_safe; [done|]. intros w E.
  assert (w = echo_state 0) as ->; [|exact echo_events_legal].
  vm_compute in E. injection E as <-. vm_compute. reflexivity.
Defined.
End echo_safe_demo.
