(* ===== verification/ServerSafe.v ===== *)
(** * The test server never faults

    The whole program of test/server.c: [main] from its arguments, any run of
    the event loop, with connections, messages, signals and the shutdown in any
    order, and the end of [main]. *)

From S2P Require Import Prelude Endian CString Strerror Msg MsgReader Uri AppData World.
From S2P Require Import Watcher Demo Backend BackendUv Conn Frame Recv Socket SocketUv Owner Dial.
From S2P Require Import Lifecycle Sc System Safety SafeApi SafeRun TestApp TestServer TestRecv.
From Stdlib Require Import Ascii.

Definition server_watcher (s : nat) : watcher :=
  Watcher s CbNoop (CbUser CB_server_on_connection) CbNoop (CbUser CB_server_on_recv) CbNoop
    (CbUser CB_server_on_close).
Definition client_watcher (c : nat) : watcher :=
  Watcher c CbNoop CbNoop (CbUser CB_client_on_accept) (CbUser CB_client_on_recv) CbNoop
    (CbUser CB_client_on_close).

(** The state of the program while the event loop runs: its server is at [a],
    listening on [s], with the socket [c] for its client. *)
Record server_ok (a s c : nat) (w : world) : Prop := {
  so_ne : s ≠ c;
  so_socks x k : w_socks w !! x = Some k → x = s ∨ x = c;
  so_server : owned_by a s (server_watcher s) w;
  so_client : owned_by a c (client_watcher c) w;
  so_obj : ∃ loop act t, a_objs (w_app w) !! a =
    Some (AServer (Server loop (Some s) (Some a) (Some c) (Some act) (Some t)));
  so_bound : bound w s;
  so_quiet : ¬ read_started w s;
  so_uris : no_stray w
}.
Definition server_inv (a : nat) (w : world) : Prop := ∃ s c, server_ok a s c w.

Lemma server_ok_internal X a s c w w' :
  (∀ k b, w_socks w !! s = Some k → s_backend k = Some (Some b) → ¬ X b) →
  internal_but X w w' → server_ok a s c w → server_ok a s c w'.
Proof.
  intros HX [Es Eu Ea Hb _ Hr] [E1 E2 E3 E4 E5 E6 E7 E8].
  split; rewrite ?Es, ?Ea; try done.
  - by apply (owned_by_socks _ _ _ w).
  - by apply (owned_by_socks _ _ _ w).
  - by apply Hb.
  - intros (k & b & Hk & Ek & Hrd). apply E7. exists k, b. rewrite Es in Hk.
    split_and!; try done. apply Hr; [by eapply HX|done].
  - apply (stray_socks w); [done| |done]. intros x u. unfold owns. by rewrite Es.
Qed.

Lemma server_ok_closed a s c x w w' : closed_at x w w' → server_ok a s c w → server_ok a s c w'.
Proof.
  intros Hc [E1 E2 E3 E4 E5 E6 E7 E8].
  split; rewrite ?(cl_app _ _ _ Hc); try done.
  - intros y ky Hy. destruct (cl_only _ _ _ Hc y ltac:(by exists ky)) as [k Hk]. by eapply E2.
  - by eapply owned_by_closed.
  - by eapply owned_by_closed.
  - by eapply closed_bound.
  - destruct E3 as (k & Hk & _). intros Hr. by eapply E7, closed_not_reading.
  - by apply (cl_uris _ _ _ Hc).
Qed.

(** Changes to the program's own state. *)
Lemma server_ok_app a s c x w :
  server_ok a s c w →
  (∃ loop act t, a_objs x !! a = Some (AServer (Server loop (Some s) (Some a) (Some c) (Some act) (Some t)))) →
  server_ok a s c (set_app x w).
Proof. intros [E1 E2 E3 E4 E5 E6 E7 E8] Hx. by split. Qed.

Section server.
Context `{Env}.

Section callbacks.
Context `{App} (a s c : nat).
Implicit Types (Q : unit → world → Prop).

(** What a callback leaves: the invariants, and every backend socket. *)
Definition left_ok (w w' : world) : Prop :=
  safe w' ∧ server_ok a s c w' ∧ w_buvs w' = w_buvs w.

Lemma left_refl w : safe w → server_ok a s c w → left_ok w w.
Proof. done. Qed.

Lemma close_socket_left x w : safe w → server_ok a s c w → x = s ∨ x = c →
  runs (close_socket x) w (λ _, left_ok w).
Proof.
  intros Hs Ho Hx.
  assert (∃ wt, owned_by a x wt w) as (wt & k & Hk & Ew & _).
  { destruct Hx as [->| ->]; eexists; [apply (so_server _ _ _ _ Ho)|apply (so_client _ _ _ _ Ho)]. }
  destruct (watched_close x k wt w Hs Hk Ew) as (w' & E & Hc). unfold close_socket.
  apply (runs_step _ _ _ _ _ _ E). rewrite decide_False by lia. apply runs_ret.
  split; [apply Hc|]. split; [by eapply server_ok_closed|apply Hc].
Qed.

Lemma userdata_left x wt w : owned_by a x wt w → userdata_obj x w = Ok (a, w).
Proof. intros (k & Hk & _ & Ed). by apply (userdata_obj_ok x k). Qed.

Lemma update_left f w :
  safe w → server_ok a s c w →
  (∀ loop act t, ∃ act' t', f (Server loop (Some s) (Some a) (Some c) (Some act) (Some t)) =
    Server loop (Some s) (Some a) (Some c) (Some act') (Some t')) →
  runs (update_server a f) w (λ _, left_ok w).
Proof.
  intros Hs Ho Hf. destruct (so_obj _ _ _ _ Ho) as (loop & act & t & Eo).
  destruct (Hf loop act t) as (act' & t' & Ef).
  eapply runs_ok; [by apply update_server_ok|]. split; [by apply (safe_same w)|]. split; [|done].
  apply server_ok_app; [done|]. exists loop, act', t'. cbn. by rewrite lookup_insert_eq, Ef.
Qed.

Lemma close_if_terminating_left w :
  safe w → server_ok a s c w → runs (close_if_terminating a) w (λ _, left_ok w).
Proof.
  intros Hs Ho. destruct (so_obj _ _ _ _ Ho) as (loop & act & t & Eo). unfold close_if_terminating, member.
  apply (runs_step _ _ _ _ _ _ (get_server_ok _ _ _ Eo)), (runs_step _ _ _ _ _ _ (demand_some _ a w)).
  apply (runs_step _ _ _ _ _ _ (get_server_ok _ _ _ Eo)), (runs_step _ _ _ _ _ _ (demand_some _ t w)).
  case_decide; [|by apply runs_ret].
  apply (runs_step _ _ _ _ _ _ (demand_some _ c w)). by apply close_socket_left; [..|right].
Qed.

(** One callback step after another. *)
Lemma left_bind (m k : M unit) w :
  runs m w (λ _, left_ok w) →
  (∀ w', safe w' → server_ok a s c w' → runs k w' (λ _, left_ok w')) →
  runs (m;; k) w (λ _, left_ok w).
Proof.
  intros Hm Hk. apply runs_bind. eapply runs_weaken; [|exact Hm]. intros _ w' (Hs' & Ho' & Eb).
  eapply runs_weaken; [|by apply Hk]. intros _ w'' (? & ? & ?). split; [done|]. split; [done|congruence].
Qed.

Lemma uv_left cl w :
  safe w → server_ok a s c w → (∀ b, cl ≠ UvReadStart b) → left_ok w (add_uv cl w).
Proof.
  intros Hs Ho Hc. split; [by apply safe_add_uv|]. split; [|done].
  apply (server_ok_internal (λ _, False) a s c w); [by intros ? ? _ _ []|apply internal_same; try done|done].
  cbn. intros b _ [?|E%list_elem_of_singleton]%elem_of_app; [done|]. by destruct (Hc b).
Qed.

Lemma client_on_accept_left e w :
  safe w → server_ok a s c w → runs (client_on_accept c e) w (λ _, left_ok w).
Proof.
  intros Hs Ho. unfold client_on_accept. case_decide; [done|].
  apply (runs_step _ _ _ _ _ _ (userdata_left c _ w (so_client _ _ _ _ Ho))).
  apply left_bind; [|apply close_if_terminating_left].
  apply update_left; [done|done|]. intros loop act t. by exists true, t.
Qed.

Lemma client_on_recv_left m e w :
  safe w → server_ok a s c w →
  match m with
  | Some m => ∃ mv p, w_msgs w !! m = Some mv ∧ payload mv = Ok (Some <$> p) ∧ Z.of_nat (length p) < 2 ^ 31
  | None => True
  end →
  runs (client_on_recv c m e) w (λ _, left_ok w).
Proof.
  intros Hs Ho Hm. unfold client_on_recv. case_decide; [done|].
  apply (runs_step _ _ _ _ _ _ (userdata_left c _ w (so_client _ _ _ _ Ho))).
  destruct m as [m|].
  - destruct Hm as (mv & p & Hmv & Hp & Hl).
    apply left_bind; [|apply close_if_terminating_left]. unfold print_msg. eapply runs_step.
    { apply (msg_text_ok c (Some m) 0 p w); [|done]. unfold event_payload. cbn [deref_msg].
      by rewrite Hmv; osimpl; rewrite Hp. }
    eapply runs_ok; [done|]. split; [by apply (safe_same w)|]. split; [|done].
    apply server_ok_app, (so_obj _ _ _ _ Ho). done.
  - destruct (so_obj _ _ _ _ Ho) as (loop & act & t & Eo). unfold member.
    apply (runs_step _ _ _ _ _ _ (get_server_ok _ _ _ Eo)), (runs_step _ _ _ _ _ _ (demand_some _ c w)).
    by apply close_socket_left; [..|right].
Qed.

Lemma client_on_close_left w :
  safe w → server_ok a s c w → runs (client_on_close c) w (λ _, left_ok w).
Proof.
  intros Hs Ho. unfold client_on_close.
  apply (runs_step _ _ _ _ _ _ (userdata_left c _ w (so_client _ _ _ _ Ho))).
  apply update_left; [done|done|]. intros loop act t. by exists false, t.
Qed.

Lemma server_on_close_left w :
  safe w → server_ok a s c w → runs (server_on_close s) w (λ _, left_ok w).
Proof.
  intros Hs Ho. unfold server_on_close.
  apply (runs_step _ _ _ _ _ _ (userdata_left s _ w (so_server _ _ _ _ Ho))).
  apply left_bind; [eapply runs_ok; [done|by apply uv_left]|].
  intros w' Hs' Ho'. eapply runs_ok; [done|by apply uv_left].
Qed.

(** The handles of the program. *)
Lemma async_cb_left w : safe w → server_ok a s c w → runs (async_cb a) w (λ _, left_ok w).
Proof.
  intros Hs Ho. unfold async_cb. apply left_bind.
  - apply update_left; [done|done|]. intros loop act t. by exists act, CLIENT.
  - intros w' Hs' Ho'. eapply runs_ok; [done|by apply uv_left].
Qed.

Lemma signal_cb_left n w :
  n = SIGTERM ∨ n = SIGINT → safe w → server_ok a s c w → runs (signal_cb a n) w (λ _, left_ok w).
Proof.
  intros Hn Hs Ho. destruct (so_obj _ _ _ _ Ho) as (loop & act & t & Eo).
  unfold signal_cb, assert_signal, member. rewrite bool_decide_eq_true_2 by done.
  apply (runs_step _ _ _ _ _ _ (assert_that_true w)), (runs_step _ _ _ _ _ _ (get_server_ok _ _ _ Eo)).
  apply (runs_step _ _ _ _ _ _ (demand_some _ t w)). case_decide; [by apply runs_ret|].
  by apply handle_call_runs, uv_left.
Qed.

Lemma idle_cb_left w : safe w → server_ok a s c w → runs (idle_cb a) w (λ _, left_ok w).
Proof.
  intros Hs Ho. destruct (so_obj _ _ _ _ Ho) as (loop & act & t & Eo). unfold idle_cb, member.
  apply (runs_step _ _ _ _ _ _ (get_server_ok _ _ _ Eo)), (runs_step _ _ _ _ _ _ (demand_some _ act w)).
  apply (runs_step _ _ _ _ _ _ (demand_some _ t w)). case_decide; [|case_decide; [|by apply runs_ret]].
  - apply update_left; [done|done|]. intros loop' act' t'. by exists act', SERVER.
  - apply left_bind; [eapply runs_ok; [done|by apply uv_left]|]. intros w' Hs' Ho'.
    apply (runs_step _ _ _ _ _ _ (demand_some _ s w')). by apply close_socket_left; [..|left].
Qed.
End callbacks.

(** ** The program as an application of the library *)
Section app.
Context (n a : nat).

Lemma server_ok_obs s c o w : server_ok a s c w → server_ok a s c (add_obs o w).
Proof.
  apply (server_ok_internal (λ _, False)); [by intros ? ? _ _ []|by apply internal_same].
Qed.

(** The [on_accept] of the client is called from inside [on_connection]. *)
Lemma call_on_accept_client s c b e w :
  safe w → server_ok a s c w →
  (∃ k, w_socks w !! c = Some k ∧ s_backend k = Some (Some b)) →
  runs (call_on_accept (H0 := server_app (S n)) b e) w (λ _, left_ok a s c w).
Proof.
  intros Hs Ho (k & Hk & Eb). destruct (backend_owner w c k b Hs Hk Eb) as (v & Hb & Hv).
  destruct (so_client _ _ _ _ Ho) as (k' & Hk' & Ew & _). rewrite Hk in Hk'. injection Hk' as <-.
  unfold call_on_accept. apply (runs_step _ _ _ _ _ _ (get_buv_ok _ _ _ Hb)). rewrite Hv.
  unfold watcher_call. apply (runs_step _ _ _ _ _ _ (get_sock_ok _ _ _ Hk)). rewrite Ew.
  apply (runs_step _ _ _ _ _ _ (demand_some _ _ w)). cbn [fire client_watcher on_accept w_socket].
  apply (runs_step _ _ _ _ _ _ (gets_ok _ w)). eapply runs_step; [done|].
  exact (client_on_accept_left (H0 := server_app n) a s c e (add_obs _ w) ltac:(by apply (safe_same w))
    ltac:(by apply server_ok_obs)).
Qed.

Lemma server_connection s c e w :
  safe w → server_ok a s c w →
  runs (server_on_connection (H0 := server_app (S n)) s e) w (λ _ w', safe w' ∧ server_ok a s c w').
Proof.
  intros Hs Ho. unfold server_on_connection, member. case_decide; [done|].
  apply (runs_step _ _ _ _ _ _ (userdata_left a s _ w (so_server _ _ _ _ Ho))).
  destruct (so_obj _ _ _ _ Ho) as (loop & act & t & Eo).
  apply (runs_step _ _ _ _ _ _ (get_server_ok _ _ _ Eo)), (runs_step _ _ _ _ _ _ (demand_some _ t w)).
  case_decide; [by apply runs_ret|]. apply (runs_step _ _ _ _ _ _ (demand_some _ c w)).
  destruct (so_client _ _ _ _ Ho) as (kc & Hkc & Ewc & _).
  pose proof (watched_ready _ _ _ _ Hs Hkc Ewc) as (d & b & u & wt & v & Ek & _ & _ & Hb & Hv).
  assert (Ekb : s_backend kc = Some (Some b)) by by subst kc.
  apply (accept_runs (H0 := server_app (S n)) s c kc b w (λ w', safe w' ∧ server_ok a s c w')
    Hs Hkc Ekb (so_bound _ _ _ _ Ho)).
  intros e' w' (Hs' & Hi & _). assert (Ho' : server_ok a s c w').
  { apply (server_ok_internal (λ b0, b0 = b) a s c w w'); [|exact Hi|done]. intros k b' Hk Ek' ->.
    destruct (backend_owner w s k b Hs Hk Ek') as (v' & Hb' & Hv').
    apply (so_ne _ _ _ _ Ho). congruence. }
  eapply runs_weaken; [|apply (call_on_accept_client s c); [done|done|]].
  - by intros _ w'' (? & ? & _).
  - exists kc. by rewrite (in_socks _ _ _ Hi).
Qed.

#[export] Instance server_safe : AppSafe (H0 := server_app (S (S n))) (server_inv a).
Proof.
  split.
  { intros w w' Hi (s & c & Ho). exists s, c.
    by apply (server_ok_internal (λ _, False) a s c w); [intros ? ? _ _ []|..]. }
  intros f ev w Hs (s & c & Ho) [Hu Hm] (k & wt & Hk & Ew & Ef).
  assert (Hleft : ∀ m : M unit, runs m w (λ _, left_ok a s c w) →
    runs m w (λ _ w', safe w' ∧ server_inv a w' ∧ leaves_reader ev w w')).
  { intros m Hm'. eapply runs_weaken; [|exact Hm']. intros _ w' (Hs' & Ho' & Eb).
    split; [done|]. split; [by exists s, c|]. destruct ev; try done. cbn. intros k' b' Hk' Eb'.
    destruct (backend_owner w _ k' b' Hs Hk' Eb') as (v & Hv & _). unfold alive. rewrite Eb. by eexists. }
  destruct (so_socks _ _ _ _ Ho _ _ Hk) as [Ea|Ea]; rewrite Ea in Hk.
  - destruct (so_server _ _ _ _ Ho) as (k' & Hk' & Ew' & _). rewrite Hk in Hk'. injection Hk' as <-.
    rewrite Ew in Ew'. injection Ew' as ->.
    destruct ev as [|s' e| |s' m e| |s']; cbn in Ef; try done; injection Ef as <-; cbn in Ea; subst s'.
    + eapply runs_weaken; [|exact (server_connection s c e w Hs Ho)]. intros _ w' [? ?].
      split; [done|]. split; [by exists s, c|done].
    + destruct Hm as [Hrd _]. by destruct (so_quiet _ _ _ _ Ho).
    + by apply Hleft, server_on_close_left.
  - destruct (so_client _ _ _ _ Ho) as (k' & Hk' & Ew' & _). rewrite Hk in Hk'. injection Hk' as <-.
    rewrite Ew in Ew'. injection Ew' as ->.
    destruct ev as [| |s' e|s' m e| |s']; cbn in Ef; try done; injection Ef as <-; cbn in Ea; subst s'.
    + by apply Hleft, client_on_accept_left.
    + apply Hleft, client_on_recv_left; [done|done|]. apply Hm.
    + by apply Hleft, (client_on_close_left a s).
Qed.
End app.

(** ** The start of [main] *)
Section start.
Context `{App} (a : nat).
Implicit Types (v : server).

Lemma update_server_step {A} g v (rest : M A) m bs h s k w Q :
  has_obj a (AServer v) w → building m bs h s k w →
  (∀ w', has_obj a (AServer (g v)) w' → building m bs h s k w' → runs rest w' Q) →
  runs (update_server a g;; rest) w Q.
Proof.
  intros Hv Hb HQ. apply (runs_step _ _ _ _ _ _ (update_server_ok a g v w Hv)), HQ;
    [apply put_server_at|by apply building_app].
Qed.

Lemma server_init_runs loop w :
  safe w → no_stray w → has_obj a (AServer (Server loop None None None None None)) w →
  runs (server_init a) w (λ _ w', adds_socket a (w_next w) (server_watcher (w_next w))
    (AServer (Server loop (Some (w_next w)) None None None (Some NOTSET))) w w').
Proof.
  intros Hs Hn Hv. unfold server_init, async_init, signal_init, idle_init.
  do 3 (first [apply runs_bind, handle_call_runs|apply runs_bind, runs_bind, handle_call_runs, handle_call_runs]).
  apply runs_bind, runs_bind, handle_call_runs, handle_call_runs.
  set (w1 := add_uv _ _). assert (Hs1 : safe w1) by by repeat apply safe_add_uv.
  apply runs_bind, (new_socket_runs w1 _ Hs1 Hn). change (w_next w1) with (w_next w).
  intros w2 Hb Ea. assert (Hv2 : has_obj a (AServer (Server loop None None None None None)) w2)
    by (unfold has_obj; by rewrite Ea).
  do 5 setup_step update_server_step Hv2 Hb.
  eapply runs_ok; [by apply update_server_ok|]. split; [|apply put_server_at].
  by apply building_app.
Qed.

Lemma client_init_runs loop s t w :
  safe w → no_stray w → has_obj a (AServer (Server loop (Some s) None None None (Some t))) w →
  runs (client_init a) w (λ _ w', adds_socket a (w_next w) (client_watcher (w_next w))
    (AServer (Server loop (Some s) (Some a) (Some (w_next w)) (Some false) (Some t))) w w').
Proof.
  intros Hs Hn Hv. unfold client_init.
  apply (runs_step _ _ _ _ _ _ (update_server_ok a (with_clt_server a) _ w Hv)).
  set (w1 := put_server _ _ _). assert (Hs1 : safe w1) by by apply (safe_same w).
  apply runs_bind, (new_socket_runs w1 _ Hs1 Hn). change (w_next w1) with (w_next w).
  intros w2 Hb Ea. assert (Hv2 : has_obj a (AServer (Server loop (Some s) (Some a) None None (Some t))) w2)
    by (unfold has_obj; rewrite Ea; apply put_server_at).
  do 5 setup_step update_server_step Hv2 Hb.
  eapply runs_ok; [by apply update_server_ok|]. split; [|apply put_server_at].
  by apply building_app.
Qed.

(** The two sockets, before the server is bound. *)
Record unbound (s c : nat) (w : world) : Prop := {
  ub_safe : safe w;
  ub_ne : s ≠ c;
  ub_socks : w_socks w = <[c := set_up a c (client_watcher c)]> {[s := set_up a s (server_watcher s)]};
  ub_buv : ∃ vb, w_buvs w !! S s = Some (Some vb);
  ub_uris : no_stray w;
  ub_obj : ∃ loop, has_obj a (AServer (Server loop (Some s) (Some a) (Some c) (Some false) (Some NOTSET))) w
}.

Lemma bind_and_listen_runs s c uri w :
  good_uri uri → unbound s c w →
  runs (server_bind_and_listen a uri) w (λ _ w', safe w' ∧
    ((∀ b, UvReadStart b ∉ w_uv w') → server_ok a s c w')).
Proof.
  intros Huri [Hs Hne Eso (v & Hb) Hn (loop & Ho)]. unfold server_bind_and_listen, member.
  apply (runs_step _ _ _ _ _ _ (get_server_ok _ _ _ Ho)), (runs_step _ _ _ _ _ _ (demand_some _ s w)).
  set (ks := set_up a s (server_watcher s)) in *.
  assert (Hks : w_socks w !! s = Some ks) by by rewrite Eso, lookup_insert_ne, lookup_singleton_eq.
  destruct (bind_runs s ks (S s) v uri w Hs Hks (watched_ready _ _ _ _ Hs Hks eq_refl) eq_refl Hb eq_refl Huri Hn)
    as (e & w1 & E & (Hs1 & Hn1 & (u & Es1) & Ea1 & _ & _) & Hbd). apply (runs_step _ _ _ _ _ _ E). clear E.
  case_decide as He; [done|]. specialize (Hbd He).
  assert (Hk1 : w_socks w1 !! s = Some (with_uri (Some u) ks)) by (rewrite Es1; apply lookup_insert_eq).
  apply runs_bind. unfold sc_socket_listen.
  apply (runs_step _ _ _ _ _ _ (the_backend_ok buv_funcs w1 (sf_backend w1 Hs1))).
  apply (runs_step _ _ _ _ _ _ (sock_backend_obj_ok s _ (S s) w1 Hk1 eq_refl)).
  eapply runs_ok; [done|]. case_decide; [done|]. apply runs_ret.
  split; [by apply safe_add_uv|]. intros Hq. split; try done.
  - intros x k Hx. cbn in Hx. rewrite Es1, Eso in Hx.
    apply lookup_insert_Some in Hx as [[<- _]|[_ Hx]]; [by left|].
    apply lookup_insert_Some in Hx as [[<- _]|[_ Hx]]; [by right|].
    by apply lookup_singleton_Some in Hx as [<- _]; left.
  - by exists (with_uri (Some u) ks).
  - exists (set_up a c (client_watcher c)). cbn. by rewrite Es1, lookup_insert_ne, Eso, lookup_insert_eq.
  - exists loop, false, NOTSET. cbn. by rewrite Ea1.
  - intros (k & b & _ & _ & Hrd). by eapply Hq.
Qed.
End start.

Lemma server_start_runs `{App} loop uri :
  good_uri uri →
  runs (server_start loop uri) world0 (λ a w, a = 1%nat ∧ safe w ∧
    ((∀ b, UvReadStart b ∉ w_uv w) → server_inv 1 w)).
Proof.
  intros Huri. unfold server_start, server_new. apply runs_bind, runs_bind.
  destruct (malloc_ok (w_mallocs world0)) eqn:M.
  2: { eapply runs_ok; [by apply malloc_failure|done]. }
  eapply runs_ok; [by apply malloc_success|]. apply runs_ret. set (w1 := set_app _ _).
  destruct (init_effect loop w1) as (w2 & E & Hs2 & Hn2 & En & Es2 & Eb2 & _ & Ea2); [done..|].
  apply (runs_step _ _ _ _ _ _ E). clear E. change (w_next world0) with 1%nat in *.
  assert (Hv2 : has_obj 1 (AServer (Server loop None None None None None)) w2).
  { unfold has_obj. rewrite Ea2. apply lookup_insert_eq. }
  apply runs_bind. eapply runs_weaken; [|exact (server_init_runs 1 loop w2 Hs2 Hn2 Hv2)].
  intros _ w3 [[Hs3 Es3 Eb3 _ Hn3] Hv3]. set (s := w_next w2) in *.
  apply runs_bind. eapply runs_weaken; [|exact (client_init_runs 1 loop s NOTSET w3 Hs3 Hn3 Hv3)].
  intros _ w4 [[Hs4 Es4 Eb4 _ Hn4] Hv4]. set (c := w_next w3) in *.
  assert (Hne : s ≠ c).
  { intros Esc. pose proof (sf_new_sock w3 Hs3 c (le_n _)) as Hc. by rewrite Es3, Esc, lookup_insert_eq in Hc. }
  assert (Hu : unbound 1 s c w4).
  { split; try done.
    - by rewrite Es4, Es3, Es2.
    - exists (new_buv (S s) s). rewrite Eb4, Eb3, lookup_insert_ne by congruence. apply lookup_insert_eq.
    - by exists loop. }
  apply runs_bind. eapply runs_weaken; [|exact (bind_and_listen_runs 1 s c uri w4 Huri Hu)].
  intros _ w5 [Hs5 Ho5]. apply runs_ret. split; [done|]. split; [done|]. intros Hq.
  exists s, c. by apply Ho5.
Qed.

(** Nothing is read yet. *)
Lemma server_start_no_read `{App} loop uri : only_calls not_read_start (server_start loop uri).
Proof.
  unfold only_calls, server_start, server_new, sc_init, server_init, client_init.
  unfold server_bind_and_listen, new_socket, sc_socket_new, sc_socket_bind, sc_socket_listen.
  repeat first
    [ apply (moves_the_backend buv_funcs)
    | solve [eauto with moves typeclass_instances]
    | apply moves_bind; [apply _| |intros ?]
    | case_decide | case_match ].
  all: cbn [be_free buv_funcs buv_free]; try solve [eauto with moves typeclass_instances].
  apply moves_modify. intros w. by apply adds_one_call.
Qed.

(** ** The end of [main] *)
Lemma server_del_runs `{App} a w :
  safe w → server_inv a w →
  runs (server_del a) w (λ _ w', w_socks w' = ∅ ∧ w_buvs w' = ∅ ∧ w_uris w' = ∅ ∧
    a_objs (w_app w') = delete a (a_objs (w_app w))).
Proof.
  intros Hs (s & c & Ho). destruct (so_obj _ _ _ _ Ho) as (loop & act & t & Eo). unfold server_del, member.
  apply (runs_step _ _ _ _ _ _ (get_server_ok _ _ _ Eo)), (runs_step _ _ _ _ _ _ (demand_some _ c w)).
  destruct (so_server _ _ _ _ Ho) as (ks & Hks & Ews & _), (so_client _ _ _ _ Ho) as (kc & Hkc & Ewc & _).
  destruct (watched_del c kc _ w Hs Hkc Ewc) as (w1 & E & Hs1 & Es1 & _ & Ea1 & Hn1).
  apply (runs_step _ _ _ _ _ _ E). clear E. apply (runs_step _ _ _ _ _ _ (demand_some _ s w1)).
  assert (Hks1 : w_socks w1 !! s = Some ks).
  { rewrite Es1, lookup_delete_ne; [done|]. by intros ->; apply (so_ne _ _ _ _ Ho). }
  destruct (watched_del s ks _ w1 Hs1 Hks1 Ews) as (w2 & E & Hs2 & Es2 & _ & Ea2 & Hn2).
  apply (runs_step _ _ _ _ _ _ E). clear E.
  pose proof (two_sockets_gone _ _ _ _ _ (so_socks _ _ _ _ Ho) Es1 Es2) as Es.
  destruct (nothing_left w2 Hs2 (Hn2 (Hn1 (so_uris _ _ _ _ Ho))) Es) as [Eb Eu].
  unfold free_obj. apply (runs_step _ _ _ _ _ _ (gets_ok _ w2)). rewrite Ea2, Ea1, Eo.
  apply (runs_step _ _ _ _ _ _ (demand_some _ _ w2)). eapply runs_ok; [done|]. cbn.
  by rewrite Ea2, Ea1.
Qed.
End server.

(** ** The whole program *)

(** What the event loop handles: callbacks of the library's handles, and of
    the program's own. *)
Inductive server_event :=
  | SvLibrary (e : uv_event)
  | SvAsync
  | SvSignal (signum : Z)
  | SvIdle.

Section main.
Context `{Env} (n : nat).
#[local] Instance server_inst3 : App := server_app (S (S n)).

Definition server_event_run (a : nat) (e : server_event) : M unit :=
  match e with
  | SvLibrary e => event e
  | SvAsync => async_cb a
  | SvSignal signum => signal_cb a signum
  | SvIdle => idle_cb a
  end.

(** libuv reports the signals it was asked to. *)
Definition server_event_may (e : server_event) (w : world) : Prop :=
  match e with
  | SvLibrary e => legal_event e w
  | SvSignal signum => signum = SIGTERM ∨ signum = SIGINT
  | _ => True
  end.

Lemma server_event_sound a e w :
  sound (server_inv a) w → server_event_may e w →
  runs (server_event_run a e) w (λ _, sound (server_inv a)).
Proof.
  intros [Hs (s & c & Ho)] He.
  assert (Hleft : ∀ m : M unit, runs m w (λ _, left_ok a s c w) → runs m w (λ _, sound (server_inv a))).
  { intros m. apply runs_weaken. intros _ w' (Hs' & Ho' & _). split; [done|by exists s, c]. }
  destruct e as [e| |signum|]; cbn [server_event_run server_event_may] in *.
  - apply (event_sound (server_inv a)); [split; [done|by exists s, c]|done].
  - by apply Hleft, async_cb_left.
  - by apply Hleft, signal_cb_left.
  - by apply Hleft, idle_cb_left.
Qed.

(** C4. The test server, from the arguments of [main] to its end, with a URI
    that does not crash the parser ([good_uri]): whatever libuv answers, and
    whatever callbacks it makes, on connections, messages, signals and the
    idle handle, in any order and number, as long as it keeps its promises,
    messages fit, and there is memory for a message that arrives
    ([legal_event]), the program makes no memory error and fails no assertion.
    For everything else that it allocates [malloc] may answer what it likes:
    the program ends by [fatal] when something it needs is refused; when the
    event loop ends instead, [main] returns 0 and has given back every socket,
    backend socket and URI, and its own structure. *)
Theorem server_main_safe fopen es e1 e2 loop prog uri file :
  good_uri uri →
  (∀ w, server_start loop uri world0 = Ok (1%nat, w) →
    may_all (server_event_run 1) server_event_may es w) →
  runs (server_main fopen (handle_all (server_event_run 1) es;; mret e1) (mret e2) loop [prog; uri; file])
    world0 (λ r w, r = 0 ∧ w_socks w = ∅ ∧ w_buvs w = ∅ ∧ w_uris w = ∅ ∧ a_objs (w_app w) !! 1%nat = None).
Proof.
  intros Huri Hes. unfold server_main, server_parse_args, fatal_unless_zero.
  apply runs_bind. destruct (fopen file); [|done]. apply runs_ret.
  apply (runs_seq _ _ _ _ _ (runs_moves _ _ _ _ (server_start_no_read loop uri) (server_start_runs loop uri Huri))).
  intros a w E [(-> & Hs & Hinv) (made & Eu & Hmade)]. specialize (Hes w E).
  assert (Hw : sound (server_inv 1) w).
  { split; [done|]. apply Hinv. intros b Hb. rewrite Eu in Hb.
    by apply (proj1 (Forall_forall _ _) Hmade (UvReadStart b)). }
  apply runs_bind, runs_bind, runs_bind. eapply runs_weaken;
    [|apply (handle_all_keeps _ _ _ es w (server_event_sound 1) Hw Hes)].
  intros _ w1 [Hs1 Hi1]. apply runs_ret. case_decide; [done|]. apply runs_ret.
  apply runs_bind, runs_bind, runs_ret. case_decide; [done|]. apply runs_ret.
  apply runs_bind. eapply runs_weaken; [|by apply server_del_runs].
  intros _ w2 (Es & Eb & Eur & Eo). apply runs_ret. split_and!; try done. rewrite Eo. apply lookup_delete_eq.
Qed.
End main.

(** ** A client, a message, and a shutdown *)
Section server_demo.
#[local] Existing Instance demo_env.
#[local] Instance server_inst4 : App := server_app 2.

(** A connection, a message in three reads, a signal, the end of the stream,
    and the steps of the shutdown. *)
Definition server_run : list server_event :=
  (SvLibrary <$> [EvConnection 3 0;
    EvAlloc 5 16; EvFill (Ptr 7 FSize 0) (be_bytes 2); EvRead 5 4;
    EvAlloc 5 16; EvFill (Ptr 7 FData 0) (text "h"); EvRead 5 1;
    EvAlloc 5 16; EvFill (Ptr 7 FData 1) (text "i"); EvRead 5 1]) ++
  [SvSignal SIGTERM; SvAsync; SvIdle; SvLibrary (EvRead 5 (uv_code EOF)); SvLibrary (EvClose 5);
   SvIdle; SvIdle; SvLibrary (EvClose 3)].
Definition server_uri : cbuf := str "tcp://127.0.0.1:8765".

Definition server_state (k : nat) : world :=
  match (server_start 0 server_uri;; handle_all (server_event_run 0 1) (take k server_run)) world0 with
  | Ok (_, w) => w
  | Fault _ => world0
  end.

(** What it prints. *)
Lemma server_prints_hi : a_out (w_app (server_state 18)) = text "[2](hi)
".
Proof. vm_compute. reflexivity. Qed.

Ltac step_server k :=
  apply (may_cons _ _ _ _ _ (server_state k));
  [cbn [server_event_may]; first [exact I|by left|legal_tac]|vm_compute; reflexivity|].

Lemma server_run_legal : may_all (server_event_run 0 1) server_event_may server_run (server_state 0).
Proof.
  step_server 1%nat. step_server 2%nat. step_server 3%nat. step_server 4%nat. step_server 5%nat.
  step_server 6%nat. step_server 7%nat. step_server 8%nat. step_server 9%nat. step_server 10%nat.
  step_server 11%nat. step_server 12%nat. step_server 13%nat. step_server 14%nat. step_server 15%nat.
  step_server 16%nat. step_server 17%nat. step_server 18%nat. exact I.
Qed.

Lemma server_main_safe_witness :
  runs (server_main (λ _, true) (handle_all (server_event_run 0 1) server_run;; mret 0) (mret 0) 0
      [str "server"; server_uri; str "out"]) world0
    (λ r w, r = 0 ∧ w_socks w = ∅ ∧ w_buvs w = ∅ ∧ w_uris w = ∅ ∧ a_objs (w_app w) !! 1%nat = None).
Proof.
  apply server_main_safe.
  - exists (str "tcp"), (str "//127.0.0.1:8765"). split; [reflexivity|].
    split_and!; [decide_by_run|done|decide_by_run|vm_compute; discriminate].
  - intros w E. assert (w = server_state 0) as ->; [|exact server_run_legal].
    vm_compute in E. injection E as <-. vm_compute. reflexivity.
Defined.
End server_demo.
