(* ===== verification/ClientSafe.v ===== *)
(** * The test client never faults

    The whole program of test/client.c, whatever is in its input file. *)

From S2P Require Import Prelude Endian CString Strerror Msg MsgReader Uri AppData World.
From S2P Require Import Watcher Demo Backend BackendUv Conn Frame Recv Send Socket SocketUv Owner.
From S2P Require Import Dial Lifecycle Sc System Safety SafeApi SafeRun TestApp TestClient.
From Stdlib Require Import Ascii.

Definition line_watcher (s : nat) : watcher :=
  Watcher s (CbUser CB_on_connect) CbNoop CbNoop (CbUser CB_on_recv) (CbUser CB_on_send)
    (CbUser CB_on_close).

(** The state of the program while the event loop runs: its client is at [a],
    connected by the socket [s], with the buffer [m]. *)
Record client_ok (a s m : nat) (w : world) : Prop := {
  co_socks x k : w_socks w !! x = Some k → x = s;
  co_socket : owned_by a s (line_watcher s) w;
  co_obj : ∃ loop t eof ready,
    has_obj a (AClient (Client (Some loop) (Some m) (Some s) (Some t) (Some eof) (Some ready))) w;
  co_msg : ∃ mv, w_msgs w !! m = Some mv ∧ length (data mv) = MSG_MAX_SIZE;
  co_apart : apart w m;
  co_uris : no_stray w
}.
Definition client_inv (a m : nat) (w : world) : Prop := ∃ s, client_ok a s m w.

Lemma client_ok_internal X a s m w w' : internal_but X w w' → client_ok a s m w → client_ok a s m w'.
Proof.
  intros Hi [E1 E2 E3 (mv & Hm & Hl) E5 E6]. destruct (in_apart _ _ _ Hi m mv Hm E5) as [Hm' Ha'].
  destruct Hi as [Es Eu Ea _ _ _]. split; unfold has_obj; rewrite ?Es, ?Ea; try done.
  - by apply (owned_by_socks _ _ _ w).
  - by exists mv.
  - apply (stray_socks w); [done| |done]. intros x u. unfold owns. by rewrite Es.
Qed.

Lemma client_ok_closed a s m x w w' : closed_at x w w' → client_ok a s m w → client_ok a s m w'.
Proof.
  intros Hc [E1 E2 E3 E4 E5 E6]. split; unfold has_obj; rewrite ?(cl_app _ _ _ Hc), ?(cl_msgs _ _ _ Hc); try done.
  - intros y ky Hy. destruct (cl_only _ _ _ Hc y ltac:(by exists ky)) as [k Hk]. by eapply E1.
  - by eapply owned_by_closed.
  - intros b v. rewrite (cl_buvs _ _ _ Hc). apply E5.
  - by apply (cl_uris _ _ _ Hc).
Qed.

Lemma client_ok_app a s m x w :
  client_ok a s m w →
  (∃ loop t eof ready, a_objs x !! a =
    Some (AClient (Client (Some loop) (Some m) (Some s) (Some t) (Some eof) (Some ready)))) →
  client_ok a s m (set_app x w).
Proof. intros [E1 E2 E3 E4 E5 E6] Hx. by split. Qed.

(** The buffer is written. *)
Lemma client_ok_put a s m mv w :
  client_ok a s m w → length (data mv) = MSG_MAX_SIZE →
  client_ok a s m (set_msgs (<[m := mv]> (w_msgs w)) w).
Proof.
  intros [E1 E2 E3 E4 E5 E6] Hl. split; try done. exists mv. split; [apply lookup_insert_eq|done].
Qed.

(** The buffer has room for what [fgets] reads. *)
Lemma fgets_take_length k inp l r e : fgets_take k inp = (l, r, e) → (length l ≤ k)%nat.
Proof.
  revert inp l r e. induction k as [|k IH]; intros inp l r e; cbn; [intros [= <- _ _]; cbn; lia|].
  destruct inp as [|b inp]; [intros [= <- _ _]; cbn; lia|].
  case_decide; [intros [= <- _ _]; cbn; lia|].
  destruct (fgets_take k inp) as [[l' r'] e'] eqn:E. intros [= <- _ _]. apply IH in E. cbn. lia.
Qed.

(** A null byte ends what [strlen] counts. *)
Lemma strlen_bytes_runs l rest :
  ∃ n, strlen_bytes ((Some <$> l ++ [x00]) ++ rest) = Ok n ∧ (n ≤ length l)%nat.
Proof.
  induction l as [|b l (n & E & Hn)]; [by exists 0%nat|]. cbn. case_decide; [exists 0%nat; split; [done|lia]|].
  cbn in E. rewrite E. exists (S n). split; [done|lia].
Qed.

Lemma feof_ok w : feof w = Ok (a_eof (w_app w), w).
Proof. done. Qed.

Section client.
Context `{Env}.

Section callbacks.
Context `{App} (a s m : nat).

(** What a step of the program leaves. *)
Definition kept (w' : world) : Prop := safe w' ∧ client_ok a s m w'.
Definition client_left (w w' : world) : Prop := kept w' ∧ w_buvs w' = w_buvs w.

Lemma client_close_left w : kept w → runs (close_socket s) w (λ _, client_left w).
Proof.
  intros [Hs Ho]. destruct (co_socket _ _ _ _ Ho) as (k & Hk & Ew & _).
  destruct (watched_close s k _ w Hs Hk Ew) as (w' & E & Hc). unfold close_socket.
  apply (runs_step _ _ _ _ _ _ E). rewrite decide_False by lia. apply runs_ret.
  split; [split; [apply Hc|by eapply client_ok_closed]|apply Hc].
Qed.

Lemma client_userdata w : client_ok a s m w → userdata_client s w = Ok (a, w).
Proof.
  intros Ho. destruct (co_socket _ _ _ _ Ho) as (k & Hk & _ & Ed).
  unfold userdata_client, sc_socket_get_userdata, mbind, st_bind.
  rewrite (get_sock_ok _ _ _ Hk), Ed. cbn. by rewrite Nat2Z.id.
Qed.

(** Assignments to the flags of the client. *)
Definition flags_only (f : client → client) : Prop :=
  ∀ loop t eof ready, ∃ t' eof' ready', f (Client (Some loop) (Some m) (Some s) (Some t) (Some eof) (Some ready)) =
    Client (Some loop) (Some m) (Some s) (Some t') (Some eof') (Some ready').

Lemma client_update_left f w : flags_only f → kept w → runs (update_client a f) w (λ _, client_left w).
Proof.
  intros Hf [Hs Ho]. destruct (co_obj _ _ _ _ Ho) as (loop & t & eof & ready & Eo).
  destruct (Hf loop t eof ready) as (t' & eof' & ready' & Ef).
  eapply runs_ok; [by apply update_client_ok|]. split; [|done]. split; [by apply (safe_same w)|].
  apply client_ok_app; [done|]. exists loop, t', eof', ready'. cbn. by rewrite lookup_insert_eq, Ef.
Qed.

Lemma flags_terminate b : flags_only (with_terminate b).
Proof. intros loop t eof ready. by exists b, eof, ready. Qed.
Lemma flags_input_eof b : flags_only (with_input_eof b).
Proof. intros loop t eof ready. by exists t, b, ready. Qed.
Lemma flags_ready_send b : flags_only (with_ready_send b).
Proof. intros loop t eof ready. by exists t, eof, b. Qed.

Lemma client_uv_left cl w : (∀ b, cl ≠ UvReadStart b) → kept w → client_left w (add_uv cl w).
Proof.
  intros Hc [Hs Ho]. split; [|done]. split; [by apply safe_add_uv|].
  apply (client_ok_internal (λ _, False) a s m w); [apply internal_same; try done|done].
  cbn. intros b _ [?|E%list_elem_of_singleton]%elem_of_app; [done|]. by destruct (Hc b).
Qed.

Lemma on_connect_keeps e w : kept w → runs (on_connect s e) w (λ _, client_left w).
Proof.
  intros Hk. unfold on_connect. case_decide; [done|].
  apply (runs_step _ _ _ _ _ _ (client_userdata w (proj2 Hk))). by apply client_update_left; [apply flags_ready_send|].
Qed.

Lemma on_send_keeps e w : kept w → runs (on_send s e) w (λ _, client_left w).
Proof.
  intros Hk. unfold on_send. case_decide; [done|].
  apply (runs_step _ _ _ _ _ _ (client_userdata w (proj2 Hk))). by apply client_update_left; [apply flags_ready_send|].
Qed.

Lemma on_recv_keeps x e w : kept w → runs (on_recv s x e) w (λ _, client_left w).
Proof.
  intros Hk. unfold on_recv, member. case_decide; [done|]. destruct x as [x|]; [by apply runs_ret|].
  apply (runs_step _ _ _ _ _ _ (client_userdata w (proj2 Hk))).
  destruct (co_obj _ _ _ _ (proj2 Hk)) as (loop & t & eof & ready & Eo).
  apply (runs_step _ _ _ _ _ _ (get_client_ok _ _ _ Eo)), (runs_step _ _ _ _ _ _ (demand_some _ s w)).
  by apply client_close_left.
Qed.

Lemma on_close_keeps w : kept w → runs (on_close s) w (λ _, client_left w).
Proof.
  intros Hk. unfold on_close. apply (runs_step _ _ _ _ _ _ (client_userdata w (proj2 Hk))).
  eapply runs_step; [done|]. eapply runs_ok; [done|].
  destruct (client_uv_left (UvHandleClose (HSigterm a)) w ltac:(done) Hk) as [Hk1 _].
  destruct (client_uv_left (UvHandleClose (HSigint a)) _ ltac:(done) Hk1) as [Hk2 _]. by split.
Qed.

(** The handles of the program. *)
Lemma client_async_cb_keeps w : kept w → runs (client_async_cb a) w (λ _, kept).
Proof.
  intros Hk. unfold client_async_cb. apply runs_bind.
  eapply runs_weaken; [|by apply client_update_left; [apply flags_terminate|]].
  intros _ w' [Hk' _]. eapply runs_ok; [done|by apply client_uv_left].
Qed.

Lemma client_signal_cb_keeps n w :
  n = SIGTERM ∨ n = SIGINT → kept w → runs (client_signal_cb a n) w (λ _, kept).
Proof.
  intros Hn Hk. destruct (co_obj _ _ _ _ (proj2 Hk)) as (loop & t & eof & ready & Eo).
  unfold client_signal_cb, assert_signal, member. rewrite bool_decide_eq_true_2 by done.
  apply (runs_step _ _ _ _ _ _ (assert_that_true w)), (runs_step _ _ _ _ _ _ (get_client_ok _ _ _ Eo)).
  apply (runs_step _ _ _ _ _ _ (demand_some _ t w)). destruct t; [by apply runs_ret|].
  by apply handle_call_runs, client_uv_left.
Qed.

Lemma kept_put mv w :
  kept w → length (data mv) = MSG_MAX_SIZE → kept (set_msgs (<[m := mv]> (w_msgs w)) w).
Proof.
  intros [Hs Ho] Hl. split; [|by apply client_ok_put]. apply (safe_put_msg m (Some mv) w Hs (co_apart _ _ _ _ Ho)).
  destruct (co_msg _ _ _ _ Ho) as (mv' & Hm & _). destruct (decide (m < w_next w)%nat); [done|].
  by rewrite (sf_new_msg w Hs) in Hm by lia.
Qed.

Lemma fgets_runs w (Q : bool → world → Prop) :
  kept w →
  (∀ w', kept w' → Q false w') →
  (∀ w' msg l, kept w' → length (data (filled_buffer msg l)) = MSG_MAX_SIZE →
    w_msgs w' !! m = Some (filled_buffer msg l) → Q true w') →
  runs (fgets (Some m)) w Q.
Proof.
  intros Hk Hno Hyes. destruct (fgets_take (MSG_MAX_SIZE - 1) (a_in (w_app w))) as [[l r] e] eqn:Et.
  pose proof (fgets_take_length _ _ _ _ _ Et) as Hl.
  assert (Hk1 : kept (set_app (set_input r (a_eof (w_app w) || e) (w_app w)) w)).
  { destruct Hk as [Hs Ho]. split; [by apply (safe_same w)|]. apply client_ok_app, (co_obj _ _ _ _ Ho). done. }
  destruct (decide (l = [])) as [->|Hne].
  - unfold fgets. eapply runs_step; [apply gets_ok|]. rewrite Et.
    eapply runs_step; [apply modify_ok|]. rewrite decide_True by done. by apply runs_ret, Hno.
  - destruct (co_msg _ _ _ _ (proj2 Hk)) as (msg & Hm & Hd).
    assert (Hroom : (length l < length (data msg))%nat) by (rewrite Hd; unfold MSG_MAX_SIZE in *; lia).
    assert (Hfull : length (data (filled_buffer msg l)) = MSG_MAX_SIZE).
    { cbn. rewrite length_app, length_fmap, length_drop, length_app. cbn. lia. }
    eapply runs_ok; [by apply (fgets_ok m msg l r e w)|].
    apply (Hyes _ msg l); [by apply (kept_put _ _ Hk1)|done|]. apply lookup_insert_eq.
Qed.

(** The buffer becomes a message that can be sent. *)
Lemma msg_setup_runs msg l w (Q : unit → world → Prop) :
  kept w → length (data (filled_buffer msg l)) = MSG_MAX_SIZE →
  w_msgs w !! m = Some (filled_buffer msg l) →
  (∀ w', kept w' → sendable w' (Some m) → Q tt w') →
  runs (msg_setup (Some m)) w Q.
Proof.
  intros Hk Hd Hm HQ. destruct (strlen_bytes_runs l (drop (length l + 1) (data msg))) as (n & En & _).
  unfold msg_setup. apply (runs_step _ _ _ _ _ _ (get_msg_ok m _ w Hm)).
  apply (runs_step _ _ _ _ _ _ (lift_ok _ _ w En)), (runs_step _ _ _ _ _ _ (demand_some _ m w)).
  eapply runs_ok; [done|]. apply HQ; [by apply kept_put|].
  eexists m, _, _. split; [done|]. split; [apply lookup_insert_eq|]. apply set_size_wire.
Qed.

Lemma client_idle_cb_keeps w : kept w → runs (client_idle_cb a) w (λ _, kept).
Proof.
  intros Hk. destruct (co_obj _ _ _ _ (proj2 Hk)) as (loop & t & eof & ready & Eo).
  unfold client_idle_cb, member. apply (runs_step _ _ _ _ _ _ (get_client_ok _ _ _ Eo)).
  apply (runs_step _ _ _ _ _ _ (demand_some _ t w)). destruct t.
  { eapply runs_step; [done|]. eapply runs_step; [done|].
    eapply runs_weaken; [|apply client_close_left, client_uv_left; done]. by intros _ w' []. }
  apply (runs_step _ _ _ _ _ _ (demand_some _ eof w)). eapply (runs_step _ _ _ (if eof then false else ready) w).
  { by destruct eof. }
  destruct (if eof then false else ready); [|by apply runs_ret].
  apply runs_bind, fgets_runs; [done| |].
  - intros w1 Hk1. apply (runs_step _ _ _ _ _ _ (feof_ok w1)), runs_bind.
    eapply runs_weaken; [|by apply client_update_left; [apply flags_input_eof|]].
    intros _ w2 [Hk2 _]. case_match; [done|]. by apply handle_call_runs, client_uv_left.
  - intros w1 msg l Hk1 Hd Hm. apply runs_bind, (msg_setup_runs msg l); [done..|]. intros w2 Hk2 Hsend.
    apply (runs_step _ _ _ _ _ _ (demand_some _ s w2)).
    destruct (co_socket _ _ _ _ (proj2 Hk2)) as (k & Hsk & Ew & _).
    pose proof (watched_ready _ _ _ _ (proj1 Hk2) Hsk Ew) as Hr.
    destruct (send_effect s k m w2 (proj1 Hk2) Hsk Hr Hsend) as (e & w3 & E & Hs3 & Hi).
    apply (runs_step _ _ _ _ _ _ E). case_decide; [done|].
    apply runs_bind. eapply runs_weaken; [|apply client_update_left; [apply flags_ready_send|]].
    2: { split; [done|]. apply (client_ok_internal _ _ _ _ _ _ Hi), Hk2. }
    intros _ w4 [Hk4 _]. apply (runs_step _ _ _ _ _ _ (feof_ok w4)).
    eapply runs_weaken; [|by apply client_update_left; [apply flags_input_eof|]]. by intros _ w5 [].
Qed.
End callbacks.
End client.

(** ** The program as an application of the library *)
Section client_app.
Context `{Env} (m0 a m : nat).

#[export] Instance client_safe : AppSafe (H0 := client_app m0) (client_inv a m).
Proof.
  split.
  { intros w w' Hi (s & Ho). exists s. by eapply client_ok_internal. }
  intros f ev w Hs (s & Ho) [Hu Hm] (k & wt & Hk & Ew & Ef).
  assert (Hleft : ∀ p : M unit, runs p w (λ _, client_left a s m w) →
    runs p w (λ _ w', safe w' ∧ client_inv a m w' ∧ leaves_reader ev w w')).
  { intros p. apply runs_weaken. intros _ w' [[Hs' Ho'] Eb]. split; [done|]. split; [by exists s|].
    destruct ev; try done. cbn. intros k' b' Hk' Eb'.
    destruct (backend_owner w _ k' b' Hs Hk' Eb') as (v & Hv & _). unfold alive. rewrite Eb. by eexists. }
  pose proof (co_socks _ _ _ _ Ho _ _ Hk) as Ea. rewrite Ea in Hk.
  destruct (co_socket _ _ _ _ Ho) as (k' & Hk' & Ew' & _). rewrite Hk in Hk'. injection Hk' as <-.
  rewrite Ew in Ew'. injection Ew' as ->.
  destruct ev as [s' e| | |s' x e|s' e|s']; cbn in Ef; try done; injection Ef as <-; cbn in Ea; subst s'; apply Hleft.
  - by apply on_connect_keeps.
  - by apply on_recv_keeps.
  - by apply on_send_keeps.
  - by apply on_close_keeps.
Qed.
End client_app.

(** ** The start of [main] *)
Section start.
Context `{Env} `{App} (a : nat).
Implicit Types (v : client).

Lemma update_client_step {A} g v (rest : M A) m bs h s k w Q :
  has_obj a (AClient v) w → building m bs h s k w →
  (∀ w', has_obj a (AClient (g v)) w' → building m bs h s k w' → runs rest w' Q) →
  runs (update_client a g;; rest) w Q.
Proof.
  intros Hv Hb HQ. apply (runs_step _ _ _ _ _ _ (update_client_ok a g v w Hv)), HQ;
    [apply lookup_insert_eq|by apply building_app].
Qed.

Lemma test_client_init_runs loop m w :
  safe w → no_stray w → has_obj a (AClient (Client (Some loop) (Some m) None None None None)) w →
  runs (client_init a) w (λ _ w', adds_socket a (w_next w) (line_watcher (w_next w))
    (AClient (Client (Some loop) (Some m) (Some (w_next w)) (Some false) (Some false) (Some false))) w w').
Proof.
  intros Hs Hn Hv. unfold client_init, client_async_init, client_signal_init, client_idle_init.
  do 3 (first [apply runs_bind, handle_call_runs|apply runs_bind, runs_bind, handle_call_runs, handle_call_runs]).
  apply runs_bind, runs_bind, handle_call_runs, handle_call_runs.
  set (w1 := add_uv _ _). assert (Hs1 : safe w1) by by repeat apply safe_add_uv.
  apply runs_bind, (new_socket_runs w1 _ Hs1 Hn). change (w_next w1) with (w_next w).
  intros w2 Hb Ea. assert (Hv2 : has_obj a (AClient (Client (Some loop) (Some m) None None None None)) w2)
    by (unfold has_obj; by rewrite Ea).
  do 8 setup_step update_client_step Hv2 Hb.
  eapply runs_ok; [by apply update_client_ok|]. split; [|apply lookup_insert_eq].
  by apply building_app.
Qed.

(** The client connects: from here on the library may call it. *)
Lemma client_connect_runs s m uri w :
  good_uri uri → safe w → no_stray w →
  w_socks w = <[s := set_up a s (line_watcher s)]> ∅ →
  (∃ vb, w_buvs w !! S s = Some (Some vb)) →
  (∃ loop t eof ready, has_obj a
    (AClient (Client (Some loop) (Some m) (Some s) (Some t) (Some eof) (Some ready))) w) →
  (∃ mv, w_msgs w !! m = Some mv ∧ length (data mv) = MSG_MAX_SIZE) → apart w m →
  runs (client_connect a uri) w (λ _, kept a s m).
Proof.
  intros Huri Hs Hn Eso (vb & Hb) (loop & t & eof & ready & Ho) Hm Ha. unfold client_connect, member.
  apply (runs_step _ _ _ _ _ _ (get_client_ok _ _ _ Ho)), (runs_step _ _ _ _ _ _ (demand_some _ s w)).
  set (k := set_up a s (line_watcher s)) in *.
  assert (Hk : w_socks w !! s = Some k) by (rewrite Eso; apply lookup_insert_eq).
  destruct (connect_runs s k (S s) vb uri w Hs Hk (watched_ready _ _ _ _ Hs Hk eq_refl) eq_refl Hb eq_refl Huri Hn)
    as (e & w1 & E & Hd). apply (runs_step _ _ _ _ _ _ E). clear E.
  case_decide as He; [done|]. apply runs_ret.
  pose proof (dialed_apart _ _ _ _ _ _ _ _ Hb Hd Ha) as Ha1.
  destruct Hd as (Hs1 & Hn1 & (u & Es1) & Ea1 & Em1 & _). split; [done|].
  split; unfold has_obj; rewrite ?Ea1, ?Em1; try done.
  - intros x kx. rewrite Es1, Eso, insert_insert_eq. intros [[<- _]|[_ Hx]]%lookup_insert_Some; [done|].
    by rewrite lookup_empty in Hx.
  - exists (with_uri (Some u) k). rewrite Es1. split; [apply lookup_insert_eq|done].
  - by exists loop, t, eof, ready.
Qed.
End start.

Section main.
Context `{Env} (m0 : nat).
#[local] Instance client_inst2 : App := client_app m0.

(** What the program has before the library is initialised. *)
Definition client_alone (loop : Z) (w : world) : Prop :=
  w_socks w = ∅ ∧ w_buvs w = ∅ ∧ w_uris w = ∅ ∧ w_msg_alloc w = DefaultAlloc ∧ w_msg_free w = DefaultFree ∧
  w_msgs w = {[2%nat := fresh_msg (Z.of_nat MSG_MAX_SIZE)]} ∧ w_next w = 3%nat ∧
  has_obj 1 (AClient (Client (Some loop) (Some 2%nat) None None None None)) w.

(** [sc_msg_alloc] writes to the message before it is checked: it must be
    there. *)
Lemma client_new_runs loop x :
  malloc_ok 1 = true → runs (client_new loop) (set_app x world0) (λ a w, a = 1%nat ∧ client_alone loop w).
Proof.
  intros M1. unfold client_new. apply runs_bind.
  destruct (malloc_ok (w_mallocs (set_app x world0))) eqn:M0.
  2: { eapply runs_ok; [by apply malloc_failure|done]. }
  eapply runs_ok; [by apply malloc_success|]. set (w1 := set_app (set_objs _ _) _).
  set (w2 := set_msgs {[2%nat := fresh_msg (Z.of_nat MSG_MAX_SIZE)]} (set_next 3 (set_mallocs 2 w1))).
  apply (runs_step _ _ w1 (Some 2%nat) w2).
  { change (sc_msg_alloc (Z.of_nat MSG_MAX_SIZE) w1) with (default_heap_alloc (Z.of_nat MSG_MAX_SIZE) w1).
    unfold default_heap_alloc. by rewrite (st_bind_ok _ _ _ _ _ (malloc_success _ w1 M1)). }
  assert (H2 : has_obj 1 (AClient (Client None None None None None None)) w2) by apply lookup_insert_eq.
  apply (runs_step _ _ _ _ _ _ (update_client_ok 1 _ _ w2 H2)). set (w3 := put_client 1 _ w2).
  assert (H3 : has_obj 1 (AClient (Client None (Some 2%nat) None None None None)) w3) by apply lookup_insert_eq.
  apply (runs_step _ _ _ _ _ _ (update_client_ok 1 _ _ w3 H3)), runs_ret. split; [done|].
  split_and!; try done. apply lookup_insert_eq.
Qed.

Lemma client_start_runs loop uri x :
  malloc_ok 1 = true → good_uri uri →
  runs (client_start loop uri) (set_app x world0) (λ a w, a = 1%nat ∧ ∃ s, kept 1 s 2 w).
Proof.
  intros M1 Huri. unfold client_start. apply runs_bind.
  eapply runs_weaken; [|by apply client_new_runs]. intros a w1 (-> & Es & Eb & Eu & Ea & Ef & Em & En & Ho).
  destruct (init_effect loop w1) as (w2 & E & Hs2 & Hn2 & En2 & Es2 & Eb2 & Em2 & Ea2); [done..| |].
  { intros y Hy. rewrite Em. rewrite lookup_singleton_ne; [done|lia]. }
  apply (runs_step _ _ _ _ _ _ E). clear E. apply runs_bind.
  assert (Ho2 : has_obj 1 (AClient (Client (Some loop) (Some 2%nat) None None None None)) w2)
    by (unfold has_obj; by rewrite Ea2).
  eapply runs_weaken; [|exact (test_client_init_runs 1 loop 2 w2 Hs2 Hn2 Ho2)].
  intros _ w3 [[Hs3 Es3 Eb3 Em3 Hn3] Ho3]. apply runs_bind. set (s := w_next w2) in *.
  eapply runs_weaken; [|apply (client_connect_runs 1 s 2 uri w3 Huri Hs3 Hn3)].
  - intros ? w4 Hk. apply runs_ret. split; [done|by exists s].
  - by rewrite Es3, Es2.
  - exists (new_buv (S s) s). rewrite Eb3. apply lookup_insert_eq.
  - by eexists _, _, _, _.
  - eexists. rewrite Em3, Em2, Em. split; [apply lookup_singleton_eq|reflexivity].
  - intros b v. rewrite Eb3, Eb2. intros [[_ [= <-]]|[_ Hb]]%lookup_insert_Some; [done|].
    by rewrite lookup_empty in Hb.
Qed.

(** ** The end of [main] *)
Lemma client_del_runs a m w :
  safe w → client_inv a m w →
  runs (client_del a) w (λ _ w', w_socks w' = ∅ ∧ w_buvs w' = ∅ ∧ w_uris w' = ∅ ∧
    a_objs (w_app w') = delete a (a_objs (w_app w)) ∧ w_msgs w' = delete m (w_msgs w)).
Proof.
  intros Hs (s & Ho). destruct (co_obj _ _ _ _ Ho) as (loop & t & eof & ready & Eo). unfold client_del, member.
  apply (runs_step _ _ _ _ _ _ (get_client_ok _ _ _ Eo)), (runs_step _ _ _ _ _ _ (demand_some _ s w)).
  destruct (co_socket _ _ _ _ Ho) as (k & Hk & Ew & _), (co_msg _ _ _ _ Ho) as (mv & Hm & _).
  destruct (watched_del s k _ w Hs Hk Ew) as (w1 & E & Hs1 & Es1 & Em1 & Ea1 & Hn1).
  apply (runs_step _ _ _ _ _ _ E). clear E.
  pose proof (only_socket_gone _ _ _ (co_socks _ _ _ _ Ho) Es1) as Es.
  destruct (nothing_left w1 Hs1 (Hn1 (co_uris _ _ _ _ Ho)) Es) as [Eb Eu].
  apply (runs_step _ _ w1 tt (set_msgs (delete m (w_msgs w1)) w1)).
  { cbn [clt_msg]. unfold sc_msg_free. rewrite (st_bind_ok _ _ _ _ _ (gets_ok _ w1)), (sf_free w1 Hs1).
    unfold default_heap_free, free_msg. rewrite (st_bind_ok _ _ _ _ _ (gets_ok _ w1)), Em1, Hm. done. }
  set (w2 := set_msgs _ _). unfold free_obj. apply (runs_step _ _ _ _ _ _ (gets_ok _ w2)).
  cbn [w_app w2 set_msgs]. rewrite Ea1, Eo. apply (runs_step _ _ _ _ _ _ (demand_some _ _ w2)).
  eapply runs_ok; [done|]. cbn. by rewrite Ea1, Em1.
Qed.

(** ** The whole program *)

(** What the event loop handles: callbacks of the library's handles, and of
    the program's own. *)
Inductive client_event :=
  | ClLibrary (e : uv_event)
  | ClAsync
  | ClSignal (signum : Z)
  | ClIdle.

Definition client_event_run (a : nat) (e : client_event) : M unit :=
  match e with
  | ClLibrary e => event e
  | ClAsync => client_async_cb a
  | ClSignal signum => client_signal_cb a signum
  | ClIdle => client_idle_cb a
  end.

(** libuv reports the signals it was asked to. *)
Definition client_event_may (e : client_event) (w : world) : Prop :=
  match e with
  | ClLibrary e => legal_event e w
  | ClSignal signum => signum = SIGTERM ∨ signum = SIGINT
  | _ => True
  end.

Lemma client_event_sound a m e w :
  sound (client_inv a m) w → client_event_may e w →
  runs (client_event_run a e) w (λ _, sound (client_inv a m)).
Proof.
  intros [Hs (s & Ho)] He.
  assert (Hkeeps : ∀ p : M unit, runs p w (λ _, kept a s m) → runs p w (λ _, sound (client_inv a m))).
  { intros p. apply runs_weaken. intros _ w' [Hs' Ho']. split; [done|by exists s]. }
  destruct e as [e| |signum|]; cbn [client_event_run client_event_may] in *.
  - apply (event_sound (client_inv a m)); [split; [done|by exists s]|done].
  - by apply Hkeeps, client_async_cb_keeps.
  - by apply Hkeeps, client_signal_cb_keeps.
  - by apply Hkeeps, client_idle_cb_keeps.
Qed.

(** Without memory for its message, the client dies in the library. *)
Lemma client_message_starved fopen r c loop prog uri file inp :
  fopen file = Some inp → malloc_ok 0 = true → malloc_ok 1 = false →
  client_main fopen r c loop [prog; uri; file] world0 = Fault NullDeref.
Proof.
  intros Ef M0 M1. unfold client_main, client_parse_args. rewrite Ef.
  unfold client_start, client_new, sc_msg_alloc, default_heap_alloc, malloc. eval_world. rewrite M0.
  eval_world. by rewrite M1.
Qed.

(** C5. The test client, from the arguments of [main] to its end, whatever
    bytes are in its input file, null bytes and lines of any length included,
    with a URI that does not crash the parser: whatever libuv answers, and
    whatever callbacks it makes, on the connection, writes, signals and the
    idle handle, in any order and number, as long as it keeps its promises
    ([legal_event], with memory for a message that arrives), the program makes no memory error and fails no assertion.
    It ends by [fatal] when something it needs is refused, its structure, its
    socket and the memory of the URI among them; when the event loop ends
    instead, [main] returns 0 and has given back every socket, backend socket
    and URI, its message, and its own structure.  The one allocation that must
    not fail is that of its message: without it the client ends in a null
    dereference, as the library writes to the message before the client can
    look at it. *)
Theorem client_main_safe fopen es e1 e2 loop prog uri file :
  let main := client_main fopen (handle_all (client_event_run 1) es;; mret e1) (mret e2) loop [prog; uri; file] in
  (malloc_ok 1 = true → good_uri uri →
   (∀ inp w, fopen file = Some inp →
     client_start loop uri (set_app (set_input inp false (w_app world0)) world0) = Ok (1%nat, w) →
     may_all (client_event_run 1) client_event_may es w) →
   runs main world0 (λ r w, r = 0 ∧ w_socks w = ∅ ∧ w_buvs w = ∅ ∧ w_uris w = ∅ ∧
     w_msgs w !! 2%nat = None ∧ a_objs (w_app w) !! 1%nat = None)) ∧
  (is_Some (fopen file) → malloc_ok 0 = true → malloc_ok 1 = false → main world0 = Fault NullDeref).
Proof.
  intros main. split; [|intros [inp Ef]; by apply client_message_starved with inp].
  intros M1 Huri Hes. unfold main, client_main, client_parse_args, fatal_unless_zero.
  apply runs_bind. destruct (fopen file) as [inp|] eqn:Ef; [|done]. apply runs_ret.
  eapply runs_step; [apply modify_ok|]. set (x := set_input _ _ _).
  apply (runs_seq _ _ _ _ _ (client_start_runs loop uri x M1 Huri)).
  intros a w E (-> & s & Hs & Ho). specialize (Hes inp w eq_refl E).
  apply runs_bind, runs_bind, runs_bind. eapply runs_weaken;
    [|apply (handle_all_keeps _ _ _ es w (client_event_sound 1 2) ltac:(split; [done|by exists s]) Hes)].
  intros _ w1 [Hs1 Hi1]. apply runs_ret. case_decide; [done|]. apply runs_ret.
  apply runs_bind, runs_bind, runs_ret. case_decide; [done|]. apply runs_ret.
  apply runs_bind. eapply runs_weaken; [|by apply (client_del_runs 1 2)].
  intros _ w2 (Es & Eb & Eur & Eo & Em). apply runs_ret.
  split_and!; try done; rewrite ?Em, ?Eo; apply lookup_delete_eq.
Qed.
End main.

(** ** A file with a null byte *)
Section client_demo.
#[local] Existing Instance demo_env.
#[local] Instance client_inst3 : App := client_app 0.

(** The connection, two lines, the end of the file, and the shutdown. *)
Definition client_run : list client_event :=
  [ClLibrary (EvConnect 4 0); ClIdle; ClIdle; ClLibrary (EvWrite 4 0); ClIdle; ClLibrary (EvWrite 4 0);
   ClIdle; ClSignal SIGINT; ClAsync; ClIdle; ClLibrary (EvClose 4)].
Definition client_input : list byte := text "Hello" ++ [newline; x61; x00; newline].

Definition client_state (k : nat) : world :=
  match (client_start 0 (str "tcp://127.0.0.1:60721");; handle_all (client_event_run 0 1) (take k client_run))
    (set_app (set_input client_input false app_state0) world0) with
  | Ok (_, w) => w
  | Fault _ => world0
  end.

(** The two messages it has written. *)
Lemma client_run_writes :
  omap (λ c, match c with UvWrite b _ => Some b | _ => None end) (w_uv (client_state 11)) = [4; 4]%nat.
Proof. vm_compute. reflexivity. Qed.

Ltac step_client k :=
  apply (may_cons _ _ _ _ _ (client_state k));
  [cbn [client_event_may]; first [exact I|by right|legal_tac]|vm_compute; reflexivity|].

Lemma client_run_legal : may_all (client_event_run 0 1) client_event_may client_run (client_state 0).
Proof.
  step_client 1%nat. step_client 2%nat. step_client 3%nat. step_client 4%nat. step_client 5%nat.
  step_client 6%nat. step_client 7%nat. step_client 8%nat. step_client 9%nat. step_client 10%nat.
  step_client 11%nat. exact I.
Qed.

Lemma client_main_safe_witness :
  runs (client_main (λ _, Some client_input) (handle_all (client_event_run 0 1) client_run;; mret 0) (mret 0) 0
      [str "client"; str "tcp://127.0.0.1:60721"; str "in"]) world0
    (λ r w, r = 0 ∧ w_socks w = ∅ ∧ w_buvs w = ∅ ∧ w_uris w = ∅ ∧ w_msgs w !! 2%nat = None ∧
      a_objs (w_app w) !! 1%nat = None) ∧
  client_main (H := lean_env 1) (H0 := client_app (H := lean_env 1) 0) (λ _, Some client_input)
    (handle_all (client_event_run (H := lean_env 1) 0 1) client_run;; mret 0) (mret 0) 0
    [str "client"; str "tcp://127.0.0.1:60721"; str "in"] world0 = Fault NullDeref.
Proof.
  split; [|apply (client_main_safe (H := lean_env 1) 0 (λ _, Some client_input) client_run 0 0 0);
    [by eexists|reflexivity..]].
  apply (proj1 (client_main_safe 0 (λ _, Some client_input) client_run 0 0 0
    (str "client") (str "tcp://127.0.0.1:60721") (str "in"))); [reflexivity| |].
  - exists (str "tcp"), (str "//127.0.0.1:60721"). split; [reflexivity|].
    split_and!; [decide_by_run|done|decide_by_run|vm_compute; discriminate].
  - intros inp w [= <-] E. assert (w = client_state 0) as ->; [|exact client_run_legal].
    vm_compute in E. injection E as <-. vm_compute. reflexivity.
Defined.
End client_demo.
