(* ===== verification/HelloSafe.v ===== *)
(** * The greeter never faults

    The whole program of test/send_hello.c. *)

From S2P Require Import Prelude Endian CString Strerror Msg MsgReader Uri AppData World.
From S2P Require Import Watcher Demo Backend BackendUv Conn Frame Recv Send Socket SocketUv Owner.
From S2P Require Import Dial Lifecycle Sc System Safety SafeApi SafeRun TestApp TestClient.
From Stdlib Require Import Ascii.

Definition hello_watcher (s : nat) : watcher :=
  Watcher s (CbUser CB_hello_on_connect) CbNoop CbNoop CbNoop CbNoop CbNoop.

(** The message [hello] is a global of the program, at an address below those
    of the heap; it is never changed. *)
Definition hello_at : nat := 0.

Section hello_start.
Context `{Env}.

Definition hello_world : world := set_msgs {[hello_at := hello]} world0.

Record hello_ok (s : nat) (w : world) : Prop := {
  ho_socks x k : w_socks w !! x = Some k → x = s;
  ho_socket : ∃ k, w_socks w !! s = Some k ∧ s_watcher k = Some (hello_watcher s);
  ho_msg : w_msgs w !! hello_at = Some hello;
  ho_apart : apart w hello_at;
  ho_uris : no_stray w
}.

Lemma hello_ok_internal X s w w' : internal_but X w w' → hello_ok s w → hello_ok s w'.
Proof.
  intros Hi [E1 E2 E3 E4 E5]. destruct (in_apart _ _ _ Hi _ _ E3 E4) as [E3' E4'].
  destruct Hi as [Es Eu Ea _ _ _]. split; rewrite ?Es; try done.
  apply (stray_socks w); [done| |done]. intros x u. unfold owns. by rewrite Es.
Qed.

Lemma hello_sendable w : w_msgs w !! hello_at = Some hello → sendable w (Some hello_at).
Proof. intros Hm. by eexists hello_at, hello, _. Qed.

Lemma hello_on_connect_runs `{App} s e w :
  safe w → hello_ok s w → runs (hello_on_connect hello_at s e) w (λ _ w', safe w' ∧ hello_ok s w').
Proof.
  intros Hs Ho. unfold hello_on_connect. destruct (ho_socket _ _ Ho) as (k & Hk & Ew).
  destruct (send_effect s k hello_at w Hs Hk (watched_ready _ _ _ _ Hs Hk Ew)
    (hello_sendable w (ho_msg _ _ Ho))) as (r & w' & E & Hs' & Hi).
  apply (runs_step _ _ _ _ _ _ E), runs_ret. split; [done|by eapply hello_ok_internal].
Qed.

#[local] Instance hello_inst : App := client_app hello_at.

#[export] Instance hello_safe s : AppSafe (hello_ok s).
Proof.
  split; [intros w w' Hi Ho; by eapply hello_ok_internal|].
  intros f ev w Hs Ho _ (k & wt & Hk & Ew & Ef).
  pose proof (ho_socks _ _ Ho _ _ Hk) as Ea. rewrite Ea in Hk.
  destruct (ho_socket _ _ Ho) as (k' & Hk' & Ew'). rewrite Hk in Hk'. injection Hk' as <-.
  rewrite Ew in Ew'. injection Ew' as ->.
  destruct ev as [s' e| | | | |]; cbn in Ef; try done; injection Ef as <-; cbn in Ea; subst s'.
  eapply runs_weaken; [|exact (hello_on_connect_runs (H0 := no_nesting) s e w Hs Ho)].
  by intros _ w' [].
Qed.

(** [main] does not look at what [sc_socket_new] returns. *)
Context (M0 : malloc_ok 0 = true) (M1 : malloc_ok 1 = true).

Lemma hello_start_runs loop :
  runs (hello_start loop) hello_world (λ s w, safe w ∧ hello_ok s w).
Proof.
  unfold hello_start.
  destruct (init_effect loop hello_world) as (w1 & E & Hs1 & Hn1 & En1 & Es1 & Eb1 & Em1 & _); [done..| |].
  { intros a Ha. apply lookup_singleton_ne. cbn in Ha. unfold hello_at. lia. }
  assert (Emal : w_mallocs w1 = 0%nat).
  { unfold sc_init in E. rewrite decide_True in E by done. by injection E as <-. }
  apply (runs_step _ _ _ _ _ _ E). clear E.
  destruct (new_effect w1 Hs1 ltac:(by rewrite Emal) ltac:(by rewrite Emal))
    as (w2 & E & Hs2 & Es2 & Eb2 & Em2 & _ & Hn2).
  apply (runs_step _ _ _ _ _ _ E). clear E. set (s := w_next w1) in *.
  apply (runs_step _ _ _ _ _ _ (demand_some _ s w2)).
  apply (building_watcher (w_socks w1) (w_buvs w2) (w_msgs w2) s _ (new_sock s (S s)) (sc_watcher_init s)); [|done| |].
  { split; auto. }
  { intros ? (? & ? & ? & ? & ? & ?). by split; [split_and!|]. }
  intros w3 [Hs3 Es3 Eb3 Em3 Hn3] _. set (k := with_watcher _ _) in *.
  assert (Hk : w_socks w3 !! s = Some k) by (rewrite Es3; apply lookup_insert_eq).
  assert (Hb : w_buvs w3 !! S s = Some (Some (new_buv (S s) s))) by (rewrite Eb3, Eb2; apply lookup_insert_eq).
  assert (Huri : good_uri (str "tcp://127.0.0.1:8765")).
  { exists (str "tcp"), (str "//127.0.0.1:8765"). split; [reflexivity|].
    split_and!; [decide_by_run|done|decide_by_run|vm_compute; discriminate]. }
  destruct (connect_runs s k (S s) _ _ w3 Hs3 Hk (watched_ready _ _ _ _ Hs3 Hk eq_refl) eq_refl Hb eq_refl Huri Hn3)
    as (e & w4 & E & Hd). apply (runs_step _ _ _ _ _ _ E), runs_ret. clear E.
  assert (Ha : apart w3 hello_at).
  { intros b v. rewrite Eb3, Eb2, Eb1. intros [[_ [= <-]]|[_ Hv]]%lookup_insert_Some; [done|].
    by rewrite lookup_empty in Hv. }
  pose proof (dialed_apart _ _ _ _ _ _ _ _ Hb Hd Ha) as Ha4.
  destruct Hd as (Hs4 & Hn4 & (u & Es4) & _ & Em4 & _). split; [done|]. split; try done.
  - intros x kx. rewrite Es4, Es3, insert_insert_eq, Es1.
    intros [[<- _]|[_ Hx]]%lookup_insert_Some; [done|]. by rewrite lookup_empty in Hx.
  - exists (with_uri (Some u) k). rewrite Es4. split; [apply lookup_insert_eq|done].
  - rewrite Em4, Em3, Em2, Em1. apply lookup_singleton_eq.
Qed.

(** The greeter, from the start of [main] to its end, with memory for its
    socket, and whatever libuv does and answers, a connection that fails
    included: no memory error and no failed assertion, and nothing is left. *)
Theorem hello_main_safe loop es e :
  (∀ s w, hello_start loop hello_world = Ok (s, w) → legal_events es w) →
  runs (hello_main (events es;; mret e) loop) hello_world
    (λ r w, r = 0 ∧ w_socks w = ∅ ∧ w_buvs w = ∅ ∧ w_uris w = ∅).
Proof.
  intros Hes. unfold hello_main. apply (runs_seq _ _ _ _ _ (hello_start_runs loop)).
  intros s w E [Hs Ho]. specialize (Hes s w E).
  apply runs_bind, runs_bind.
  eapply runs_weaken; [|exact (events_sound (hello_ok s) es w (conj Hs Ho) Hes)].
  intros _ w1 [Hs1 Ho1]. apply runs_ret. destruct (ho_socket _ _ Ho1) as (k & Hk & Ew).
  destruct (watched_del s k _ w1 Hs1 Hk Ew) as (w2 & E2 & Hs2 & Es2 & _ & _ & Hn2).
  apply (runs_step _ _ _ _ _ _ E2), runs_ret.
  pose proof (only_socket_gone _ _ _ (ho_socks _ _ Ho1) Es2) as Es.
  by destruct (nothing_left w2 Hs2 (Hn2 (ho_uris _ _ Ho1)) Es).
Qed.
End hello_start.

(** ** A greeting *)
Section hello_demo.
#[local] Existing Instance demo_env.
#[local] Instance hello_inst2 : App := client_app hello_at.

Definition hello_state (es : list uv_event) : world :=
  match (hello_start 0;; events es) hello_world with Ok (_, w) => w | Fault _ => world0 end.

(** The connection is made, and the greeting is on its way. *)
Example hello_greets :
  let w := hello_state [EvConnect 2 0] in
  ∃ bufs, last (w_uv w) = Some (UvWrite 2 bufs) ∧ gather (w_msgs w) bufs = Some (encode (text "Hello")).
Proof. eexists. split; vm_compute; reflexivity. Qed.

Example hello_runs :
  runs (hello_main (events [EvConnect 2 0; EvWrite 2 0];; mret 0) 0) hello_world
    (λ r w, r = 0 ∧ w_socks w = ∅ ∧ w_buvs w = ∅ ∧ w_uris w = ∅).
Proof.
  apply hello_main_safe; [reflexivity..|]. intros s w E.
  assert (w = hello_state []) as -> by (vm_compute in E; injection E as _ <-; vm_compute; reflexivity).
  apply (may_cons _ _ _ _ _ (hello_state [EvConnect 2 0])); [legal_tac|vm_compute; reflexivity|].
  apply (may_cons _ _ _ _ _ (hello_state [EvConnect 2 0; EvWrite 2 0])); [legal_tac|vm_compute; reflexivity|].
  exact I.
Qed.
End hello_demo.
