(* ===== verification/TestRuns.v ===== *)
(** * The integration tests

    The scripts of test/ connect the programs of the repository with each
    other through netcat, and compare what comes out at the end with what is
    expected: test_server_tcp and test_server_pipe send records of genrec to
    the server, test_echo_server to the echo server; test_client_tcp and
    test_send_hello record what a client writes, and print it with disrec.
    The theorems say what comes out for all records and all files of lines,
    not only the ones of the scripts, with machines of either byte order at
    the two ends, and for every way the stream may be cut. *)

From S2P Require Import Prelude Endian CString Strerror Msg MsgReader Uri AppData World.
From S2P Require Import Watcher Demo Backend BackendUv Conn Frame Recv Send Tools Socket TestApp.
From S2P Require Import TestServer TestRecv TestClient TestEcho Safety SafeRun HelloSafe.
From Stdlib Require Import Ascii.

(** ** test/tools/sendrec: a record of genrec for each size *)

Definition sendrec (little : bool) (sizes : list cbuf) : list byte :=
  concat ((λ size, let '(Exited _ out _) :=
    genrec_main little true [str "genrec"; str "print-both"; size] in out) <$> sizes).

(** The arguments are numbers, of records the receiver has room for. *)
Definition are_sizes (sz : Z) (sizes : list cbuf) (ns : list Z) : Prop :=
  Forall2 (λ size n, ∃ k, strtol size = (n, S k) ∧ 0 ≤ n ≤ sz) sizes ns.

Lemma sendrec_encodes little sz sizes ns :
  sz < 2 ^ 32 → are_sizes sz sizes ns →
  sendrec little sizes = concat (encode <$> (lorem <$> ns)).
Proof.
  intros Hsz. induction 1 as [|size n sizes ns (k & E & Hn) _ IH]; [done|].
  assert (Hc : parse_cmd (str "print-both") = PRINT_BOTH) by reflexivity.
  unfold sendrec in *. rewrite !fmap_cons. cbn [concat]. rewrite IH.
  rewrite (genrec_main_ok little (str "genrec") _ size n k E) by (done || lia || by rewrite Hc).
  rewrite Hc, u32_small by lia. unfold encode. by rewrite lorem_length by lia.
Qed.

Lemma lorem_within sz sizes ns : are_sizes sz sizes ns → within sz (lorem <$> ns).
Proof.
  induction 1 as [|size n sizes ns (k & _ & Hn) _ IH]; [constructor|].
  rewrite fmap_cons. constructor; [|done]. rewrite lorem_length; lia.
Qed.

(** ** What the servers print of the records *)

Definition record_on_server (n : Z) : list byte :=
  text "[" ++ print_unsigned n ++ text "](" ++ lorem n ++ text ")
".
Definition record_on_echo (n : Z) : list byte := lorem n ++ text "
".

Lemma server_lines sz sizes ns :
  are_sizes sz sizes ns → server_line <$> (lorem <$> ns) = record_on_server <$> ns.
Proof.
  induction 1 as [|size n sizes ns (k & _ & Hn) _ IH]; [done|]. rewrite !fmap_cons, IH. f_equal.
  unfold server_line, record_on_server. by rewrite c_text_id, lorem_length by (apply lorem_no_nul || lia).
Qed.

Lemma echo_lines (ns : list Z) : echo_line <$> (lorem <$> ns) = record_on_echo <$> ns.
Proof.
  induction ns as [|n ns IH]; [done|]. rewrite !fmap_cons, IH. f_equal.
  unfold echo_line, record_on_echo. by rewrite c_text_id by apply lorem_no_nul.
Qed.

Section servers.
Context `{Env} (n : nat).
#[local] Instance runs_inst : App := server_app (S n).

(** C8. test_server_tcp and test_server_pipe: records of genrec, of any sizes
    the server's buffer has room for, sent one after the other by sendrec, on
    a machine of either byte order, make the server write one line for each,
    with its size and its text, and nothing else, however the stream is cut
    into reads that leave the size fields in one piece, as long as there is
    memory for the messages. *)
Theorem records_reach_server little a c bc sz w sizes ns cs :
  (∀ k, malloc_ok k = true) → 1 ≤ sz < 2 ^ 31 →
  rx_rel (H := any_receiver) sz bc c CB_client_on_recv w Idle → server_up a c w →
  are_sizes sz sizes ns → concat cs = sendrec little sizes →
  chunks_asked sz Idle cs → headers_whole Idle cs →
  ∃ w', uv_reads bc sz cs w = Ok (tt, w') ∧
    a_out (w_app w') = a_out (w_app w) ++ concat (record_on_server <$> ns).
Proof.
  intros Hmal Hsz Hrel Hup Hns Hcs Ha Hh.
  rewrite (sendrec_encodes little sz sizes ns ltac:(lia) Hns) in Hcs. rewrite <-(server_lines sz sizes ns Hns).
  eapply (server_prints_lines n a); try done. by eapply lorem_within.
Qed.
End servers.

(** test_echo_server. *)
Lemma records_reach_echo `{Env} little c bc sz w sizes ns cs :
  (∀ k, malloc_ok k = true) → 1 ≤ sz < 2 ^ 31 →
  rx_rel (H := any_receiver) sz bc c CB_echo_on_recv w Idle →
  are_sizes sz sizes ns → concat cs = sendrec little sizes →
  chunks_asked sz Idle cs → headers_whole Idle cs →
  ∃ w', uv_reads (H0 := echo_app) bc sz cs w = Ok (tt, w') ∧
    a_out (w_app w') = a_out (w_app w) ++ concat (record_on_echo <$> ns).
Proof.
  intros Hmal Hsz Hrel Hns Hcs Ha Hh.
  rewrite (sendrec_encodes little sz sizes ns ltac:(lia) Hns) in Hcs. rewrite <-echo_lines.
  eapply echo_prints_lines; try done. by eapply lorem_within.
Qed.

(** ** test_client_tcp *)
Section client.
Context `{Env} (m0 : nat).
#[local] Instance writes_inst : App := client_app m0.

(** The bytes of the last write, where libuv finds them when it is asked to
    write. *)
Definition last_write : M (list byte) :=
  c ← gets (λ w, last (w_uv w));
  h ← gets w_msgs;
  match c with
  | Some (UvWrite _ bufs) => demand OutOfBounds (gather h bufs)
  | _ => fail_with NullDeref
  end.

(** [n] rounds of the event loop of the client at [a] in which it has a line
    to send: the idle callback, and the report that the backend socket [b] has
    written; the bytes that go out. *)
Fixpoint client_writes (a b n : nat) : M (list byte) :=
  match n with
  | O => mret []
  | S n =>
      client_idle_cb a;;
      bs ← last_write;
      write_wrap b 0;;
      rest ← client_writes a b n;
      mret (bs ++ rest)
  end.

Lemma client_writes_lines a b ls w w' :
  sends_lines m0 a b ls w w' →
  client_writes a b (length ls) w = Ok (concat (encode <$> ls), w').
Proof.
  induction 1 as [w|l ls w w1 w2 (bufs & w3 & Ei & Eu & Eg & _ & Ew & _) _ IH]; [done|].
  cbn [length client_writes]. rewrite (st_bind_ok _ _ _ _ _ Ei).
  assert (El : last_write w3 = Ok (encode l, w3)).
  { unfold last_write. rewrite (st_bind_ok _ _ _ _ _ (gets_ok _ w3)), (st_bind_ok _ _ _ _ _ (gets_ok _ w3)).
    by rewrite Eu, last_snoc, Eg. }
  rewrite (st_bind_ok _ _ _ _ _ El), (st_bind_ok _ _ _ _ _ Ew), (st_bind_ok _ _ _ _ _ IH). done.
Qed.

Lemma lines_fit ls : Forall is_line ls → Forall (λ p, (length p ≤ MAXSIZE)%nat) ls.
Proof.
  intros Hls. eapply Forall_impl; [exact Hls|]. intros l (p & _ & _ & Hl).
  unfold MAXSIZE, MSG_MAX_SIZE in *. lia.
Qed.

(** C17. test_client_tcp: a connected client is given a file of lines; what it
    writes in as many rounds as there are lines, recorded in a file, is for
    disrec, on a machine of either byte order, exactly these lines, each with
    its length, and in the next round the client makes an end. *)
Theorem client_file_recorded little a s b m ls prog path w :
  sending a s b m true false (concat ls) w → Forall is_line ls →
  (∀ past bufs, uv_result past (UvWrite b bufs) = 0) →
  (∀ past, uv_result past (UvAsyncSend (HAsync a)) = 0) →
  ∃ bytes w1 w2, client_writes a b (length ls) w = Ok (bytes, w1) ∧
    client_idle_cb a w1 = Ok (tt, w2) ∧ w_uv w2 = w_uv w1 ++ [UvAsyncSend (HAsync a)] ∧
    ∀ file, file path = Some bytes →
      disrec_main little [prog; path] file = Some (Ok (Exited 0 (concat (record_text <$> ls)) "")).
Proof.
  intros Hw Hls Hr Ha. destruct (sends_all m0 a s b m ls w Hw Hls Hr) as (w1 & H1 & Hs1).
  destruct (client_idle_ends m0 a s b m w1 Hs1 Ha) as (w2 & E2 & Euv & Hs2).
  exists (concat (encode <$> ls)), w1, w2. split; [by apply client_writes_lines|].
  split; [done|]. split; [done|]. intros file Hf.
  destruct (disrec_main_messages little prog path file ls [] ltac:(by rewrite app_nil_r) (lines_fit ls Hls))
    as (fuel & msg & _ & ->). done.
Qed.

(** The same bytes on the server's side. *)
Lemma client_reaches_server (E2 : Env) n a s b m ls w a2 c bc sz w2 :
  sending a s b m true false (concat ls) w → Forall is_line ls →
  (∀ past bufs, uv_result (Env := H) past (UvWrite b bufs) = 0) →
  (∀ k, malloc_ok (Env := E2) k = true) → Z.of_nat MSG_MAX_SIZE ≤ sz < 2 ^ 31 →
  rx_rel (H := any_receiver) sz bc c CB_client_on_recv w2 Idle → server_up a2 c w2 →
  ∃ bytes w1, client_writes a b (length ls) w = Ok (bytes, w1) ∧
    ∀ cs, concat cs = bytes → chunks_asked sz Idle cs → headers_whole Idle cs →
      ∃ w3, uv_reads (H := E2) (H0 := server_app (S n)) bc sz cs w2 = Ok (tt, w3) ∧
        a_out (w_app w3) = a_out (w_app w2) ++ concat (server_line <$> ls).
Proof.
  intros Hw Hls Hr Hmal Hsz Hrel Hup. destruct (sends_all m0 a s b m ls w Hw Hls Hr) as (w1 & H1 & _).
  eexists _, w1. split; [by apply client_writes_lines|]. intros cs Hcs Ha Hh.
  unfold MSG_MAX_SIZE in Hsz. eapply (server_prints_lines n a2); try done; [lia|].
  eapply Forall_impl; [exact (lines_fit ls Hls)|]. intros p. unfold MAXSIZE. cbn. lia.
Qed.
End client.

(** ** test_send_hello *)

Lemma hello_holds `{Env} : msg_holds hello (text "Hello").
Proof.
  split; [done|]. split; [|reflexivity]. unfold hello, SC_MSG_INIT. by rewrite ctb_htonl_spec.
Qed.

(** Told of its connection, the greeter writes what disrec prints as
    [[5] (Hello)]. *)
Lemma hello_recorded `{Env} `{App} little s k b e prog path w :
  safe w → hello_ok s w → w_socks w !! s = Some k → s_backend k = Some (Some b) →
  ∃ bytes w', (hello_on_connect hello_at s e;; last_write) w = Ok (bytes, w') ∧
    ∀ file, file path = Some bytes →
      disrec_main little [prog; path] file = Some (Ok (Exited 0 (text "[5] (Hello)
") "")).
Proof.
  intros Hs Ho Hk Eb. destruct (backend_owner w s k b Hs Hk Eb) as (v & Hb & _).
  pose proof (buv_send_holds b v hello_at hello (text "Hello") w Hb (ho_msg _ _ Ho) hello_holds) as E.
  cbv zeta in E. set (w1 := add_uv _ _) in E.
  assert (Es : sc_socket_send buv_funcs s (Some hello_at) w = buv_send b (Some hello_at) w).
  { unfold sc_socket_send. rewrite (st_bind_ok _ _ _ _ _ (the_backend_ok _ w (sf_backend w Hs))).
    by rewrite (st_bind_ok _ _ _ _ _ (sock_backend_obj_ok s k b w Hk Eb)). }
  rewrite <-Es in E. exists (encode (text "Hello")), w1. split.
  - unfold hello_on_connect. rewrite (st_bind_ok _ _ _ _ _ (st_bind_ok _ _ _ _ _ E)).
    unfold last_write. rewrite (st_bind_ok _ _ _ _ _ (gets_ok _ w1)), (st_bind_ok _ _ _ _ _ (gets_ok _ w1)).
    unfold w1. cbn [w_uv add_uv]. rewrite last_snoc.
    erewrite gather_send; [done|exact (ho_msg _ _ Ho)|exact hello_holds].
  - intros file Hf.
    destruct (disrec_main_messages little prog path file [text "Hello"] []) as (fuel & msg & _ & ->);
      [by rewrite Hf|decide_by_run|]. reflexivity.
Qed.

(** ** The records and the file of the scripts *)
Section runs_demo.
#[local] Existing Instance demo_env.

Definition script_sizes : list cbuf := [str "0"; str "3"; str "22"].

Lemma script_sizes_ok : are_sizes 65536 script_sizes [0; 3; 22].
Proof. repeat constructor; eexists; (split; [vm_compute; reflexivity|lia]). Qed.

(** The last test of test_server_tcp, the last record in two reads. *)
Lemma records_reach_server_witness :
  ∃ w', uv_reads (H0 := server_app 2) 5 65536
      [be_bytes 0; be_bytes 3; text "Lor"; be_bytes 22; text "Lorem ipsum "; text "dolor sit "]
      accepted_world = Ok (tt, w') ∧
    a_out (w_app w') = text "[0]()
[3](Lor)
[22](Lorem ipsum dolor sit )
".
Proof.
  apply (records_reach_server 1 true 1 4 5 65536 accepted_world script_sizes [0; 3; 22]);
    [by intros|lia|exact accepted_receiving|exact accepted_up|exact script_sizes_ok
    |vm_compute; reflexivity|decide_by_run|decide_by_run].
Defined.

(** test_echo_server. *)
Example echo_script :
  ∃ w', uv_reads (H0 := echo_app) 5 65536
      [be_bytes 3; text "Lor"; be_bytes 21; text "Lorem ipsum dolor sit"; be_bytes 4; text "Lore"]
      echo_world = Ok (tt, w') ∧
    a_out (w_app w') = text "Lor
Lorem ipsum dolor sit
Lore
".
Proof.
  apply (records_reach_echo true 4 5 65536 echo_world [str "3"; str "21"; str "4"] [3; 21; 4]);
    [by intros|lia|exact echo_receiving|repeat constructor; eexists; (split; [vm_compute; reflexivity|lia])
    |vm_compute; reflexivity|decide_by_run|decide_by_run].
Qed.

(** The file of test_client_tcp, and what its disrec prints. *)
Definition script_lines : list (list byte) :=
  [text "First message" ++ [newline]; text "Second message" ++ [newline]; text "Third message" ++ [newline]].

Lemma client_file_recorded_witness :
  ∃ bytes w1 w2,
    client_writes 0 1 4 3 (client_world (concat script_lines)) = Ok (bytes, w1) ∧
    client_idle_cb (H0 := client_app 0) 1 w1 = Ok (tt, w2) ∧ w_uv w2 = w_uv w1 ++ [UvAsyncSend (HAsync 1)] ∧
    ∀ file, file (str "received.msgs") = Some bytes →
      disrec_main true [str "disrec"; str "received.msgs"] file = Some (Ok (Exited 0 (text "[14] (First message
)
[15] (Second message
)
[14] (Third message
)
") "")).
Proof.
  apply (client_file_recorded 0 true 1 3 4 2 script_lines); [apply client_world_sending| |by intros|by intros].
  repeat constructor; eexists; (split; [reflexivity|]);
    (split; [by repeat constructor|unfold MSG_MAX_SIZE; cbn; lia]).
Defined.
End runs_demo.
